(* ===== verification/_CoqProject ===== *)
-Q . S2P
Prelude.v
DynMap.v
Money.v
Payees.v
Signer.v
KeyCache.v
Monitor.v
SellerPicker.v
DownloadState.v
FileCost.v
Download.v
Negotiator.v
DownloadInv.v
Sessions.v
TimeSets.v
Events.v
Http.v
Btp.v
Client.v
Profiles.v
Logins.v
Serve.v
NodeUsers.v
PerUser.v
Sql.v
PurchaseDb.v
PurchaseDbFacts.v
PurchaseSchema.v
Lifecycle.v
LifecycleFacts.v
LibraryDb.v
MediaLibrary.v
CatalogDb.v
CustomCatalog.v
CatalogFacts.v
CatalogService.v
ListingUpdater.v
ListingFacts.v
Sell.v
PieceDownload.v
SellFacts.v
Samples.v
DataFormat.v
Mpeg.v
MpegFacts.v
Id3.v
Id3Facts.v
Avi.v
