(* ===== verification/Prelude.v ===== *)
(** Verification of the Bitmunk peer-to-peer sales software.

    Bitmunk nodes buy and sell digital media.  A buyer's node acquires a license,
    negotiates contract sections with sellers of the files of the media, buys the
    pieces of each file from any of them, and pays every payee of license, files
    and pieces.  All sources are under [src/cpp]; paths below are relative to it.

    ** Parts and files

    - [Prelude]: wrap-around integers ([u32], [u64], [i32], [i64]), the result of
      fallible code ([outcome], with [let?]), floating-point rates as an ordered
      type ([Scalar]), lemmas shared by the other files.
    - [DynMap]: maps of the [DynamicObject] type, by string keys in increasing
      order, which is the order its iterator visits them in.
    - [Money]: the interface to the arbitrary-precision decimals of the Monarch
      library ([BigDecimal], [BigDecimalLaws]): values are rationals, amounts are
      truncated to seven digits.  [Exact] is an instance that computes.
    - [Payees] ([common/Tools.cpp]: [resolvePayeeAmounts], [getTotalPrice]): who is
      paid how much.
    - [Signer] ([common/Signer.cpp]): the strings that are signed for media,
      contracts, contract sections, file pieces and deposits; the functions that
      sign and verify them; import and export of keys ([common/Tools.cpp]).  The
      signature scheme is an interface ([SignatureScheme], [SignatureLaws]) with
      the instance [Sealed].
    - [KeyCache] ([common/PublicKeyCache.cpp]): a bounded cache of public keys in
      front of a slow source.
    - [Monitor] ([common/SyncStateMonitor.cpp]): named states that are added, set,
      adjusted and removed in groups.
    - [SellerPicker] ([purchase/SellerPicker.cpp]): the random choice among the
      cheapest or the fastest sellers.
    - [DownloadState] ([purchase/TypeDefinitions.h]): the state of a purchase that
      the fibers of the purchase module share.
    - [FileCost] ([purchase/FileCostCalculator.cpp]): what has been committed, what
      is left in the bank, and the budget of every file.
    - [Download] ([purchase/DownloadManager.cpp]): the handlers of the fiber that
      assigns pieces to sellers and keeps track of them.
    - [Negotiator] ([purchase/Negotiator.cpp]): the fiber that finds another
      seller and agrees on a contract section with it.
    - [DownloadInv]: the message loop of the manager, its piece downloaders and the
      negotiator as one transition system ([step], [reachable]), and
      [SellerPoolUpdater::initFileProgress], which creates its first state.
    - [Sessions] ([webui/SessionManager.cpp], [webui/SessionDatabase.cpp]): sessions
      of the web interface and the addresses users may log in from.
    - [TimeSets] ([data/StreamTimeParser.cpp]): the intervals of a stream that a
      sample is cut from.
    - [Events] ([system/EventService.cpp]): observers of the node's events, their
      queues and the requests that poll them.
    - [Http]: the C string functions on header fields, and interfaces to the HTTP
      headers ([HttpHeader], instance [PlainHeader]) and compressors
      ([Compression], instance [StoredOnly]) of the Monarch library.
    - [Btp] ([protocol/BtpMessage.cpp], [protocol/BtpTrailer.cpp]): messages with
      signed headers and content.  Readers and writers of objects are an interface
      ([ObjectCodec], instance [PlainText]).
    - [Client] ([protocol/BtpClient.cpp], [node/Messenger.cpp]): exchanges of a
      request and its response.
    - [Profiles] ([common/Profile.cpp], and [loadProfile] and [generateProfile] of
      [node/LoginManager.cpp]): profiles on disk.  Keys, certificates and JSON are
      an interface ([KeyFactory], instance [PlainKeys]).
    - [Logins] ([node/LoginManager.cpp]): the users that are logged in, as a
      transition system of the threads that log in, log out and stop the node
      ([lstep]); login data lives in a store and is freed.
    - [Serve] ([protocol/BtpAction.cpp], [protocol/BtpActionHandler.cpp],
      [protocol/BtpService.cpp], [node/BtpActionDelegate.h],
      [node/RestResourceHandler.cpp]): a request from the service to the function
      of its handler and back.
    - [NodeUsers] ([node/Node.cpp]): requests over the login manager, and the
      fibers of users that a logout waits for.
    - [PerUser] ([peruserdb/DatabaseHub.cpp],
      [eventreactor/DefaultObserverContainer.cpp],
      [purchase/DownloadThrottlerMap.cpp]): what modules keep for each user until
      the logout.
    - [Sql]: statements and transactions on tables, which are lists of rows; any
      step can fail.  JSON columns are an interface ([Json], [JsonLaws]) with the
      instance [BitText].
    - [PurchaseDb] ([purchase/PurchaseDatabase.cpp]): the statements that create,
      change, load and delete the download states of a user; [PurchaseDbFacts] has
      their theorems.
    - [PurchaseSchema] ([initializePerUserDatabase] of the same file): the creation
      of the tables and their migration from older versions.
    - [Lifecycle] ([purchase/ContractService.cpp],
      [purchase/DownloadStateInitializer.cpp], [purchase/LicenseAcquirer.cpp],
      [purchase/Purchaser.cpp], [purchase/FileAssembler.cpp]): the requests of the
      purchase service and the fibers they start, over that database;
      [LifecycleFacts] has their theorems.
    - [LibraryDb] ([medialibrary/MediaLibraryDatabase.cpp]): the tables of files and
      media and their statements, with the triggers the catalog puts on them;
      [MediaLibrary] ([medialibrary/MediaLibrary.cpp], [MediaLibraryService.cpp]):
      its operations, the scan of a file and the requests.
    - [CatalogDb] ([customcatalog/CatalogDatabase.cpp]): the statements on wares,
      payee schemes, problems and settings of a seller; [CustomCatalog]
      ([customcatalog/CustomCatalog.cpp]): the operations made of them, with their
      transactions and events; [CatalogService] ([customcatalog/CatalogService.cpp]):
      the requests; [CatalogFacts] has the theorems.
    - [ListingUpdater] ([customcatalog/ListingUpdater.cpp]): the fiber that sends the
      changes of a catalog to the servers, with the operations it starts;
      [ListingFacts] has its theorems, over any schedule of messages.
    - [Sell] ([sell/ContractService.cpp], [sell/UploadThrottlerMap.cpp],
      [negotiate/INegotiateModule.cpp]): the requests with which a seller negotiates a
      contract section and sends pieces of files; [PieceDownload]
      ([purchase/PieceDownloader.cpp]): the buyer's side of such a piece; [SellFacts]
      has the theorems on both.
    - [Samples] ([sell/SampleService.cpp]): samples of media, play lists, and how many
      are sent at a time.
    - [DataFormat] ([data/FormatDetectorInputStream.cpp]): the interfaces to the
      inspectors and byte buffers of Monarch, and which inspectors a stream has;
      [Mpeg] ([data/MpegAudioFrameParser.cpp], [MpegAudioDetector.cpp],
      [MpegAudioTimeParser.cpp], [MpegAudioFrameInputStream.cpp]): MPEG audio frames;
      [MpegFacts] has their theorems.
    - [Id3] ([data/Id3v2Tag.cpp], [Id3v2TagFrameIO.cpp], [Id3v2TagReader.cpp],
      [Id3v2TagWriter.cpp]): the tags of audio files, with the contract of a purchase;
      [Id3Facts] has their theorems.  [Avi] ([data/RiffDetector.cpp],
      [data/AviDetector.cpp]): the detector of AVI files.

    Records have the members the code reads; a member that is missing in a
    [DynamicObject] reads as the empty string, zero or false, and is created on
    access, as in the code.  Handlers are functions from the state to the result,
    the new state and the effects on the rest of the node; errors are values.
    What the code asks of the rest of the node (configuration, clock, random
    numbers, database, network) is an argument.

    ** What is shown

    - Payees: the total is the sum of the payees' amounts, every amount is its
      percentage of its base or its minimum, resolving twice changes nothing, and
      total prices add up.
    - Signatures: what is signed verifies, and nothing else does, given a scheme
      with which only the key's owner can sign; the functions are total, with
      their error codes; where the signed strings do not determine the document,
      the examples say so.
    - Cache and monitor: the cache holds the most recently added keys and never
      more than its capacity; group operations of the monitor are transactions.
    - Prices: the cheapest sellers are the ones picked from; the bank is the
      maximum price less everything committed; budgets are shares of the bank; the
      unsigned arithmetic on file sizes does not wrap.
    - Download: in all reachable states every piece is on exactly one of the
      unassigned, assigned and downloaded lists; completion is reported only with
      all pieces downloaded; a piece is only assigned under a section negotiated for
      its file with a seller within the file's budget; if every section names the
      seller that was asked, no seller has two connections.
    - Negotiation: it always ends, with an agreed price within the budget or after
      every possible seller has been asked, and its effects are steps of the
      system that add only sections within budget of sellers not asked before.
    - Sessions: a request is accepted exactly for a session that is marked valid, from
      its own address, whose user is logged in; there is at most one session per user and
      address; sessions are only created from permitted addresses.
    - Time sets: which times are valid after an interval is added or removed.
    - Events: over any interleaving an observer gets its events in order; a request
      for events returns, except with an interval for which it never does.
    - Messages: what is sent securely is found secure and read back; a function
      that requires authentication is called only for a signed request of a known
      agent over a secure connection, served by a user that is logged in.
    - Logins: the maps never point to freed data, nothing else stays live, the
      logout list has the user that is taken off it, and stopping the node leaves
      nothing behind; the event a logout waits for comes with the user's last
      fiber; the profile used is the one on disk and its keys have been tested.
    - Data of users: ids of connection groups are not reused and a logout removes
      what is kept for the user and nothing else.
    - Purchase database: an operation that fails leaves the disk as it was, but for
      inserting the seller pools, which is no transaction; at
      most one service or fiber processes a download; the pieces one run of a
      download has written are loaded into the lists of their last status; an older
      database is migrated as a whole or not at all, whether the tables left over are
      dropped at once, as their statements say, or not, as a comment does.
    - Life of a purchase: license, data and files come in this order whatever fails;
      all downloaded data is paid for if the servers take every payment; the search
      for a free file name ends.
    - Catalog: through any history of requests and failures the ids of files and payee
      schemes are unique and every ware that is offered has its file and a payee scheme
      or the id 0 of a failed allocation; a new payee scheme gets the lowest unused id;
      an update changes a ware only when its payee scheme is not changed or part of an
      update, and removes a payee scheme only when no ware has it.
    - Listings: with servers that accept everything and no removal that has failed,
      updates are sent until nothing is left to send and both sides have the same
      update id.
    - Selling: a negotiated section has the file and the payees of the catalog and
      verifies, and its key is accepted; a piece that is sent is received with its
      data, fields and signatures.  At most thirty samples are sent at a time.
    - MPEG audio: the search finds the first place that looks like a frame; the counts
      of the detector are those of frames it has read; a sample has exactly the frames
      of its time.
    - Tags: the contract that is written to a file is read back from it, if no frame
      before it is longer; stripping the tag leaves the audio data.  AVI: only a file with its form and a movie is
      recognized.
    - Some theorems are about what the code does and should not: the fast
      preference, the unused update flag, a piece stranded by a failed path
      expansion, unsigned adjustments of signed states, an expired session that
      is accepted once more, a lock that is not released, a time set that grows
      when times are removed, unsigned content of an accepted response, a forwarded
      host that is not signed, a second login with its comparison inverted, a piece
      that is loaded twice after a restart, a refused payment that is reported as
      made, an assembly of files that cannot be taken up again, a fiber that never
      starts an operation again, an update that is refused as not current and counts
      as done, a removal that is sent for ever and one that a second heartbeat drops, a
      section that the two sides sign with different content, a key for pieces that is
      any signature of the seller, a failed piece that counts as received, a piece that
      is answered twice, a cache of samples that loses its capacity, a
      stream of frames that is read for ever, a padded tag that is not recognized, a
      contract behind a longer frame that is not read, a connection that stays counted
      when a section names another seller, a video file that crashes the detector and one that is read beyond its data.

    ** Bounds and fuel

    Six loops have fuel.  A retry over the sellers of a pool
    ([Negotiator.sellerLoop]) removes a candidate, so that one more round than the
    pool has sellers is enough; [fileLoop_asked] proves it.  The search for a handler
    ([Serve.findFrom]) shortens the resource in every round; [findHandler_nearest]
    proves that it ends.  The wait for events ([Events.pollLoop]) need not end;
    [getEvents_returns] and [getEvents_spins] say when it does.  The search for a
    free file name ([Lifecycle.next_free]) tries one name more than there are files;
    [getUniqueFilename_free] proves that one of them is free.  The search for an id of
    a payee scheme ([CatalogDb.allocate]) tries again when the id it found is taken;
    [allocation_ends] proves that 258 rounds are enough.  Reading a
    stream of frames ([Mpeg.next_frame]) takes one round for a frame ([stream_frames]) and
    can go on for ever ([read_spins]).  All other recursion is
    structural.

    ** What is not modelled

    Fiber scheduling inside a handler (the state a handler works on is only
    changed by it while it runs), the statistics of progress events, network
    transfer, the contents of files other than audio frames and tags, and the web server.  The lock of the login
    manager is taken to be reentrant, which its nested use requires, and one thread
    stops the node.  A statement is taken to have the effect of its SQL text or
    none, and fetching a row not to fail.  The file processors that
    encrypt pieces, the services and pages of the web interface other than its sessions,
    the event reactors, the services for configuration and directives, and the assembly
    of the node from modules are not covered. *)
From stdpp Require Export base list strings numbers sets sorting.
From Stdlib Require Export ZArith Lia.

Local Open Scope Z_scope.

(** * Fixed-width integers

    The C++ code keeps counters, sizes, times and identifiers in [uint32_t],
    [uint64_t], [int] and [int64_t].  They are modelled in [Z]; every operation
    that can leave the width is followed by the wrap of its type. *)

Definition u32 (z : Z) : Z := z mod 2 ^ 32.
Definition u64 (z : Z) : Z := z mod 2 ^ 64.
Definition i32 (z : Z) : Z := (z + 2 ^ 31) mod 2 ^ 32 - 2 ^ 31.
Definition i64 (z : Z) : Z := (z + 2 ^ 63) mod 2 ^ 64 - 2 ^ 63.

Lemma u32_small z : 0 <= z < 2 ^ 32 -> u32 z = z.
Proof. apply Z.mod_small. Qed.

Lemma u64_small z : 0 <= z < 2 ^ 64 -> u64 z = z.
Proof. apply Z.mod_small. Qed.

Lemma u32_range z : 0 <= u32 z < 2 ^ 32.
Proof. apply Z.mod_pos_bound; lia. Qed.

Lemma u64_range z : 0 <= u64 z < 2 ^ 64.
Proof. apply Z.mod_pos_bound; lia. Qed.

Lemma i32_small z : - 2 ^ 31 <= z < 2 ^ 31 -> i32 z = z.
Proof. intros H. unfold i32. rewrite Z.mod_small; lia. Qed.

Lemma i64_small z : - 2 ^ 63 <= z < 2 ^ 63 -> i64 z = z.
Proof. intros H. unfold i64. rewrite Z.mod_small; lia. Qed.

Lemma i64_range z : - 2 ^ 63 <= i64 z < 2 ^ 63.
Proof. unfold i64. pose proof (Z.mod_pos_bound (z + 2 ^ 63) (2 ^ 64)). lia. Qed.

Lemma u64_add_u64_l a b : u64 (u64 a + b) = u64 (a + b).
Proof. unfold u64. apply Zplus_mod_idemp_l. Qed.

Lemma u64_sub_u64_l a b : u64 (u64 a - b) = u64 (a - b).
Proof. unfold u64. apply Zminus_mod_idemp_l. Qed.

(** [int64_t] and [uint64_t] addition agree modulo 2^64: reading a signed
    result as unsigned gives the wrapped sum. *)
Lemma u64_i64 z : u64 (i64 z) = u64 z.
Proof.
  unfold u64, i64. rewrite Zminus_mod_idemp_l. f_equal. lia.
Qed.

Lemma i64_u64 z : i64 (u64 z) = i64 z.
Proof. unfold u64, i64. by rewrite Zplus_mod_idemp_l. Qed.

(** * Outcomes

    Methods that return [bool] and set the thread's [Exception] on failure are
    modelled by [outcome]: [Ok] with the method's result or [Raise] with the
    exception's type string. *)

Inductive outcome (A : Type) : Type :=
| Ok (a : A)
| Raise (type : string).
Global Arguments Ok {A} _.
Global Arguments Raise {A} _%_string.

Definition succeeded {A} (o : outcome A) : bool :=
  match o with Ok _ => true | Raise _ => false end.

Definition outcome_bind {A B} (o : outcome A) (k : A -> outcome B) : outcome B :=
  match o with Ok a => k a | Raise t => Raise t end.

Declare Scope bitmunk_scope.
Delimit Scope bitmunk_scope with bitmunk.
Notation "'let?' x ':=' c 'in' k" := (outcome_bind c (fun x => k))
  (at level 10, x pattern, c at level 100, k at level 200) : bitmunk_scope.

(** * Comparison-only scalars

    [double] values that the code only compares (download rates, stream times)
    are modelled by a total order with a distinguished zero; the C++ type
    restricted to its non-NaN values is one. *)

Class Scalar (T : Type) := {
  sc_zero : T;
  sc_leb : T -> T -> bool;
  sc_leb_total : forall a b, sc_leb a b = true \/ sc_leb b a = true;
  sc_leb_trans : forall a b c, sc_leb a b = true -> sc_leb b c = true -> sc_leb a c = true;
  sc_leb_antisym : forall a b, sc_leb a b = true -> sc_leb b a = true -> a = b
}.

Definition sc_ltb {T} `{Scalar T} (a b : T) : bool := negb (sc_leb b a).
Definition sc_eqb {T} `{Scalar T} (a b : T) : bool := sc_leb a b && sc_leb b a.

#[global] Program Instance Z_scalar : Scalar Z := {| sc_zero := 0; sc_leb := Z.leb |}.
Solve Obligations with (simpl; intros; lia).

Section Scalar.
Context {T : Type} `{Scalar T}.
Implicit Types a b c : T.

Lemma sc_leb_refl a : sc_leb a a = true.
Proof. destruct (sc_leb_total a a); done. Qed.

Lemma sc_eqb_eq a b : sc_eqb a b = true <-> a = b.
Proof.
  unfold sc_eqb. rewrite andb_true_iff. split.
  - intros [? ?]. by apply sc_leb_antisym.
  - intros ->. by rewrite sc_leb_refl.
Qed.

Lemma sc_ltb_lt a b : sc_ltb a b = true <-> sc_leb b a = false.
Proof. unfold sc_ltb. by rewrite negb_true_iff. Qed.

Lemma sc_leb_false a b : sc_leb a b = false -> sc_leb b a = true.
Proof. destruct (sc_leb_total a b); congruence. Qed.

Lemma sc_ltb_leb a b : sc_ltb a b = true -> sc_leb a b = true.
Proof. rewrite sc_ltb_lt. apply sc_leb_false. Qed.

Lemma sc_lt_le_trans a b c : sc_ltb a b = true -> sc_leb b c = true -> sc_ltb a c = true.
Proof.
  rewrite !sc_ltb_lt. intros H1 H2. destruct (sc_leb c a) eqn:E; [|done].
  assert (sc_leb b a = true) by (by eapply sc_leb_trans). congruence.
Qed.

Lemma sc_le_lt_trans a b c : sc_leb a b = true -> sc_ltb b c = true -> sc_ltb a c = true.
Proof.
  rewrite !sc_ltb_lt. intros H1 H2. destruct (sc_leb c a) eqn:E; [|done].
  assert (sc_leb c b = true) by (by eapply sc_leb_trans). congruence.
Qed.

Lemma sc_ltb_irrefl a : sc_ltb a a = false.
Proof. unfold sc_ltb. by rewrite sc_leb_refl. Qed.
(** Finitely many scalars are ordered like integers, which makes [lia] decide
    statements about their order. *)
Definition sc_rank (l : list T) (x : T) : Z :=
  Z.of_nat (length (filter (fun y => sc_ltb y x = true) l)).

Lemma sc_rank_le l x y : sc_leb x y = true -> sc_rank l x <= sc_rank l y.
Proof.
  intros Hxy. unfold sc_rank. apply inj_le. induction l as [|z l IH]; [done|].
  rewrite !filter_cons. case_decide as Hx; case_decide as Hy; simpl; try lia.
  destruct Hy. by eapply sc_lt_le_trans.
Qed.

Lemma sc_rank_lt l x y : x ∈ l -> sc_ltb x y = true -> sc_rank l x < sc_rank l y.
Proof.
  intros Hin Hxy. unfold sc_rank. apply inj_lt. induction l as [|z l IH]; [by apply elem_of_nil in Hin|].
  rewrite !filter_cons. pose proof (sc_rank_le l x y (sc_ltb_leb _ _ Hxy)) as Hle. unfold sc_rank in Hle.
  apply elem_of_cons in Hin as [->|Hin].
  - rewrite decide_False by (by rewrite sc_ltb_irrefl). rewrite decide_True by done. simpl. lia.
  - specialize (IH Hin). case_decide as Hx; case_decide as Hy; simpl; try lia.
    destruct Hy. eapply sc_lt_le_trans; [done|]. by apply sc_ltb_leb.
Qed.

Lemma sc_rank_spec l x y : x ∈ l -> y ∈ l -> sc_leb x y = (sc_rank l x <=? sc_rank l y).
Proof.
  intros Hx Hy. destruct (sc_leb x y) eqn:E; symmetry.
  - by apply Z.leb_le, sc_rank_le.
  - apply Z.leb_gt, sc_rank_lt; [done|]. by apply sc_ltb_lt.
Qed.

Lemma sc_rank_inj l x y : x ∈ l -> y ∈ l -> sc_rank l x = sc_rank l y -> x = y.
Proof.
  intros Hx Hy E. apply sc_leb_antisym; rewrite (sc_rank_spec l) by done; apply Z.leb_le; lia.
Qed.
End Scalar.

(** * Strings *)

Lemma string_app_nil_r (s : string) : s +:+ "" = s.
Proof. induction s as [|a s IH]; [done|]. change (String a (s +:+ "") = String a s). by rewrite IH. Qed.

Lemma string_app_assoc (a b c : string) : (a +:+ b) +:+ c = a +:+ (b +:+ c).
Proof.
  induction a as [|x a IH]; [done|].
  change (String x ((a +:+ b) +:+ c) = String x (a +:+ (b +:+ c))). by rewrite IH.
Qed.

Lemma string_length_app (s t : string) :
  String.length (s +:+ t) = (String.length s + String.length t)%nat.
Proof.
  induction s as [|a s IH]; [done|].
  change (S (String.length (s +:+ t)) = S (String.length s + String.length t)). by rewrite IH.
Qed.

(** * Automation *)

Create HintDb bitmunk discriminated.
Create Rewrite HintDb bitmunk.
#[export] Hint Resolve sc_leb_refl sc_ltb_leb sc_leb_false : bitmunk.
#[export] Hint Resolve u32_range u64_range i64_range : bitmunk.
#[export] Hint Rewrite u64_add_u64_l u64_sub_u64_l u64_i64 i64_u64 : bitmunk.

(** Case analysis on the first step of a sequence that may fail. *)
Ltac bind_case E :=
  match goal with
  | |- context [outcome_bind ?c _] => destruct c eqn:E; cbn [outcome_bind]; [|try done]
  end.

(** Case analysis on the innermost test of an [if] or a [match]. *)
Ltac case_test :=
  match goal with
  | |- context [if ?b then _ else _] => destruct b eqn:?
  | |- context [match ?x with _ => _ end] => destruct x eqn:?
  end.

Ltac case_test_in H :=
  match type of H with
  | context [if ?b then _ else _] => destruct b eqn:?
  | context [match ?x with _ => _ end] => destruct x eqn:?
  end.

(** * Lists *)

Section Lists.
Context {A : Type}.

(** Sum of an integer measure over a list. *)
Definition sum_by (f : A -> Z) (l : list A) : Z := foldr (fun a s => f a + s) 0 l.

Lemma sum_by_app f (l1 l2 : list A) : sum_by f (l1 ++ l2) = sum_by f l1 + sum_by f l2.
Proof. induction l1; simpl; lia. Qed.

Lemma sum_by_nonneg f (l : list A) : (forall a, a ∈ l -> 0 <= f a) -> 0 <= sum_by f l.
Proof.
  induction l as [|a l IH]; simpl; intros H; [lia|].
  pose proof (H a ltac:(left)). specialize (IH (fun b Hb => H b ltac:(by right))). lia.
Qed.

Lemma sum_by_perm f (l1 l2 : list A) : l1 ≡ₚ l2 -> sum_by f l1 = sum_by f l2.
Proof. induction 1; simpl; lia. Qed.

Lemma sum_by_le f c (l : list A) :
  (forall a, a ∈ l -> f a <= c) -> sum_by f l <= c * Z.of_nat (length l).
Proof.
  induction l as [|a l IH]; cbn [sum_by foldr length]; intros H; [lia|].
  pose proof (H a ltac:(left)). specialize (IH (fun b Hb => H b ltac:(by right))).
  unfold sum_by in IH. lia.
Qed.

(** [remove_first p l] drops the first element satisfying [p]. *)
Fixpoint remove_first (p : A -> bool) (l : list A) : list A :=
  match l with
  | [] => []
  | a :: l' => if p a then l' else a :: remove_first p l'
  end.

Lemma remove_first_perm p (l : list A) :
  existsb p l = true ->
  exists a, p a = true /\ a ∈ l /\ l ≡ₚ a :: remove_first p l.
Proof.
  induction l as [|a l IH]; simpl; [done|].
  destruct (p a) eqn:E; simpl.
  - intros _. exists a. split_and!; [done|left|done].
  - intros H. destruct (IH H) as (b & ? & ? & Hp). exists b.
    split_and!; [done|by right|]. rewrite Hp at 1. apply Permutation_swap.
Qed.

Lemma remove_first_none p (l : list A) :
  existsb p l = false -> remove_first p l = l.
Proof.
  induction l as [|a l IH]; simpl; [done|].
  destruct (p a); simpl; [done|]. intros H. by rewrite IH.
Qed.
End Lists.

Lemma filter_all {A} (P : A -> Prop) `{!forall x, Decision (P x)} (l : list A) :
  (forall x, x ∈ l -> P x) -> filter P l = l.
Proof.
  induction l as [|a l IH]; intros Hall; [done|].
  rewrite filter_cons, decide_True by (apply Hall; left). rewrite IH; [done|].
  intros x Hx. apply Hall. by right.
Qed.

Lemma list_elem_of_concat {A} (x : A) (ls : list (list A)) :
  x ∈ concat ls <-> exists l, x ∈ l /\ l ∈ ls.
Proof.
  rewrite list_elem_of_In, in_concat. setoid_rewrite list_elem_of_In. naive_solver.
Qed.
