(* ===== verification/DynMap.v ===== *)
(** String-keyed ordered maps.

    [DynamicObject] maps and the [std::map] members with a string comparator
    iterate in [strcmp] order of their keys.  They are modelled as association
    lists kept in that order, so that an iteration of the code is a traversal
    of the list. *)
From S2P Require Import Prelude.

(** Strict [strcmp] order. *)
Definition key_lt (k1 k2 : string) : Prop := String.le k1 k2 /\ k1 <> k2.

#[global] Instance key_lt_trans : Transitive key_lt.
Proof.
  intros a b c [Hab Nab] [Hbc Nbc]. split; [by etrans|].
  intros ->. apply Nab. by apply (anti_symm String.le).
Qed.

Lemma key_lt_irrefl k : ~ key_lt k k.
Proof. by intros [_ ?]. Qed.

Section DynMap.
Context {A : Type}.
Abbreviation dmap := (list (string * A)).
Implicit Types (m : dmap) (k : string) (v : A).

Fixpoint dm_get m k : option A :=
  match m with
  | [] => None
  | (k', v) :: m' => if String.eqb k k' then Some v else dm_get m' k
  end.

(** [obj->hasMember(k)] *)
Definition dm_has m k : bool := match dm_get m k with Some _ => true | None => false end.

(** [obj[k] = v] *)
Fixpoint dm_set m k v : dmap :=
  match m with
  | [] => [(k, v)]
  | (k', v') :: m' =>
      if String.eqb k k' then (k, v) :: m'
      else if String.leb k k' then (k, v) :: m
      else (k', v') :: dm_set m' k v
  end.

(** [obj->removeMember(k)] *)
Fixpoint dm_remove m k : dmap :=
  match m with
  | [] => []
  | (k', v') :: m' => if String.eqb k k' then dm_remove m' k else (k', v') :: dm_remove m' k
  end.

Definition dm_keys m : list string := m.*1.
Definition dm_values m : list A := m.*2.

(** [obj[k]] read where a missing member is created with a default. *)
Definition dm_get_or m k (d : A) : A := default d (dm_get m k).

(** The keys are strictly increasing. *)
Definition dm_wf m : Prop := StronglySorted key_lt (dm_keys m).

Lemma dm_get_set_eq m k v : dm_get (dm_set m k v) k = Some v.
Proof.
  induction m as [|[k' v'] m IH]; simpl; [by rewrite String.eqb_refl|].
  destruct (String.eqb k k') eqn:E; simpl; [by rewrite String.eqb_refl|].
  destruct (String.leb k k'); simpl; [by rewrite String.eqb_refl|by rewrite E].
Qed.

Lemma dm_get_set_ne m k k' v : k <> k' -> dm_get (dm_set m k v) k' = dm_get m k'.
Proof.
  intros Hne. assert (String.eqb k' k = false) as Hf by (apply String.eqb_neq; congruence).
  induction m as [|[k2 v2] m IH]; simpl; [by rewrite Hf|].
  destruct (String.eqb_spec k k2) as [<-|]; simpl; [by rewrite Hf|].
  destruct (String.leb k k2); simpl; [by rewrite Hf|by rewrite IH].
Qed.

Lemma dm_get_remove_eq m k : dm_get (dm_remove m k) k = None.
Proof.
  induction m as [|[k' v'] m IH]; simpl; [done|].
  destruct (String.eqb k k') eqn:E; simpl; [done|by rewrite E].
Qed.

Lemma dm_get_remove_ne m k k' : k <> k' -> dm_get (dm_remove m k) k' = dm_get m k'.
Proof.
  intros Hne. induction m as [|[k2 v2] m IH]; simpl; [done|].
  destruct (String.eqb_spec k k2) as [<-|]; simpl; [|by rewrite IH].
  destruct (String.eqb_spec k' k); [congruence|done].
Qed.

Lemma dm_get_None m k : dm_get m k = None <-> k ∉ dm_keys m.
Proof.
  induction m as [|[k' v'] m IH]; simpl; [split; [set_solver|done]|].
  rewrite not_elem_of_cons. destruct (String.eqb_spec k k'); [naive_solver|].
  rewrite IH. naive_solver.
Qed.

Lemma dm_get_elem m k v : dm_get m k = Some v -> (k, v) ∈ m.
Proof.
  induction m as [|[k' v'] m IH]; simpl; [done|].
  destruct (String.eqb_spec k k') as [->|]; [intros [= ->]; left|].
  intros ?; right; auto.
Qed.

Lemma dm_has_true m k : dm_has m k = true <-> is_Some (dm_get m k).
Proof.
  unfold dm_has. destruct (dm_get m k); split; intros; try done; by eexists.
Qed.

Lemma dm_has_false m k : dm_has m k = false <-> dm_get m k = None.
Proof. unfold dm_has. by destruct (dm_get m k). Qed.

(** ** Order *)

Lemma dm_has_set m k v k' : dm_has (dm_set m k v) k' = String.eqb k' k || dm_has m k'.
Proof.
  unfold dm_has. destruct (String.eqb_spec k' k) as [->|?]; simpl.
  - by rewrite dm_get_set_eq.
  - by rewrite dm_get_set_ne by congruence.
Qed.

Lemma dm_has_remove m k k' : dm_has (dm_remove m k) k' = negb (String.eqb k' k) && dm_has m k'.
Proof.
  unfold dm_has. destruct (String.eqb_spec k' k) as [->|?]; simpl.
  - by rewrite dm_get_remove_eq.
  - by rewrite dm_get_remove_ne by congruence.
Qed.

Lemma dm_keys_set_elem m k v x : x ∈ dm_keys (dm_set m k v) -> x = k \/ x ∈ dm_keys m.
Proof.
  induction m as [|[k' v'] m IH]; simpl; [set_solver|].
  destruct (String.eqb_spec k k'); simpl; [set_solver|].
  destruct (String.leb k k'); set_solver.
Qed.

Lemma dm_keys_remove_elem m k x : x ∈ dm_keys (dm_remove m k) -> x <> k /\ x ∈ dm_keys m.
Proof.
  induction m as [|[k' v'] m IH]; simpl; [set_solver|].
  destruct (String.eqb_spec k k'); set_solver.
Qed.

Lemma dm_wf_nil : dm_wf [].
Proof. constructor. Qed.

Lemma dm_wf_cons k v m : dm_wf ((k, v) :: m) <-> dm_wf m /\ Forall (key_lt k) (dm_keys m).
Proof. unfold dm_wf. split; [by inversion 1|intros [? ?]; by constructor]. Qed.

Lemma dm_wf_set m k v : dm_wf m -> dm_wf (dm_set m k v).
Proof.
  induction m as [|[k' v'] m IH]; simpl; intros Hwf.
  - apply dm_wf_cons. split; [constructor|constructor].
  - apply dm_wf_cons in Hwf as [Hwf Hall].
    destruct (String.eqb_spec k k') as [->|Hne]; [by apply dm_wf_cons|].
    destruct (String.leb k k') eqn:Hle.
    + assert (key_lt k k') by (split; [by apply Is_true_true|done]).
      apply dm_wf_cons. split; [by apply dm_wf_cons|].
      constructor; [done|]. eapply Forall_impl; [done|]. intros; by etrans.
    + apply dm_wf_cons. split; [auto|].
      apply Forall_forall. intros x Hx. apply dm_keys_set_elem in Hx as [->|Hx].
      * destruct (String.leb_total k k') as [|Hle']; [congruence|].
        split; [by apply Is_true_true|congruence].
      * by eapply Forall_forall in Hall.
Qed.

Lemma dm_wf_remove m k : dm_wf m -> dm_wf (dm_remove m k).
Proof.
  induction m as [|[k' v'] m IH]; simpl; [done|]. intros [Hwf Hall]%dm_wf_cons.
  destruct (String.eqb k k'); [auto|]. apply dm_wf_cons. split; [auto|].
  apply Forall_forall. intros x [_ Hx]%dm_keys_remove_elem.
  by eapply Forall_forall in Hall.
Qed.

Lemma dm_wf_NoDup m : dm_wf m -> NoDup (dm_keys m).
Proof.
  induction m as [|[k v] m IH]; simpl; [by intros; apply NoDup_nil|].
  intros [Hwf Hall]%dm_wf_cons. apply NoDup_cons. split; [|auto].
  intros Hin. eapply Forall_forall in Hall; [|done]. by apply key_lt_irrefl in Hall.
Qed.

Lemma dm_elem_get m k v : dm_wf m -> (k, v) ∈ m -> dm_get m k = Some v.
Proof.
  induction m as [|[k' v'] m IH]; simpl; [set_solver|].
  intros [Hwf Hall]%dm_wf_cons [[= -> ->]|Hin]%elem_of_cons; [by rewrite String.eqb_refl|].
  destruct (String.eqb_spec k k') as [->|]; [|auto].
  eapply Forall_forall in Hall; [by apply key_lt_irrefl in Hall|].
  apply list_elem_of_fmap. by exists (k', v).
Qed.

(** ** Contents *)

Lemma dm_remove_fresh m k : k ∉ dm_keys m -> dm_remove m k = m.
Proof.
  induction m as [|[k' v'] m IH]; simpl; [done|]. rewrite not_elem_of_cons. intros [? ?].
  destruct (String.eqb_spec k k'); [done|]. by rewrite IH.
Qed.

Lemma dm_perm_get m k v : dm_wf m -> dm_get m k = Some v -> m ≡ₚ (k, v) :: dm_remove m k.
Proof.
  induction m as [|[k' v'] m IH]; simpl; [done|]. intros [Hwf Hall]%dm_wf_cons.
  destruct (String.eqb_spec k k') as [->|]; intros Hg.
  - injection Hg as ->. rewrite dm_remove_fresh; [done|].
    intros Hin. eapply Forall_forall in Hall; [|done]. by apply key_lt_irrefl in Hall.
  - rewrite (IH Hwf Hg) at 1. apply Permutation_swap.
Qed.

Lemma dm_remove_set m k v : dm_remove (dm_set m k v) k = dm_remove m k.
Proof.
  induction m as [|[k' v'] m IH]; simpl; [by rewrite String.eqb_refl|].
  destruct (String.eqb k k') eqn:E; simpl; [by rewrite String.eqb_refl|].
  destruct (String.leb k k'); simpl; rewrite ?String.eqb_refl, E; [done|by rewrite IH].
Qed.

Lemma dm_perm_set m k v : dm_wf m -> dm_set m k v ≡ₚ (k, v) :: dm_remove m k.
Proof.
  intros Hwf. rewrite <-(dm_remove_set m k v).
  apply dm_perm_get; [by apply dm_wf_set|apply dm_get_set_eq].
Qed.

Lemma dm_values_get m k v :
  dm_wf m -> dm_get m k = Some v -> dm_values m ≡ₚ v :: dm_values (dm_remove m k).
Proof. intros. unfold dm_values. by rewrite (dm_perm_get m k v) at 1. Qed.

Lemma dm_values_set m k v :
  dm_wf m -> dm_values (dm_set m k v) ≡ₚ v :: dm_values (dm_remove m k).
Proof. intros. unfold dm_values. by rewrite (dm_perm_set m k v) at 1. Qed.

Lemma dm_values_remove_None m k : dm_get m k = None -> dm_remove m k = m.
Proof. intros ?%dm_get_None. by apply dm_remove_fresh. Qed.

(** Updating the value of an existing key keeps the keys. *)
Lemma dm_keys_set_existing m k v :
  dm_wf m -> is_Some (dm_get m k) -> dm_keys (dm_set m k v) = dm_keys m.
Proof.
  induction m as [|[k' v'] m IH]; simpl; [intros _ [? [=]]|].
  intros [Hwf Hall]%dm_wf_cons.
  destruct (String.eqb_spec k k') as [->|Hne]; [done|]. intros Hs.
  destruct (String.leb k k') eqn:Hle; simpl.
  - destruct Hs as [w Hw]. apply dm_get_elem in Hw.
    assert (key_lt k' k) as [Hlt Hn].
    { eapply Forall_forall in Hall; [done|]. apply list_elem_of_fmap. by exists (k, w). }
    destruct Hne. apply (anti_symm String.le); [by apply Is_true_true|done].
  - unfold dm_keys in *. simpl. by rewrite IH.
Qed.
End DynMap.

Abbreviation dmap A := (list (string * A)).

#[export] Hint Resolve dm_wf_nil dm_wf_set dm_wf_remove dm_wf_NoDup : bitmunk.
#[export] Hint Rewrite @dm_get_set_eq @dm_get_remove_eq : bitmunk.
#[export] Hint Rewrite @dm_get_set_ne @dm_get_remove_ne using congruence : bitmunk.
