(* ===== verification/Money.v ===== *)
(** The interface of [monarch::crypto::BigDecimal].

    Every price, fee and budget of the program is a [BigDecimal] whose
    precision is set to 7 digits with rounding mode [Down]; the class belongs to
    the Monarch library.  [BigDecimal] lists the operations the program uses and
    [BigDecimalLaws] the behaviour it relies on, in terms of the number a
    decimal denotes; the components are proved against the two classes.
    [Exact] is an instance, so that the laws are satisfiable and the components
    can be run. *)
From S2P Require Import Prelude.
From Stdlib Require Export QArith.
From Stdlib Require Import Qround DecimalString DecimalZ.

Local Open Scope Q_scope.

(** Truncation toward zero to 7 decimal digits ([setPrecision(7, Down)]). *)
Definition trunc7 (q : Q) : Q := (Z.quot (Qnum q * 10000000) (Zpos (Qden q))) # 10000000.

(** Sums of rational numbers. *)
Fixpoint qsum {A} (f : A -> Q) (l : list A) : Q :=
  match l with
  | [] => 0
  | a :: l' => f a + qsum f l'
  end.

Lemma qsum_nonneg {A} (f : A -> Q) l : (forall a, a ∈ l -> 0 <= f a) -> 0 <= qsum f l.
Proof.
  induction l as [|a l IH]; intros Hf; simpl; [apply Qle_refl|].
  rewrite <-(Qplus_0_l 0). apply Qplus_le_compat; [apply Hf; left|].
  apply IH. intros x Hx. apply Hf. by right.
Qed.

Class BigDecimal (D : Type) := {
  bd_of_string : string -> D;      (* operator=(const char* ) *)
  bd_of_Z : Z -> D;                (* operator=(uint64_t) *)
  bd_add : D -> D -> D;
  bd_sub : D -> D -> D;
  bd_mul : D -> D -> D;
  bd_div : D -> D -> D;
  bd_round : D -> D;
  bd_to_string : D -> string;      (* toString(true) *)
  bd_ltb : D -> D -> bool
}.

Class BigDecimalLaws (D : Type) `{BigDecimal D} := {
  bd_val : D -> Q;
  val_of_Z : forall z, bd_val (bd_of_Z z) == inject_Z z;
  val_add : forall a b, bd_val (bd_add a b) == bd_val a + bd_val b;
  val_sub : forall a b, bd_val (bd_sub a b) == bd_val a - bd_val b;
  val_mul : forall a b, bd_val (bd_mul a b) == bd_val a * bd_val b;
  (* a quotient rounded down does not exceed the exact one *)
  val_div_lower : forall a b, 0 <= bd_val a -> 0 < bd_val b -> 0 <= bd_val (bd_div a b);
  val_div_upper : forall a b,
    0 <= bd_val a -> 0 < bd_val b -> bd_val (bd_div a b) <= bd_val a / bd_val b;
  val_round : forall a, bd_val (bd_round a) == trunc7 (bd_val a);
  val_ltb : forall a b, bd_ltb a b = true <-> bd_val a < bd_val b;
  (* a number with at most 7 digits prints exactly *)
  val_print : forall a, bd_val (bd_of_string (bd_to_string (bd_round a))) == bd_val (bd_round a)
}.

Section Derived.
Context {D : Type} `{BigDecimal D}.

Definition bd_gtb (a b : D) : bool := bd_ltb b a.
Definition bd_leb (a b : D) : bool := negb (bd_ltb b a).
Definition bd_zero : D := bd_of_Z 0%Z.
Definition bd_is_zero (a : D) : bool := negb (bd_ltb a bd_zero) && negb (bd_ltb bd_zero a).
Definition bd_is_negative (a : D) : bool := bd_ltb a bd_zero.
End Derived.

(** ** Truncation *)

Lemma trunc7_nonneg q : 0 <= q -> 0 <= trunc7 q.
Proof.
  destruct q as [n d]. unfold trunc7, Qle. simpl. intros Hn.
  assert (0 <= n ÷ 1)%Z by (rewrite Z.quot_1_r; lia). rewrite Z.mul_1_r.
  apply Z.quot_pos; lia.
Qed.

Lemma trunc7_le q : 0 <= q -> trunc7 q <= q.
Proof.
  destruct q as [n d]. unfold trunc7, Qle. simpl. intros Hn.
  rewrite Z.quot_div_nonneg by lia.
  pose proof (Z.mul_div_le (n * 10000000) (Zpos d) ltac:(lia)). lia.
Qed.

Lemma Qeq_trunc7 q1 q2 : q1 == q2 -> trunc7 q1 = trunc7 q2.
Proof.
  destruct q1 as [n1 d1], q2 as [n2 d2]. unfold Qeq, trunc7. simpl. intros E. f_equal.
  rewrite <-(Z.quot_mul_cancel_r (n1 * 10000000) (Zpos d1) (Zpos d2)) by lia.
  rewrite <-(Z.quot_mul_cancel_r (n2 * 10000000) (Zpos d2) (Zpos d1)) by lia.
  f_equal; lia.
Qed.

#[global] Instance trunc7_proper : Proper (Qeq ==> Qeq) trunc7.
Proof. intros q1 q2 E. by rewrite (Qeq_trunc7 _ _ E). Qed.

Lemma trunc7_idemp q : trunc7 (trunc7 q) == trunc7 q.
Proof.
  destruct q as [n d]. unfold trunc7. cbn [Qnum Qden].
  by rewrite (Z.quot_mul (n * 10000000 ÷ Zpos d)) by lia.
Qed.

(** ** Equal value *)

Section Laws.
Context {D : Type} `{BigDecimalLaws D}.
Implicit Types a b c : D.

(** Two decimals are interchangeable when they denote the same number. *)
#[global] Instance bd_equiv : Equiv D := fun a b => bd_val a == bd_val b.

#[global] Instance bd_equivalence : Equivalence (≡@{D}).
Proof.
  split.
  - intros a. apply Qeq_refl.
  - intros a b Hab. by apply Qeq_sym.
  - intros a b c Hab Hbc. exact (Qeq_trans _ _ _ Hab Hbc).
Qed.

Lemma bd_equiv_val a b : a ≡ b <-> bd_val a == bd_val b.
Proof. done. Qed.

#[global] Instance bd_val_proper : Proper ((≡@{D}) ==> Qeq) bd_val.
Proof. by intros a b. Qed.

#[global] Instance bd_add_proper : Proper ((≡@{D}) ==> (≡) ==> (≡)) bd_add.
Proof. intros a a' Ha b b' Hb. rewrite !bd_equiv_val in *. by rewrite !val_add, Ha, Hb. Qed.

#[global] Instance bd_mul_proper : Proper ((≡@{D}) ==> (≡) ==> (≡)) bd_mul.
Proof. intros a a' Ha b b' Hb. rewrite !bd_equiv_val in *. by rewrite !val_mul, Ha, Hb. Qed.

#[global] Instance bd_round_proper : Proper ((≡@{D}) ==> (≡)) bd_round.
Proof. intros a a' Ha. rewrite !bd_equiv_val in *. by rewrite !val_round, Ha. Qed.

#[global] Instance bd_ltb_proper : Proper ((≡@{D}) ==> (≡) ==> (=)) bd_ltb.
Proof.
  intros a a' Ha b b' Hb. rewrite !bd_equiv_val in *.
  apply eq_true_iff_eq. by rewrite !val_ltb, Ha, Hb.
Qed.

Lemma val_leb a b : bd_leb a b = true <-> bd_val a <= bd_val b.
Proof.
  unfold bd_leb. rewrite negb_true_iff, <-not_true_iff_false, val_ltb.
  split; [apply Qnot_lt_le|apply Qle_not_lt].
Qed.

Lemma val_zero : bd_val (bd_zero : D) == 0.
Proof. apply val_of_Z. Qed.

Lemma bd_round_idemp a : bd_round (bd_round a) ≡ bd_round a.
Proof. rewrite bd_equiv_val. rewrite !val_round. apply trunc7_idemp. Qed.

Lemma bd_is_zero_val a : bd_is_zero a = true <-> bd_val a == 0.
Proof.
  unfold bd_is_zero. rewrite andb_true_iff, !negb_true_iff, <-!not_true_iff_false, !val_ltb.
  rewrite val_zero. split.
  - intros [? ?]. apply Qle_antisym; by apply Qnot_lt_le.
  - intros ->. split; apply Qlt_irrefl.
Qed.

Lemma bd_is_negative_val a : bd_is_negative a = true <-> bd_val a < 0.
Proof. unfold bd_is_negative. by rewrite val_ltb, val_zero. Qed.
End Laws.

(** ** An instance

    Exact rational arithmetic; a decimal literal is printed as the integer
    number of ten-millionths. *)
Module Exact.
Definition of_string (s : string) : Q :=
  match NilEmpty.int_of_string s with
  | Some i => Z.of_int i # 10000000
  | None => 0
  end.

Definition to_string (q : Q) : string :=
  NilEmpty.string_of_int (Z.to_int (Qnum (trunc7 q))).

#[export] Instance exact_decimal : BigDecimal Q := {|
  bd_of_string := of_string;
  bd_of_Z := inject_Z;
  bd_add := Qplus;
  bd_sub := Qminus;
  bd_mul := Qmult;
  bd_div := Qdiv;
  bd_round := trunc7;
  bd_to_string := to_string;
  bd_ltb := fun a b => match a ?= b with Lt => true | _ => false end
|}.

Lemma of_to_string q : of_string (to_string q) == trunc7 q.
Proof. unfold of_string, to_string. by rewrite NilEmpty.isi, DecimalZ.of_to. Qed.

Lemma exact_ltb (a b : Q) : bd_ltb a b = true <-> a < b.
Proof.
  simpl. destruct (Qcompare_spec a b) as [->|?|?]; split; try done.
  - by intros ?%Qlt_irrefl.
  - intros Hlt. by apply Qlt_le_weak, Qle_not_lt in Hlt.
Qed.

Lemma exact_print (a : Q) : of_string (to_string (trunc7 a)) == trunc7 a.
Proof. rewrite of_to_string. apply trunc7_idemp. Qed.

Lemma exact_div_lower (a b : Q) : 0 <= a -> 0 < b -> 0 <= a / b.
Proof. intros Ha Hb. apply Qle_shift_div_l; [done|]. by rewrite Qmult_0_l. Qed.

#[export] Instance exact_laws : BigDecimalLaws Q.
Proof.
  refine {| bd_val := fun q => q |}; try (intros; apply Qeq_refl).
  - exact exact_div_lower.
  - intros a b _ _. apply Qle_refl.
  - exact exact_ltb.
  - exact exact_print.
Defined.
End Exact.
