(* ===== verification/Payees.v ===== *)
(** Payee resolution and total prices ([cpp/common/Tools.cpp]).

    A payee is paid a flat fee or a percentage of some base.
    [resolvePayeeAmounts] turns every percentage into a flat amount in three
    passes over one list of shared payee objects and returns the total;
    [getTotalPrice] combines license, data and piece costs. *)
From S2P Require Import Prelude Money.

(** * Data *)

(** [Payee]: the members read by [Tools] and [Signer].  A member that the code
    tests with [hasMember] is an option. *)
Record Payee := {
  payee_id : string;
  amountType : string;
  amountResolved : bool;
  amount : string;
  percentage : string;
  payee_min : option string;
  description : option string;
  taxExempt : bool;
  nontaxable : option bool
}.

Definition PAYEE_AMOUNT_TYPE_FLATFEE : string := "flatFee".
Definition PAYEE_AMOUNT_TYPE_PLICENSE : string := "percentOfLicense".
Definition PAYEE_AMOUNT_TYPE_PCUMULATIVE : string := "percentOfCumulative".
Definition PAYEE_AMOUNT_TYPE_PTOTAL : string := "percentOfTotal".
Definition PAYEE_AMOUNT_TYPE_TAX : string := "tax".

Definition set_amount (s : string) (p : Payee) : Payee :=
  {| payee_id := payee_id p; amountType := amountType p; amountResolved := amountResolved p;
     amount := s; percentage := percentage p; payee_min := payee_min p;
     description := description p; taxExempt := taxExempt p; nontaxable := nontaxable p |}.

Definition set_resolved (b : bool) (p : Payee) : Payee :=
  {| payee_id := payee_id p; amountType := amountType p; amountResolved := b;
     amount := amount p; percentage := percentage p; payee_min := payee_min p;
     description := description p; taxExempt := taxExempt p; nontaxable := nontaxable p |}.

(** Payees whose base is a total over other payees are deferred. *)
Definition is_flat (p : Payee) : bool := String.eqb (amountType p) PAYEE_AMOUNT_TYPE_FLATFEE.
Definition is_ptotal (p : Payee) : bool := String.eqb (amountType p) PAYEE_AMOUNT_TYPE_PTOTAL.
Definition is_tax (p : Payee) : bool := String.eqb (amountType p) PAYEE_AMOUNT_TYPE_TAX.

Section Payees.
Context {D : Type} `{BigDecimal D}.
Implicit Types (p : Payee) (ps : list Payee) (total tmp license : D).

(** ** Operations *)

(** The static helper: resolves [p] against [multiplier] unless it is resolved
    already, and adds the amount to the total and, when one is passed and the
    payee is taxable, to the taxable total.  Returns the payee, the scratch
    number [tmp] and the two totals. *)
Definition resolvePercentagePayee (p : Payee) (multiplier total : D) (taxableTotal : option D)
  : Payee * D * D * option D :=
  let '(p', tmp) :=
    if amountResolved p then (p, bd_of_string (amount p))
    else
      let tmp := bd_mul multiplier (bd_of_string (percentage p)) in
      let tmp :=
        match payee_min p with
        | Some m => if bd_gtb (bd_of_string m) tmp then bd_of_string m else tmp
        | None => tmp
        end in
      let tmp := bd_round tmp in
      (set_resolved true (set_amount (bd_to_string tmp) p), tmp) in
  (p', tmp, bd_add total tmp,
   match taxableTotal with
   | Some t => Some (if taxExempt p' then t else bd_add t tmp)
   | None => None
   end).

(** Locals of [resolvePayeeAmounts]; the deferred lists hold references to
    payees of the list, here their positions. *)
Record ResolveState := {
  rs_tmp : D;
  rs_total : D;
  rs_taxable : D;
  rs_pot : list nat;
  rs_tax : list nat
}.

(** Body of the first loop for the payee [p] at position [i]. *)
Definition firstPassStep (license : D) (i : nat) (p : Payee) (st : ResolveState)
  : Payee * ResolveState :=
  if String.eqb (amountType p) PAYEE_AMOUNT_TYPE_FLATFEE then
    (set_resolved true p,
     {| rs_tmp := rs_tmp st;
        rs_total := bd_add (rs_total st) (bd_of_string (amount p));
        rs_taxable := if taxExempt p then rs_taxable st
                      else bd_add (rs_taxable st) (bd_of_string (amount p));
        rs_pot := rs_pot st; rs_tax := rs_tax st |})
  else
    let tmp :=
      if String.eqb (amountType p) PAYEE_AMOUNT_TYPE_PLICENSE then license
      else if String.eqb (amountType p) PAYEE_AMOUNT_TYPE_PCUMULATIVE then rs_total st
      else rs_tmp st in
    let pot := if String.eqb (amountType p) PAYEE_AMOUNT_TYPE_PTOTAL
               then rs_pot st ++ [i] else rs_pot st in
    let tax := if String.eqb (amountType p) PAYEE_AMOUNT_TYPE_TAX
               then rs_tax st ++ [i] else rs_tax st in
    if negb (String.eqb (amountType p) PAYEE_AMOUNT_TYPE_PTOTAL) &&
       negb (String.eqb (amountType p) PAYEE_AMOUNT_TYPE_TAX) then
      let '(p', tmp', total', taxable') :=
        resolvePercentagePayee p tmp (rs_total st) (Some (rs_taxable st)) in
      (p', {| rs_tmp := tmp'; rs_total := total'; rs_taxable := default (rs_taxable st) taxable';
              rs_pot := pot; rs_tax := tax |})
    else
      (p, {| rs_tmp := tmp; rs_total := rs_total st; rs_taxable := rs_taxable st;
             rs_pot := pot; rs_tax := tax |}).

Fixpoint firstPass (license : D) (i : nat) (ps : list Payee) (st : ResolveState)
  : list Payee * ResolveState :=
  match ps with
  | [] => ([], st)
  | p :: ps' =>
      let '(p', st') := firstPassStep license i p st in
      let '(ps'', st'') := firstPass license (S i) ps' st' in
      (p' :: ps'', st'')
  end.

(** Second loop: payees of [potPayees], all against the pre-total. *)
Definition potStep (tmpTotal : D) (acc : list Payee * D * D) (i : nat) : list Payee * D * D :=
  let '(ps, total, taxable) := acc in
  match ps !! i with
  | Some p =>
      let '(p', _, total', taxable') := resolvePercentagePayee p tmpTotal total (Some taxable) in
      (<[i := p']> ps, total', default taxable taxable')
  | None => acc
  end.

(** Third loop: payees of [taxPayees], all against the taxable total. *)
Definition taxStep (taxable : D) (acc : list Payee * D) (i : nat) : list Payee * D :=
  let '(ps, total) := acc in
  match ps !! i with
  | Some p =>
      let '(p', _, total', _) := resolvePercentagePayee p taxable total None in
      (<[i := p']> ps, total')
  | None => acc
  end.

(** [Tools::resolvePayeeAmounts(payees, totalOut, licenseIn)]: the updated
    payees and the total. *)
Definition resolvePayeeAmounts (payees : list Payee) (licenseIn : option D) : list Payee * D :=
  let license := default bd_zero licenseIn in
  let st0 := {| rs_tmp := bd_zero; rs_total := bd_zero; rs_taxable := bd_zero;
                rs_pot := []; rs_tax := [] |} in
  let '(ps1, st1) := firstPass license 0 payees st0 in
  let '(ps2, total2, taxable2) :=
    foldl (potStep (rs_total st1)) (ps1, rs_total st1, rs_taxable st1) (rs_pot st1) in
  let '(ps3, total3) := foldl (taxStep taxable2) (ps2, total2) (rs_tax st1) in
  (ps3, bd_round total3).

(** Options and result of [Tools::getTotalPrice]. *)
Record PriceOptions := {
  licenseAmount : option string;
  licensePayees : list Payee;
  dataAmount : option string;
  dataPayees : option (list Payee);
  filePieceCount : option Z;
  piecePayees : option (list Payee)
}.

Record PriceTotals := {
  tp_licenseCost : string;
  tp_dataCost : string;
  tp_piecesCost : string;
  tp_dataTotal : string;
  tp_total : string
}.

(** Each piece payee's amount is multiplied by the number of pieces. *)
Fixpoint pricePieces (count : Z) (ps : list Payee) (piecesCost : D) : list Payee * D :=
  match ps with
  | [] => ([], piecesCost)
  | p :: ps' =>
      let tmp := bd_round (bd_mul (bd_of_string (amount p)) (bd_of_Z count)) in
      let '(ps'', cost) := pricePieces count ps' (bd_add piecesCost tmp) in
      (set_resolved true (set_amount (bd_to_string tmp) p) :: ps'', cost)
  end.

Definition getTotalPrice (options : PriceOptions) : PriceOptions * PriceTotals :=
  let '(lps, licenseCost) :=
    match licenseAmount options with
    | Some a => (licensePayees options, bd_of_string a)
    | None => resolvePayeeAmounts (licensePayees options) None
    end in
  let '(dps, dataCost) :=
    match dataAmount options, dataPayees options with
    | Some a, dps => (dps, bd_of_string a)
    | None, Some dps =>
        let '(dps', c) := resolvePayeeAmounts dps (Some licenseCost) in (Some dps', c)
    | None, None => (None, bd_zero)
    end in
  let '(pps, piecesCost) :=
    match filePieceCount options, piecePayees options with
    | Some n, Some pps =>
        if (0 <? n)%Z then let '(pps', c) := pricePieces n pps bd_zero in (Some pps', c)
        else (Some pps, bd_zero)
    | _, pps => (pps, bd_zero)
    end in
  let total := bd_round (bd_add (bd_add licenseCost dataCost) piecesCost) in
  let dataTotal := bd_round (bd_add dataCost piecesCost) in
  ({| licenseAmount := licenseAmount options; licensePayees := lps;
      dataAmount := dataAmount options; dataPayees := dps;
      filePieceCount := filePieceCount options; piecePayees := pps |},
   {| tp_licenseCost := bd_to_string licenseCost;
      tp_dataCost := bd_to_string dataCost;
      tp_piecesCost := bd_to_string piecesCost;
      tp_dataTotal := bd_to_string dataTotal;
      tp_total := bd_to_string total |}).
End Payees.

(** * Specification *)

(** What resolution leaves alone: everything but the amount and its flag. *)
Definition payee_shape (p : Payee) : Payee := set_amount "" (set_resolved false p).

Lemma payee_shape_eq p p' :
  payee_shape p = payee_shape p' -> amount p = amount p' -> amountResolved p = amountResolved p' ->
  p = p'.
Proof. destruct p, p'; unfold payee_shape; simpl. by intros [=] ? ?; subst. Qed.

(** Payees resolved by the first loop, and payees taxes are computed on. *)
Definition is_immediate (p : Payee) : bool := negb (is_ptotal p) && negb (is_tax p).
Definition is_taxed (p : Payee) : bool := negb (is_tax p) && negb (taxExempt p).

Section PayeeSpec.
Context {D : Type} `{BigDecimalLaws D}.
Implicit Types (p : Payee) (ps : list Payee).
Local Open Scope Q_scope.

(** The number a payee's amount denotes. *)
Definition payee_val (p : Payee) : Q := bd_val (bd_of_string (amount p) : D).

(** Sum of the amounts of the selected payees. *)
Fixpoint payee_sum (sel : Payee -> bool) (ps : list Payee) : Q :=
  match ps with
  | [] => 0
  | p :: ps' => (if sel p then payee_val p else 0) + payee_sum sel ps'
  end.

(** A percentage of a base, at least the minimum, with 7 digits. *)
Definition settle (p : Payee) (base : D) : D :=
  let share := bd_mul base (bd_of_string (percentage p)) in
  bd_round
    match payee_min p with
    | Some m => if bd_gtb (bd_of_string m) share then bd_of_string m else share
    | None => share
    end.

(** [p'] is [p] resolved against [base]. *)
Definition settled (p : Payee) (base : D) (p' : Payee) : Prop :=
  payee_shape p' = payee_shape p /\ amountResolved p' = true /\
  amount p' = if amountResolved p then amount p else bd_to_string (settle p base).

Lemma payee_shape_sel p p' :
  payee_shape p' = payee_shape p ->
  is_flat p' = is_flat p /\ is_ptotal p' = is_ptotal p /\ is_tax p' = is_tax p /\
  taxExempt p' = taxExempt p.
Proof. destruct p, p'; unfold payee_shape; simpl. by intros [=]; subst. Qed.

(** The helper resolves against its multiplier and adds the amount up. *)
Lemma resolvePercentagePayee_spec p m t tx p' tmp t' tx' :
  resolvePercentagePayee p m t tx = (p', tmp, t', tx') ->
  settled p m p' /\ bd_val t' == bd_val t + payee_val p' /\
  tx' = (x ← tx; Some (if taxExempt p then x else bd_add x tmp)) /\
  bd_val tmp == payee_val p'.
Proof.
  unfold resolvePercentagePayee, settled, settle, payee_val.
  destruct (amountResolved p) eqn:Hr; intros [=]; subst.
  - rewrite val_add. by destruct tx.
  - simpl. rewrite val_add, val_print. by destruct tx.
Qed.

(** ** Deferred payees as a pass over the list *)

Fixpoint positions (sel : Payee -> bool) (i : nat) (ps : list Payee) : list nat :=
  match ps with
  | [] => []
  | p :: ps' => (if sel p then [i] else []) ++ positions sel (S i) ps'
  end.

Fixpoint settlePass (sel : Payee -> bool) (m : D) (ps : list Payee) (t : D) (tx : option D)
  : list Payee * D * option D :=
  match ps with
  | [] => ([], t, tx)
  | p :: ps' =>
      if sel p then
        let '(p', _, t1, tx1) := resolvePercentagePayee p m t tx in
        let '(ps'', t2, tx2) := settlePass sel m ps' t1 tx1 in (p' :: ps'', t2, tx2)
      else
        let '(ps'', t2, tx2) := settlePass sel m ps' t tx in (p :: ps'', t2, tx2)
  end.

Lemma settlePass_Some sel m ps t x ps' t' tx' :
  settlePass sel m ps t (Some x) = (ps', t', tx') -> is_Some tx'.
Proof.
  revert t x ps'. induction ps as [|p ps IH]; intros t x ps'; simpl; [by intros [=]; subst|].
  destruct (sel p).
  - unfold resolvePercentagePayee. repeat case_match; intros; simplify_eq; eauto.
  - destruct (settlePass _ _ _ _ _) as [[? ?] ?] eqn:E. intros [=]; subst. eauto.
Qed.

Lemma settlePass_None sel m ps t ps' t' tx' :
  settlePass sel m ps t None = (ps', t', tx') -> tx' = None.
Proof.
  revert t ps'. induction ps as [|p ps IH]; intros t ps'; simpl; [congruence|].
  unfold resolvePercentagePayee. repeat case_match; intros; simplify_eq; eauto.
Qed.

(** The second loop, which walks references into the list, is such a pass. *)
Lemma potStep_pass m sel pre ps t x ps' t' x' :
  settlePass sel m ps t (Some x) = (ps', t', Some x') ->
  foldl (potStep m) (pre ++ ps, t, x) (positions sel (length pre) ps) = (pre ++ ps', t', x').
Proof.
  revert pre t x ps'. induction ps as [|p ps IH]; intros pre t x ps'; simpl.
  - by intros [=]; subst.
  - destruct (sel p); simpl.
    + rewrite list_lookup_middle by done.
      destruct (resolvePercentagePayee p m t (Some x)) as [[[p' tmp] t1] tx1] eqn:E.
      pose proof (resolvePercentagePayee_spec _ _ _ _ _ _ _ _ E) as (_ & _ & -> & _). simpl.
      destruct (settlePass _ _ _ _ _) as [[ps1 t2] tx2] eqn:E2. intros [=]; subst.
      rewrite insert_app_r_alt, Nat.sub_diag by lia. simpl.
      pose proof (IH (pre ++ [p']) _ _ _ E2) as IH'.
      by rewrite length_app, Nat.add_1_r, <-!app_assoc in IH'.
    + destruct (settlePass _ _ _ _ _) as [[ps1 t2] tx2] eqn:E2. intros [=]; subst.
      pose proof (IH (pre ++ [p]) _ _ _ E2) as IH'.
      by rewrite length_app, Nat.add_1_r, <-!app_assoc in IH'.
Qed.

(** So is the third loop. *)
Lemma taxStep_pass m sel pre ps t ps' t' :
  settlePass sel m ps t None = (ps', t', None) ->
  foldl (taxStep m) (pre ++ ps, t) (positions sel (length pre) ps) = (pre ++ ps', t').
Proof.
  revert pre t ps'. induction ps as [|p ps IH]; intros pre t ps'; simpl.
  - by intros [=]; subst.
  - destruct (sel p); simpl.
    + rewrite list_lookup_middle by done.
      destruct (resolvePercentagePayee p m t None) as [[[p' tmp] t1] tx1] eqn:E.
      pose proof (resolvePercentagePayee_spec _ _ _ _ _ _ _ _ E) as (_ & _ & -> & _). simpl.
      destruct (settlePass _ _ _ _ _) as [[ps1 t2] tx2] eqn:E2. intros [=]; subst.
      rewrite insert_app_r_alt, Nat.sub_diag by lia. simpl.
      pose proof (IH (pre ++ [p']) _ _ E2) as IH'.
      by rewrite length_app, Nat.add_1_r, <-!app_assoc in IH'.
    + destruct (settlePass _ _ _ _ _) as [[ps1 t2] tx2] eqn:E2. intros [=]; subst.
      pose proof (IH (pre ++ [p]) _ _ E2) as IH'.
      by rewrite length_app, Nat.add_1_r, <-!app_assoc in IH'.
Qed.

(** ** What a pass computes *)

(** Selectors that do not look at the resolved amount. *)
Definition shape_sel (sel : Payee -> bool) : Prop :=
  forall p p', payee_shape p' = payee_shape p -> sel p' = sel p.

Lemma settlePass_spec sel m ps t tx ps' t' tx' :
  shape_sel sel ->
  settlePass sel m ps t tx = (ps', t', tx') ->
  Forall2 (fun p p' => if sel p then settled p m p' else p' = p) ps ps' /\
  bd_val t' == bd_val t + payee_sum sel ps' /\
  (forall x x', tx = Some x -> tx' = Some x' ->
     bd_val x' == bd_val x + payee_sum (fun p => sel p && negb (taxExempt p)) ps').
Proof.
  intros Hsel. revert t tx ps'. induction ps as [|p ps IH]; intros t tx ps'; simpl.
  - intros [=]; subst. simpl. split_and!; [constructor|ring|].
    intros x x' ? [=]; simplify_eq. ring.
  - destruct (sel p) eqn:Hp.
    + destruct (resolvePercentagePayee p m t tx) as [[[p' tmp] t1] tx1] eqn:E.
      apply resolvePercentagePayee_spec in E as (Hs & Ht & -> & Htmp).
      destruct (settlePass _ _ _ _ _) as [[ps1 t2] tx2] eqn:E2. intros [=]; subst.
      apply IH in E2 as (HF & Ht2 & Htx). destruct Hs as (Hsh & ? & ?).
      simpl. rewrite (Hsel _ _ Hsh), Hp. split_and!.
      * constructor; [by rewrite Hp|done].
      * rewrite Ht2, Ht. ring.
      * intros x x' -> ->. rewrite (Htx _ _ eq_refl eq_refl). simpl.
        destruct (payee_shape_sel _ _ Hsh) as (_ & _ & _ & ->).
        destruct (taxExempt p); simpl; [ring|]. rewrite val_add, Htmp. ring.
    + destruct (settlePass _ _ _ _ _) as [[ps1 t2] tx2] eqn:E2. intros [=]; subst.
      apply IH in E2 as (HF & Ht2 & Htx). simpl. rewrite Hp. split_and!.
      * constructor; [by rewrite Hp|done].
      * rewrite Ht2. ring.
      * intros x x' ? ?. simpl. rewrite (Htx x x') by done. ring.
Qed.

(** How the first loop treats one payee, [base] being the total so far. *)
Definition first_rel (license : D) (sofar : Q) (p p' : Payee) : Prop :=
  if is_flat p then p' = set_resolved true p
  else if is_immediate p then
    exists base, settled p base p' /\
      (amountType p = PAYEE_AMOUNT_TYPE_PLICENSE -> base = license) /\
      (amountType p = PAYEE_AMOUNT_TYPE_PCUMULATIVE -> bd_val base == sofar)
  else p' = p.

Lemma first_rel_shape license sofar p p' :
  first_rel license sofar p p' -> payee_shape p' = payee_shape p.
Proof.
  unfold first_rel. repeat case_match; [by intros ->|by intros (?&[]&_)|by intros ->].
Qed.

Lemma is_flat_immediate p : is_flat p = true -> is_immediate p = true.
Proof.
  unfold is_flat, is_immediate, is_ptotal, is_tax. intros ->%String.eqb_eq. reflexivity.
Qed.

Lemma firstPassStep_spec license i p st p' st' :
  firstPassStep license i p st = (p', st') ->
  first_rel license (bd_val (rs_total st)) p p' /\
  bd_val (rs_total st') ==
    bd_val (rs_total st) + (if is_immediate p then payee_val p' else 0) /\
  bd_val (rs_taxable st') ==
    bd_val (rs_taxable st) + (if is_immediate p && negb (taxExempt p) then payee_val p' else 0) /\
  rs_pot st' = rs_pot st ++ (if is_ptotal p then [i] else []) /\
  rs_tax st' = rs_tax st ++ (if is_tax p then [i] else []).
Proof.
  unfold firstPassStep, first_rel. fold (is_flat p) (is_ptotal p) (is_tax p).
  fold (is_immediate p). destruct (is_flat p) eqn:Hf.
  - pose proof (is_flat_immediate _ Hf) as Hi. rewrite Hi.
    assert (is_ptotal p = false /\ is_tax p = false) as [-> ->].
    { apply andb_prop in Hi as [?%negb_true_iff ?%negb_true_iff]. done. }
    intros [=]; subst. unfold payee_val. simpl. rewrite val_add, !app_nil_r.
    split_and!; try done. destruct (taxExempt p); simpl; [ring|apply val_add].
  - destruct (is_immediate p) eqn:Hi.
    + assert (is_ptotal p = false /\ is_tax p = false) as [-> ->].
      { apply andb_prop in Hi as [?%negb_true_iff ?%negb_true_iff]. done. }
      destruct (resolvePercentagePayee _ _ _ _) as [[[q tmp] t1] tx1] eqn:E.
      apply resolvePercentagePayee_spec in E as (Hs & Ht & -> & Htmp).
      intros [=]; subst. simpl. rewrite !app_nil_r. split_and!; try done.
      * eexists. split; [exact Hs|]. split; intros ->; reflexivity.
      * destruct (taxExempt p); simpl; [ring|]. by rewrite val_add, Htmp.
    + intros [=]; subst. simpl. split_and!; try done; try ring; case_match; by rewrite ?app_nil_r.
Qed.

Lemma is_immediate_shape : shape_sel is_immediate.
Proof.
  intros p p' E. destruct (payee_shape_sel _ _ E) as (_ & Hp & Ht & _).
  unfold is_immediate. by rewrite Hp, Ht.
Qed.

(** The first loop: every payee relates to the total of those before it. *)
Lemma firstPass_spec license i ps st ps' st' :
  firstPass license i ps st = (ps', st') ->
  length ps' = length ps /\
  (forall k p p', ps !! k = Some p -> ps' !! k = Some p' ->
     exists sofar,
       sofar == bd_val (rs_total st) + payee_sum is_immediate (take k ps') /\
       first_rel license sofar p p') /\
  bd_val (rs_total st') == bd_val (rs_total st) + payee_sum is_immediate ps' /\
  bd_val (rs_taxable st') ==
    bd_val (rs_taxable st) + payee_sum (fun p => is_immediate p && negb (taxExempt p)) ps' /\
  rs_pot st' = rs_pot st ++ positions is_ptotal i ps /\
  rs_tax st' = rs_tax st ++ positions is_tax i ps.
Proof.
  revert i st ps'. induction ps as [|p ps IH]; intros i st ps'; simpl.
  - intros [=]; subst. simpl. rewrite !app_nil_r. split_and!; try done; try ring.
  - destruct (firstPassStep license i p st) as [p1 st1] eqn:E1.
    destruct (firstPass license (S i) ps st1) as [ps2 st2] eqn:E2. intros [=]; subst.
    apply firstPassStep_spec in E1 as (Hrel & Ht & Htx & Hpot & Htax).
    apply IH in E2 as (Hlen & Hk & Ht2 & Htx2 & Hpot2 & Htax2).
    pose proof (first_rel_shape _ _ _ _ Hrel) as Hsh. simpl.
    rewrite (is_immediate_shape _ _ Hsh). destruct (payee_shape_sel _ _ Hsh) as (_ & _ & _ & ->).
    split_and!.
    + by rewrite Hlen.
    + intros [|k] q q'; simpl.
      * intros [=] [=]; subst. eexists; split; [|exact Hrel]. ring.
      * intros Hq Hq'. destruct (Hk _ _ _ Hq Hq') as (s & Hs & Hr). exists s. split; [|done].
        rewrite Hs, Ht, (is_immediate_shape _ _ Hsh). ring.
    + rewrite Ht2, Ht. ring.
    + rewrite Htx2, Htx. ring.
    + by rewrite Hpot2, Hpot, <-app_assoc.
    + by rewrite Htax2, Htax, <-app_assoc.
Qed.

(** ** Sums and positions across passes *)

Definition pass_rel (sel : Payee -> bool) (m : D) (p p' : Payee) : Prop :=
  if sel p then settled p m p' else p' = p.

Lemma pass_rel_shape sel m p p' : pass_rel sel m p p' -> payee_shape p' = payee_shape p.
Proof. unfold pass_rel. case_match; [by intros []|by intros ->]. Qed.

Lemma pass_sum sel m s ps ps' :
  Forall2 (pass_rel sel m) ps ps' -> shape_sel s -> (forall p, s p = true -> sel p = false) ->
  payee_sum s ps' = payee_sum s ps.
Proof.
  intros HF Hs Hd. induction HF as [|p p' ps ps' Hp HF IH]; simpl; [done|].
  rewrite IH, (Hs p p') by (by eapply pass_rel_shape). f_equal.
  destruct (s p) eqn:E; [|done]. unfold pass_rel in Hp. rewrite (Hd _ E) in Hp. by subst.
Qed.

Lemma shape_positions s i ps ps' :
  shape_sel s -> Forall2 (fun p p' => payee_shape p' = payee_shape p) ps ps' ->
  positions s i ps' = positions s i ps.
Proof.
  intros Hs HF. revert i. induction HF as [|p p' ps ps' Hp HF IH]; intros i; simpl; [done|].
  by rewrite IH, (Hs p p').
Qed.

Lemma payee_sum_split s a b ps :
  (forall p, s p = a p || b p) -> (forall p, a p && b p = false) ->
  payee_sum s ps == payee_sum a ps + payee_sum b ps.
Proof.
  intros Hs Hd. induction ps as [|p ps IH]; simpl; [ring|]. rewrite IH, Hs.
  specialize (Hd p). destruct (a p), (b p); simpl in *; try done; ring.
Qed.

Lemma ptotal_tax p : is_ptotal p && is_tax p = false.
Proof.
  unfold is_ptotal, is_tax. apply andb_false_iff.
  destruct (String.eqb_spec (amountType p) PAYEE_AMOUNT_TYPE_PTOTAL) as [->|]; [by right|by left].
Qed.

Lemma is_ptotal_shape : shape_sel is_ptotal.
Proof. intros p p' E. by destruct (payee_shape_sel _ _ E) as (_ & -> & _). Qed.

Lemma is_tax_shape : shape_sel is_tax.
Proof. intros p p' E. by destruct (payee_shape_sel _ _ E) as (_ & _ & -> & _). Qed.

Lemma and_taxable_shape s : shape_sel s -> shape_sel (fun p => s p && negb (taxExempt p)).
Proof.
  intros Hs p p' E. rewrite (Hs _ _ E). by destruct (payee_shape_sel _ _ E) as (_ & _ & _ & ->).
Qed.

(** The whole function as two passes after the first loop. *)
Lemma resolvePayeeAmounts_passes ps lic ps3 total :
  resolvePayeeAmounts ps lic = (ps3, total) ->
  exists ps1 st1 ps2 t2 x2 t3,
    firstPass (default bd_zero lic) 0 ps
      {| rs_tmp := bd_zero; rs_total := bd_zero; rs_taxable := bd_zero;
         rs_pot := []; rs_tax := [] |} = (ps1, st1) /\
    settlePass is_ptotal (rs_total st1) ps1 (rs_total st1) (Some (rs_taxable st1))
      = (ps2, t2, Some x2) /\
    settlePass is_tax x2 ps2 t2 None = (ps3, t3, None) /\
    total = bd_round t3.
Proof.
  unfold resolvePayeeAmounts.
  destruct (firstPass _ _ _ _) as [ps1 st1] eqn:E1.
  pose proof (firstPass_spec _ _ _ _ _ _ E1) as (Hlen & Hk & _ & _ & Hpot & Htax).
  assert (Forall2 (fun p p' => payee_shape p' = payee_shape p) ps ps1) as Hsh.
  { apply Forall2_same_length_lookup. split; [done|]. intros k p p' Hp Hp'.
    destruct (Hk _ _ _ Hp Hp') as (? & _ & ?%first_rel_shape). done. }
  simpl in Hpot, Htax. rewrite Hpot, Htax.
  rewrite <-(shape_positions _ 0 _ _ is_ptotal_shape Hsh).
  destruct (settlePass is_ptotal (rs_total st1) ps1 (rs_total st1) (Some (rs_taxable st1)))
    as [[ps2 t2] tx2] eqn:E2.
  destruct (settlePass_Some _ _ _ _ _ _ _ _ E2) as [x2 ->].
  pose proof (settlePass_spec _ _ _ _ _ _ _ _ is_ptotal_shape E2) as (HF2 & _).
  pose proof (potStep_pass _ _ [] _ _ _ _ _ _ E2) as P2. simpl in P2. rewrite P2.
  assert (Forall2 (fun p p' => payee_shape p' = payee_shape p) ps ps2) as Hsh2.
  { eapply Forall2_trans; [|exact Hsh|exact HF2].
    intros p q r Hq Hr%pass_rel_shape. congruence. }
  rewrite <-(shape_positions _ 0 _ _ is_tax_shape Hsh2).
  destruct (settlePass is_tax x2 ps2 t2 None) as [[ps4 t3] tx3] eqn:E3.
  pose proof (settlePass_None _ _ _ _ _ _ _ E3). subst tx3.
  pose proof (taxStep_pass _ _ [] _ _ _ _ E3) as P3. simpl in P3. rewrite P3. intros [=]; subst.
  eauto 15.
Qed.

(** ** Resolution *)

(** The number the percentage of a payee of type [ty] at position [k] is taken
    of, in terms of the resolved list. *)
Definition resolution_base (license : D) (final : list Payee) (k : nat) (ty : string) (base : D)
  : Prop :=
  (ty = PAYEE_AMOUNT_TYPE_PLICENSE -> base = license) /\
  (ty = PAYEE_AMOUNT_TYPE_PCUMULATIVE ->
     bd_val base == payee_sum is_immediate (take k final)) /\
  (ty = PAYEE_AMOUNT_TYPE_PTOTAL -> bd_val base == payee_sum is_immediate final) /\
  (ty = PAYEE_AMOUNT_TYPE_TAX -> bd_val base == payee_sum is_taxed final).

Lemma is_immediate_not_ptotal p : is_immediate p = true -> is_ptotal p = false.
Proof. unfold is_immediate. by destruct (is_ptotal p). Qed.

Lemma is_immediate_not_tax p : is_immediate p = true -> is_tax p = false.
Proof. unfold is_immediate. by destruct (is_ptotal p), (is_tax p). Qed.

Lemma is_ptotal_not_tax p : is_ptotal p = true -> is_tax p = false.
Proof. pose proof (ptotal_tax p). by destruct (is_ptotal p). Qed.

Lemma not_immediate p : is_immediate p = false -> is_ptotal p = true \/ is_tax p = true.
Proof. unfold is_immediate. destruct (is_ptotal p), (is_tax p); naive_solver. Qed.

(** Sums over the resolved list, from the lists between the passes. *)
Lemma pass_sums m1 m2 ps1 ps2 ps3 :
  Forall2 (pass_rel is_ptotal m1) ps1 ps2 -> Forall2 (pass_rel is_tax m2) ps2 ps3 ->
  (forall k, payee_sum is_immediate (take k ps1) = payee_sum is_immediate (take k ps3)) /\
  payee_sum is_immediate ps1 + payee_sum is_ptotal ps2 + payee_sum is_tax ps3
    == payee_sum (fun _ => true) ps3 /\
  payee_sum (fun p => is_immediate p && negb (taxExempt p)) ps1 +
    payee_sum (fun p => is_ptotal p && negb (taxExempt p)) ps2 == payee_sum is_taxed ps3.
Proof.
  intros H2 H3. assert (forall k, payee_sum is_immediate (take k ps1) =
    payee_sum is_immediate (take k ps3)) as Hk.
  { intros k.
    rewrite (pass_sum is_tax m2 is_immediate (take k ps2) (take k ps3));
      [|by apply Forall2_take|exact is_immediate_shape|exact is_immediate_not_tax].
    by rewrite (pass_sum is_ptotal m1 is_immediate (take k ps1) (take k ps2));
      [|by apply Forall2_take|exact is_immediate_shape|exact is_immediate_not_ptotal]. }
  split; [done|].
  rewrite <-(pass_sum is_tax m2 is_ptotal ps2 ps3 H3 is_ptotal_shape is_ptotal_not_tax).
  rewrite <-(pass_sum is_tax m2 (fun p => is_ptotal p && negb (taxExempt p)) ps2 ps3 H3);
    [|apply and_taxable_shape, is_ptotal_shape|intros p [? _]%andb_prop; by apply is_ptotal_not_tax].
  rewrite <-(pass_sum is_ptotal m1 (fun p => is_immediate p && negb (taxExempt p)) ps1 ps2 H2);
    [|apply and_taxable_shape, is_immediate_shape
     |intros p [? _]%andb_prop; by apply is_immediate_not_ptotal].
  rewrite <-(pass_sum is_tax m2 (fun p => is_immediate p && negb (taxExempt p)) ps2 ps3 H3);
    [|apply and_taxable_shape, is_immediate_shape
     |intros p [? _]%andb_prop; by apply is_immediate_not_tax].
  specialize (Hk (length ps1 + length ps3)%nat). rewrite !take_ge in Hk by lia. rewrite Hk. split.
  - rewrite (payee_sum_split (fun _ => true) (fun p => is_immediate p || is_ptotal p) is_tax).
    + rewrite (payee_sum_split (fun p => is_immediate p || is_ptotal p) is_immediate is_ptotal);
        [reflexivity|done|].
      intros p. unfold is_immediate. by destruct (is_ptotal p), (is_tax p).
    + intros p. unfold is_immediate. by destruct (is_ptotal p), (is_tax p).
    + intros p. pose proof (ptotal_tax p). unfold is_immediate.
      by destruct (is_ptotal p), (is_tax p).
  - symmetry. apply payee_sum_split; intros p; pose proof (ptotal_tax p); unfold is_taxed, is_immediate;
      by destruct (is_ptotal p), (is_tax p), (taxExempt p).
Qed.

(** One payee through the three loops. *)
Lemma three_loops license sofar m1 m2 p p1 p2 p3 :
  first_rel license sofar p p1 -> pass_rel is_ptotal m1 p1 p2 -> pass_rel is_tax m2 p2 p3 ->
  payee_shape p3 = payee_shape p /\ amountResolved p3 = true /\
  (is_flat p = true -> amount p3 = amount p) /\
  (is_flat p = false -> exists base, settled p base p3 /\
     (amountType p = PAYEE_AMOUNT_TYPE_PLICENSE -> base = license) /\
     (amountType p = PAYEE_AMOUNT_TYPE_PCUMULATIVE -> bd_val base == sofar) /\
     (amountType p = PAYEE_AMOUNT_TYPE_PTOTAL -> base = m1) /\
     (amountType p = PAYEE_AMOUNT_TYPE_TAX -> base = m2)).
Proof.
  intros H1 H2 H3. pose proof (first_rel_shape _ _ _ _ H1) as S1.
  pose proof (pass_rel_shape _ _ _ _ H2) as S2.
  unfold pass_rel in *. rewrite (is_tax_shape _ _ S2) in H3.
  rewrite (is_tax_shape _ _ S1) in H3. rewrite (is_ptotal_shape _ _ S1) in H2.
  unfold first_rel in H1. destruct (is_immediate p) eqn:Hi.
  - rewrite (is_immediate_not_ptotal _ Hi) in H2. rewrite (is_immediate_not_tax _ Hi) in H3.
    subst p2 p3. destruct (is_flat p) eqn:Hf; [by subst|].
    destruct H1 as (base & Hs & Hl & Hc). destruct (Hs) as (? & ? & ?).
    split_and!; try done. intros _. exists base. split_and!; try done; intros E;
      revert Hi; unfold is_immediate, is_ptotal, is_tax; by rewrite E.
  - destruct (is_flat p) eqn:Hf; [by rewrite (is_flat_immediate _ Hf) in Hi|]. subst p1.
    destruct (not_immediate _ Hi) as [Ht|Ht].
    + rewrite Ht in H2. rewrite (is_ptotal_not_tax _ Ht) in H3. subst p3.
      destruct (H2) as (? & ? & ?). apply String.eqb_eq in Ht.
      split_and!; try done. intros _. exists m1. by rewrite Ht.
    + rewrite Ht in H3. assert (is_ptotal p = false) as Hp
        by (pose proof (ptotal_tax p); by destruct (is_ptotal p), (is_tax p)).
      rewrite Hp in H2. subst p2. destruct (H3) as (? & ? & ?). apply String.eqb_eq in Ht.
      split_and!; try done. intros _. exists m2. by rewrite Ht.
Qed.

(** The behaviour of the whole function, which the properties below share. *)
Lemma resolve_spec ps lic ps' total :
  resolvePayeeAmounts ps lic = (ps', total) ->
  length ps' = length ps /\
  (forall k p p', ps !! k = Some p -> ps' !! k = Some p' ->
     payee_shape p' = payee_shape p /\ amountResolved p' = true /\
     (is_flat p = true -> amount p' = amount p) /\
     (is_flat p = false -> exists base,
        settled p base p' /\
        resolution_base (default bd_zero lic) ps' k (amountType p) base)) /\
  bd_val total == trunc7 (payee_sum (fun _ => true) ps').
Proof.
  intros (ps1 & st1 & ps2 & t2 & x2 & t3 & E1 & E2 & E3 & ->)%resolvePayeeAmounts_passes.
  apply firstPass_spec in E1 as (L1 & K1 & T1 & X1 & _). simpl in *.
  rewrite val_zero, Qplus_0_l in T1, X1.
  apply settlePass_spec in E2 as (F2 & T2 & X2); [|exact is_ptotal_shape].
  apply settlePass_spec in E3 as (F3 & T3 & _); [|exact is_tax_shape].
  specialize (X2 _ _ eq_refl eq_refl).
  destruct (pass_sums _ _ _ _ _ F2 F3) as (Sk & St & Sx). split_and!.
  - by rewrite <-L1, (Forall2_length _ _ _ F2), (Forall2_length _ _ _ F3).
  - intros k p p' Hp Hp'.
    destruct (Forall2_lookup_r _ _ _ _ _ F3 Hp') as (p2 & Hp2 & R3).
    destruct (Forall2_lookup_r _ _ _ _ _ F2 Hp2) as (p1 & Hp1 & R2).
    destruct (K1 _ _ _ Hp Hp1) as (sofar & Hsf & R1).
    destruct (three_loops _ _ _ _ _ _ _ _ R1 R2 R3) as (? & ? & ? & Hb). split_and!; try done.
    intros Hf. destruct (Hb Hf) as (base & ? & ? & Hc & Hpt & Htx). exists base.
    split; [done|]. split_and!; [done| | |]; intros E.
    + by rewrite (Hc E), Hsf, val_zero, Sk, Qplus_0_l.
    + rewrite (Hpt E), T1. specialize (Sk (length ps1 + length ps')%nat).
      rewrite !take_ge in Sk by lia. by rewrite Sk.
    + by rewrite (Htx E), X2, X1.
  - by rewrite val_round, T3, T2, T1, St.
Qed.

Lemma resolve_shapes ps lic ps' total :
  resolvePayeeAmounts ps lic = (ps', total) ->
  Forall2 (fun p p' => payee_shape p' = payee_shape p /\ amountResolved p' = true) ps ps'.
Proof.
  intros (Hlen & Hk & _)%resolve_spec. apply Forall2_same_length_lookup. split; [done|].
  intros k p p' Hp Hp'. by destruct (Hk _ _ _ Hp Hp') as (? & ? & _).
Qed.

Lemma resolvePayeeAmounts_rounded ps lic ps' total :
  resolvePayeeAmounts ps lic = (ps', total) -> exists t, total = bd_round t.
Proof. unfold resolvePayeeAmounts. repeat case_match. intros [=]; subst. eauto. Qed.

(** C3 (conservation): resolving a list of payees resolves every one of them,
    changes nothing of a payee but its amount and its resolved flag, and
    returns as total the sum of all resolved amounts truncated to 7 digits. *)
Theorem resolvePayeeAmounts_total ps lic :
  let '(ps', total) := resolvePayeeAmounts ps lic in
  Forall2 (fun p p' => payee_shape p' = payee_shape p /\ amountResolved p' = true) ps ps' /\
  bd_val total == trunc7 (payee_sum (fun _ => true) ps').
Proof.
  destruct (resolvePayeeAmounts ps lic) as [ps' total] eqn:E. split.
  - by eapply resolve_shapes.
  - by apply resolve_spec in E as (_ & _ & ?).
Qed.

(** C4 (amounts): a flat fee and an already resolved payee keep their amount;
    any other payee gets its percentage of the base its type names, or its
    minimum if that is more, rounded down to 7 digits.  The base is the
    license for a license percentage, the sum of the non-deferred payees
    before it for a cumulative one, the sum of all non-deferred payees for a
    percentage of the total, and the sum of all taxable non-tax payees for a
    tax. *)
Theorem resolvePayeeAmounts_amount ps lic k p :
  ps !! k = Some p ->
  exists p', (resolvePayeeAmounts ps lic).1 !! k = Some p' /\
    if is_flat p || amountResolved p then amount p' = amount p
    else exists base,
      resolution_base (default bd_zero lic) (resolvePayeeAmounts ps lic).1 k (amountType p) base /\
      amount p' = bd_to_string (settle p base).
Proof.
  intros Hp. destruct (resolvePayeeAmounts ps lic) as [ps' total] eqn:E.
  apply resolve_spec in E as (Hlen & Hk & _).
  destruct (lookup_lt_is_Some_2 ps' k) as [p' Hp'].
  { rewrite Hlen. by eapply lookup_lt_Some. }
  exists p'. split; [done|]. destruct (Hk _ _ _ Hp Hp') as (_ & _ & Hf & Hn).
  destruct (is_flat p); simpl; [by apply Hf|].
  destruct (Hn eq_refl) as (base & (_ & _ & Ha) & Hb).
  destruct (amountResolved p); eauto.
Qed.

(** (idempotence): resolving the result again, against whatever license
    amount, changes no payee and gives the same total. *)
Theorem resolvePayeeAmounts_idempotent ps lic lic' :
  let '(ps', total) := resolvePayeeAmounts ps lic in
  (resolvePayeeAmounts ps' lic').1 = ps' /\ (resolvePayeeAmounts ps' lic').2 ≡ total.
Proof.
  destruct (resolvePayeeAmounts ps lic) as [ps' total] eqn:E1.
  destruct (resolvePayeeAmounts ps' lic') as [ps'' total'] eqn:E2. simpl.
  pose proof (resolve_shapes _ _ _ _ E1) as F1.
  apply resolve_spec in E1 as (_ & _ & T1). apply resolve_spec in E2 as (L2 & K2 & T2).
  assert (ps'' = ps') as ->.
  { apply list_eq_same_length with (length ps'); [done|done|].
    intros k q' q _ Hq' Hq. destruct (K2 _ _ _ Hq Hq') as (S & R & Hf & Hn).
    destruct (Forall2_lookup_r _ _ _ _ _ F1 Hq) as (? & _ & _ & Hr).
    apply payee_shape_eq; [done| |congruence].
    destruct (is_flat q); [by apply Hf|]. destruct (Hn eq_refl) as (? & (_ & _ & ->) & _).
    by rewrite Hr. }
  split; [done|]. rewrite bd_equiv_val. by rewrite T1, T2.
Qed.

(** ** Total prices *)

Lemma pricePieces_spec n ps c ps' c' :
  pricePieces n ps c = (ps', c') ->
  Forall2 (fun p p' => payee_val p' == trunc7 (payee_val p * inject_Z n)) ps ps' /\
  bd_val c' == bd_val c + payee_sum (fun _ => true) ps'.
Proof.
  revert c ps'. induction ps as [|p ps IH]; intros c ps'; simpl.
  - intros [=]; subst. split; [constructor|simpl; ring].
  - destruct (pricePieces _ _ _) as [ps1 c1] eqn:E. intros [=]; subst.
    apply IH in E as [HF Hc]. split.
    + constructor; [|done]. unfold payee_val. simpl.
      by rewrite val_print, val_round, val_mul, val_of_Z.
    + rewrite Hc, val_add. simpl. unfold payee_val at 1. simpl. rewrite val_print. ring.
Qed.

(** With no preset amounts and at least one piece, the printed total is the
    sum of the totals of the returned license, data and piece payees, each
    piece payee being charged its amount once per piece. *)
Theorem getTotalPrice_total o n dps pps :
  licenseAmount o = None -> dataAmount o = None -> dataPayees o = Some dps ->
  filePieceCount o = Some n -> piecePayees o = Some pps -> (0 < n)%Z ->
  exists dps' pps',
    dataPayees (getTotalPrice (D:=D) o).1 = Some dps' /\
    piecePayees (getTotalPrice (D:=D) o).1 = Some pps' /\
    Forall2 (fun p p' => payee_val p' == trunc7 (payee_val p * inject_Z n)) pps pps' /\
    bd_val (bd_of_string (tp_total (getTotalPrice (D:=D) o).2) : D) ==
      trunc7 (trunc7 (payee_sum (fun _ => true) (licensePayees (getTotalPrice (D:=D) o).1)) +
              trunc7 (payee_sum (fun _ => true) dps') +
              payee_sum (fun _ => true) pps').
Proof.
  intros HL HD Hd Hn Hp Hpos. unfold getTotalPrice. rewrite HL, HD, Hd, Hn, Hp.
  apply Z.ltb_lt in Hpos. rewrite Hpos.
  destruct (resolvePayeeAmounts (licensePayees o) None) as [lps lcost] eqn:E1.
  destruct (resolvePayeeAmounts dps (Some lcost)) as [dps' dcost] eqn:E2.
  destruct (pricePieces n pps bd_zero) as [pps' pcost] eqn:E3. simpl.
  apply resolve_spec in E1 as (_ & _ & T1). apply resolve_spec in E2 as (_ & _ & T2).
  apply pricePieces_spec in E3 as [HF T3]. rewrite val_zero, Qplus_0_l in T3.
  exists dps', pps'. split_and!; try done.
  by rewrite val_print, val_round, !val_add, T1, T2, T3.
Qed.
End PayeeSpec.

Import Exact.

(** ** A worked list *)

(** Amounts count ten-millionths: a 2.00 flat fee, 10% of what precedes it, 50%
    of the total with a minimum, and a 5% tax. *)
Definition sample_payee (ty amt pct : string) (mn : option string) (exempt : bool) : Payee :=
  {| payee_id := "9000"; amountType := ty; amountResolved := false; amount := amt;
     percentage := pct; payee_min := mn; description := None; taxExempt := exempt;
     nontaxable := None |}.

Definition sample_payees : list Payee :=
  [ sample_payee PAYEE_AMOUNT_TYPE_TAX "" "500000" None false;
    sample_payee PAYEE_AMOUNT_TYPE_FLATFEE "20000000" "" None false;
    sample_payee PAYEE_AMOUNT_TYPE_PTOTAL "" "5000000" (Some "15000000") true;
    sample_payee PAYEE_AMOUNT_TYPE_PCUMULATIVE "" "1000000" None false ].

Definition sample_options : PriceOptions :=
  {| licenseAmount := None; licensePayees := sample_payees; dataAmount := None;
     dataPayees := Some [sample_payee PAYEE_AMOUNT_TYPE_PLICENSE "" "1000000" None false];
     filePieceCount := Some 3%Z;
     piecePayees := Some [sample_payee PAYEE_AMOUNT_TYPE_FLATFEE "100" "" None false] |}.

(** The resolved amounts: 0.11 tax on 2.20, 2.00, the minimum 1.50 and 0.20. *)
Example sample_amounts :
  map amount (resolvePayeeAmounts (D:=Q) sample_payees None).1 =
  ["1100000"; "20000000"; "15000000"; "2000000"].
Proof. vm_compute. reflexivity. Qed.

Lemma resolvePayeeAmounts_amount_witness :
  exists p', (resolvePayeeAmounts (D:=Q) sample_payees None).1 !! 0%nat = Some p' /\
    exists base : Q,
      resolution_base bd_zero (resolvePayeeAmounts (D:=Q) sample_payees None).1 0
        PAYEE_AMOUNT_TYPE_TAX base /\
      amount p' = bd_to_string (settle (sample_payee PAYEE_AMOUNT_TYPE_TAX "" "500000" None false) base).
Proof.
  exact (resolvePayeeAmounts_amount (D:=Q) sample_payees None 0
    (sample_payee PAYEE_AMOUNT_TYPE_TAX "" "500000" None false) eq_refl).
Defined.

Lemma getTotalPrice_total_witness :
  exists dps', dataPayees (getTotalPrice (D:=Q) sample_options).1 = Some dps'.
Proof.
  destruct (getTotalPrice_total (D:=Q) sample_options 3
    [sample_payee PAYEE_AMOUNT_TYPE_PLICENSE "" "1000000" None false]
    [sample_payee PAYEE_AMOUNT_TYPE_FLATFEE "100" "" None false]
    eq_refl eq_refl eq_refl eq_refl eq_refl eq_refl) as (dps' & _ & Hd & _).
  exists dps'. exact Hd.
Defined.
