(* ===== verification/Signer.v ===== *)
(** Signed documents ([cpp/common/Signer.cpp], [cpp/common/Tools.cpp]).

    Media, contracts, contract sections, file pieces and deposits are signed by
    concatenating their members into a string and signing that.  The functions
    that build the string also rewrite the payees they visit, so they return
    the document along with the string.  The digital signature, hexadecimal
    coding and message digest of the Monarch library are an interface. *)
From S2P Require Import Prelude DynMap Payees.

Local Open Scope string_scope.

(** * The cryptographic interface *)

(** [DigitalSignature], [Convert::bytesToHex] and [Convert::hexToBytes]. *)
Class SignatureScheme (PrivateKey PublicKey : Type) := {
  ds_value : PrivateKey -> string -> string;
  ds_verify : PublicKey -> string -> string -> bool;
  bytesToHex : string -> string;
  hexToBytes : string -> string
}.

(** Decoding inverts encoding, and a key pair's public half accepts what the
    private half signed. *)
Class SignatureLaws (PrivateKey PublicKey : Type) `{SignatureScheme PrivateKey PublicKey} := {
  public_key : PrivateKey -> PublicKey;
  hex_round : forall b, hexToBytes (bytesToHex b) = b;
  verify_own : forall k c, ds_verify (public_key k) c (ds_value k c) = true
}.

(** A signature is good for the content it was made for and no other. *)
Definition signatures_exact {PrivateKey PublicKey} `{SignatureLaws PrivateKey PublicKey} : Prop :=
  forall k c c', ds_verify (public_key k) c' (ds_value k c) = true -> c' = c.

(** * Documents *)

(** A [Profile]: its owner, its id and its private key if it has one. *)
Record Profile (PrivateKey : Type) := {
  profile_userId : Z;
  profile_id : Z;
  profile_key : option PrivateKey
}.
Arguments profile_userId {_} _.
Arguments profile_id {_} _.
Arguments profile_key {_} _.

Record Contributor := {
  c_id : string; c_name : string; c_ownerId : string; c_role : string;
  c_roleId : string; c_description : string; c_type : string
}.

(** The members of a [Media] that its own and its collections' content use. *)
Record BasicMedia := {
  m_id : string; m_buyerId : string; m_expiration : string; m_type : string;
  m_ownerId : string; m_title : string; m_releaseDate : string;
  m_publicDomain : string; m_ccLicenses : string; m_distribution : string;
  m_contributors : dmap (list Contributor)
}.

Record PayeeRule := { pr_mediaId : string; pr_type : string; pr_value : string }.

Record Media := {
  m_basic : BasicMedia;
  m_contents : list (list BasicMedia);
  m_payees : list Payee;
  m_payeeRules : list PayeeRule;
  m_licenseAmount : string;
  m_piecePayees : list Payee;
  m_signature : option string;
  m_signer : option (Z * Z)
}.

(** A [Contract]: its media and its own signature. *)
Record Contract := { ct_media : Media; ct_signature : option string }.

Record FileInfo := { fi_id : string; fi_contentSize : string; fi_mediaId : string }.

Record Ware := {
  w_id : string; w_mediaId : string; w_fileInfos : list FileInfo; w_payees : list Payee
}.

Record Buyer := {
  b_delegateId : option string; b_profileId : string; b_userId : string; b_username : string
}.

Record Seller := {
  s_profileId : string; s_serverId : string; s_url : string; s_userId : string;
  s_username : string
}.

Record ContractSection := {
  cs_buyer : Buyer;
  cs_seller : Seller;
  cs_negotiationTerms : dmap string;
  cs_ware : Ware;
  cs_sellerSignature : option string;
  cs_sellerProfileId : option Z;
  cs_buyerSignature : option string;
  cs_buyerProfileId : option Z
}.

(** A [FilePiece]; an absent ["ciphered"] reads as the empty string and false. *)
Record FilePiece := {
  fp_ciphered : option bool;
  fp_index : string;
  fp_size : string;
  fp_openKeyData : string;
  fp_pieceKeyData : string;
  fp_sellerSignature : option string;
  fp_sellerProfileId : option Z;
  fp_bfpSignature : option string;
  fp_bfpId : option Z
}.

Record Address := {
  a_street : string; a_locality : string; a_region : string; a_postalCode : string;
  a_countryCode : string
}.

Record CreditCard := {
  cc_type : string; cc_number : string; cc_expMonth : string; cc_expYear : string;
  cc_cvm : string; cc_address : Address
}.

Record Deposit := {
  d_type : string;
  d_date : string;
  d_signatureVersion : option Z;
  d_gateway : string;
  d_source : CreditCard;
  d_payees : list Payee;
  d_total : string;
  d_signature : option string;
  d_signer : option (Z * Z)
}.

(** * Content strings *)

Definition appendContributor (str : string) (c : Contributor) : string :=
  str +:+ c_id c +:+ c_name c +:+ c_ownerId c +:+ c_role c +:+ c_roleId c +:+
  c_description c +:+ c_type c.

Definition appendContributorsContent (contributors : dmap (list Contributor)) (str : string)
  : string :=
  foldl (fun s e => foldl appendContributor (s +:+ e.1) e.2) str contributors.

Definition appendBasicMediaContent (m : BasicMedia) (str : string) : string :=
  appendContributorsContent (m_contributors m)
    (str +:+ m_id m +:+ m_buyerId m +:+ m_expiration m +:+ m_type m +:+ m_ownerId m +:+
     m_title m +:+ m_releaseDate m +:+ m_publicDomain m +:+ m_ccLicenses m +:+ m_distribution m).

Definition set_taxExempt (b : bool) (p : Payee) : Payee :=
  {| payee_id := payee_id p; amountType := amountType p; amountResolved := amountResolved p;
     amount := amount p; percentage := percentage p; payee_min := payee_min p;
     description := description p; taxExempt := b; nontaxable := nontaxable p |}.

(** The payee is returned because a ["nontaxable"] member overwrites its
    ["taxExempt"] on the way. *)
Definition appendPayeeContent (p : Payee) (str : string) : Payee * string :=
  let str := str +:+ payee_id p +:+ amountType p in
  let str :=
    if String.eqb (amountType p) PAYEE_AMOUNT_TYPE_FLATFEE then str +:+ amount p
    else
      (if amountResolved p then str +:+ "1" +:+ amount p else str +:+ "0") +:+ percentage p in
  let p := match nontaxable p with Some b => set_taxExempt b p | None => p end in
  let str := str +:+ (if taxExempt p then "1" else "0") in
  (p, match description p with Some d => str +:+ d | None => str end).

Fixpoint appendPayees (ps : list Payee) (str : string) : list Payee * string :=
  match ps with
  | [] => ([], str)
  | p :: ps' =>
      let '(p', str) := appendPayeeContent p str in
      let '(ps'', str) := appendPayees ps' str in
      (p' :: ps'', str)
  end.

Definition appendPayeeRuleContent (str : string) (pr : PayeeRule) : string :=
  str +:+ pr_mediaId pr +:+ pr_type pr +:+ pr_value pr.

Definition appendMediaContent (m : Media) (str : string) : Media * string :=
  let str := appendBasicMediaContent (m_basic m) str in
  let str :=
    if String.eqb (m_type (m_basic m)) "collection" then
      foldl (fun s group => foldl (fun s media => appendBasicMediaContent media s) s group)
        str (m_contents m)
    else str in
  let '(payees, str) := appendPayees (m_payees m) str in
  let str := foldl appendPayeeRuleContent str (m_payeeRules m) in
  let str := str +:+ m_licenseAmount m in
  let '(piecePayees, str) := appendPayees (m_piecePayees m) str in
  ({| m_basic := m_basic m; m_contents := m_contents m; m_payees := payees;
      m_payeeRules := m_payeeRules m; m_licenseAmount := m_licenseAmount m;
      m_piecePayees := piecePayees; m_signature := m_signature m; m_signer := m_signer m |}, str).

Definition appendFileInfoContent (str : string) (fi : FileInfo) : string :=
  str +:+ fi_id fi +:+ fi_contentSize fi +:+ fi_mediaId fi.

Definition appendWareContent (w : Ware) (str : string) : Ware * string :=
  let str := str +:+ w_id w +:+ w_mediaId w in
  let str := foldl appendFileInfoContent str (w_fileInfos w) in
  let '(payees, str) := appendPayees (w_payees w) str in
  ({| w_id := w_id w; w_mediaId := w_mediaId w; w_fileInfos := w_fileInfos w;
      w_payees := payees |}, str).

Definition set_ware (w : Ware) (cs : ContractSection) : ContractSection :=
  {| cs_buyer := cs_buyer cs; cs_seller := cs_seller cs;
     cs_negotiationTerms := cs_negotiationTerms cs; cs_ware := w;
     cs_sellerSignature := cs_sellerSignature cs; cs_sellerProfileId := cs_sellerProfileId cs;
     cs_buyerSignature := cs_buyerSignature cs; cs_buyerProfileId := cs_buyerProfileId cs |}.

Definition appendContractSectionContent (cs : ContractSection) (str : string)
  : ContractSection * string :=
  let b := cs_buyer cs in
  let s := cs_seller cs in
  let str := match b_delegateId b with Some d => str +:+ d | None => str end in
  let str := str +:+ b_profileId b +:+ b_userId b +:+ b_username b in
  let str := str +:+ s_profileId s +:+ s_serverId s +:+ s_url s +:+ s_userId s +:+ s_username s in
  let str := foldl (fun acc e => acc +:+ e.2) str (cs_negotiationTerms cs) in
  let '(w, str) := appendWareContent (cs_ware cs) str in
  (set_ware w cs, str).

(** [getString] of a possibly absent Boolean. *)
Definition bool_getString (b : option bool) : string :=
  match b with Some true => "true" | Some false => "false" | None => "" end.

Definition appendFilePieceContent (csHash fileId : string) (fp : FilePiece) (str : string)
  : string :=
  let str := str +:+ csHash +:+ fileId +:+ bool_getString (fp_ciphered fp) +:+ fp_index fp +:+
             fp_size fp in
  if default false (fp_ciphered fp) then str +:+ fp_openKeyData fp +:+ fp_pieceKeyData fp else str.

Definition appendAddressContent (a : Address) (str : string) : string :=
  str +:+ a_street a +:+ a_locality a +:+ a_region a +:+ a_postalCode a +:+ a_countryCode a.

Definition appendCreditCardContent (c : CreditCard) (str : string) : string :=
  appendAddressContent (cc_address c)
    (str +:+ cc_type c +:+ cc_number c +:+ cc_expMonth c +:+ cc_expMonth c +:+ cc_cvm c).

Definition appendDepositContent (d : Deposit) (str : string) : Deposit * string :=
  let str := str +:+ d_type d +:+ d_date d in
  let str :=
    match d_signatureVersion d with
    | Some v => if (v =? 2)%Z then str +:+ d_gateway d else str
    | None => str
    end in
  let str := if String.eqb (d_type d) "creditcard" then appendCreditCardContent (d_source d) str
             else str in
  let '(payees, str) := appendPayees (d_payees d) str in
  ({| d_type := d_type d; d_date := d_date d; d_signatureVersion := d_signatureVersion d;
      d_gateway := d_gateway d; d_source := d_source d; d_payees := payees;
      d_total := d_total d; d_signature := d_signature d; d_signer := d_signer d |},
   str +:+ d_total d).

(** * Signing and verifying *)

Definition missing_private_key : string := "bitmunk.common.MissingPrivateKey".

Section Sign.
Context {PrivateKey PublicKey : Type} `{SignatureScheme PrivateKey PublicKey}.

(** [Signer::sign]: the hex-encoded signature. *)
Definition sign (p : Profile PrivateKey) (content : string) : outcome string :=
  match profile_key p with
  | Some k => Ok (bytesToHex (ds_value k content))
  | None => Raise missing_private_key
  end.

(** [Signer::verify]. *)
Definition verify (pkey : PublicKey) (content signature : string) : outcome unit :=
  if ds_verify pkey content (hexToBytes signature) then Ok tt
  else Raise "bitmunk.common.BadPublicKey".

Definition media_signed (m : Media) (sig : string) (p : Profile PrivateKey) : Media :=
  {| m_basic := m_basic m; m_contents := m_contents m; m_payees := m_payees m;
     m_payeeRules := m_payeeRules m; m_licenseAmount := m_licenseAmount m;
     m_piecePayees := m_piecePayees m; m_signature := Some sig;
     m_signer := Some (profile_userId p, profile_id p) |}.

Definition signMedia (m : Media) (p : Profile PrivateKey) : Media * outcome unit :=
  let '(m, content) := appendMediaContent m "" in
  match sign p content with
  | Ok sig => (media_signed m sig p, Ok tt)
  | Raise e => (m, Raise e)
  end.

Definition verifyMedia (m : Media) (pkey : PublicKey) : Media * outcome unit :=
  match m_signature m with
  | None => (m, Raise "bitmunk.common.VerifyMedia")
  | Some sig =>
      let '(m, content) := appendMediaContent m "" in
      if succeeded (verify pkey content sig) then (m, Ok tt)
      else (m, Raise "bitmunk.common.VerifyMedia")
  end.

(** A contract's content is the signature of its media, empty if there is none. *)
Definition contract_content (c : Contract) : string := default "" (m_signature (ct_media c)).

Definition signContract (c : Contract) (p : Profile PrivateKey) : Contract * outcome unit :=
  match sign p (contract_content c) with
  | Ok sig => ({| ct_media := ct_media c; ct_signature := Some sig |}, Ok tt)
  | Raise e => (c, Raise e)
  end.

Definition verifyContract (c : Contract) (pkey : PublicKey) : outcome unit :=
  match ct_signature c with
  | None => Raise "bitmunk.common.VerifyContract"
  | Some sig =>
      if succeeded (verify pkey (contract_content c) sig) then Ok tt
      else Raise "bitmunk.common.VerifyContract"
  end.

Definition section_signed (cs : ContractSection) (sig : string) (p : Profile PrivateKey)
  (seller : bool) : ContractSection :=
  if seller then
    {| cs_buyer := cs_buyer cs; cs_seller := cs_seller cs;
       cs_negotiationTerms := cs_negotiationTerms cs; cs_ware := cs_ware cs;
       cs_sellerSignature := Some sig; cs_sellerProfileId := Some (profile_id p);
       cs_buyerSignature := cs_buyerSignature cs; cs_buyerProfileId := cs_buyerProfileId cs |}
  else
    {| cs_buyer := cs_buyer cs; cs_seller := cs_seller cs;
       cs_negotiationTerms := cs_negotiationTerms cs; cs_ware := cs_ware cs;
       cs_sellerSignature := cs_sellerSignature cs; cs_sellerProfileId := cs_sellerProfileId cs;
       cs_buyerSignature := Some sig; cs_buyerProfileId := Some (profile_id p) |}.

Definition signContractSection (cs : ContractSection) (p : Profile PrivateKey) (seller : bool)
  : ContractSection * outcome unit :=
  let '(cs, content) := appendContractSectionContent cs "" in
  match sign p content with
  | Ok sig => (section_signed cs sig p seller, Ok tt)
  | Raise e => (cs, Raise e)
  end.

(** An exception's code: 0 for the seller's signature, 1 for the buyer's. *)
Inductive section_result := SectionOk | SectionError (code : Z).

Definition verifyContractSection (cs : ContractSection) (sellerKey : PublicKey)
  (buyerKey : option PublicKey) : ContractSection * section_result :=
  match cs_sellerSignature cs, buyerKey, cs_buyerSignature cs with
  | None, _, _ => (cs, SectionError 0)
  | Some _, Some _, None => (cs, SectionError 0)
  | Some sellerSig, _, buyerSig =>
      let '(cs, content) := appendContractSectionContent cs "" in
      let r := if succeeded (verify sellerKey content sellerSig) then SectionOk
               else SectionError 0 in
      let r :=
        match buyerKey with
        | Some bk => if succeeded (verify bk content (default "" buyerSig)) then r
                     else SectionError 1
        | None => r
        end in
      (cs, r)
  end.

Definition piece_signed (fp : FilePiece) (sig : string) (p : Profile PrivateKey) (seller : bool)
  : FilePiece :=
  if seller then
    {| fp_ciphered := fp_ciphered fp; fp_index := fp_index fp; fp_size := fp_size fp;
       fp_openKeyData := fp_openKeyData fp; fp_pieceKeyData := fp_pieceKeyData fp;
       fp_sellerSignature := Some sig; fp_sellerProfileId := Some (profile_id p);
       fp_bfpSignature := fp_bfpSignature fp; fp_bfpId := fp_bfpId fp |}
  else
    {| fp_ciphered := fp_ciphered fp; fp_index := fp_index fp; fp_size := fp_size fp;
       fp_openKeyData := fp_openKeyData fp; fp_pieceKeyData := fp_pieceKeyData fp;
       fp_sellerSignature := fp_sellerSignature fp; fp_sellerProfileId := fp_sellerProfileId fp;
       fp_bfpSignature := Some sig; fp_bfpId := Some (profile_id p) |}.

Definition signFilePiece (csHash fileId : string) (fp : FilePiece) (p : Profile PrivateKey)
  (seller : bool) : FilePiece * outcome unit :=
  match sign p (appendFilePieceContent csHash fileId fp "") with
  | Ok sig => (piece_signed fp sig p seller, Ok tt)
  | Raise e => (fp, Raise e)
  end.

Definition verifyFilePiece (csHash fileId : string) (fp : FilePiece) (pkey : PublicKey)
  (seller : bool) : outcome unit :=
  match (if seller then fp_sellerSignature fp else fp_bfpSignature fp) with
  | None => Raise "bitmunk.common.VerifyFilePiece"
  | Some sig =>
      if succeeded (verify pkey (appendFilePieceContent csHash fileId fp "") sig) then Ok tt
      else Raise "bitmunk.common.VerifyFilePiece"
  end.

Definition set_signatureVersion (v : option Z) (d : Deposit) : Deposit :=
  {| d_type := d_type d; d_date := d_date d; d_signatureVersion := v; d_gateway := d_gateway d;
     d_source := d_source d; d_payees := d_payees d; d_total := d_total d;
     d_signature := d_signature d; d_signer := d_signer d |}.

Definition deposit_signed (d : Deposit) (sig : string) (p : Profile PrivateKey) : Deposit :=
  {| d_type := d_type d; d_date := d_date d; d_signatureVersion := d_signatureVersion d;
     d_gateway := d_gateway d; d_source := d_source d; d_payees := d_payees d;
     d_total := d_total d; d_signature := Some sig;
     d_signer := Some (profile_userId p, profile_id p) |}.

Definition signDeposit (d : Deposit) (p : Profile PrivateKey) : Deposit * outcome unit :=
  let '(d, content) := appendDepositContent (set_signatureVersion (Some 2%Z) d) "" in
  match sign p content with
  | Ok sig => (deposit_signed d sig p, Ok tt)
  | Raise e => (set_signatureVersion None d, Raise e)
  end.

Definition verifyDeposit (d : Deposit) (pkey : PublicKey) : Deposit * outcome unit :=
  match d_signature d with
  | None => (d, Raise "bitmunk.common.VerifyDeposit")
  | Some sig =>
      let '(d, content) := appendDepositContent d "" in
      if succeeded (verify pkey content sig) then (d, Ok tt)
      else (d, Raise "bitmunk.common.VerifyDeposit")
  end.

(** [Tools::getContractSectionHash], [sha1] being the message digest. *)
Definition getContractSectionHash (sha1 : string -> string) (cs : ContractSection)
  : ContractSection * string :=
  let '(cs, str) := appendContractSectionContent cs "" in (cs, sha1 str).

(** ** Symmetric keys *)

Record SymmetricKey := { sk_algorithm : string; sk_data : string; sk_iv : string }.
Record KeyInfo := { ki_algorithm : string; ki_length : Z; ki_data : string }.

(** [Tools::populateSymmetricKey]: the first [length] bytes are the key, the
    rest is the initialization vector. *)
Definition populateSymmetricKey (ki : KeyInfo) : SymmetricKey :=
  let data := hexToBytes (ki_data ki) in
  let length := String.length data in
  let keyLength := Z.to_nat (ki_length ki) in
  {| sk_algorithm := ki_algorithm ki;
     sk_data := String.substring 0 keyLength data;
     sk_iv := if Nat.ltb keyLength length then String.substring keyLength (length - keyLength) data
              else "" |}.

(** [Tools::populateKeyInfo]. *)
Definition populateKeyInfo (key : SymmetricKey) : KeyInfo :=
  {| ki_algorithm := sk_algorithm key;
     ki_length := Z.of_nat (String.length (sk_data key));
     ki_data := bytesToHex (if Nat.ltb 0 (String.length (sk_iv key))
                            then sk_data key +:+ sk_iv key else sk_data key) |}.
End Sign.

(** * Content does not depend on signatures, and settles after one visit *)

Lemma appendPayeeContent_again p str :
  appendPayeeContent (appendPayeeContent p str).1 str = appendPayeeContent p str.
Proof.
  destruct p as [? ? ? ? ? ? ? ? [b|]]; unfold appendPayeeContent, set_taxExempt; reflexivity.
Qed.

Lemma appendPayees_again ps str :
  appendPayees (appendPayees ps str).1 str = appendPayees ps str.
Proof.
  revert str. induction ps as [|p ps IH]; intros str; cbn [appendPayees]; [done|].
  pose proof (appendPayeeContent_again p str) as Hp.
  destruct (appendPayeeContent p str) as [p' s1]. specialize (IH s1).
  destruct (appendPayees ps s1) as [ps' s2]. cbn [fst appendPayees] in *. by rewrite Hp, IH.
Qed.

(** Use of [appendPayees_again] on a result that was computed. *)
Lemma appendPayees_eq ps str ps' str' :
  appendPayees ps str = (ps', str') -> appendPayees ps' str = (ps', str').
Proof. intros E. pose proof (appendPayees_again ps str) as Ha. by rewrite E in Ha. Qed.

Lemma appendMediaContent_again m str m' str' :
  appendMediaContent m str = (m', str') -> appendMediaContent m' str = (m', str').
Proof.
  unfold appendMediaContent.
  destruct (appendPayees (m_payees m) _) as [ps1 s1] eqn:E1.
  destruct (appendPayees (m_piecePayees m) _) as [ps2 s2] eqn:E2. intros [=]; subst. simpl.
  by rewrite (appendPayees_eq _ _ _ _ E1), (appendPayees_eq _ _ _ _ E2).
Qed.

Lemma appendContractSectionContent_again cs str cs' str' :
  appendContractSectionContent cs str = (cs', str') ->
  appendContractSectionContent cs' str = (cs', str').
Proof.
  unfold appendContractSectionContent, appendWareContent.
  destruct (appendPayees (w_payees (cs_ware cs)) _) as [ps1 s1] eqn:E1. intros [=]; subst. simpl.
  by rewrite (appendPayees_eq _ _ _ _ E1).
Qed.

Lemma appendDepositContent_again d str d' str' :
  appendDepositContent d str = (d', str') -> appendDepositContent d' str = (d', str').
Proof.
  unfold appendDepositContent.
  destruct (appendPayees (d_payees d) _) as [ps1 s1] eqn:E1. intros [=]; subst. simpl.
  by rewrite (appendPayees_eq _ _ _ _ E1).
Qed.

Section SignatureFields.
Context {PrivateKey : Type}.
Implicit Types p : Profile PrivateKey.

Lemma media_signed_content m sig p m' str str' :
  appendMediaContent m str = (m', str') ->
  appendMediaContent (media_signed m sig p) str = (media_signed m' sig p, str').
Proof. unfold appendMediaContent. simpl. repeat case_match; by intros [=]; simplify_eq. Qed.

Lemma section_signed_content cs sig p seller cs' str str' :
  appendContractSectionContent cs str = (cs', str') ->
  appendContractSectionContent (section_signed cs sig p seller) str =
  (section_signed cs' sig p seller, str').
Proof.
  unfold appendContractSectionContent, section_signed. destruct seller; simpl;
    repeat case_match; by intros [=]; simplify_eq.
Qed.

Lemma piece_signed_content csHash fileId fp sig p seller str :
  appendFilePieceContent csHash fileId (piece_signed fp sig p seller) str =
  appendFilePieceContent csHash fileId fp str.
Proof. by destruct seller. Qed.

Lemma deposit_signed_content d sig p d' str str' :
  appendDepositContent d str = (d', str') ->
  appendDepositContent (deposit_signed d sig p) str = (deposit_signed d' sig p, str').
Proof. unfold appendDepositContent. simpl. repeat case_match; by intros [=]; simplify_eq. Qed.
End SignatureFields.

(** * Properties *)

Section SignerTheorems.
Context {PrivateKey PublicKey : Type} `{SignatureLaws PrivateKey PublicKey}.
Implicit Types (p : Profile PrivateKey) (k : PrivateKey).

Lemma verify_signed p k c :
  profile_key p = Some k ->
  exists sig, sign p c = Ok sig /\ sig = bytesToHex (ds_value k c) /\
    verify (public_key k) c sig = Ok tt.
Proof.
  intros Hk. unfold sign, verify. rewrite Hk. eexists. split_and!; [done..|].
  by rewrite hex_round, verify_own.
Qed.

(** (round trip): a media signed with a profile's private key is accepted by
    verification with the matching public key, which leaves it unchanged, and it
    names the signer; a contract signed over that media is accepted as well. *)
Theorem signMedia_verifyMedia m p k q kq :
  profile_key p = Some k -> profile_key q = Some kq ->
  let '(m', r) := signMedia m p in
  r = Ok tt /\ m_signer m' = Some (profile_userId p, profile_id p) /\
  verifyMedia m' (public_key k) = (m', Ok tt) /\
  let '(c, r') := signContract {| ct_media := m'; ct_signature := None |} q in
  r' = Ok tt /\ verifyContract c (public_key kq) = Ok tt.
Proof.
  intros Hp Hq. unfold signMedia. destruct (appendMediaContent m "") as [m1 content] eqn:E.
  destruct (verify_signed p k content Hp) as (sig & -> & _ & Hv). split_and!; try done.
  - unfold verifyMedia. simpl.
    rewrite (media_signed_content _ sig p _ _ _ (appendMediaContent_again _ _ _ _ E)). by rewrite Hv.
  - unfold signContract. simpl. unfold contract_content. simpl.
    destruct (verify_signed q kq sig Hq) as (sig' & -> & _ & Hv'). split; [done|].
    unfold verifyContract, contract_content. simpl. by rewrite Hv'.
Qed.

(** (tamper evidence): when a signature is good only for the content it was
    made for, a media that carries a signature made on [m] verifies exactly when
    its signed content is the content of [m]. *)
Theorem verifyMedia_exact m p k m2 :
  signatures_exact -> profile_key p = Some k ->
  m_signature m2 = m_signature (signMedia m p).1 ->
  (verifyMedia m2 (public_key k)).2 = Ok tt <->
  (appendMediaContent m2 "").2 = (appendMediaContent m "").2.
Proof.
  intros Hx Hp Hs. unfold signMedia in Hs. destruct (appendMediaContent m "") as [m1 c] eqn:E.
  destruct (verify_signed p k c Hp) as (sig & Hsign & Hsig & Hv). rewrite Hsign in Hs. simpl in Hs.
  unfold verifyMedia. rewrite Hs. destruct (appendMediaContent m2 "") as [m3 c2]. cbn [snd].
  split.
  - unfold verify. subst sig. rewrite hex_round.
    destruct (ds_verify _ _ _) eqn:Hd; simpl; [|done]. intros _. exact (Hx _ _ _ Hd).
  - intros ->. by rewrite Hv.
Qed.

(** The hash of a section is the same whoever has signed it. *)
Lemma section_signed_hash (sha1 : string -> string) cs sig p seller :
  (getContractSectionHash sha1 (section_signed cs sig p seller)).2 =
  (getContractSectionHash sha1 cs).2.
Proof.
  unfold getContractSectionHash. destruct (appendContractSectionContent cs "") as [cs' c] eqn:E.
  by rewrite (section_signed_content _ sig p seller _ _ _ E).
Qed.

(** C30 (two-party round trip): a section that the seller and then the buyer sign
    verifies with both public keys, and its hash, which the pieces' signatures
    are bound to, is the hash it had before it was signed. *)
Theorem signContractSection_verify (sha1 : string -> string) cs ps ks pb kb :
  profile_key ps = Some ks -> profile_key pb = Some kb ->
  let cs1 := (signContractSection cs ps true).1 in
  let '(cs2, r) := signContractSection cs1 pb false in
  r = Ok tt /\
  verifyContractSection cs2 (public_key ks) (Some (public_key kb)) = (cs2, SectionOk) /\
  (getContractSectionHash sha1 cs2).2 = (getContractSectionHash sha1 cs).2.
Proof.
  intros Hs Hb. unfold signContractSection.
  destruct (appendContractSectionContent cs "") as [cs0 c] eqn:E.
  pose proof (appendContractSectionContent_again _ _ _ _ E) as E0.
  destruct (verify_signed ps ks c Hs) as (sig & -> & _ & Hv). cbn [fst].
  pose proof (section_signed_content _ sig ps true _ _ _ E0) as E1. rewrite E1.
  destruct (verify_signed pb kb c Hb) as (sig' & -> & _ & Hv').
  pose proof (section_signed_content _ sig' pb false _ _ _ E1) as E2. split_and!; [done| |].
  - unfold verifyContractSection. rewrite E2. simpl. by rewrite Hv, Hv'.
  - rewrite !section_signed_hash. unfold getContractSectionHash. by rewrite E, E0.
Qed.

(** (round trip): a file piece signed by the seller and by the file processor
    verifies under both roles, each with its own key. *)
Theorem signFilePiece_verify csHash fileId fp ps ks pb kb :
  profile_key ps = Some ks -> profile_key pb = Some kb ->
  let fp1 := (signFilePiece csHash fileId fp ps true).1 in
  let '(fp2, r) := signFilePiece csHash fileId fp1 pb false in
  r = Ok tt /\ verifyFilePiece csHash fileId fp2 (public_key ks) true = Ok tt /\
  verifyFilePiece csHash fileId fp2 (public_key kb) false = Ok tt.
Proof.
  intros Hs Hb. unfold signFilePiece. set (c := appendFilePieceContent csHash fileId fp "").
  destruct (verify_signed ps ks c Hs) as (sig & -> & _ & Hv). cbn [fst].
  rewrite piece_signed_content. fold c.
  destruct (verify_signed pb kb c Hb) as (sig' & -> & _ & Hv'). split; [done|].
  unfold verifyFilePiece. rewrite !piece_signed_content. fold c. simpl piece_signed. cbn [fp_sellerSignature fp_bfpSignature]. by rewrite Hv, Hv'.
Qed.

(** (round trip and failure): signing a deposit with a private key marks it
    as version 2 and makes it verify with the matching public key; without a
    private key signing fails with the missing-key exception, leaves no
    signature version behind and keeps the old signature. *)
Theorem signDeposit_outcome d p :
  let '(d', r) := signDeposit d p in
  match profile_key p with
  | Some k => r = Ok tt /\ d_signatureVersion d' = Some 2%Z /\
              verifyDeposit d' (public_key k) = (d', Ok tt)
  | None => r = Raise missing_private_key /\ d_signatureVersion d' = None /\
            d_signature d' = d_signature d
  end.
Proof.
  unfold signDeposit.
  destruct (appendDepositContent (set_signatureVersion (Some 2%Z) d) "") as [d1 c] eqn:E.
  assert (d_signatureVersion d1 = Some 2%Z /\ d_signature d1 = d_signature d) as [Hv2 Hsg].
  { revert E. unfold appendDepositContent. simpl. case_match. by intros [=]; subst. }
  destruct (profile_key p) as [k|] eqn:Hk.
  - destruct (verify_signed p k c Hk) as (sig & -> & _ & Hv). split_and!; try done.
    unfold verifyDeposit. simpl.
    rewrite (deposit_signed_content _ sig p _ _ _ (appendDepositContent_again _ _ _ _ E)).
    by rewrite Hv.
  - unfold sign. by rewrite Hk.
Qed.

Definition set_expYear (y : string) (d : Deposit) : Deposit :=
  let c := d_source d in
  {| d_type := d_type d; d_date := d_date d; d_signatureVersion := d_signatureVersion d;
     d_gateway := d_gateway d;
     d_source := {| cc_type := cc_type c; cc_number := cc_number c;
                    cc_expMonth := cc_expMonth c; cc_expYear := y; cc_cvm := cc_cvm c;
                    cc_address := cc_address c |};
     d_payees := d_payees d; d_total := d_total d; d_signature := d_signature d;
     d_signer := d_signer d |}.

Lemma set_expYear_content d y str :
  (appendDepositContent (set_expYear y d) str).2 = (appendDepositContent d str).2.
Proof. unfold appendDepositContent, appendCreditCardContent. simpl. by case_match. Qed.

(** The expiration year of a credit card is not covered by the signature of
    a deposit: whatever the year is changed to, verification gives the same
    result. *)
Theorem verifyDeposit_ignores_expYear d y (pkey : PublicKey) :
  (verifyDeposit (set_expYear y d) pkey).2 = (verifyDeposit d pkey).2.
Proof.
  unfold verifyDeposit. cbn [set_expYear d_signature]. destruct (d_signature d) as [sig|]; [|done].
  pose proof (set_expYear_content d y "") as Hc.
  destruct (appendDepositContent (set_expYear y d) "") as [d1 c1].
  destruct (appendDepositContent d "") as [d2 c2]. cbn [snd] in Hc. subst c1.
  by destruct (succeeded (verify pkey c2 sig)).
Qed.

(** ** Keys *)

Lemma substring_append_l s t : String.substring 0 (String.length s) (s +:+ t) = s.
Proof.
  induction s as [|a s IH]; [by destruct t|].
  change (String a (String.substring 0 (String.length s) (s +:+ t)) = String a s). by rewrite IH.
Qed.

Lemma substring_append_r s t :
  String.substring (String.length s) (String.length t) (s +:+ t) = t.
Proof.
  induction s as [|a s IH]; [|exact IH]. change ("" +:+ t) with t. cbn [String.length].
  induction t as [|b t IH]; cbn [String.length String.substring]; [done|by rewrite IH].
Qed.

(** Round trip: writing a symmetric key to a key info and reading it back
    gives the same algorithm, key data and initialization vector. *)
Theorem populateKeyInfo_round key : populateSymmetricKey (populateKeyInfo key) = key.
Proof.
  destruct key as [alg data iv]. unfold populateSymmetricKey, populateKeyInfo. simpl.
  rewrite hex_round, Nat2Z.id. destruct iv as [|a iv].
  - simpl. rewrite Nat.ltb_irrefl. f_equal.
    pose proof (substring_append_l data "") as Hs. by rewrite string_app_nil_r in Hs.
  - rewrite (proj2 (Nat.ltb_lt 0 _)) by (simpl; lia). rewrite string_length_app.
    rewrite (proj2 (Nat.ltb_lt _ _)) by (simpl; lia).
    replace (String.length data + String.length (String a iv) - String.length data)%nat
      with (String.length (String a iv)) by lia.
    by rewrite substring_append_l, substring_append_r.
Qed.
End SignerTheorems.

(** * An instance *)

(** Hexadecimal coding and a signature that is a mark, the key and the content. *)
Module Sealed.
Definition hex_digit (n : N) : Ascii.ascii :=
  Ascii.ascii_of_N (if N.ltb n 10 then 48 + n else 87 + n).

Definition hex_value (c : Ascii.ascii) : N :=
  let n := Ascii.N_of_ascii c in if N.ltb n 97 then n - 48 else n - 87.

Fixpoint to_hex (s : string) : string :=
  match s with
  | EmptyString => EmptyString
  | String c s' =>
      let n := Ascii.N_of_ascii c in
      String (hex_digit (n / 16)) (String (hex_digit (n mod 16)) (to_hex s'))
  end.

Fixpoint of_hex (s : string) : string :=
  match s with
  | String a (String b s') =>
      String (Ascii.ascii_of_N (16 * hex_value a + hex_value b)) (of_hex s')
  | _ => EmptyString
  end.

Lemma of_to_hex s : of_hex (to_hex s) = s.
Proof.
  induction s as [|c s IH]; [done|]. cbn [to_hex of_hex]. rewrite IH. f_equal.
  by destruct c as [[] [] [] [] [] [] [] []].
Qed.

#[export] Instance sealed_scheme : SignatureScheme string string := {|
  ds_value := fun k c => "s" +:+ k +:+ c;
  ds_verify := fun k c s => String.eqb s ("s" +:+ k +:+ c);
  bytesToHex := to_hex;
  hexToBytes := of_hex
|}.

#[export] Program Instance sealed_laws : SignatureLaws string string := {|
  public_key := fun k => k
|}.
Next Obligation. apply of_to_hex. Qed.
Next Obligation. intros. apply String.eqb_refl. Qed.

Lemma sealed_exact : signatures_exact (PrivateKey := string) (PublicKey := string).
Proof.
  intros k c c' [= E]%String.eqb_eq. symmetry. by apply (inj (String.append k)).
Qed.

Definition profile (n : Z) (k : string) : Profile string :=
  {| profile_userId := n; profile_id := 1; profile_key := Some k |}.

Definition basic (title releaseDate : string) : BasicMedia :=
  {| m_id := "1"; m_buyerId := ""; m_expiration := ""; m_type := "audio"; m_ownerId := "900";
     m_title := title; m_releaseDate := releaseDate; m_publicDomain := "false";
     m_ccLicenses := ""; m_distribution := "public"; m_contributors := [] |}.

Definition payee : Payee :=
  {| payee_id := "9"; amountType := PAYEE_AMOUNT_TYPE_PTOTAL; amountResolved := false;
     amount := ""; percentage := "0.1"; payee_min := None; description := Some "fee";
     taxExempt := false; nontaxable := Some true |}.

Definition media (title releaseDate : string) : Media :=
  {| m_basic := basic title releaseDate; m_contents := []; m_payees := [payee];
     m_payeeRules := []; m_licenseAmount := ""; m_piecePayees := []; m_signature := None;
     m_signer := None |}.

Definition csection : ContractSection :=
  {| cs_buyer := {| b_delegateId := None; b_profileId := "1"; b_userId := "901";
                    b_username := "buyer" |};
     cs_seller := {| s_profileId := "1"; s_serverId := "2"; s_url := "localhost";
                     s_userId := "900"; s_username := "seller" |};
     cs_negotiationTerms := [];
     cs_ware := {| w_id := "ware"; w_mediaId := "1"; w_fileInfos := []; w_payees := [payee] |};
     cs_sellerSignature := None; cs_sellerProfileId := None; cs_buyerSignature := None;
     cs_buyerProfileId := None |}.

Definition piece : FilePiece :=
  {| fp_ciphered := Some true; fp_index := "0"; fp_size := "1000"; fp_openKeyData := "aa";
     fp_pieceKeyData := "bb"; fp_sellerSignature := None; fp_sellerProfileId := None;
     fp_bfpSignature := None; fp_bfpId := None |}.

(** The members are concatenated without separators: media that differ in title
    and release date can have one content. *)
Example media_content_shared :
  media "Song 1" "999" <> media "Song " "1999" /\
  (appendMediaContent (media "Song 1" "999") "").2 =
  (appendMediaContent (media "Song " "1999") "").2.
Proof. split; [discriminate|reflexivity]. Qed.
End Sealed.
Import Sealed.

Lemma signMedia_verifyMedia_witness :
  let '(m', r) := signMedia (media "Song" "1999") (profile 900 "k") in
  r = Ok tt /\ m_signer m' = Some (900%Z, 1%Z) /\ verifyMedia m' "k" = (m', Ok tt) /\
  let '(c, r') := signContract {| ct_media := m'; ct_signature := None |} (profile 901 "l") in
  r' = Ok tt /\ verifyContract c "l" = Ok tt.
Proof.
  exact (signMedia_verifyMedia (media "Song" "1999") (profile 900 "k") "k" (profile 901 "l") "l"
           eq_refl eq_refl).
Defined.

Lemma verifyMedia_exact_witness :
  (verifyMedia (signMedia (media "Song" "1999") (profile 900 "k")).1 "k").2 = Ok tt <->
  (appendMediaContent (signMedia (media "Song" "1999") (profile 900 "k")).1 "").2 =
  (appendMediaContent (media "Song" "1999") "").2.
Proof.
  exact (verifyMedia_exact (media "Song" "1999") (profile 900 "k") "k"
           (signMedia (media "Song" "1999") (profile 900 "k")).1 sealed_exact eq_refl eq_refl).
Defined.

Lemma signContractSection_verify_witness :
  let cs1 := (signContractSection csection (profile 900 "k") true).1 in
  let '(cs2, r) := signContractSection cs1 (profile 901 "l") false in
  r = Ok tt /\ verifyContractSection cs2 "k" (Some "l") = (cs2, SectionOk) /\
  (getContractSectionHash (fun s => s) cs2).2 = (getContractSectionHash (fun s => s) csection).2.
Proof.
  exact (signContractSection_verify (fun s => s) csection (profile 900 "k") "k" (profile 901 "l")
           "l" eq_refl eq_refl).
Defined.

Lemma signFilePiece_verify_witness :
  let fp1 := (signFilePiece "h" "f" piece (profile 900 "k") true).1 in
  let '(fp2, r) := signFilePiece "h" "f" fp1 (profile 901 "l") false in
  r = Ok tt /\ verifyFilePiece "h" "f" fp2 "k" true = Ok tt /\
  verifyFilePiece "h" "f" fp2 "l" false = Ok tt.
Proof.
  exact (signFilePiece_verify "h" "f" piece (profile 900 "k") "k" (profile 901 "l") "l"
           eq_refl eq_refl).
Defined.
