(* ===== verification/KeyCache.v ===== *)
(** The public key cache ([cpp/common/PublicKeyCache.cpp]).

    A map from (user, profile) pairs to keys, with a list of the pairs, newest
    first, that decides what to evict.  The state of the cache is refined
    against the history of additions. *)
From S2P Require Import Prelude.
From stdpp Require Import gmap.

Local Open Scope Z_scope.

Definition IdPair : Type := Z * Z.

Section Cache.
Context {PublicKey : Type}.

(** [PublicKeySource]: a key, unless it is null, and the delegate flag. *)
Definition PublicKeySource : Type := Z -> Z -> option PublicKey * bool.

Record PublicKeyCache := {
  mKeyMap : gmap IdPair (PublicKey * bool);
  mIdList : list IdPair;
  mCapacity : Z;
  mKeySource : option PublicKeySource
}.

Definition newCache (capacity : Z) : PublicKeyCache :=
  {| mKeyMap := ∅; mIdList := []; mCapacity := capacity; mKeySource := None |}.

(** [std::list::remove]. *)
Definition list_remove_id (p : IdPair) (l : list IdPair) : list IdPair := filter (.≠ p) l.

Definition addPublicKey (uid pid : Z) (key : PublicKey) (isDelegate : bool) (c : PublicKeyCache)
  : PublicKeyCache :=
  let p : IdPair := (uid, pid) in
  let keys := <[p := (key, isDelegate)]> (delete p (mKeyMap c)) in
  let ids := p :: list_remove_id p (mIdList c) in
  if mCapacity c <? Z.of_nat (length ids) then
    {| mKeyMap := match last ids with Some q => delete q keys | None => keys end;
       mIdList := removelast ids; mCapacity := mCapacity c; mKeySource := mKeySource c |}
  else
    {| mKeyMap := keys; mIdList := ids; mCapacity := mCapacity c; mKeySource := mKeySource c |}.

(** [getPublicKey]: the key and delegate flag, and the cache; a miss asks the
    source, outside the lock, and caches what it returns. *)
Definition getPublicKey (uid pid : Z) (c : PublicKeyCache)
  : option PublicKey * bool * PublicKeyCache :=
  match mKeyMap c !! (uid, pid) with
  | Some (key, delegate) => (Some key, delegate, c)
  | None =>
      match mKeySource c with
      | Some source =>
          match source uid pid with
          | (Some key, delegate) => (Some key, delegate, addPublicKey uid pid key delegate c)
          | (None, delegate) => (None, delegate, c)
          end
      | None => (None, false, c)
      end
  end.

Definition setCapacity (capacity : Z) (c : PublicKeyCache) : PublicKeyCache :=
  {| mKeyMap := mKeyMap c; mIdList := mIdList c; mCapacity := capacity;
     mKeySource := mKeySource c |}.

Definition setPublicKeySource (source : option PublicKeySource) (c : PublicKeyCache)
  : PublicKeyCache :=
  {| mKeyMap := mKeyMap c; mIdList := mIdList c; mCapacity := mCapacity c; mKeySource := source |}.

Definition clear (c : PublicKeyCache) : PublicKeyCache :=
  {| mKeyMap := ∅; mIdList := mIdList c; mCapacity := mCapacity c; mKeySource := mKeySource c |}.

(** ** Invariant *)

(** Every cached pair is listed, no pair is listed twice. *)
Definition cache_ok (c : PublicKeyCache) : Prop :=
  NoDup (mIdList c) /\ (forall p, is_Some (mKeyMap c !! p) -> p ∈ mIdList c).

Lemma list_remove_id_NoDup p l : NoDup l -> NoDup (p :: list_remove_id p l).
Proof.
  intros Hl. constructor; [|by apply NoDup_filter]. unfold list_remove_id.
  rewrite list_elem_of_filter. naive_solver.
Qed.

Lemma last_removelast {A} (l : list A) q : last l = Some q -> l = removelast l ++ [q].
Proof.
  intros Hq. destruct l as [|a l'] eqn:E using rev_ind; [done|].
  rewrite last_snoc in Hq. simplify_eq. by rewrite removelast_last.
Qed.

Lemma evict_ok (ids : list IdPair) (keys : gmap IdPair (PublicKey * bool)) q :
  NoDup ids -> (forall p, is_Some (keys !! p) -> p ∈ ids) -> last ids = Some q ->
  NoDup (removelast ids) /\ (forall p, is_Some (delete q keys !! p) -> p ∈ removelast ids).
Proof.
  intros Hnd Hin E%last_removelast. rewrite E in Hnd. apply NoDup_app in Hnd as (? & Hx & _).
  split; [done|]. intros p Hp. destruct (decide (p = q)) as [->|Hne].
  - rewrite lookup_delete_eq in Hp. by destruct Hp.
  - rewrite lookup_delete_ne in Hp by done. apply Hin in Hp. rewrite E in Hp.
    apply elem_of_app in Hp as [?|?%list_elem_of_singleton]; done.
Qed.

Lemma addPublicKey_ok uid pid key d c : cache_ok c -> cache_ok (addPublicKey uid pid key d c).
Proof.
  intros [Hnd Hdom]. unfold addPublicKey.
  pose proof (list_remove_id_NoDup (uid, pid) _ Hnd) as Hnd'.
  assert (forall q, is_Some (<[(uid, pid) := (key, d)]> (delete (uid, pid) (mKeyMap c)) !! q) ->
    q ∈ (uid, pid) :: list_remove_id (uid, pid) (mIdList c)) as Hin.
  { intros q. destruct (decide (q = (uid, pid))) as [->|Hne]; [by left|].
    rewrite lookup_insert_ne, lookup_delete_ne by done. intros Hq. right.
    unfold list_remove_id. rewrite list_elem_of_filter. auto. }
  case_match; [|done]. destruct (last _) as [q|] eqn:Hl; [|by apply last_None in Hl].
  exact (evict_ok _ _ _ Hnd' Hin Hl).
Qed.

(** The atomic steps of the cache: each runs under the lock; [getPublicKey]
    is a lookup, which changes nothing, and at a miss a later addition. *)
Inductive cache_op :=
| OpAdd (uid pid : Z) (key : PublicKey) (isDelegate : bool)
| OpSource (source : option PublicKeySource)
| OpClear.

Definition run_op (c : PublicKeyCache) (op : cache_op) : PublicKeyCache :=
  match op with
  | OpAdd uid pid key d => addPublicKey uid pid key d c
  | OpSource s => setPublicKeySource s c
  | OpClear => clear c
  end.
End Cache.
Arguments PublicKeyCache : clear implicits.
Arguments PublicKeySource : clear implicits.
Arguments cache_op : clear implicits.

(** * Refinement of the history of additions *)

Section History.
Context {PublicKey : Type}.
Implicit Types (h : list (IdPair * (PublicKey * bool))) (p q : IdPair).

Definition run_add (c : PublicKeyCache PublicKey) (e : IdPair * (PublicKey * bool)) :=
  addPublicKey e.1.1 e.1.2 e.2.1 e.2.2 c.

(** The distinct pairs of a history, the one added last first. *)
Definition recent h : list IdPair := foldl (fun r e => e.1 :: list_remove_id e.1 r) [] h.

(** What was last added for a pair. *)
Definition latest h p : option (PublicKey * bool) :=
  foldl (fun acc e => if decide (e.1 = p) then Some e.2 else acc) None h.

Lemma recent_NoDup h : NoDup (recent h).
Proof.
  induction h as [|e h IH] using rev_ind; [constructor|]. unfold recent. rewrite foldl_app. simpl.
  by apply list_remove_id_NoDup.
Qed.

Lemma list_remove_id_notin p l : p ∉ l -> list_remove_id p l = l.
Proof.
  unfold list_remove_id. induction l as [|a l IH]; [done|]. rewrite not_elem_of_cons.
  intros [Hne Hl]. rewrite filter_cons, decide_True by done. by rewrite IH.
Qed.

Lemma list_remove_id_take_in p n l :
  NoDup l -> p ∈ take (S n) l -> list_remove_id p (take (S n) l) = take n (list_remove_id p l).
Proof.
  revert n. induction l as [|a l IH]; intros n Hnd Hp; [by rewrite take_nil in Hp; inversion Hp|].
  apply NoDup_cons in Hnd as [Ha Hnd]. cbn [take] in *. unfold list_remove_id in *.
  rewrite !filter_cons. destruct (decide (a = p)) as [->|Hne].
  - rewrite !decide_False by naive_solver. fold (list_remove_id p (take n l)) (list_remove_id p l).
    rewrite !list_remove_id_notin; [done|done|]. intros Hin. apply Ha.
    by apply (subseteq_take n l).
  - rewrite !decide_True by done. apply elem_of_cons in Hp as [?|Hp]; [done|].
    destruct n as [|n]; [inversion Hp|]. cbn [take]. by rewrite IH.
Qed.

(** One addition to a truncated list of recent pairs. *)
Lemma add_take p n l :
  NoDup l ->
  let ids := p :: list_remove_id p (take n l) in
  (if Nat.ltb n (length ids) then removelast ids else ids) = take n (p :: list_remove_id p l).
Proof.
  intros Hnd. destruct n as [|n]; [done|]. cbn [take]. cbv zeta.
  destruct (decide (p ∈ take (S n) l)) as [Hin|Hin].
  - rewrite list_remove_id_take_in by done. rewrite (proj2 (Nat.ltb_ge _ _)); [done|].
    cbn [length]. rewrite length_take. lia.
  - rewrite (list_remove_id_notin p (take (S n) l)) by done. cbn [length].
    assert (take n (list_remove_id p l) = take n l) as ->.
    { rewrite <-(take_drop (S n) l) at 1. unfold list_remove_id. rewrite filter_app.
      fold (list_remove_id p (take (S n) l)). rewrite list_remove_id_notin by done.
      destruct (le_lt_dec (S n) (length l)).
      - rewrite take_app_le by (rewrite length_take; lia). rewrite take_take. f_equal. lia.
      - rewrite (drop_ge l), (take_ge l (S n)) by lia. cbn. by rewrite app_nil_r. }
    rewrite length_take. case_match eqn:E.
    + apply Nat.ltb_lt in E. rewrite removelast_firstn_len. cbn [length pred].
      rewrite length_take. replace (S n `min` length l)%nat with (S n) by lia. cbn [take firstn].
      f_equal. rewrite take_take. f_equal. lia.
    + apply Nat.ltb_ge in E. rewrite !take_ge by lia. done.
Qed.

(** The list and the map after one addition. *)
Lemma run_add_ids c e :
  0 <= mCapacity c ->
  mIdList (run_add c e) =
  let ids := e.1 :: list_remove_id e.1 (mIdList c) in
  if Nat.ltb (Z.to_nat (mCapacity c)) (length ids) then removelast ids else ids.
Proof.
  intros Hc. unfold run_add, addPublicKey. destruct e as [[u i] [k d]]. cbn [fst snd].
  set (ids := _ :: _). cbv zeta.
  destruct (Z.ltb_spec (mCapacity c) (Z.of_nat (length ids))).
  - by rewrite (proj2 (Nat.ltb_lt _ _)) by lia.
  - by rewrite (proj2 (Nat.ltb_ge _ _)) by lia.
Qed.

Lemma run_add_capacity c e : mCapacity (run_add c e) = mCapacity c.
Proof. unfold run_add, addPublicKey. by case_match. Qed.

Lemma run_add_lookup c e q :
  cache_ok c -> q ∈ mIdList (run_add c e) ->
  mKeyMap (run_add c e) !! q = if decide (e.1 = q) then Some e.2 else mKeyMap c !! q.
Proof.
  intros [Hnd _] Hq. destruct e as [[u i] [k d]]. unfold run_add, addPublicKey in *.
  cbn [fst snd] in *. pose proof (list_remove_id_NoDup (u, i) _ Hnd) as Hnd'.
  assert (forall m : gmap IdPair (PublicKey * bool),
    <[(u, i) := (k, d)]> (delete (u, i) m) !! q =
    if decide ((u, i) = q) then Some (k, d) else m !! q) as Hm.
  { intros m. case_decide as E; [subst q; apply lookup_insert_eq|].
    by rewrite lookup_insert_ne, lookup_delete_ne. }
  destruct (mCapacity c <? _); cbn [mKeyMap mIdList] in *; [|apply Hm].
  destruct (last _) as [z|] eqn:Hl; [|apply Hm].
  pose proof (last_removelast _ _ Hl) as E. rewrite E in Hnd'.
  apply NoDup_app in Hnd' as (_ & Hx & _).
  rewrite lookup_delete_ne; [apply Hm|]. intros ->. apply (Hx _ Hq). by left.
Qed.

Lemma recent_snoc h e : recent (h ++ [e]) = e.1 :: list_remove_id e.1 (recent h).
Proof. unfold recent. by rewrite foldl_app. Qed.

Lemma latest_snoc h e q :
  latest (h ++ [e]) q = if decide (e.1 = q) then Some e.2 else latest h q.
Proof. unfold latest. by rewrite foldl_app. Qed.

(** C39 (refinement): after any sequence of additions to a new cache, the cache
    holds exactly the last [capacity] distinct pairs, each with the key and
    delegate flag it was last given. *)
Theorem cache_refines_history cap h :
  0 <= cap ->
  let c := foldl run_add (newCache cap) h in
  mIdList c = take (Z.to_nat cap) (recent h) /\
  (forall p, mKeyMap c !! p =
     if decide (p ∈ take (Z.to_nat cap) (recent h)) then latest h p else None).
Proof.
  intros Hcap. cbv zeta.
  enough (cache_ok (foldl run_add (newCache cap) h) /\
    mCapacity (foldl run_add (newCache cap) h) = cap /\
    mIdList (foldl run_add (newCache cap) h) = take (Z.to_nat cap) (recent h) /\
    (forall p, p ∈ take (Z.to_nat cap) (recent h) ->
       mKeyMap (foldl run_add (newCache cap) h) !! p = latest h p)) as (Hok & _ & Hl & Hm).
  { split; [done|]. intros p. case_decide as Hp; [by apply Hm|].
    apply eq_None_not_Some. intros Hs. apply Hp. rewrite <-Hl. by apply Hok. }
  induction h as [|e h IH] using rev_ind.
  - split_and!; [|done| |]; simpl.
    + split; simpl; [constructor|]. intros p. rewrite lookup_empty. by intros [].
    + unfold recent. simpl. by rewrite take_nil.
    + intros p. unfold recent. simpl. rewrite take_nil. by intros ?%elem_of_nil.
  - destruct IH as (Hok & Hc & Hl & Hm). rewrite foldl_app. cbn [foldl].
    set (c := foldl run_add (newCache cap) h) in *.
    assert (mIdList (run_add c e) = take (Z.to_nat cap) (recent (h ++ [e]))) as Hl'.
    { rewrite run_add_ids, Hl, Hc by lia. rewrite recent_snoc. apply add_take, recent_NoDup. }
    split_and!; [by apply addPublicKey_ok|by rewrite run_add_capacity|done|].
    intros p Hp. rewrite run_add_lookup, latest_snoc by (done || by rewrite Hl').
    case_decide as Hne; [done|]. apply Hm.
    rewrite <-Hl', run_add_ids in Hp by lia. cbv zeta in Hp.
    assert (p ∈ e.1 :: list_remove_id e.1 (mIdList c)) as Hp'.
    { case_match; [|done]. rewrite removelast_firstn_len in Hp.
      by apply (subseteq_take _ _ p Hp). }
    apply elem_of_cons in Hp' as [?|Hp']; [congruence|]. rewrite <-Hl.
    unfold list_remove_id in Hp'. by apply list_elem_of_filter in Hp' as [_ ?].
Qed.

(** (bound): under any interleaving of additions (those of misses included),
    changes of the source and clears, the cache never holds more keys than its
    capacity. *)
Theorem cache_bounded cap (ops : list (cache_op PublicKey)) :
  0 <= cap -> Z.of_nat (size (mKeyMap (foldl run_op (newCache cap) ops))) <= cap.
Proof.
  intros Hcap.
  enough (cache_ok (foldl run_op (newCache cap) ops) /\
    mCapacity (foldl run_op (newCache cap) ops) = cap /\
    Z.of_nat (length (mIdList (foldl run_op (newCache cap) ops))) <= cap) as ([Hnd Hin] & _ & Hl).
  { etrans; [|exact Hl]. apply Nat2Z.inj_le. rewrite <-(size_dom (D:=gset IdPair)).
    rewrite <-(size_list_to_set (C:=gset IdPair)) by done.
    apply subseteq_size. intros p ?%elem_of_dom. rewrite elem_of_list_to_set. by apply Hin. }
  induction ops as [|op ops IH] using rev_ind.
  - split_and!; [|done|done]. split; [constructor|]. intros p. simpl. rewrite lookup_empty. by intros [].
  - destruct IH as (Hok & Hc & Hl). rewrite foldl_app. cbn [foldl].
    set (c := foldl run_op (newCache cap) ops) in *. destruct op as [u i k d|s|]; cbn [run_op].
    + split_and!; [by apply addPublicKey_ok| |].
      * rewrite <-Hc. exact (run_add_capacity c ((u, i), (k, d))).
      * change (Z.of_nat (length (mIdList (run_add c ((u, i), (k, d))))) <= cap).
        rewrite run_add_ids by lia. cbv zeta. rewrite Hc. cbn [fst].
        assert (length (list_remove_id (u, i) (mIdList c)) <= length (mIdList c))%nat
          by apply length_filter.
        case_match eqn:E; [apply Nat.ltb_lt in E|apply Nat.ltb_ge in E; lia].
        rewrite removelast_firstn_len, length_take. cbn [length pred]. lia.
    + split_and!; done.
    + split_and!; [|done|done]. destruct Hok as [? _]. split; [done|]. intros p. simpl.
      rewrite lookup_empty. by intros [].
Qed.

(** A pair that has just been added to a cache that can hold a key
    is found without asking the source, with what was added, and the lookup
    leaves the cache as it is; a miss without a source finds nothing. *)
Theorem getPublicKey_spec uid pid key d (c : PublicKeyCache PublicKey) :
  cache_ok c ->
  (0 < mCapacity c ->
   getPublicKey uid pid (addPublicKey uid pid key d c) =
     (Some key, d, addPublicKey uid pid key d c)) /\
  (mKeyMap c !! (uid, pid) = None -> mKeySource c = None ->
   getPublicKey uid pid c = (None, false, c)).
Proof.
  intros Hok. split.
  - intros Hcap. unfold getPublicKey.
    assert (mKeyMap (addPublicKey uid pid key d c) !! (uid, pid) = Some (key, d)) as ->; [|done].
    change (mKeyMap (run_add c ((uid, pid), (key, d))) !! (uid, pid) = Some (key, d)).
    rewrite run_add_lookup; [by rewrite decide_True|done|].
    rewrite run_add_ids by lia. cbv zeta. case_match eqn:E; [|by left].
    apply Nat.ltb_lt in E. cbn [fst length] in *.
    destruct (list_remove_id (uid, pid) (mIdList c)) as [|a l]; [simpl in E; lia|]. by left.
  - intros Hm Hs. unfold getPublicKey. by rewrite Hm, Hs.
Qed.
End History.

(** Lowering the capacity evicts nothing, then or at later additions. *)
Example setCapacity_keeps :
  let c := foldl run_add (newCache 2) [((1, 1), ("a", false)); ((2, 1), ("b", false))] in
  map_size (mKeyMap (run_add (setCapacity 1 c) ((3, 1), ("c", false)))) = 2%nat.
Proof. vm_compute. reflexivity. Qed.

Lemma cache_refines_history_witness :
  let c := foldl run_add (newCache 1) [((1, 1), ("a", false)); ((2, 1), ("b", true))] in
  mIdList c = [(2, 1)] /\
  (forall p, mKeyMap c !! p =
     if decide (p ∈ take 1 (recent [((1, 1), ("a", false)); ((2, 1), ("b", true))]))
     then latest [((1, 1), ("a", false)); ((2, 1), ("b", true))] p else None).
Proof.
  exact (cache_refines_history 1 [((1, 1), ("a", false)); ((2, 1), ("b", true))]
           ltac:(lia)).
Defined.

Lemma cache_bounded_witness :
  Z.of_nat (size (mKeyMap (foldl run_op (newCache 1)
    [OpAdd 1 1 "a" false; OpClear; OpAdd 2 1 "b" true; OpAdd 3 1 "c" true]))) <= 1.
Proof. apply (cache_bounded 1). lia. Defined.

Lemma getPublicKey_spec_witness :
  getPublicKey 1 1 (addPublicKey 1 1 "a" true (newCache 5)) =
  (Some "a", true, addPublicKey 1 1 "a" true (newCache 5)).
Proof.
  apply (getPublicKey_spec 1 1 "a" true (newCache 5)); [|simpl; lia].
  split; [constructor|]. intros p. simpl. rewrite lookup_empty. by intros [].
Defined.
