(* ===== verification/Monitor.v ===== *)
(** The state monitor ([cpp/common/SyncStateMonitor.cpp]).

    A named set of values with initial values.  Group operations check all
    names before they change anything; numeric states are adjusted in C++
    arithmetic at their width.  Signed overflow, which C++ leaves undefined, is
    taken to wrap around in two's complement. *)
From S2P Require Import Prelude DynMap.

Local Open Scope Z_scope.

(** [double] arithmetic used on monitored values. *)
Class FloatOps (F : Type) := { f_add : F -> F -> F; f_of_Z : Z -> F }.

Definition unknown_state : string := "bitmunk.common.UnknownMonitorState".
Definition duplicate_state : string := "bitmunk.common.DuplicateMonitorState".
Definition bad_state_info : string := "bitmunk.common.BadMonitorStateInfo".

Section Monitor.
Context {F : Type} `{FloatOps F}.

(** The value kinds of a [DynamicObject]. *)
Inductive Dyn :=
| DString (s : string)
| DBoolean (b : bool)
| DInt32 (z : Z)
| DUInt32 (z : Z)
| DInt64 (z : Z)
| DUInt64 (z : Z)
| DDouble (f : F)
| DMap (m : list (string * Dyn))
| DArray (l : list Dyn).

(** A state: the ["init"] member of its info, if it has an info with one, and
    its value. *)
Record MState := { st_init : option Dyn; st_value : option Dyn }.

Definition noState : MState := {| st_init := None; st_value := None |}.

(** Reading a member that is not there gives an empty string. *)
Definition dyn_or_empty (d : option Dyn) : Dyn := default (DString "") d.

Implicit Types states : dmap MState.

(** [mStates[name]] updated in place, created if needed. *)
Definition touch states (name : string) (f : MState -> MState) : dmap MState :=
  dm_set states name (f (dm_get_or states name noState)).

(** [_checkState] for every name, in order. *)
Definition checkStates {A} states (names : dmap A) : outcome unit :=
  if forallb (fun e => dm_has states e.1) names then Ok tt else Raise unknown_state.

Definition reset (s : MState) : MState :=
  {| st_init := st_init s; st_value := Some (dyn_or_empty (st_init s)) |}.

Definition resetStates {A} states (names : dmap A) : dmap MState * outcome unit :=
  match checkStates states names with
  | Ok _ => (foldl (fun st e => touch st e.1 reset) states names, Ok tt)
  | Raise t => (states, Raise t)
  end.

(** The loop that validates new state infos. *)
Fixpoint checkInfos states (infos : dmap (option Dyn)) : outcome unit :=
  match infos with
  | [] => Ok tt
  | (name, init) :: infos' =>
      if dm_has states name then Raise duplicate_state
      else match init with
           | None => Raise bad_state_info
           | Some _ => checkInfos states infos'
           end
  end.

Definition set_info (init : option Dyn) (s : MState) : MState :=
  {| st_init := init; st_value := st_value s |}.

Definition addStates states (infos : dmap (option Dyn)) : dmap MState * outcome unit :=
  match checkInfos states infos with
  | Ok _ =>
      let states := foldl (fun st e => touch st e.1 (set_info e.2)) states infos in
      ((resetStates states infos).1, Ok tt)
  | Raise t => (states, Raise t)
  end.

Definition removeAll states : dmap MState := [].

Definition removeStates {A} states (names : dmap A) : dmap MState * outcome unit :=
  match checkStates states names with
  | Ok _ => (foldl (fun st e => dm_remove st e.1) states names, Ok tt)
  | Raise t => (states, Raise t)
  end.

Definition resetAll states : dmap MState := map (fun e => (e.1, reset e.2)) states.

Definition set_value (v : Dyn) (s : MState) : MState :=
  {| st_init := st_init s; st_value := Some v |}.

(** Names are not checked: unknown states are created without an info. *)
Definition setStates states (values : dmap Dyn) : dmap MState * outcome unit :=
  (foldl (fun st e => touch st e.1 (set_value e.2)) states values, Ok tt).

Definition getAll states : dmap Dyn := map (fun e => (e.1, dyn_or_empty (st_value e.2))) states.

Definition getStates {A} states (names : dmap A) : outcome (dmap Dyn) :=
  match checkStates states names with
  | Ok _ => Ok (map (fun e => (e.1, dyn_or_empty (st_value (dm_get_or states e.1 noState)))) names)
  | Raise t => Raise t
  end.

(** The switch of [adjustStates].  A signed value plus an unsigned adjustment is
    an unsigned sum; a value of any other type is stored as it was. *)
Definition adjust (v adj : Dyn) : Dyn :=
  match v, adj with
  | DInt64 a, DInt64 b => DInt64 (i64 (a + b))
  | DInt64 a, DUInt64 b => DUInt64 (u64 (a + b))
  | DInt64 _, _ => v
  | DUInt64 a, DInt64 b => DUInt64 (u64 (a + b))
  | DUInt64 a, DUInt64 b => DUInt64 (u64 (a + b))
  | DUInt64 _, _ => v
  | DDouble a, DInt64 b => DDouble (f_add a (f_of_Z b))
  | DDouble a, DUInt64 b => DDouble (f_add a (f_of_Z b))
  | DDouble a, DDouble b => DDouble (f_add a b)
  | DDouble _, _ => v
  | _, _ => v
  end.

Definition adjust_state (adj : Dyn) (s : MState) : MState :=
  {| st_init := st_init s; st_value := Some (adjust (dyn_or_empty (st_value s)) adj) |}.

Definition adjustStates states (adjustments : dmap Dyn) : dmap MState * outcome unit :=
  match checkStates states adjustments with
  | Ok _ => (foldl (fun st e => touch st e.1 (adjust_state e.2)) states adjustments, Ok tt)
  | Raise t => (states, Raise t)
  end.

(** ** Group updates *)

Lemma touch_get_eq states k f :
  dm_get (touch states k f) k = Some (f (dm_get_or states k noState)).
Proof. apply dm_get_set_eq. Qed.

Lemma touch_get_ne states k k' f : k <> k' -> dm_get (touch states k f) k' = dm_get states k'.
Proof. apply dm_get_set_ne. Qed.

(** A group update touches each named state once and no other. *)
Lemma touch_all_get {A} (f : A -> MState -> MState) states (m : dmap A) k :
  dm_wf m ->
  dm_get (foldl (fun st e => touch st e.1 (f e.2)) states m) k =
  match dm_get m k with
  | Some x => Some (f x (dm_get_or states k noState))
  | None => dm_get states k
  end.
Proof.
  revert states. induction m as [|[k' x] m IH]; intros states; simpl; [done|].
  intros [Hwf Hall]%dm_wf_cons. rewrite IH by done.
  destruct (String.eqb_spec k k') as [->|Hne].
  - assert (dm_get m k' = None) as ->.
    { apply dm_get_None. intros Hin. eapply Forall_forall in Hall; [|done].
      by apply key_lt_irrefl in Hall. }
    apply touch_get_eq.
  - unfold dm_get_or. by rewrite !touch_get_ne.
Qed.

Lemma checkStates_ok {A} states (m : dmap A) :
  checkStates states m = Ok tt <-> forall k, is_Some (dm_get m k) -> is_Some (dm_get states k).
Proof.
  unfold checkStates. destruct (forallb _ m) eqn:E; split; try done.
  - rewrite forallb_forall in E. intros _ k [x Hx]. apply dm_has_true, (E (k, x)).
    by apply list_elem_of_In, dm_get_elem.
  - intros Hall. exfalso. apply not_true_iff_false in E. apply E, forallb_forall.
    intros [k x] Hin%list_elem_of_In. apply dm_has_true, Hall. simpl.
    destruct (dm_get m k) eqn:Hg; [by eexists|]. apply dm_get_None in Hg. exfalso. apply Hg.
    unfold dm_keys. apply list_elem_of_fmap. by exists (k, x).
Qed.

Lemma checkStates_cases {A} states (m : dmap A) :
  checkStates states m = Ok tt \/ checkStates states m = Raise unknown_state.
Proof. unfold checkStates. case_match; auto. Qed.

Lemma checkInfos_ok states infos :
  checkInfos states infos = Ok tt <->
  Forall (fun e => dm_get states e.1 = None /\ is_Some e.2) infos.
Proof.
  induction infos as [|[k x] infos IH]; simpl; [split; [constructor|done]|].
  rewrite Forall_cons, <-IH. simpl. destruct (dm_has states k) eqn:E.
  - apply dm_has_true in E. split; [done|]. intros [[Hn _] _]. rewrite Hn in E. by destruct E.
  - apply dm_has_false in E. destruct x; [naive_solver|].
    split; [done|]. intros [[_ [? ?]] _]. done.
Qed.

(** ** Properties *)

(** (transaction): an adjustment of a group of states succeeds exactly when
    all of them exist; it then changes the value of each by its adjustment and
    nothing else.  When one is unknown, it fails and changes nothing. *)
Theorem adjustStates_transaction states adjustments :
  dm_wf adjustments ->
  let '(states', r) := adjustStates states adjustments in
  (r = Ok tt <-> forall k, is_Some (dm_get adjustments k) -> is_Some (dm_get states k)) /\
  match r with
  | Ok _ => forall k, dm_get states' k =
      match dm_get adjustments k with
      | Some adj => adjust_state adj <$> dm_get states k
      | None => dm_get states k
      end
  | Raise t => t = unknown_state /\ states' = states
  end.
Proof.
  intros Hwf. unfold adjustStates. pose proof (checkStates_ok states adjustments) as Hck.
  destruct (checkStates_cases states adjustments) as [E|E]; rewrite E in *; [|done].
  split; [done|]. intros k. rewrite (touch_all_get adjust_state) by done.
  destruct (dm_get adjustments k) as [adj|] eqn:Hk; [|done].
  destruct (proj1 Hck eq_refl k) as [s Hs]; [by eexists|].
  unfold dm_get_or. by rewrite Hs.
Qed.

(** (transaction): adding a group of states succeeds exactly when none of them
    exists and each has an initial value; every added state then has that value
    and the others are as before.  Otherwise nothing changes. *)
Theorem addStates_transaction states infos :
  dm_wf infos ->
  let '(states', r) := addStates states infos in
  (r = Ok tt <-> Forall (fun e => dm_get states e.1 = None /\ is_Some e.2) infos) /\
  match r with
  | Ok _ => forall k, dm_get states' k =
      match dm_get infos k with
      | Some init => Some {| st_init := init; st_value := init |}
      | None => dm_get states k
      end
  | Raise _ => states' = states
  end.
Proof.
  intros Hwf. unfold addStates. pose proof (checkInfos_ok states infos) as Hck.
  destruct (checkInfos states infos) as [[]|t] eqn:E; [|done].
  split; [done|]. intros k. apply proj1 in Hck. specialize (Hck eq_refl).
  set (st := foldl _ states infos).
  assert (forall k, dm_get st k = match dm_get infos k with
    | Some init => Some (set_info init (dm_get_or states k noState)) | None => dm_get states k end)
    as Hst by (intros; by apply (touch_all_get set_info)).
  unfold resetStates. rewrite (proj2 (checkStates_ok st infos)).
  2:{ intros k' [i Hi]. rewrite Hst, Hi. by eexists. }
  cbn [fst]. rewrite (touch_all_get (fun _ => reset)) by done.
  destruct (dm_get infos k) as [init|] eqn:Hk; [|by rewrite Hst, Hk].
  unfold dm_get_or. rewrite Hst, Hk. simpl. unfold reset. simpl. do 2 f_equal.
  apply dm_get_elem in Hk. eapply Forall_forall in Hck; [|done]. destruct Hck as [_ [d Hd]].
  simpl in Hd. by subst init.
Qed.

(** (round trip): values that are set, whether or not the states existed, are
    the values that are read back. *)
Theorem setStates_getStates states values :
  dm_wf values -> getStates (setStates states values).1 values = Ok values.
Proof.
  intros Hwf. unfold getStates. set (st := (setStates states values).1).
  assert (forall k v, dm_get values k = Some v ->
    dm_get st k = Some (set_value v (dm_get_or states k noState))) as Hst.
  { intros k v Hk. unfold st, setStates. cbn [fst].
    by rewrite (touch_all_get set_value), Hk by done. }
  rewrite (proj2 (checkStates_ok st values)) by (intros k [v Hv]; by rewrite (Hst _ _ Hv)).
  f_equal. transitivity (map id values); [|apply map_id].
  apply map_ext_in. intros [k v] Hin%list_elem_of_In. simpl. unfold dm_get_or.
  by rewrite (Hst k v) by (by apply dm_elem_get).
Qed.

(** 64-bit integer values, at their width. *)
Definition integer_value (v : Dyn) : Prop :=
  match v with
  | DInt64 a => - 2 ^ 63 <= a < 2 ^ 63
  | DUInt64 a => 0 <= a < 2 ^ 64
  | _ => False
  end.

(** Adjusting a 64-bit integer state by a signed amount and then by its
    opposite restores it, also when the first adjustment overflows and the sum
    wraps around in two's complement. *)
Theorem adjust_cancel v d :
  integer_value v -> adjust (adjust v (DInt64 d)) (DInt64 (- d)) = v.
Proof.
  destruct v as [| | | |a|a| | |]; simpl; try done; intros Ha; f_equal.
  - rewrite <-(i64_u64 (i64 _ + _)), <-(u64_add_u64_l (i64 _)), u64_i64.
    rewrite u64_add_u64_l, i64_u64. rewrite <-(i64_small a) at 2 by done. f_equal. lia.
  - rewrite u64_add_u64_l. rewrite <-(u64_small a) at 2 by done. f_equal. lia.
Qed.

(** Only 64-bit integers and doubles are ever adjusted: a state of another
    type, 32-bit integers included, keeps its value whatever the adjustment. *)
Theorem adjust_other v adj :
  match v with DInt64 _ | DUInt64 _ | DDouble _ => True | _ => adjust v adj = v end.
Proof. by destruct v, adj. Qed.
End Monitor.
Arguments Dyn : clear implicits.
Arguments MState : clear implicits.

#[global] Instance Z_float_ops : FloatOps Z := {| f_add := Z.add; f_of_Z := fun z => z |}.

(** A signed value adjusted by an unsigned amount becomes unsigned and wraps. *)
Example adjust_signed_by_unsigned :
  adjust (DInt64 (-5)) (DUInt64 3) = DUInt64 (2 ^ 64 - 2).
Proof. reflexivity. Qed.

Definition sample_states : dmap (MState Z) :=
  (addStates [] [("bytes", Some (DUInt64 0)); ("rate", Some (DDouble 1))]).1.

Lemma adjustStates_transaction_witness :
  let '(states', r) := adjustStates sample_states [("bytes", DInt64 7)] in
  r = Ok tt /\ dm_get states' "bytes" =
    Some {| st_init := Some (DUInt64 0); st_value := Some (DUInt64 7) |}.
Proof.
  pose proof (adjustStates_transaction sample_states [("bytes", DInt64 7)]) as Hw.
  destruct Hw as [_ Hk]; [repeat constructor|]. split; [reflexivity|]. exact (Hk "bytes").
Defined.

Lemma addStates_transaction_witness :
  let '(states', r) := addStates sample_states [("peers", Some (DUInt64 3))] in
  r = Ok tt /\ dm_get states' "peers" =
    Some {| st_init := Some (DUInt64 3); st_value := Some (DUInt64 3) |}.
Proof.
  pose proof (addStates_transaction sample_states [("peers", Some (DUInt64 3))]) as Hw.
  destruct Hw as [_ Hk]; [repeat constructor|]. split; [reflexivity|]. exact (Hk "peers").
Defined.

Lemma setStates_getStates_witness :
  getStates (setStates sample_states [("bytes", DUInt64 9)]).1 [("bytes", DUInt64 9 : Dyn Z)] =
  Ok [("bytes", DUInt64 9)].
Proof. apply (setStates_getStates sample_states). repeat constructor. Defined.

Lemma adjust_cancel_witness :
  adjust (adjust (DUInt64 5) (DInt64 (-7))) (DInt64 (- (-7))) = (DUInt64 5 : Dyn Z).
Proof. apply (adjust_cancel (DUInt64 5)). simpl. lia. Defined.
