(* ===== verification/SellerPicker.v ===== *)
(** Choosing a seller ([cpp/purchase/SellerPicker.cpp]).

    Given a list of sellers within budget, a seller is drawn at random from the
    cheapest ones or, if the buyer prefers, from the fastest ones. *)
From S2P Require Import Prelude Money.

(** [SellerData] as the purchase code reads it: the seller, its price, its
    download rate if one has been measured, and of its contract section the
    hash, the id of the one file it is about and the user and server id of the
    seller it names (empty before negotiation). *)
Record SellerData (T : Type) := {
  sd_userId : Z;
  sd_serverId : Z;
  sd_price : string;
  sd_downloadRate : option T;
  sd_hash : string;
  sd_fileId : string;
  sd_sectionSeller : Z * Z
}.
Arguments sd_userId {T} _.
Arguments sd_serverId {T} _.
Arguments sd_price {T} _.
Arguments sd_downloadRate {T} _.
Arguments sd_hash {T} _.
Arguments sd_fileId {T} _.
Arguments sd_sectionSeller {T} _.

(** [Random::next(lo, hi)] returns a number of the closed interval. *)
Definition random_in_range (random : Z -> Z -> Z) : Prop :=
  forall lo hi, (lo <= hi)%Z -> (lo <= random lo hi <= hi)%Z.

Section Pick.
Context (D : Type) {T : Type} `{BigDecimal D} `{Scalar T}.
Implicit Types (sd : SellerData T) (l : list (SellerData T)).

Definition sd_cost sd : D := bd_of_string (sd_price sd).

(** Locals of the loop. *)
Record PickState := {
  pk_possible : list (SellerData T);
  pk_noobs : list (SellerData T);
  pk_first : bool;
  pk_cheapest : D;
  pk_fastest : T
}.

Definition pickStep (fast : bool) (st : PickState) (sd : SellerData T) : PickState :=
  let price := sd_cost sd in
  let rate := default sc_zero (sd_downloadRate sd) in
  let cheapest := if pk_first st then price else pk_cheapest st in
  let fastest := if pk_first st then rate else pk_fastest st in
  if fast && (sc_eqb rate sc_zero || sc_leb fastest rate) then
    if sc_eqb rate sc_zero then
      {| pk_possible := pk_possible st; pk_noobs := pk_noobs st ++ [sd]; pk_first := false;
         pk_cheapest := cheapest; pk_fastest := fastest |}
    else
      let faster := sc_ltb fastest rate in
      {| pk_possible := (if faster then [] else pk_possible st) ++ [sd]; pk_noobs := pk_noobs st;
         pk_first := false; pk_cheapest := cheapest;
         pk_fastest := if faster then rate else fastest |}
  else if bd_leb price cheapest then
    let cheaper := bd_ltb price cheapest in
    {| pk_possible := (if cheaper then [] else pk_possible st) ++ [sd]; pk_noobs := pk_noobs st;
       pk_first := false; pk_cheapest := if cheaper then price else cheapest;
       pk_fastest := fastest |}
  else
    {| pk_possible := pk_possible st; pk_noobs := pk_noobs st; pk_first := false;
       pk_cheapest := cheapest; pk_fastest := fastest |}.

(** The random draw from the possible sellers. *)
Definition draw (random : Z -> Z -> Z) l : option (SellerData T) :=
  let count := Z.of_nat (length l) in
  if (0 <? count)%Z then l !! Z.to_nat (if (count =? 1)%Z then 0 else random 0 (count - 1))%Z
  else None.

Definition pickSeller (random : Z -> Z -> Z) (fast : bool) (l : list (SellerData T))
  : option (SellerData T) :=
  let st := foldl (pickStep fast)
    {| pk_possible := []; pk_noobs := []; pk_first := true; pk_cheapest := bd_zero;
       pk_fastest := sc_zero |} l in
  draw random (if fast then pk_possible st ++ pk_noobs st else pk_possible st).

(** ** Reference definition *)

(** The sellers whose price no other seller undercuts. *)
Definition cheapest_sellers l : list (SellerData T) :=
  filter (fun sd => forallb (fun sd' => bd_leb (sd_cost sd) (sd_cost sd')) l = true) l.

Context `{!BigDecimalLaws D}.

Lemma draw_elem random l :
  random_in_range random -> l <> [] -> exists sd, draw random l = Some sd /\ sd ∈ l.
Proof.
  intros Hr Hl. unfold draw. assert (0 < Z.of_nat (length l))%Z as Hlen
    by (destruct l; [done|simpl; lia]).
  rewrite (proj2 (Z.ltb_lt _ _) Hlen).
  destruct (lookup_lt_is_Some_2 l (Z.to_nat (if (Z.of_nat (length l) =? 1)%Z then 0
    else random 0 (Z.of_nat (length l) - 1)))%Z) as [sd Hsd].
  { case_match; [lia|]. specialize (Hr 0 (Z.of_nat (length l) - 1))%Z. lia. }
  exists sd. split; [done|]. by eapply list_elem_of_lookup_2.
Qed.

Lemma bd_leb_trans (a b c : D) : bd_leb a b = true -> bd_leb b c = true -> bd_leb a c = true.
Proof. rewrite !val_leb. apply Qle_trans. Qed.

Lemma bd_ltb_leb (a b : D) : bd_ltb a b = true -> bd_leb b a = false.
Proof. intros E. unfold bd_leb. by rewrite E. Qed.

Lemma bd_leb_refl (a : D) : bd_leb a a = true.
Proof. apply val_leb, Qle_refl. Qed.

Lemma bd_not_ltb (a b : D) : bd_ltb a b = false -> bd_leb b a = true.
Proof. intros E. unfold bd_leb. by rewrite E. Qed.

(** What the loop knows after the sellers [l] in cheap mode: the possible sellers
    are the cheapest ones and [cheapest] is their price. *)
Definition cheap_ok l (st : PickState) : Prop :=
  pk_first st = false /\
  pk_possible st = cheapest_sellers l /\
  Forall (fun sd => bd_leb (pk_cheapest st) (sd_cost sd) = true) l /\
  Exists (fun sd => sd_cost sd = pk_cheapest st) l.

Lemma forallb_leb_snoc sd l x :
  forallb (fun sd' => bd_leb (sd_cost sd) (sd_cost sd')) (l ++ [x]) =
  forallb (fun sd' => bd_leb (sd_cost sd) (sd_cost sd')) l && bd_leb (sd_cost sd) (sd_cost x).
Proof. rewrite forallb_app. simpl. by rewrite andb_true_r. Qed.

(** Candidates of a longer list: those of the shorter one that the new seller
    does not undercut, and the new seller if nobody undercuts it. *)
Lemma cheapest_sellers_snoc l x :
  cheapest_sellers (l ++ [x]) =
  filter (fun sd => bd_leb (sd_cost sd) (sd_cost x) = true) (cheapest_sellers l) ++
  (if forallb (fun sd' => bd_leb (sd_cost x) (sd_cost sd')) l then [x] else []).
Proof.
  unfold cheapest_sellers. rewrite filter_app. f_equal.
  - rewrite list_filter_filter. apply list_filter_iff. intros sd.
    rewrite forallb_leb_snoc, andb_true_iff. tauto.
  - rewrite filter_cons, filter_nil, forallb_leb_snoc, bd_leb_refl, andb_true_r.
    by destruct (forallb _ l).
Qed.

Lemma pickStep_cheap l st x : cheap_ok l st -> cheap_ok (l ++ [x]) (pickStep false st x).
Proof.
  intros (Hf & Hp & Hall & Hex). unfold pickStep. rewrite Hf. cbn [andb].
  assert (forall sd, sd ∈ cheapest_sellers l -> bd_leb (sd_cost sd) (pk_cheapest st) = true) as Hc.
  { intros sd [Hsd _]%list_elem_of_filter. rewrite forallb_forall in Hsd.
    apply Exists_exists in Hex as (y & Hy & <-). apply Hsd. by apply list_elem_of_In. }
  pose proof (cheapest_sellers_snoc l x) as Hs.
  destruct (bd_leb (sd_cost x) (pk_cheapest st)) eqn:Hle.
  - assert (forallb (fun sd' => bd_leb (sd_cost x) (sd_cost sd')) l = true) as Hx.
    { apply forallb_forall. intros y Hy%list_elem_of_In. eapply Forall_forall in Hall; [|done].
      by eapply bd_leb_trans. }
    rewrite Hx in Hs. destruct (bd_ltb (sd_cost x) (pk_cheapest st)) eqn:Hlt.
    + split_and!; cbn; [done| | |].
      * rewrite Hs. destruct (filter _ (cheapest_sellers l)) as [|y f] eqn:E; [done|].
        assert (y ∈ filter (fun sd => bd_leb (sd_cost sd) (sd_cost x) = true) (cheapest_sellers l))
          as [Hyx Hy]%list_elem_of_filter by (rewrite E; left).
        apply Exists_exists in Hex as (z & Hz & Hzc).
        apply list_elem_of_filter in Hy as [_ Hy]. eapply Forall_forall in Hall; [|exact Hy].
        apply bd_ltb_leb in Hlt. by rewrite (bd_leb_trans _ _ _ Hall Hyx) in Hlt.
      * apply Forall_app. split; [|constructor; [apply bd_leb_refl|done]].
        eapply Forall_impl; [exact Hall|]. intros y Hy. by eapply bd_leb_trans.
      * apply Exists_app. right. by left.
    + split_and!; cbn; [done| | |].
      * rewrite Hs, Hp. f_equal. symmetry. apply bd_not_ltb in Hlt.
        apply filter_all. intros y Hy. by eapply bd_leb_trans; [apply Hc|].
      * apply Forall_app. split; [done|]. constructor; [by apply bd_not_ltb|done].
      * apply Exists_app. by left.
  - assert (forallb (fun sd' => bd_leb (sd_cost x) (sd_cost sd')) l = false) as Hx.
    { apply not_true_iff_false. intros Hx. rewrite forallb_forall in Hx.
      apply Exists_exists in Hex as (y & Hy & Hyc). rewrite <-Hyc in Hle.
      rewrite Hx in Hle; [done|]. by apply list_elem_of_In. }
    rewrite Hx, app_nil_r in Hs. apply negb_false_iff in Hle.
    assert (bd_leb (pk_cheapest st) (sd_cost x) = true) as Hcx
      by (apply val_leb, Qlt_le_weak; by apply val_ltb).
    split_and!; cbn; [done| | |].
    + rewrite Hs, Hp. symmetry. apply filter_all. intros y Hy. by eapply bd_leb_trans; [apply Hc|].
    + apply Forall_app. split; [done|]. by constructor.
    + apply Exists_app. by left.
Qed.

Lemma pickLoop_cheap x l :
  cheap_ok (x :: l) (foldl (pickStep false)
    {| pk_possible := []; pk_noobs := []; pk_first := true; pk_cheapest := bd_zero;
       pk_fastest := sc_zero |} (x :: l)).
Proof.
  induction l as [|y l IH] using rev_ind.
  - cbn [foldl]. unfold pickStep. cbn. rewrite bd_leb_refl.
    assert (bd_ltb (sd_cost x) (sd_cost x) = false) as ->.
    { apply not_true_iff_false. rewrite val_ltb. apply Qlt_irrefl. }
    split_and!; cbn; [done| | |].
    + unfold cheapest_sellers. simpl. by rewrite bd_leb_refl.
    + constructor; [apply bd_leb_refl|done].
    + by left.
  - change (x :: l ++ [y]) with ((x :: l) ++ [y]). rewrite foldl_app.
    by apply pickStep_cheap.
Qed.

Lemma cheapest_sellers_nonempty x l : cheapest_sellers (x :: l) <> [].
Proof.
  destruct (pickLoop_cheap x l) as (_ & _ & Hall & Hex).
  apply Exists_exists in Hex as (y & Hy & Hyc). intros E.
  assert (y ∈ cheapest_sellers (x :: l)) as Hin; [|rewrite E in Hin; by apply elem_of_nil in Hin].
  unfold cheapest_sellers. apply list_elem_of_filter. split; [|done]. apply forallb_forall.
  intros z Hz%list_elem_of_In. rewrite Hyc. by eapply Forall_forall in Hall.
Qed.

(** (equivalence): without the fast preference, the one-pass selection draws
    from exactly the sellers that no seller undercuts; if there is a seller, one
    is picked and nobody is cheaper. *)
Theorem pickSeller_cheapest random l :
  random_in_range random ->
  pickSeller random false l = draw random (cheapest_sellers l) /\
  (l <> [] -> exists sd, pickSeller random false l = Some sd /\ sd ∈ l /\
     forall sd', sd' ∈ l -> bd_leb (sd_cost sd) (sd_cost sd') = true).
Proof.
  intros Hr. destruct l as [|x l]; [done|].
  assert (pickSeller random false (x :: l) = draw random (cheapest_sellers (x :: l))) as E.
  { unfold pickSeller. by destruct (pickLoop_cheap x l) as (_ & -> & _). }
  split; [done|]. intros _. rewrite E.
  destruct (draw_elem random _ Hr (cheapest_sellers_nonempty x l)) as (sd & -> & Hsd).
  apply list_elem_of_filter in Hsd as [Hall Hin]. exists sd. split_and!; [done..|].
  intros sd' Hsd'. rewrite forallb_forall in Hall. apply Hall. by apply list_elem_of_In.
Qed.

(** What one step does to the candidates. *)
Lemma pickStep_cases fast st x :
  let st' := pickStep fast st x in
  pk_first st' = false /\
  ((pk_possible st' = pk_possible st /\ pk_noobs st' = pk_noobs st ++ [x]) \/
   (pk_possible st' = pk_possible st ++ [x] /\ pk_noobs st' = pk_noobs st) \/
   (pk_possible st' = [x] /\ pk_noobs st' = pk_noobs st) \/
   (pk_first st = false /\ pk_possible st' = pk_possible st /\ pk_noobs st' = pk_noobs st)).
Proof.
  unfold pickStep.
  destruct (fast && _); [destruct (sc_eqb _ _); [|destruct (sc_ltb _ _)]|
    destruct (bd_leb _ _) eqn:E; [destruct (bd_ltb _ _)|destruct (pk_first st)]]; cbn; auto 9.
  by rewrite bd_leb_refl in E.
Qed.

Definition candidates_ok l (st : PickState) : Prop :=
  pk_possible st ++ pk_noobs st ⊆ l /\
  (pk_first st = false -> pk_possible st ++ pk_noobs st <> []) /\
  (l <> [] -> pk_first st = false).

Lemma pickStep_candidates fast l st x :
  candidates_ok l st -> candidates_ok (l ++ [x]) (pickStep fast st x).
Proof.
  intros (Hin & Hne & _). destruct (pickStep_cases fast st x) as [Hf Hc].
  destruct (pickStep fast st x) as [pos noob ? ? ?]. cbn in *. unfold candidates_ok. cbn.
  destruct Hc as [[-> ->]|[[-> ->]|[[-> ->]|(Hf' & -> & ->)]]]; split_and!; try done.
  - rewrite app_assoc. set_solver.
  - by destruct (pk_possible st), (pk_noobs st).
  - set_solver.
  - by destruct (pk_possible st).
  - set_solver.
  - set_solver.
  - intros _. by apply Hne.
Qed.

(** The candidates after the loop, which are what is drawn from. *)
Lemma pickSeller_candidates random fast l :
  exists c, pickSeller random fast l = draw random c /\ c ⊆ l /\ (l <> [] -> c <> []).
Proof.
  unfold pickSeller. set (st0 := {| pk_possible := [] |}).
  assert (candidates_ok l (foldl (pickStep fast) st0 l) /\
    (fast = false -> pk_noobs (foldl (pickStep fast) st0 l) = [])) as [(Hin & Hne & Hf) Hn].
  { induction l as [|x l [IH Hn]] using rev_ind; [by split_and!|]. rewrite foldl_app. cbn [foldl].
    split; [by apply pickStep_candidates|]. intros ->. specialize (Hn eq_refl).
    unfold pickStep. cbn [andb]. by repeat case_match. }
  set (st := foldl _ st0 _) in *. exists (pk_possible st ++ pk_noobs st). split_and!; [|done|auto].
  destruct fast; [done|]. by rewrite Hn, app_nil_r.
Qed.

Lemma draw_in random l sd : draw random l = Some sd -> sd ∈ l.
Proof. unfold draw. case_match; [|done]. apply list_elem_of_lookup_2. Qed.

Lemma pickSeller_in random fast l sd : pickSeller random fast l = Some sd -> sd ∈ l.
Proof.
  destruct (pickSeller_candidates random fast l) as (c & -> & Hc & _).
  intros Hd%draw_in. by apply Hc.
Qed.

Lemma pickSeller_empty random fast l :
  random_in_range random -> pickSeller random fast l = None -> l = [].
Proof.
  intros Hr. destruct (pickSeller_candidates random fast l) as (c & -> & _ & Hne).
  destruct l as [|x l]; [done|].
  by destruct (draw_elem random c Hr (Hne ltac:(done))) as (sd & -> & _).
Qed.

(** Totality: in either mode a seller is picked from the list whenever the
    list is not empty, and none is when it is. *)
Theorem pickSeller_total random fast l :
  random_in_range random ->
  match pickSeller random fast l with Some sd => sd ∈ l | None => l = [] end.
Proof.
  intros Hr. destruct (pickSeller random fast l) eqn:E; [by eapply pickSeller_in|].
  by eapply pickSeller_empty.
Qed.
(** The loop in fast mode over sellers whose rates are known: the fastest rate is
    a bound of all rates, the cheapest price is that of a seller. *)
Definition fast_ok l (st : PickState) : Prop :=
  pk_noobs st = [] /\
  forall x, x ∈ l -> pk_first st = false /\
    sc_leb (default sc_zero (sd_downloadRate x)) (pk_fastest st) = true /\
    exists y, y ∈ l /\ pk_cheapest st = sd_cost y.

Lemma pickLoop_fast l st0 :
  Forall (fun x => sc_ltb sc_zero (default sc_zero (sd_downloadRate x)) = true) l ->
  pk_first st0 = true -> pk_noobs st0 = [] -> fast_ok l (foldl (pickStep true) st0 l).
Proof.
  intros Hl Hf Hn. induction l as [|x l IH] using rev_ind.
  { split; [done|]. by intros x ?%elem_of_nil. }
  apply Forall_app in Hl as [Hl [Hx _]%Forall_cons]. destruct (IH Hl) as [IHn IHl]. clear IH.
  rewrite foldl_app. cbn [foldl]. set (st := foldl (pickStep true) st0 l) in *.
  assert (sc_eqb (default sc_zero (sd_downloadRate x)) sc_zero = false) as Hz.
  { destruct (sc_eqb _ _) eqn:E; [|done]. apply sc_eqb_eq in E. rewrite E in Hx.
    by rewrite sc_ltb_irrefl in Hx. }
  assert (pk_first st = true -> l = []) as Hnil.
  { destruct l as [|y l]; [done|]. destruct (IHl y) as [? _]; [left|congruence]. }
  unfold pickStep. rewrite Hz. cbn [andb orb]. destruct (pk_first st) eqn:Ef.
  - rewrite (Hnil eq_refl), sc_leb_refl. split; [done|]. intros y Hy%list_elem_of_singleton. subst y.
    rewrite sc_ltb_irrefl. split_and!; [done|apply sc_leb_refl|]. exists x. split; [left|done].
  - destruct l as [|z l]; [by unfold st in Ef; cbn in Ef; congruence|].
    destruct (IHl z) as (_ & _ & w & Hw & Ec); [left|].
    destruct (sc_leb (pk_fastest st) _) eqn:El.
    + split; [done|]. intros y Hy. simpl. split_and!; [done| |exists w; split; [set_solver|done]].
      assert (sc_leb (default sc_zero (sd_downloadRate y)) (default sc_zero (sd_downloadRate x)) = true) as Hyx.
      { apply elem_of_app in Hy as [Hy|Hy%list_elem_of_singleton]; [|subst; apply sc_leb_refl].
        eapply sc_leb_trans; [by apply IHl|done]. }
      destruct (sc_ltb (pk_fastest st) _) eqn:Et; [done|].
      unfold sc_ltb in Et. apply negb_false_iff in Et. by eapply sc_leb_trans.
    + assert (forall c, c = sd_cost w \/ c = sd_cost x -> exists y, y ∈ (z :: l) ++ [x] /\ c = sd_cost y) as Hc.
      { intros c [->| ->]; [exists w|exists x]; split; [set_solver|done|set_solver|done]. }
      split; [by destruct (bd_leb _ _)|]. intros y Hy.
      assert (sc_leb (default sc_zero (sd_downloadRate y)) (pk_fastest st) = true) as Hyf.
      { apply elem_of_app in Hy as [Hy|Hy%list_elem_of_singleton]; [by apply IHl|].
        subst. by apply sc_leb_false. }
      destruct (bd_leb _ _); simpl; split_and!; try done; apply Hc; [|by left].
      destruct (bd_ltb _ _); [by right|by left].
Qed.

(** With the fast preference a seller that is slower than the fastest so far
    is still compared by price: the last seller of a list in which every rate is
    known, however slow, is the only one that can be picked if it is the
    cheapest. *)
Theorem pickSeller_fast_drops_fastest random l q s :
  Forall (fun x => sc_ltb sc_zero (default sc_zero (sd_downloadRate x)) = true) (l ++ [s]) ->
  Forall (fun x => bd_ltb (sd_cost s) (sd_cost x) = true) l ->
  q ∈ l ->
  sc_ltb (default sc_zero (sd_downloadRate s)) (default sc_zero (sd_downloadRate q)) = true ->
  pickSeller random true (l ++ [s]) = Some s.
Proof.
  intros [Hl [Hs _]%Forall_cons]%Forall_app Hc Hq Hlt. unfold pickSeller. rewrite foldl_app.
  cbn [foldl]. set (st0 := {| pk_possible := [] |}).
  destruct (pickLoop_fast l st0 Hl eq_refl eq_refl) as [Hn Hok].
  destruct (Hok q Hq) as (Hf & Hr & y & Hy & Ey). rewrite Forall_forall in Hc.
  specialize (Hc y Hy). set (st := foldl (pickStep true) st0 l) in *.
  unfold pickStep. rewrite Hf, Ey.
  assert (sc_leb (pk_fastest st) (default sc_zero (sd_downloadRate s)) = false)
    as ->. { apply sc_ltb_lt. by eapply sc_lt_le_trans. }
  assert (sc_eqb (default sc_zero (sd_downloadRate s)) sc_zero = false) as ->.
  { destruct (sc_eqb _ _) eqn:E; [|done]. apply sc_eqb_eq in E. rewrite E in Hs.
    by rewrite sc_ltb_irrefl in Hs. }
  cbn [andb orb].
  assert (bd_leb (sd_cost s) (sd_cost y) = true) as ->.
  { apply val_leb, Qlt_le_weak. by apply val_ltb. }
  rewrite Hc. simpl. by rewrite Hn.
Qed.
End Pick.

Import Exact.

(** ** Examples *)

(** Rates in bytes per second, prices in ten-millionths. *)
Definition quick_seller : SellerData Z :=
  {| sd_userId := 900; sd_serverId := 1; sd_price := "500"; sd_downloadRate := Some 1000%Z;
     sd_hash := "h1"; sd_fileId := "f"; sd_sectionSeller := (900%Z, 1%Z) |}.
Definition slow_seller : SellerData Z :=
  {| sd_userId := 901; sd_serverId := 1; sd_price := "300"; sd_downloadRate := Some 10%Z;
     sd_hash := "h2"; sd_fileId := "f"; sd_sectionSeller := (901%Z, 1%Z) |}.

Lemma pickSeller_cheapest_witness :
  pickSeller Q (fun lo _ => lo) false [quick_seller; slow_seller] =
  draw (fun lo _ => lo) (cheapest_sellers Q [quick_seller; slow_seller]).
Proof. apply (pickSeller_cheapest Q (fun lo _ => lo)). intros lo hi Hle. lia. Defined.

Lemma pickSeller_total_witness :
  match pickSeller Q (fun lo _ => lo) true [quick_seller; slow_seller] with
  | Some sd => sd ∈ [quick_seller; slow_seller]
  | None => [quick_seller; slow_seller] = []
  end.
Proof. apply (pickSeller_total Q (fun lo _ => lo)). intros lo hi Hle. lia. Defined.

Lemma pickSeller_fast_drops_fastest_witness :
  pickSeller Q (fun lo _ => lo) true [quick_seller; slow_seller] = Some slow_seller.
Proof.
  apply (pickSeller_fast_drops_fastest Q (fun lo _ => lo) [quick_seller] quick_seller slow_seller);
    [repeat constructor|repeat constructor|left|reflexivity].
Defined.
