(* ===== verification/DownloadState.v ===== *)
(** The state of a purchase ([cpp/purchase/TypeDefinitions.h]).

    A [DownloadState] holds, for every file, the pieces that are still to be
    assigned to a seller, those being downloaded and those that have arrived.
    Fields are the members the purchase code reads; a string member that is not
    set reads as the empty string. *)
From S2P Require Import Prelude DynMap Payees SellerPicker.
From stdpp Require Import pretty.

(** A [FilePiece] of a download. *)
Record Piece := {
  pc_index : Z;
  pc_size : Z;
  pc_bfpId : Z;
  pc_path : string
}.

(** A [SellerPool]: the file it is for (its [FileInfo]), the shape of its pieces, its price
    statistics and its sellers. *)
Record SellerPool (T : Type) := {
  sp_fileId : string;
  sp_mediaId : Z;
  sp_contentSize : Z;
  sp_extension : string;
  sp_pieceSize : Z;
  sp_pieceCount : Z;
  sp_bfpId : Z;
  sp_minPrice : string;
  sp_medPrice : string;
  sp_maxPrice : string;
  sp_sellers : list (SellerData T)
}.
Arguments sp_fileId {T} _.
Arguments sp_mediaId {T} _.
Arguments sp_contentSize {T} _.
Arguments sp_extension {T} _.
Arguments sp_pieceSize {T} _.
Arguments sp_pieceCount {T} _.
Arguments sp_bfpId {T} _.
Arguments sp_minPrice {T} _.
Arguments sp_medPrice {T} _.
Arguments sp_maxPrice {T} _.
Arguments sp_sellers {T} _.

(** [FileProgress]: the assigned and downloaded pieces are kept per hash of the
    contract section they are bought under. *)
Record FileProgress (T : Type) := {
  fp_fileId : string;
  fp_mediaId : Z;
  fp_contentSize : Z;
  fp_extension : string;
  fp_bytesDownloaded : Z;
  fp_budget : string;
  fp_pool : SellerPool T;
  fp_sellerData : dmap (SellerData T);
  fp_sellers : dmap (Z * Z);
  fp_unassigned : list Piece;
  fp_assigned : dmap (list Piece);
  fp_downloaded : dmap (list Piece);
  fp_microPaymentCost : string
}.
Arguments fp_fileId {T} _.
Arguments fp_mediaId {T} _.
Arguments fp_contentSize {T} _.
Arguments fp_extension {T} _.
Arguments fp_bytesDownloaded {T} _.
Arguments fp_budget {T} _.
Arguments fp_pool {T} _.
Arguments fp_sellerData {T} _.
Arguments fp_sellers {T} _.
Arguments fp_unassigned {T} _.
Arguments fp_assigned {T} _.
Arguments fp_downloaded {T} _.
Arguments fp_microPaymentCost {T} _.

(** [DownloadState]; a blacklist entry is the seller and the time it was added,
    an unset start date is empty. *)
Record DownloadState (T : Type) := {
  ds_id : Z;
  ds_userId : Z;
  ds_maxPrice : string;
  ds_fast : bool;
  ds_sellerLimit : Z;
  ds_licenseAmount : string;
  ds_piecePayees : option (list Payee);
  ds_progress : dmap (FileProgress T);
  ds_remainingPieces : Z;
  ds_totalPieceCount : Z;
  ds_totalMicroPaymentCost : string;
  ds_totalMinPrice : string;
  ds_totalMedPrice : string;
  ds_totalMaxPrice : string;
  ds_initialized : bool;
  ds_licenseAcquired : bool;
  ds_downloadPaused : bool;
  ds_deleting : bool;
  ds_startDate : string;
  ds_activeSellers : dmap Z;
  ds_blacklist : dmap (Z * Z * Z)
}.
Arguments ds_id {T} _.
Arguments ds_userId {T} _.
Arguments ds_maxPrice {T} _.
Arguments ds_fast {T} _.
Arguments ds_sellerLimit {T} _.
Arguments ds_licenseAmount {T} _.
Arguments ds_piecePayees {T} _.
Arguments ds_progress {T} _.
Arguments ds_remainingPieces {T} _.
Arguments ds_totalPieceCount {T} _.
Arguments ds_totalMicroPaymentCost {T} _.
Arguments ds_totalMinPrice {T} _.
Arguments ds_totalMedPrice {T} _.
Arguments ds_totalMaxPrice {T} _.
Arguments ds_initialized {T} _.
Arguments ds_licenseAcquired {T} _.
Arguments ds_downloadPaused {T} _.
Arguments ds_deleting {T} _.
Arguments ds_startDate {T} _.
Arguments ds_activeSellers {T} _.
Arguments ds_blacklist {T} _.

(** * Updates *)

Definition set_pc_path (v : string) (s : Piece) : Piece :=
  {| pc_index := pc_index s; pc_size := pc_size s; pc_bfpId := pc_bfpId s; pc_path := v |}.

Definition set_sp_bfpId {T : Type} (v : Z) (s : SellerPool T) : SellerPool T :=
  {| sp_fileId := sp_fileId s; sp_mediaId := sp_mediaId s;
     sp_contentSize := sp_contentSize s; sp_extension := sp_extension s; sp_pieceSize := sp_pieceSize s;
     sp_pieceCount := sp_pieceCount s; sp_bfpId := v; sp_minPrice := sp_minPrice s;
     sp_medPrice := sp_medPrice s; sp_maxPrice := sp_maxPrice s; sp_sellers := sp_sellers s |}.

Definition set_fp_bytesDownloaded {T : Type} (v : Z) (s : FileProgress T) : FileProgress T :=
  {| fp_fileId := fp_fileId s; fp_mediaId := fp_mediaId s;
     fp_contentSize := fp_contentSize s; fp_extension := fp_extension s;
     fp_bytesDownloaded := v; fp_budget := fp_budget s; fp_pool := fp_pool s;
     fp_sellerData := fp_sellerData s; fp_sellers := fp_sellers s;
     fp_unassigned := fp_unassigned s; fp_assigned := fp_assigned s;
     fp_downloaded := fp_downloaded s; fp_microPaymentCost := fp_microPaymentCost s |}.

Definition set_fp_budget {T : Type} (v : string) (s : FileProgress T) : FileProgress T :=
  {| fp_fileId := fp_fileId s; fp_mediaId := fp_mediaId s;
     fp_contentSize := fp_contentSize s; fp_extension := fp_extension s;
     fp_bytesDownloaded := fp_bytesDownloaded s; fp_budget := v; fp_pool := fp_pool s;
     fp_sellerData := fp_sellerData s; fp_sellers := fp_sellers s;
     fp_unassigned := fp_unassigned s; fp_assigned := fp_assigned s;
     fp_downloaded := fp_downloaded s; fp_microPaymentCost := fp_microPaymentCost s |}.

Definition set_fp_pool {T : Type} (v : SellerPool T) (s : FileProgress T) : FileProgress T :=
  {| fp_fileId := fp_fileId s; fp_mediaId := fp_mediaId s;
     fp_contentSize := fp_contentSize s; fp_extension := fp_extension s;
     fp_bytesDownloaded := fp_bytesDownloaded s; fp_budget := fp_budget s; fp_pool := v;
     fp_sellerData := fp_sellerData s; fp_sellers := fp_sellers s;
     fp_unassigned := fp_unassigned s; fp_assigned := fp_assigned s;
     fp_downloaded := fp_downloaded s; fp_microPaymentCost := fp_microPaymentCost s |}.

Definition set_fp_sellerData {T : Type} (v : dmap (SellerData T)) (s : FileProgress T) : FileProgress T :=
  {| fp_fileId := fp_fileId s; fp_mediaId := fp_mediaId s;
     fp_contentSize := fp_contentSize s; fp_extension := fp_extension s;
     fp_bytesDownloaded := fp_bytesDownloaded s; fp_budget := fp_budget s;
     fp_pool := fp_pool s; fp_sellerData := v; fp_sellers := fp_sellers s;
     fp_unassigned := fp_unassigned s; fp_assigned := fp_assigned s;
     fp_downloaded := fp_downloaded s; fp_microPaymentCost := fp_microPaymentCost s |}.

Definition set_fp_sellers {T : Type} (v : dmap (Z * Z)) (s : FileProgress T) : FileProgress T :=
  {| fp_fileId := fp_fileId s; fp_mediaId := fp_mediaId s;
     fp_contentSize := fp_contentSize s; fp_extension := fp_extension s;
     fp_bytesDownloaded := fp_bytesDownloaded s; fp_budget := fp_budget s;
     fp_pool := fp_pool s; fp_sellerData := fp_sellerData s; fp_sellers := v;
     fp_unassigned := fp_unassigned s; fp_assigned := fp_assigned s;
     fp_downloaded := fp_downloaded s; fp_microPaymentCost := fp_microPaymentCost s |}.

Definition set_fp_unassigned {T : Type} (v : list Piece) (s : FileProgress T) : FileProgress T :=
  {| fp_fileId := fp_fileId s; fp_mediaId := fp_mediaId s;
     fp_contentSize := fp_contentSize s; fp_extension := fp_extension s;
     fp_bytesDownloaded := fp_bytesDownloaded s; fp_budget := fp_budget s;
     fp_pool := fp_pool s; fp_sellerData := fp_sellerData s; fp_sellers := fp_sellers s;
     fp_unassigned := v; fp_assigned := fp_assigned s; fp_downloaded := fp_downloaded s;
     fp_microPaymentCost := fp_microPaymentCost s |}.

Definition set_fp_assigned {T : Type} (v : dmap (list Piece)) (s : FileProgress T) : FileProgress T :=
  {| fp_fileId := fp_fileId s; fp_mediaId := fp_mediaId s;
     fp_contentSize := fp_contentSize s; fp_extension := fp_extension s;
     fp_bytesDownloaded := fp_bytesDownloaded s; fp_budget := fp_budget s;
     fp_pool := fp_pool s; fp_sellerData := fp_sellerData s; fp_sellers := fp_sellers s;
     fp_unassigned := fp_unassigned s; fp_assigned := v; fp_downloaded := fp_downloaded s;
     fp_microPaymentCost := fp_microPaymentCost s |}.

Definition set_fp_downloaded {T : Type} (v : dmap (list Piece)) (s : FileProgress T) : FileProgress T :=
  {| fp_fileId := fp_fileId s; fp_mediaId := fp_mediaId s;
     fp_contentSize := fp_contentSize s; fp_extension := fp_extension s;
     fp_bytesDownloaded := fp_bytesDownloaded s; fp_budget := fp_budget s;
     fp_pool := fp_pool s; fp_sellerData := fp_sellerData s; fp_sellers := fp_sellers s;
     fp_unassigned := fp_unassigned s; fp_assigned := fp_assigned s; fp_downloaded := v;
     fp_microPaymentCost := fp_microPaymentCost s |}.

Definition set_fp_microPaymentCost {T : Type} (v : string) (s : FileProgress T) : FileProgress T :=
  {| fp_fileId := fp_fileId s; fp_mediaId := fp_mediaId s;
     fp_contentSize := fp_contentSize s; fp_extension := fp_extension s;
     fp_bytesDownloaded := fp_bytesDownloaded s; fp_budget := fp_budget s;
     fp_pool := fp_pool s; fp_sellerData := fp_sellerData s; fp_sellers := fp_sellers s;
     fp_unassigned := fp_unassigned s; fp_assigned := fp_assigned s;
     fp_downloaded := fp_downloaded s; fp_microPaymentCost := v |}.

Definition set_ds_progress {T : Type} (v : dmap (FileProgress T)) (s : DownloadState T) : DownloadState T :=
  {| ds_id := ds_id s; ds_userId := ds_userId s; ds_maxPrice := ds_maxPrice s;
     ds_fast := ds_fast s; ds_sellerLimit := ds_sellerLimit s;
     ds_licenseAmount := ds_licenseAmount s; ds_piecePayees := ds_piecePayees s;
     ds_progress := v; ds_remainingPieces := ds_remainingPieces s;
     ds_totalPieceCount := ds_totalPieceCount s;
     ds_totalMicroPaymentCost := ds_totalMicroPaymentCost s;
     ds_totalMinPrice := ds_totalMinPrice s; ds_totalMedPrice := ds_totalMedPrice s;
     ds_totalMaxPrice := ds_totalMaxPrice s; ds_initialized := ds_initialized s;
     ds_licenseAcquired := ds_licenseAcquired s; ds_downloadPaused := ds_downloadPaused s;
     ds_deleting := ds_deleting s; ds_startDate := ds_startDate s;
     ds_activeSellers := ds_activeSellers s; ds_blacklist := ds_blacklist s |}.

Definition set_ds_remainingPieces {T : Type} (v : Z) (s : DownloadState T) : DownloadState T :=
  {| ds_id := ds_id s; ds_userId := ds_userId s; ds_maxPrice := ds_maxPrice s;
     ds_fast := ds_fast s; ds_sellerLimit := ds_sellerLimit s;
     ds_licenseAmount := ds_licenseAmount s; ds_piecePayees := ds_piecePayees s;
     ds_progress := ds_progress s; ds_remainingPieces := v;
     ds_totalPieceCount := ds_totalPieceCount s;
     ds_totalMicroPaymentCost := ds_totalMicroPaymentCost s;
     ds_totalMinPrice := ds_totalMinPrice s; ds_totalMedPrice := ds_totalMedPrice s;
     ds_totalMaxPrice := ds_totalMaxPrice s; ds_initialized := ds_initialized s;
     ds_licenseAcquired := ds_licenseAcquired s; ds_downloadPaused := ds_downloadPaused s;
     ds_deleting := ds_deleting s; ds_startDate := ds_startDate s;
     ds_activeSellers := ds_activeSellers s; ds_blacklist := ds_blacklist s |}.

Definition set_ds_totalPieceCount {T : Type} (v : Z) (s : DownloadState T) : DownloadState T :=
  {| ds_id := ds_id s; ds_userId := ds_userId s; ds_maxPrice := ds_maxPrice s;
     ds_fast := ds_fast s; ds_sellerLimit := ds_sellerLimit s;
     ds_licenseAmount := ds_licenseAmount s; ds_piecePayees := ds_piecePayees s;
     ds_progress := ds_progress s; ds_remainingPieces := ds_remainingPieces s;
     ds_totalPieceCount := v; ds_totalMicroPaymentCost := ds_totalMicroPaymentCost s;
     ds_totalMinPrice := ds_totalMinPrice s; ds_totalMedPrice := ds_totalMedPrice s;
     ds_totalMaxPrice := ds_totalMaxPrice s; ds_initialized := ds_initialized s;
     ds_licenseAcquired := ds_licenseAcquired s; ds_downloadPaused := ds_downloadPaused s;
     ds_deleting := ds_deleting s; ds_startDate := ds_startDate s;
     ds_activeSellers := ds_activeSellers s; ds_blacklist := ds_blacklist s |}.

Definition set_ds_totalMicroPaymentCost {T : Type} (v : string) (s : DownloadState T) : DownloadState T :=
  {| ds_id := ds_id s; ds_userId := ds_userId s; ds_maxPrice := ds_maxPrice s;
     ds_fast := ds_fast s; ds_sellerLimit := ds_sellerLimit s;
     ds_licenseAmount := ds_licenseAmount s; ds_piecePayees := ds_piecePayees s;
     ds_progress := ds_progress s; ds_remainingPieces := ds_remainingPieces s;
     ds_totalPieceCount := ds_totalPieceCount s; ds_totalMicroPaymentCost := v;
     ds_totalMinPrice := ds_totalMinPrice s; ds_totalMedPrice := ds_totalMedPrice s;
     ds_totalMaxPrice := ds_totalMaxPrice s; ds_initialized := ds_initialized s;
     ds_licenseAcquired := ds_licenseAcquired s; ds_downloadPaused := ds_downloadPaused s;
     ds_deleting := ds_deleting s; ds_startDate := ds_startDate s;
     ds_activeSellers := ds_activeSellers s; ds_blacklist := ds_blacklist s |}.

Definition set_ds_totalMinPrice {T : Type} (v : string) (s : DownloadState T) : DownloadState T :=
  {| ds_id := ds_id s; ds_userId := ds_userId s; ds_maxPrice := ds_maxPrice s;
     ds_fast := ds_fast s; ds_sellerLimit := ds_sellerLimit s;
     ds_licenseAmount := ds_licenseAmount s; ds_piecePayees := ds_piecePayees s;
     ds_progress := ds_progress s; ds_remainingPieces := ds_remainingPieces s;
     ds_totalPieceCount := ds_totalPieceCount s;
     ds_totalMicroPaymentCost := ds_totalMicroPaymentCost s; ds_totalMinPrice := v;
     ds_totalMedPrice := ds_totalMedPrice s; ds_totalMaxPrice := ds_totalMaxPrice s;
     ds_initialized := ds_initialized s; ds_licenseAcquired := ds_licenseAcquired s;
     ds_downloadPaused := ds_downloadPaused s; ds_deleting := ds_deleting s;
     ds_startDate := ds_startDate s; ds_activeSellers := ds_activeSellers s;
     ds_blacklist := ds_blacklist s |}.

Definition set_ds_totalMedPrice {T : Type} (v : string) (s : DownloadState T) : DownloadState T :=
  {| ds_id := ds_id s; ds_userId := ds_userId s; ds_maxPrice := ds_maxPrice s;
     ds_fast := ds_fast s; ds_sellerLimit := ds_sellerLimit s;
     ds_licenseAmount := ds_licenseAmount s; ds_piecePayees := ds_piecePayees s;
     ds_progress := ds_progress s; ds_remainingPieces := ds_remainingPieces s;
     ds_totalPieceCount := ds_totalPieceCount s;
     ds_totalMicroPaymentCost := ds_totalMicroPaymentCost s;
     ds_totalMinPrice := ds_totalMinPrice s; ds_totalMedPrice := v;
     ds_totalMaxPrice := ds_totalMaxPrice s; ds_initialized := ds_initialized s;
     ds_licenseAcquired := ds_licenseAcquired s; ds_downloadPaused := ds_downloadPaused s;
     ds_deleting := ds_deleting s; ds_startDate := ds_startDate s;
     ds_activeSellers := ds_activeSellers s; ds_blacklist := ds_blacklist s |}.

Definition set_ds_totalMaxPrice {T : Type} (v : string) (s : DownloadState T) : DownloadState T :=
  {| ds_id := ds_id s; ds_userId := ds_userId s; ds_maxPrice := ds_maxPrice s;
     ds_fast := ds_fast s; ds_sellerLimit := ds_sellerLimit s;
     ds_licenseAmount := ds_licenseAmount s; ds_piecePayees := ds_piecePayees s;
     ds_progress := ds_progress s; ds_remainingPieces := ds_remainingPieces s;
     ds_totalPieceCount := ds_totalPieceCount s;
     ds_totalMicroPaymentCost := ds_totalMicroPaymentCost s;
     ds_totalMinPrice := ds_totalMinPrice s; ds_totalMedPrice := ds_totalMedPrice s;
     ds_totalMaxPrice := v; ds_initialized := ds_initialized s;
     ds_licenseAcquired := ds_licenseAcquired s; ds_downloadPaused := ds_downloadPaused s;
     ds_deleting := ds_deleting s; ds_startDate := ds_startDate s;
     ds_activeSellers := ds_activeSellers s; ds_blacklist := ds_blacklist s |}.

Definition set_ds_initialized {T : Type} (v : bool) (s : DownloadState T) : DownloadState T :=
  {| ds_id := ds_id s; ds_userId := ds_userId s; ds_maxPrice := ds_maxPrice s;
     ds_fast := ds_fast s; ds_sellerLimit := ds_sellerLimit s;
     ds_licenseAmount := ds_licenseAmount s; ds_piecePayees := ds_piecePayees s;
     ds_progress := ds_progress s; ds_remainingPieces := ds_remainingPieces s;
     ds_totalPieceCount := ds_totalPieceCount s;
     ds_totalMicroPaymentCost := ds_totalMicroPaymentCost s;
     ds_totalMinPrice := ds_totalMinPrice s; ds_totalMedPrice := ds_totalMedPrice s;
     ds_totalMaxPrice := ds_totalMaxPrice s; ds_initialized := v;
     ds_licenseAcquired := ds_licenseAcquired s; ds_downloadPaused := ds_downloadPaused s;
     ds_deleting := ds_deleting s; ds_startDate := ds_startDate s;
     ds_activeSellers := ds_activeSellers s; ds_blacklist := ds_blacklist s |}.

Definition set_ds_downloadPaused {T : Type} (v : bool) (s : DownloadState T) : DownloadState T :=
  {| ds_id := ds_id s; ds_userId := ds_userId s; ds_maxPrice := ds_maxPrice s;
     ds_fast := ds_fast s; ds_sellerLimit := ds_sellerLimit s;
     ds_licenseAmount := ds_licenseAmount s; ds_piecePayees := ds_piecePayees s;
     ds_progress := ds_progress s; ds_remainingPieces := ds_remainingPieces s;
     ds_totalPieceCount := ds_totalPieceCount s;
     ds_totalMicroPaymentCost := ds_totalMicroPaymentCost s;
     ds_totalMinPrice := ds_totalMinPrice s; ds_totalMedPrice := ds_totalMedPrice s;
     ds_totalMaxPrice := ds_totalMaxPrice s; ds_initialized := ds_initialized s;
     ds_licenseAcquired := ds_licenseAcquired s; ds_downloadPaused := v;
     ds_deleting := ds_deleting s; ds_startDate := ds_startDate s;
     ds_activeSellers := ds_activeSellers s; ds_blacklist := ds_blacklist s |}.

Definition set_ds_deleting {T : Type} (v : bool) (s : DownloadState T) : DownloadState T :=
  {| ds_id := ds_id s; ds_userId := ds_userId s; ds_maxPrice := ds_maxPrice s;
     ds_fast := ds_fast s; ds_sellerLimit := ds_sellerLimit s;
     ds_licenseAmount := ds_licenseAmount s; ds_piecePayees := ds_piecePayees s;
     ds_progress := ds_progress s; ds_remainingPieces := ds_remainingPieces s;
     ds_totalPieceCount := ds_totalPieceCount s;
     ds_totalMicroPaymentCost := ds_totalMicroPaymentCost s;
     ds_totalMinPrice := ds_totalMinPrice s; ds_totalMedPrice := ds_totalMedPrice s;
     ds_totalMaxPrice := ds_totalMaxPrice s; ds_initialized := ds_initialized s;
     ds_licenseAcquired := ds_licenseAcquired s; ds_downloadPaused := ds_downloadPaused s;
     ds_deleting := v; ds_startDate := ds_startDate s; ds_activeSellers := ds_activeSellers s;
     ds_blacklist := ds_blacklist s |}.

Definition set_ds_startDate {T : Type} (v : string) (s : DownloadState T) : DownloadState T :=
  {| ds_id := ds_id s; ds_userId := ds_userId s; ds_maxPrice := ds_maxPrice s;
     ds_fast := ds_fast s; ds_sellerLimit := ds_sellerLimit s;
     ds_licenseAmount := ds_licenseAmount s; ds_piecePayees := ds_piecePayees s;
     ds_progress := ds_progress s; ds_remainingPieces := ds_remainingPieces s;
     ds_totalPieceCount := ds_totalPieceCount s;
     ds_totalMicroPaymentCost := ds_totalMicroPaymentCost s;
     ds_totalMinPrice := ds_totalMinPrice s; ds_totalMedPrice := ds_totalMedPrice s;
     ds_totalMaxPrice := ds_totalMaxPrice s; ds_initialized := ds_initialized s;
     ds_licenseAcquired := ds_licenseAcquired s; ds_downloadPaused := ds_downloadPaused s;
     ds_deleting := ds_deleting s; ds_startDate := v; ds_activeSellers := ds_activeSellers s;
     ds_blacklist := ds_blacklist s |}.

Definition set_ds_activeSellers {T : Type} (v : dmap Z) (s : DownloadState T) : DownloadState T :=
  {| ds_id := ds_id s; ds_userId := ds_userId s; ds_maxPrice := ds_maxPrice s;
     ds_fast := ds_fast s; ds_sellerLimit := ds_sellerLimit s;
     ds_licenseAmount := ds_licenseAmount s; ds_piecePayees := ds_piecePayees s;
     ds_progress := ds_progress s; ds_remainingPieces := ds_remainingPieces s;
     ds_totalPieceCount := ds_totalPieceCount s;
     ds_totalMicroPaymentCost := ds_totalMicroPaymentCost s;
     ds_totalMinPrice := ds_totalMinPrice s; ds_totalMedPrice := ds_totalMedPrice s;
     ds_totalMaxPrice := ds_totalMaxPrice s; ds_initialized := ds_initialized s;
     ds_licenseAcquired := ds_licenseAcquired s; ds_downloadPaused := ds_downloadPaused s;
     ds_deleting := ds_deleting s; ds_startDate := ds_startDate s; ds_activeSellers := v;
     ds_blacklist := ds_blacklist s |}.

Definition set_ds_blacklist {T : Type} (v : dmap (Z * Z * Z)) (s : DownloadState T) : DownloadState T :=
  {| ds_id := ds_id s; ds_userId := ds_userId s; ds_maxPrice := ds_maxPrice s;
     ds_fast := ds_fast s; ds_sellerLimit := ds_sellerLimit s;
     ds_licenseAmount := ds_licenseAmount s; ds_piecePayees := ds_piecePayees s;
     ds_progress := ds_progress s; ds_remainingPieces := ds_remainingPieces s;
     ds_totalPieceCount := ds_totalPieceCount s;
     ds_totalMicroPaymentCost := ds_totalMicroPaymentCost s;
     ds_totalMinPrice := ds_totalMinPrice s; ds_totalMedPrice := ds_totalMedPrice s;
     ds_totalMaxPrice := ds_totalMaxPrice s; ds_initialized := ds_initialized s;
     ds_licenseAcquired := ds_licenseAcquired s; ds_downloadPaused := ds_downloadPaused s;
     ds_deleting := ds_deleting s; ds_startDate := ds_startDate s;
     ds_activeSellers := ds_activeSellers s; ds_blacklist := v |}.

(** A file progress that the code creates by mentioning a file it does not know. *)
Definition no_pool {T} : SellerPool T :=
  {| sp_fileId := ""; sp_mediaId := 0; sp_contentSize := 0; sp_extension := "";
     sp_pieceSize := 0; sp_pieceCount := 0; sp_bfpId := 0;
     sp_minPrice := ""; sp_medPrice := ""; sp_maxPrice := ""; sp_sellers := [] |}.

Definition no_progress {T} : FileProgress T :=
  {| fp_fileId := ""; fp_mediaId := 0; fp_contentSize := 0; fp_extension := ""; fp_bytesDownloaded := 0; fp_budget := "";
     fp_pool := no_pool; fp_sellerData := []; fp_sellers := []; fp_unassigned := [];
     fp_assigned := []; fp_downloaded := []; fp_microPaymentCost := "" |}.

(** [Tools::createSellerServerKey]: empty unless both ids are set. *)
Definition createSellerServerKey (sellerId serverId : Z) : string :=
  if negb (sellerId =? 0)%Z && negb (serverId =? 0)%Z
  then pretty (Z.to_N sellerId) +:+ ":" +:+ pretty (Z.to_N serverId)
  else "".

Definition sd_key {T} (sd : SellerData T) : string :=
  createSellerServerKey (sd_userId sd) (sd_serverId sd).
