(* ===== verification/FileCost.v ===== *)
(** Costs and budgets ([cpp/purchase/FileCostCalculator.cpp]).

    Before a piece is assigned, the calculator works out what has been committed
    to sellers so far and what is left in the bank, and divides the bank among
    the files in proportion to their median prices. *)
From S2P Require Import Prelude DynMap Money Payees SellerPicker DownloadState.

Section FileCost.
Context {D T : Type} `{BigDecimal D}.
Implicit Types (ds : DownloadState T) (fp : FileProgress T).

(** The calculator's numbers. *)
Record Costs := {
  mMicroPaymentCost : D;
  mTotalSpent : D;
  mTotalMinPrice : D;
  mTotalMedPrice : D;
  mTotalRemainingMedPrice : D;
  mTotalMaxPrice : D;
  mBank : D
}.

(** ** Micropayments *)

Definition piecePayeeTotal (ps : list Payee) : D :=
  foldl (fun acc p => bd_add acc (bd_of_string (amount p))) bd_zero ps.

Definition totalPieces ds : Z :=
  foldl (fun acc e => u64 (acc + sp_pieceCount (fp_pool e.2))) 0%Z (ds_progress ds).

(** The cost of paying for all pieces, and the download state with the cost per
    file and in total. *)
Definition calculateMicroPaymentCost ds : D * DownloadState T :=
  match ds_piecePayees ds with
  | Some payees =>
      let perPiece := piecePayeeTotal payees in
      let progress :=
        map (fun e => (e.1, set_fp_microPaymentCost
               (bd_to_string (bd_mul perPiece (bd_of_Z (sp_pieceCount (fp_pool e.2))))) e.2))
          (ds_progress ds) in
      let pieceCount := totalPieces ds in
      let total := bd_mul perPiece (bd_of_Z pieceCount) in
      (total,
       set_ds_totalMicroPaymentCost (bd_to_string total)
         (set_ds_totalPieceCount pieceCount (set_ds_progress progress ds)))
  | None => (bd_zero, ds)
  end.

(** ** Amount spent and remaining median price *)

(** The downloaded and the assigned pieces, appended per section hash. *)
Definition fundedPieces fp : dmap (list Piece) :=
  foldl (fun m e => dm_set m e.1 (dm_get_or m e.1 [] ++ e.2)) (fp_downloaded fp) (fp_assigned fp).

(** A piece size of 0 stands for the whole file. *)
Definition pieceBytes (fileSize : Z) (p : Piece) : Z :=
  if (pc_size p =? 0)%Z then fileSize else pc_size p.

Definition sectionBytes (fileSize : Z) (pieces : list Piece) : Z :=
  foldl (fun acc p => u64 (acc + pieceBytes fileSize p)) 0%Z pieces.

(** The share of a section's price for the bytes bought under it. *)
Definition sectionCost fp (csHash : string) (totalSize : Z) : D :=
  let tmp := bd_of_Z totalSize in
  let tmp := if (0 <? fp_contentSize fp)%Z then bd_div tmp (bd_of_Z (fp_contentSize fp)) else tmp in
  let price := match dm_get (fp_sellerData fp) csHash with Some sd => sd_price sd | None => "" end in
  bd_round (bd_mul tmp (bd_of_string price)).

(** One section of a file: the total spent and the bytes that remain. *)
Definition fundStep fp (acc : D * Z) (e : string * list Piece) : D * Z :=
  let totalSize := sectionBytes (fp_contentSize fp) e.2 in
  (bd_add acc.1 (sectionCost fp e.1 totalSize), u64 (acc.2 - totalSize)).

Definition fundFile fp (spent : D) : D * Z :=
  foldl (fundStep fp) (spent, fp_contentSize fp) (fundedPieces fp).

(** What the unassigned pieces of a file add to the remaining median price. *)
Definition remainingCost fp (bytesRemaining : Z) : D :=
  bd_round (bd_mul (bd_div (bd_of_Z bytesRemaining) (bd_of_Z (fp_contentSize fp)))
                   (bd_of_string (sp_medPrice (fp_pool fp)))).

Definition fileCostStep (c : Costs) (e : string * FileProgress T) : Costs :=
  let fp := e.2 in
  let '(spent, bytesRemaining) := fundFile fp (mTotalSpent c) in
  {| mMicroPaymentCost := mMicroPaymentCost c;
     mTotalSpent := spent;
     mTotalMinPrice := bd_add (mTotalMinPrice c) (bd_of_string (sp_minPrice (fp_pool fp)));
     mTotalMedPrice := bd_add (mTotalMedPrice c) (bd_of_string (sp_medPrice (fp_pool fp)));
     mTotalRemainingMedPrice :=
       if (0 <? Z.of_nat (length (fp_unassigned fp)))%Z && (0 <? fp_contentSize fp)%Z
       then bd_add (mTotalRemainingMedPrice c) (remainingCost fp bytesRemaining)
       else mTotalRemainingMedPrice c;
     mTotalMaxPrice := bd_add (mTotalMaxPrice c) (bd_of_string (sp_maxPrice (fp_pool fp)));
     mBank := mBank c |}.

Definition calculateTotalRemainingMedianPrice ds (c : Costs) : Costs :=
  foldl fileCostStep c (ds_progress ds).

(** ** Bank and budgets *)

Definition calculateBank ds (c : Costs) : Costs * DownloadState T :=
  let license := bd_of_string (ds_licenseAmount ds) in
  let bank := bd_sub (bd_sub (bd_sub (bd_of_string (ds_maxPrice ds)) license)
                (mMicroPaymentCost c)) (mTotalSpent c) in
  let c' :=
    {| mMicroPaymentCost := mMicroPaymentCost c; mTotalSpent := mTotalSpent c;
       mTotalMinPrice := bd_add (bd_add (mTotalMinPrice c) (mMicroPaymentCost c)) license;
       mTotalMedPrice := bd_add (bd_add (mTotalMedPrice c) (mMicroPaymentCost c)) license;
       mTotalRemainingMedPrice := mTotalRemainingMedPrice c;
       mTotalMaxPrice := bd_add (bd_add (mTotalMaxPrice c) (mMicroPaymentCost c)) license;
       mBank := bank |} in
  (c', set_ds_totalMaxPrice (bd_to_string (mTotalMaxPrice c'))
         (set_ds_totalMedPrice (bd_to_string (mTotalMedPrice c'))
           (set_ds_totalMinPrice (bd_to_string (mTotalMinPrice c')) ds))).

(** The budget of a file: its share of the bank, or all of it when what remains
    is free. *)
Definition fileBudget (c : Costs) fp : D :=
  bd_round
    (if negb (bd_is_zero (mTotalRemainingMedPrice c)) &&
        negb (bd_is_negative (mTotalRemainingMedPrice c))
     then bd_mul (bd_div (bd_of_string (sp_medPrice (fp_pool fp))) (mTotalRemainingMedPrice c))
                 (mBank c)
     else mBank c).

Definition calculateFileBudgets ds (c : Costs) : DownloadState T :=
  set_ds_progress
    (map (fun e => (e.1, set_fp_budget (bd_to_string (fileBudget c e.2)) e.2)) (ds_progress ds)) ds.

Definition calculate ds : Costs * DownloadState T :=
  let '(micro, ds) := calculateMicroPaymentCost ds in
  let c := {| mMicroPaymentCost := micro; mTotalSpent := bd_zero; mTotalMinPrice := bd_zero;
              mTotalMedPrice := bd_zero; mTotalRemainingMedPrice := bd_zero;
              mTotalMaxPrice := bd_zero; mBank := bd_zero |} in
  let c := calculateTotalRemainingMedianPrice ds c in
  let '(c, ds) := calculateBank ds c in
  (c, calculateFileBudgets ds c).
End FileCost.
Arguments Costs : clear implicits.

(** * Properties *)

Section FileCostTheorems.
Context {D T : Type} `{BigDecimalLaws D}.
Implicit Types (ds : DownloadState T) (fp : FileProgress T).
Local Open Scope Q_scope.

(** What has been committed to sellers for one file. *)
Definition file_spent fp : Q :=
  qsum (fun e => bd_val (sectionCost fp e.1 (sectionBytes (fp_contentSize fp) e.2) : D))
    (fundedPieces fp).

(** The cost of the micropayments, from the piece payees. *)
Definition micro_cost ds : Q :=
  match ds_piecePayees ds with
  | Some ps => bd_val (piecePayeeTotal ps : D) * inject_Z (totalPieces ds)
  | None => 0
  end.

Lemma fundFile_spent fp (spent : D) : bd_val (fundFile fp spent).1 == bd_val spent + file_spent fp.
Proof.
  unfold fundFile, file_spent. change spent with (spent, fp_contentSize fp).1 at 2.
  generalize (spent, fp_contentSize fp) as acc.
  induction (fundedPieces fp) as [|e l IH]; intros acc; cbn [foldl qsum]; [ring|].
  rewrite IH. unfold fundStep at 1. cbn [fst]. rewrite val_add. ring.
Qed.

Lemma fileCostStep_spent c e :
  bd_val (mTotalSpent (fileCostStep c e)) == bd_val (mTotalSpent c : D) + file_spent e.2.
Proof.
  unfold fileCostStep. pose proof (fundFile_spent e.2 (mTotalSpent c)) as Hf.
  by destruct (fundFile e.2 (mTotalSpent c)).
Qed.

Lemma fileCosts_spent l (c : Costs D) :
  bd_val (mTotalSpent (foldl fileCostStep c l)) ==
  bd_val (mTotalSpent c) + qsum (fun e : string * FileProgress T => file_spent e.2) l.
Proof.
  revert c. induction l as [|e l IH]; intros c; simpl; [ring|].
  rewrite IH, fileCostStep_spent. ring.
Qed.

Lemma fileCosts_micro l (c : Costs D) :
  mMicroPaymentCost (foldl (fileCostStep (T:=T)) c l) = mMicroPaymentCost c.
Proof.
  revert c. induction l as [|e l IH]; intros c; simpl; [done|]. rewrite IH.
  unfold fileCostStep. by destruct (fundFile _ _).
Qed.

(** Only the micropayment cost of a file changes before the budgets. *)
Lemma micro_progress ds :
  exists f : FileProgress T -> string,
    ds_progress (calculateMicroPaymentCost (D:=D) ds).2 =
    map (fun e => (e.1, set_fp_microPaymentCost (f e.2) e.2)) (ds_progress ds).
Proof.
  unfold calculateMicroPaymentCost. destruct (ds_piecePayees ds) as [ps|]; simpl.
  { by exists (fun fp => bd_to_string
      (bd_mul (piecePayeeTotal ps : D) (bd_of_Z (sp_pieceCount (fp_pool fp))))). }
  exists fp_microPaymentCost. rewrite <-(map_id (ds_progress ds)) at 1. apply map_ext.
  by intros [k []].
Qed.

Lemma qsum_map {A B} (g : A -> B) (f : B -> Q) l : qsum f (map g l) = qsum (fun a => f (g a)) l.
Proof. induction l as [|a l IH]; simpl; [done|by rewrite IH]. Qed.

Lemma micro_fields ds :
  ds_maxPrice (calculateMicroPaymentCost (D:=D) ds).2 = ds_maxPrice ds /\
  ds_licenseAmount (calculateMicroPaymentCost (D:=D) ds).2 = ds_licenseAmount ds /\
  bd_val (calculateMicroPaymentCost (D:=D) ds).1 == micro_cost ds.
Proof.
  unfold calculateMicroPaymentCost, micro_cost. destruct (ds_piecePayees ds); simpl.
  - by rewrite val_mul, val_of_Z.
  - by rewrite val_zero.
Qed.

(** The bank is the buyer's maximum price less the license, the micropayments
    for all pieces and the cost of every section that has pieces assigned or
    downloaded. *)
Theorem calculate_bank ds :
  bd_val (mBank (calculate (D:=D) ds).1) ==
  bd_val (bd_of_string (ds_maxPrice ds) : D) - bd_val (bd_of_string (ds_licenseAmount ds) : D) -
  micro_cost ds - qsum (fun e => file_spent e.2) (ds_progress ds).
Proof.
  unfold calculate. pose proof (micro_fields ds) as (Hmax & Hlic & Hm).
  destruct (micro_progress ds) as [f Hp].
  destruct (calculateMicroPaymentCost ds) as [micro ds1]. cbn [fst snd] in *.
  unfold calculateBank, calculateTotalRemainingMedianPrice. cbn [fst mBank].
  rewrite !val_sub, fileCosts_spent, fileCosts_micro, Hmax, Hlic, Hp, qsum_map.
  cbn [mTotalSpent mMicroPaymentCost]. rewrite Hm, val_zero.
  assert (qsum (fun a : string * FileProgress T =>
      file_spent (a.1, set_fp_microPaymentCost (f a.2) a.2).2) (ds_progress ds) =
    qsum (fun e => file_spent e.2) (ds_progress ds)) as -> by done.
  ring.
Qed.

(** ** Budgets *)

Lemma fileBudget_bound (c : Costs D) fp :
  let R := bd_val (mTotalRemainingMedPrice c) in
  let bank := bd_val (mBank c) in
  let med := bd_val (bd_of_string (sp_medPrice (fp_pool fp)) : D) in
  (0 < R -> 0 <= bank -> 0 <= med ->
     0 <= bd_val (fileBudget c fp) /\ bd_val (fileBudget c fp) * R <= med * bank) /\
  (R <= 0 -> bd_val (fileBudget c fp) == trunc7 bank).
Proof.
  cbv zeta. unfold fileBudget. split.
  - intros HR Hb Hm.
    assert (bd_is_zero (mTotalRemainingMedPrice c) = false) as ->.
    { apply not_true_iff_false. rewrite bd_is_zero_val. intros E. rewrite E in HR.
      by apply Qlt_irrefl in HR. }
    assert (bd_is_negative (mTotalRemainingMedPrice c) = false) as ->.
    { apply not_true_iff_false. rewrite bd_is_negative_val. intros E.
      by apply Qlt_le_weak, Qle_not_lt in E. }
    cbn [negb andb]. rewrite val_round, val_mul.
    pose proof (val_div_lower (bd_of_string (sp_medPrice (fp_pool fp))) _ Hm HR) as Hlo.
    pose proof (val_div_upper (bd_of_string (sp_medPrice (fp_pool fp))) _ Hm HR) as Hup.
    set (q := bd_val (bd_div _ _)) in *.
    assert (0 <= q * bd_val (mBank c)) as Hq by (by apply Qmult_le_0_compat).
    split; [by apply trunc7_nonneg|].
    apply Qle_trans with (q * bd_val (mBank c) * bd_val (mTotalRemainingMedPrice c)).
    { apply Qmult_le_compat_r; [by apply trunc7_le|by apply Qlt_le_weak]. }
    rewrite <-Qmult_assoc, (Qmult_comm (bd_val (mBank c))), Qmult_assoc.
    apply Qmult_le_compat_r; [|done].
    apply Qle_trans with (bd_val (bd_of_string (sp_medPrice (fp_pool fp)) : D) /
      bd_val (mTotalRemainingMedPrice c) * bd_val (mTotalRemainingMedPrice c)).
    { apply Qmult_le_compat_r; [done|by apply Qlt_le_weak]. }
    unfold Qdiv. rewrite <-Qmult_assoc, (Qmult_comm (/ _)), Qmult_inv_r, Qmult_1_r;
      [apply Qle_refl|]. intros E. rewrite E in HR. by apply Qlt_irrefl in HR.
  - intros HR.
    assert (negb (bd_is_zero (mTotalRemainingMedPrice c)) &&
      negb (bd_is_negative (mTotalRemainingMedPrice c)) = false) as ->; [|apply val_round].
    apply not_true_iff_false. rewrite andb_true_iff, !negb_true_iff, <-!not_true_iff_false.
    rewrite bd_is_zero_val, bd_is_negative_val. intros [Hz Hn].
    apply Hz, Qle_antisym; [done|]. by apply Qnot_lt_le.
Qed.

(** The file progresses after the calculation: same files in the same order,
    with a new micropayment cost and budget and nothing else changed. *)
Definition repriced fp fp' : Prop :=
  fp' = set_fp_budget (fp_budget fp') (set_fp_microPaymentCost (fp_microPaymentCost fp') fp).

Lemma calculate_progress ds :
  Forall2 (fun e e' => e'.1 = e.1 /\ repriced e.2 e'.2 /\
      fp_budget e'.2 = bd_to_string (fileBudget (calculate (D:=D) ds).1 e'.2))
    (ds_progress ds) (ds_progress (calculate (D:=D) ds).2).
Proof.
  unfold calculate. destruct (micro_progress ds) as [f Hp].
  destruct (calculateMicroPaymentCost ds) as [micro ds1]. cbn [snd] in Hp.
  unfold calculateBank. cbn [fst snd]. set (c := calculateTotalRemainingMedianPrice _ _).
  unfold calculateFileBudgets. cbn [ds_progress set_ds_progress set_ds_totalMaxPrice
    set_ds_totalMedPrice set_ds_totalMinPrice]. rewrite Hp, map_map.
  set (c' := {| mMicroPaymentCost := _ |}). clearbody c'. clear.
  induction (ds_progress ds) as [|[k fp] l IH]; [constructor|]. cbn [map]. constructor; [|exact IH].
  by destruct fp.
Qed.

Lemma calculate_counters ds :
  let ds' := (calculate (D:=D) ds).2 in
  ds_remainingPieces ds' = ds_remainingPieces ds /\
  ds_activeSellers ds' = ds_activeSellers ds /\ ds_blacklist ds' = ds_blacklist ds.
Proof. unfold calculate, calculateMicroPaymentCost. by destruct (ds_piecePayees ds). Qed.

(** Frame: calculating costs changes the price totals of the download, and
    of each file only the micropayment cost and the budget; pieces, sellers and
    pools stay as they are. *)
Theorem calculate_frame ds :
  let ds' := (calculate (D:=D) ds).2 in
  Forall2 (fun e e' => e'.1 = e.1 /\ repriced e.2 e'.2) (ds_progress ds) (ds_progress ds') /\
  ds_remainingPieces ds' = ds_remainingPieces ds /\
  ds_activeSellers ds' = ds_activeSellers ds /\ ds_blacklist ds' = ds_blacklist ds.
Proof.
  cbv zeta. split.
  - eapply Forall2_impl; [apply calculate_progress|]. by intros ? ? (? & ? & _).
  - apply calculate_counters.
Qed.

(** C36 (budgets): when unassigned pieces have a positive median price left, the
    bank is not overdrawn and the file's median price is not negative, the file's
    budget [b], read back from its printed form, is not negative and at most its
    share of the bank: [b * remaining <= median * bank].  When what remains is
    free, the budget is the bank, truncated to seven digits. *)
Theorem calculate_budget ds k fp' :
  let c := (calculate (D:=D) ds).1 in
  let R := bd_val (mTotalRemainingMedPrice c) in
  let med := bd_val (bd_of_string (sp_medPrice (fp_pool fp')) : D) in
  let budget := bd_val (bd_of_string (fp_budget fp') : D) in
  (k, fp') ∈ ds_progress (calculate (D:=D) ds).2 ->
  (0 < R -> 0 <= bd_val (mBank c) -> 0 <= med ->
     0 <= budget /\ budget * R <= med * bd_val (mBank c)) /\
  (R <= 0 -> budget == trunc7 (bd_val (mBank c))).
Proof.
  cbv zeta. intros Hin. pose proof (calculate_progress ds) as HF.
  apply list_elem_of_lookup in Hin as [i Hi].
  destruct (Forall2_lookup_r _ _ _ _ _ HF Hi) as (e & _ & _ & _ & Hb). cbn [snd] in Hb.
  set (c := (calculate ds).1) in *. rewrite Hb.
  assert (bd_val (bd_of_string (bd_to_string (fileBudget c fp')) : D) ==
    bd_val (fileBudget c fp')) as -> by apply val_print.
  apply fileBudget_bound.
Qed.

(** ** Bytes that remain *)

Definition funded_count fp : Z :=
  Z.of_nat (length (concat (dm_values (fundedPieces fp)))).

Lemma sectionBytes_exact fileSize pieces :
  (forall p, p ∈ pieces -> 0 < pc_size p)%Z ->
  (sum_by pc_size pieces < 2 ^ 64)%Z ->
  sectionBytes fileSize pieces = sum_by pc_size pieces.
Proof.
  intros Hpos. unfold sectionBytes.
  enough (forall acc, 0 <= acc -> acc + sum_by pc_size pieces < 2 ^ 64 ->
    foldl (fun acc p => u64 (acc + pieceBytes fileSize p)) acc pieces =
    acc + sum_by pc_size pieces)%Z as Hgen by (intros Hlt; by rewrite Hgen).
  induction pieces as [|p pieces IH]; intros acc Hacc Hlt; simpl in *; [lia|].
  pose proof (Hpos p ltac:(left)). unfold pieceBytes at 2.
  rewrite (proj2 (Z.eqb_neq _ _)) by lia.
  assert (0 <= sum_by pc_size pieces)%Z.
  { apply sum_by_nonneg. intros q Hq. pose proof (Hpos q ltac:(by right)). lia. }
  rewrite u64_small by lia. rewrite IH; [lia| |lia|lia]. intros q Hq. apply Hpos. by right.
Qed.

Lemma fundSteps_remaining fp l (acc : D * Z) :
  (forall p, p ∈ concat (dm_values l) -> 0 < pc_size p)%Z ->
  (0 <= sum_by pc_size (concat (dm_values l)) <= acc.2)%Z -> (acc.2 < 2 ^ 64)%Z ->
  (foldl (fundStep fp) acc l).2 = (acc.2 - sum_by pc_size (concat (dm_values l)))%Z.
Proof.
  revert acc. induction l as [|[h ps] l IH]; intros acc Hpos Hle Hlt;
    cbn [foldl dm_values fmap list_fmap concat snd] in *; [cbn in *; lia|].
  assert (forall p, p ∈ ps -> 0 < pc_size p)%Z as Hps
    by (intros; apply Hpos, elem_of_app; by left).
  assert (forall p, p ∈ concat (dm_values l) -> 0 < pc_size p)%Z as Hl
    by (intros; apply Hpos, elem_of_app; by right).
  rewrite sum_by_app in *.
  assert (0 <= sum_by pc_size ps)%Z
    by (apply sum_by_nonneg; intros q Hq; specialize (Hps q Hq); lia).
  assert (0 <= sum_by pc_size (concat (dm_values l)))%Z
    by (apply sum_by_nonneg; intros q Hq; specialize (Hl q Hq); lia).
  unfold dm_values in *. unfold fundStep at 2. cbn [snd].
  rewrite sectionBytes_exact by (done || lia).
  rewrite IH; cbn [snd]; rewrite ?u64_small; try done; try lia.
Qed.

(** (no wrap-around): while a piece of a file is unassigned, the unsigned
    subtractions that compute the bytes left to fund do not wrap, whether the
    funded pieces have their nominal or a smaller actual size: the result is the
    content size less the sizes of the funded pieces, and it is positive. *)
Theorem fundFile_remaining fp (spent : D) (sz : Z) :
  (forall p, p ∈ concat (dm_values (fundedPieces fp)) -> 0 < pc_size p <= sz)%Z ->
  (funded_count fp + Z.of_nat (length (fp_unassigned fp)) = sp_pieceCount (fp_pool fp))%Z ->
  fp_unassigned fp <> [] ->
  (0 < sz)%Z -> ((sp_pieceCount (fp_pool fp) - 1) * sz < fp_contentSize fp < 2 ^ 64)%Z ->
  (fundFile fp spent).2 =
    (fp_contentSize fp - sum_by pc_size (concat (dm_values (fundedPieces fp))))%Z /\
  (0 < (fundFile fp spent).2)%Z.
Proof.
  intros Hsz Hcount Hun Hpos [Hlt Hmax]. unfold funded_count in Hcount.
  assert (0 < Z.of_nat (length (fp_unassigned fp)))%Z
    by (destruct (fp_unassigned fp); [done|simpl; lia]).
  pose proof (sum_by_le pc_size sz (concat (dm_values (fundedPieces fp)))
    (fun p Hp => proj2 (Hsz p Hp))) as Hle.
  assert (0 <= sum_by pc_size (concat (dm_values (fundedPieces fp))))%Z
    by (apply sum_by_nonneg; intros p Hp; specialize (Hsz p Hp); lia).
  assert (sum_by pc_size (concat (dm_values (fundedPieces fp))) < fp_contentSize fp)%Z by nia.
  unfold fundFile. rewrite fundSteps_remaining; cbn [snd]; [lia| |lia|lia].
  intros p Hp. specialize (Hsz p Hp). lia.
Qed.
End FileCostTheorems.

Import Exact.

(** A file of 2500 bytes in three pieces, one of them assigned. *)
Definition sample_piece (i : Z) : Piece :=
  {| pc_index := i; pc_size := 1000; pc_bfpId := 1; pc_path := "" |}.

Definition sample_pool : SellerPool Z :=
  {| sp_fileId := "f"; sp_mediaId := 1; sp_contentSize := 2500; sp_extension := "mp3";
     sp_pieceSize := 1000; sp_pieceCount := 3; sp_bfpId := 1;
     sp_minPrice := "1000000"; sp_medPrice := "2000000"; sp_maxPrice := "3000000";
     sp_sellers := [] |}.

Definition sample_progress : FileProgress Z :=
  {| fp_fileId := "f"; fp_mediaId := 1; fp_contentSize := 2500; fp_extension := "mp3"; fp_bytesDownloaded := 0; fp_budget := "";
     fp_pool := sample_pool; fp_sellerData := [("h1", quick_seller)]; fp_sellers := [];
     fp_unassigned := [sample_piece 1; sample_piece 2]; fp_assigned := [("h1", [sample_piece 0])];
     fp_downloaded := []; fp_microPaymentCost := "" |}.

Definition sample_download : DownloadState Z :=
  {| ds_id := 7; ds_userId := 900; ds_maxPrice := "50000000"; ds_fast := false;
     ds_sellerLimit := 5; ds_licenseAmount := "10000000"; ds_piecePayees := None;
     ds_progress := [("f", sample_progress)]; ds_remainingPieces := 3; ds_totalPieceCount := 3;
     ds_totalMicroPaymentCost := ""; ds_totalMinPrice := ""; ds_totalMedPrice := "";
     ds_totalMaxPrice := ""; ds_initialized := true; ds_licenseAcquired := true;
     ds_downloadPaused := false; ds_deleting := false; ds_startDate := "";
     ds_activeSellers := [("900:1", 1%Z)]; ds_blacklist := [] |}.

Lemma calculate_budget_witness :
  exists fp', ds_progress (calculate (D:=Q) sample_download).2 = [("f", fp')] /\
    (0 <= bd_val (bd_of_string (fp_budget fp') : Q))%Q.
Proof.
  eexists. split; [reflexivity|].
  refine (proj1 (proj1 (calculate_budget (D:=Q) sample_download "f" _ _) _ _ _)).
  - left.
  - vm_compute. reflexivity.
  - vm_compute. discriminate.
  - vm_compute. discriminate.
Defined.

Lemma fundFile_remaining_witness :
  (fundFile sample_progress (bd_zero : Q)).2 = 1500%Z.
Proof.
  refine (proj1 (fundFile_remaining sample_progress (bd_zero : Q) 1000 _ _ _ _ _)).
  - intros p Hp%list_elem_of_singleton. subst p. simpl. lia.
  - reflexivity.
  - discriminate.
  - lia.
  - simpl. lia.
Defined.
