(* ===== verification/Download.v ===== *)
(** The download manager ([cpp/purchase/DownloadManager.cpp]).

    One fiber drives a purchase: it assigns unassigned pieces to negotiated
    sellers, one [PieceDownloader] fiber per assigned piece, and reacts to the
    messages of its child fibers.  Every handler is a function from the manager
    to its result, the new manager and the effects it has on the rest of the
    node.  What the handlers ask the rest of the node is in [Env]. *)
From S2P Require Import Prelude DynMap Money Payees SellerPicker DownloadState FileCost.
From stdpp Require Import pretty.

Local Open Scope Z_scope.

Definition DEFAULT_POOL_TIMEOUT : Z := 1000 * 60 * 2.

(** [PieceDownloader]: what the manager hands to it when it starts it; the ids are
    those of the seller named in the contract section. *)
Record Downloader := {
  dl_id : Z;
  dl_fileId : string;
  dl_hash : string;
  dl_userId : Z;
  dl_serverId : Z;
  dl_piece : Piece
}.

(** The purchase module's configuration. *)
Record Config := { cfg_maxPieces : Z; cfg_maxExcessBandwidth : Z; cfg_temporaryPath : string;
                   cfg_sellerPoolTimeout : option Z }.

(** Answers of the node while one handler runs: configuration, measured rate and
    rate limit, the random number generator, whether the database writes
    succeed, path expansion and joining, date and clock. *)
Record Env := {
  env_config : option Config;
  env_rate : Z;
  env_rateLimit : Z;
  env_random : Z -> Z -> Z;
  env_updateFlags : bool;
  env_updateProgress : bool;
  env_expand : string -> option string;
  env_join : string -> string -> string;
  env_date : string;
  env_now : Z
}.

(** The message of a [PieceDownloader] that has finished, with the section's hash
    and the ids of the section's seller. *)
Record PieceMsg (T : Type) := {
  pm_received : bool;
  pm_id : Z;
  pm_fileId : string;
  pm_hash : string;
  pm_userId : Z;
  pm_serverId : Z;
  pm_piece : Piece;
  pm_rate : T
}.
Arguments pm_received {T} _.
Arguments pm_id {T} _.
Arguments pm_fileId {T} _.
Arguments pm_hash {T} _.
Arguments pm_userId {T} _.
Arguments pm_serverId {T} _.
Arguments pm_piece {T} _.
Arguments pm_rate {T} _.

(** Messages by the type [getMessageType] gives them. *)
Inductive Msg (T : Type) :=
| MsgInterrupt
| MsgAssignOptionalPiece
| MsgPieceUpdate (pm : PieceMsg T)
| MsgPoolTimeout
| MsgPoolUpdate (pools : list (SellerPool T))
| MsgPoolError
| MsgNegotiateComplete (negotiationError must : bool) (exception : string)
| MsgPauseDownload (downloadStateId userId : Z) (deleting : bool)
| MsgProgressPoll
| MsgIgnore.
Arguments MsgInterrupt {T}.
Arguments MsgAssignOptionalPiece {T}.
Arguments MsgPieceUpdate {T} _.
Arguments MsgPoolTimeout {T}.
Arguments MsgPoolUpdate {T} _.
Arguments MsgPoolError {T}.
Arguments MsgNegotiateComplete {T} _ _ _.
Arguments MsgPauseDownload {T} _ _ _.
Arguments MsgProgressPoll {T}.
Arguments MsgIgnore {T}.

(** Effects of a handler on the node. *)
Inductive Effect :=
| Emit (type : string)
| SetException (type : string)
| StartDownloader (d : Downloader)
| StartNegotiator (must : bool)
| StartPoolUpdater (files : list string)
| SelfPoolTimeout
| SchedulePoolTimeout (ms : Z)
| InterruptSelf
| InterruptDownloader (id : Z).

Section Manager.
Context {D T : Type} `{BigDecimal D} `{Scalar T}.

Record Manager := {
  mDownloadState : DownloadState T;
  mSellerPoolsInitializing : bool;
  mNegotiating : bool;
  mSellerPoolsUpdating : bool;
  mAssignOptionalPiece : bool;
  mInterrupted : bool;
  mPieceDownloaderId : Z;
  mPieceDownloaders : list (Z * (string * Z))
}.

Implicit Types (ds : DownloadState T) (fp : FileProgress T) (m : Manager) (sd : SellerData T).

Definition with_state ds m : Manager :=
  {| mDownloadState := ds; mSellerPoolsInitializing := mSellerPoolsInitializing m;
     mNegotiating := mNegotiating m; mSellerPoolsUpdating := mSellerPoolsUpdating m;
     mAssignOptionalPiece := mAssignOptionalPiece m; mInterrupted := mInterrupted m;
     mPieceDownloaderId := mPieceDownloaderId m; mPieceDownloaders := mPieceDownloaders m |}.

Definition with_flags (init neg upd opt intr : bool) m : Manager :=
  {| mDownloadState := mDownloadState m; mSellerPoolsInitializing := init; mNegotiating := neg;
     mSellerPoolsUpdating := upd; mAssignOptionalPiece := opt; mInterrupted := intr;
     mPieceDownloaderId := mPieceDownloaderId m; mPieceDownloaders := mPieceDownloaders m |}.

Definition set_negotiating (b : bool) m : Manager :=
  with_flags (mSellerPoolsInitializing m) b (mSellerPoolsUpdating m) (mAssignOptionalPiece m)
    (mInterrupted m) m.

Definition set_assignOptional (b : bool) m : Manager :=
  with_flags (mSellerPoolsInitializing m) (mNegotiating m) (mSellerPoolsUpdating m) b
    (mInterrupted m) m.

(** Both pool flags are cleared together. *)
Definition clear_pool_flags m : Manager :=
  with_flags false (mNegotiating m) false (mAssignOptionalPiece m) (mInterrupted m) m.

Definition with_downloaders (id : Z) (l : list (Z * (string * Z))) m : Manager :=
  {| mDownloadState := mDownloadState m; mSellerPoolsInitializing := mSellerPoolsInitializing m;
     mNegotiating := mNegotiating m; mSellerPoolsUpdating := mSellerPoolsUpdating m;
     mAssignOptionalPiece := mAssignOptionalPiece m; mInterrupted := mInterrupted m;
     mPieceDownloaderId := id; mPieceDownloaders := l |}.

(** [mDownloadState["progress"][fileId]], created when missing. *)
Definition progress_of ds (fileId : string) : FileProgress T :=
  dm_get_or (ds_progress ds) fileId no_progress.

Definition put_progress (fileId : string) fp ds : DownloadState T :=
  set_ds_progress (dm_set (ds_progress ds) fileId fp) ds.

(** ** Start-up checks *)

Definition checkInit ds : outcome unit :=
  if ds_initialized ds then Ok tt else Raise "bitmunk.purchase.DownloadState.NotInitialized".

Definition checkLicense ds : outcome unit :=
  if negb (ds_licenseAcquired ds) then Raise "bitmunk.purchase.DownloadState.MissingLicense"
  else if bd_gtb (bd_of_string (ds_licenseAmount ds) : D) (bd_of_string (ds_maxPrice ds))
  then Raise "bitmunk.purchase.DownloadState.LicenseTooExpensive"
  else Ok tt.

Definition unassignFile fp : FileProgress T :=
  set_fp_assigned [] (set_fp_unassigned (foldl (fun u e => u ++ e.2) (fp_unassigned fp)
    (fp_assigned fp)) fp).

Definition unassignPieces ds : DownloadState T :=
  set_ds_progress (map (fun e => (e.1, unassignFile e.2)) (ds_progress ds)) ds.

(** ** Choosing what to assign *)

Definition countAssigned ds : Z :=
  foldl (fun acc e => u32 (acc + Z.of_nat (length (fp_assigned e.2)))) 0 (ds_progress ds).

Definition anyUnassigned ds : bool :=
  existsb (fun e => 0 <? Z.of_nat (length (fp_unassigned e.2))) (ds_progress ds).

(** Returns whether to assign a piece and whether one must be assigned. *)
Definition shouldAssignPiece (env : Env) m : bool * bool * Manager :=
  let assigned := countAssigned (mDownloadState m) in
  if assigned =? 0 then (true, true, m)
  else if anyUnassigned (mDownloadState m) && mAssignOptionalPiece m then
    let m := set_assignOptional false m in
    match env_config env with
    | None => (false, false, m)
    | Some cfg =>
        if (cfg_maxPieces cfg =? 0) || (assigned <? cfg_maxPieces cfg) then
          let rate := env_rate env in
          let rateLimit := env_rateLimit env in
          let excess := if rateLimit <? rate then 0 else u32 (rateLimit - rate) in
          ((0 <? rate) && ((rateLimit =? 0) || (cfg_maxExcessBandwidth cfg =? 0) ||
                           (cfg_maxExcessBandwidth cfg <? excess)), false, m)
        else (false, false, m)
    end
  else (false, false, m).

(** May a piece be assigned to this seller of a file with this budget? *)
Definition eligible ds (budget : D) sd : bool :=
  let key := sd_key sd in
  negb (String.eqb key "") && negb (dm_has (ds_blacklist ds) key) &&
  negb (dm_has (ds_activeSellers ds) key) && bd_leb (bd_of_string (sd_price sd)) budget.

Definition fileSellers ds fp : list (SellerData T) :=
  match fp_unassigned fp with
  | [] => []
  | _ => filter (fun sd => eligible ds (bd_of_string (fp_budget fp)) sd = true)
           (dm_values (fp_sellerData fp))
  end.

Definition eligibleSellers ds : list (SellerData T) :=
  flat_map (fun e => fileSellers ds e.2) (ds_progress ds).

Definition downloadedCount fp : Z :=
  foldl (fun acc e => u32 (acc + Z.of_nat (length e.2))) 0 (fp_downloaded fp).

Definition sellerCount ds : Z :=
  foldl (fun acc e =>
    if downloadedCount e.2 <? sp_pieceCount (fp_pool e.2)
    then i32 (acc + Z.of_nat (length (fp_sellerData e.2))) else acc) 0 (ds_progress ds).

Definition pickSeller (env : Env) (must : bool) m
  : option (SellerData T) * Manager * list Effect :=
  let ds := mDownloadState m in
  match SellerPicker.pickSeller D (env_random env) (ds_fast ds) (eligibleSellers ds) with
  | Some sd => (Some sd, m, [])
  | None =>
      if sellerCount ds <? ds_sellerLimit ds then
        (None, set_negotiating true m, [StartNegotiator must])
      else if must then
        (None, m, [SetException "bitmunk.purchase.DownloadState.NoSellersAvailable";
                   SelfPoolTimeout])
      else (None, m, [])
  end.

(** ** Assigning a piece *)

(** ["%04u"] *)
Definition pad4 (n : Z) : string :=
  let s := pretty (Z.to_N n) in
  String.substring 0 (4 - String.length s) "0000" +:+ s.

Definition generateFilePieceFilename (join : string -> string -> string) (path : string)
  (userId dsId : Z) (fileId extension : string) (index : Z) : string :=
  join path (pretty (Z.to_N userId) +:+ "-" +:+ pretty (Z.to_N dsId) +:+ "-" +:+ fileId +:+ "-" +:+
             extension +:+ "-" +:+ pad4 index +:+ ".fp").

(** [std::map::insert] does nothing when the key is present. *)
Definition insert_downloader (id : Z) (e : string * Z) (l : list (Z * (string * Z)))
  : list (Z * (string * Z)) :=
  if existsb (fun x => x.1 =? id) l then l else l ++ [(id, e)].

Definition add_connection (key : string) (active : dmap Z) : dmap Z :=
  dm_set active key (u32 (dm_get_or active key 0 + 1)).

(** Moves the piece from the unassigned list to the section's assigned list. *)
Definition move_assigned (csHash : string) (p : Piece) (rest : list Piece) fp : FileProgress T :=
  set_fp_assigned (dm_set (fp_assigned fp) csHash (dm_get_or (fp_assigned fp) csHash [] ++ [p]))
    (set_fp_unassigned rest fp).

(** The connection is counted for the seller of the entry, the downloader gets
    the contract section. *)
Definition assignPiece (env : Env) sd m : bool * Manager * list Effect :=
  match env_config env with
  | None => (false, m, [])
  | Some cfg =>
      let ds := mDownloadState m in
      let fileId := sd_fileId sd in
      let progress := progress_of ds fileId in
      match fp_unassigned progress with
      | [] => (false, with_state (put_progress fileId progress ds) m, [])
      | p :: rest =>
          let '(rval, ds) :=
            if String.eqb (ds_startDate ds) ""
            then (env_updateFlags env, set_ds_startDate (env_date env) ds)
            else (true, ds) in
          if negb rval then (false, with_state (put_progress fileId progress ds) m, [])
          else
            let assigned (p : Piece) :=
              with_state
                (set_ds_activeSellers (add_connection (sd_key sd) (ds_activeSellers ds))
                  (put_progress fileId (move_assigned (sd_hash sd) p rest progress) ds)) m in
            let event := Emit "bitmunk.purchase.DownloadState.pieceAssigned" in
            match env_expand env (cfg_temporaryPath cfg) with
            | None => (false, assigned p, [event])
            | Some path =>
                let p := set_pc_path (generateFilePieceFilename (env_join env) path
                  (ds_userId ds) (ds_id ds) fileId (fp_extension progress) (pc_index p)) p in
                let m := assigned p in
                if negb (env_updateProgress env) then (false, m, [event])
                else
                  let id := u32 (mPieceDownloaderId m + 1) in
                  (true,
                   with_downloaders id
                     (insert_downloader id (fileId, pc_index p) (mPieceDownloaders m)) m,
                   [StartDownloader {| dl_id := id; dl_fileId := fileId; dl_hash := sd_hash sd;
                                       dl_userId := (sd_sectionSeller sd).1;
                                       dl_serverId := (sd_sectionSeller sd).2;
                                       dl_piece := p |}; event])
            end
      end
  end.

Definition tryAssignPiece (env : Env) m : bool * Manager * list Effect :=
  let '(should, must, m) := shouldAssignPiece env m in
  if should then
    let m := with_state (calculate (D:=D) (mDownloadState m)).2 m in
    let '(pick, m, eff) := pickSeller env must m in
    match pick with
    | Some sd => let '(r, m, eff') := assignPiece env sd m in (r, m, eff ++ eff')
    | None => (mNegotiating m || negb must, m, eff)
    end
  else (true, m, []).

(** ** Message handlers *)

(** The piece is taken off the section's assigned list, and the section off the
    map when that was its last piece. *)
Definition remove_assigned (csHash : string) (index : Z) (assigned : dmap (list Piece))
  : dmap (list Piece) :=
  let pieces := remove_first (fun p => pc_index p =? index) (dm_get_or assigned csHash []) in
  if Z.of_nat (length pieces) =? 0 then dm_remove assigned csHash
  else dm_set assigned csHash pieces.

Definition drop_connection (key : string) (active : dmap Z) : dmap Z :=
  match dm_get active key with
  | Some conns => if 1 <? conns then dm_set active key (conns - 1) else dm_remove active key
  | None => active
  end.

Definition no_seller_data : SellerData T :=
  {| sd_userId := 0; sd_serverId := 0; sd_price := ""; sd_downloadRate := None; sd_hash := "";
     sd_fileId := ""; sd_sectionSeller := (0, 0) |}.

Definition set_rate (r : T) sd : SellerData T :=
  {| sd_userId := sd_userId sd; sd_serverId := sd_serverId sd; sd_price := sd_price sd;
     sd_downloadRate := Some r; sd_hash := sd_hash sd; sd_fileId := sd_fileId sd;
     sd_sectionSeller := sd_sectionSeller sd |}.

Definition piece_received (pm : PieceMsg T) fp : FileProgress T :=
  let fp := set_fp_downloaded (dm_set (fp_downloaded fp) (pm_hash pm)
    (dm_get_or (fp_downloaded fp) (pm_hash pm) [] ++ [pm_piece pm])) fp in
  let fp := set_fp_bytesDownloaded (u64 (fp_bytesDownloaded fp + pc_size (pm_piece pm))) fp in
  set_fp_sellerData (dm_set (fp_sellerData fp) (pm_hash pm)
    (set_rate (pm_rate pm) (dm_get_or (fp_sellerData fp) (pm_hash pm) no_seller_data))) fp.

Definition pieceUpdate (env : Env) (pm : PieceMsg T) m : bool * Manager * list Effect :=
  let ds := mDownloadState m in
  let fp := progress_of ds (pm_fileId pm) in
  let key := createSellerServerKey (pm_userId pm) (pm_serverId pm) in
  let fp := set_fp_assigned (remove_assigned (pm_hash pm) (pc_index (pm_piece pm))
    (fp_assigned fp)) fp in
  let ds := set_ds_activeSellers (drop_connection key (ds_activeSellers ds)) ds in
  let ds :=
    if pm_received pm then
      set_ds_remainingPieces (u32 (ds_remainingPieces ds - 1))
        (put_progress (pm_fileId pm) (piece_received pm fp) ds)
    else
      set_ds_blacklist (dm_set (ds_blacklist ds) key (pm_userId pm, pm_serverId pm, env_now env))
        (put_progress (pm_fileId pm)
          (set_fp_unassigned (fp_unassigned fp ++ [pm_piece pm]) fp) ds) in
  (env_updateProgress env && env_updateFlags env,
   with_downloaders (mPieceDownloaderId m)
     (filter (fun x => x.1 <> pm_id pm) (mPieceDownloaders m)) (with_state ds m),
   []).

Definition poolTimeout m : bool * Manager * list Effect :=
  if negb (mSellerPoolsUpdating m) && negb (mInterrupted m) then
    let files := flat_map (fun e => if 0 <? Z.of_nat (length (fp_unassigned e.2))
                                    then [sp_fileId (fp_pool e.2)] else [])
                   (ds_progress (mDownloadState m)) in
    (true, m, match files with [] => [] | _ => [StartPoolUpdater files] end)
  else (true, m, []).

(** The file's pool is replaced; its pieces keep their bfp id. *)
Definition storePool ds (sp : SellerPool T) : DownloadState T :=
  let fp := progress_of ds (sp_fileId sp) in
  let id := sp_bfpId (fp_pool fp) in
  put_progress (sp_fileId sp) (set_fp_pool (if id =? 0 then sp else set_sp_bfpId id sp) fp) ds.

(** Blacklist entries younger than the pool timeout. *)
Definition keepBlacklist (now : Z) (bl : dmap (Z * Z * Z)) : dmap (Z * Z * Z) :=
  filter (fun e => u64 (now - e.2.2) < DEFAULT_POOL_TIMEOUT) bl.

Definition poolUpdate (env : Env) (pools : list (SellerPool T)) m : bool * Manager * list Effect :=
  let ds := foldl storePool (mDownloadState m) pools in
  let ds := set_ds_blacklist (keepBlacklist (env_now env) (ds_blacklist ds)) ds in
  let timeout := default DEFAULT_POOL_TIMEOUT (env_config env ≫= cfg_sellerPoolTimeout) in
  (true, clear_pool_flags (with_state ds m),
   [Emit "bitmunk.purchase.DownloadState.sellerPoolsUpdated"; SchedulePoolTimeout timeout]).

(** The negotiator's exception, by its type, becomes the manager's. *)
Definition negotiationComplete (negotiationError must : bool) (exception : string) m
  : bool * Manager * list Effect :=
  let m := set_negotiating false m in
  if negotiationError && must
  then (false, m, [SetException exception; Emit "bitmunk.purchase.DownloadState.exception"])
  else (true, m, []).

Definition pauseDownload (downloadStateId userId : Z) (deleting : bool) m
  : bool * Manager * list Effect :=
  if (ds_id (mDownloadState m) =? downloadStateId) && (ds_userId (mDownloadState m) =? userId)
  then (true, with_state (set_ds_deleting deleting (mDownloadState m)) m, [InterruptSelf])
  else (true, m, []).

Definition interrupt m : bool * Manager * list Effect :=
  let m := with_flags (mSellerPoolsInitializing m) (mNegotiating m) (mSellerPoolsUpdating m)
             (mAssignOptionalPiece m) true m in
  let m := with_state (set_ds_downloadPaused true (mDownloadState m)) m in
  (true, m, map (fun e => InterruptDownloader e.1) (mPieceDownloaders m) ++
            [Emit "bitmunk.purchase.DownloadState.downloadInterrupting"]).

Definition progressPolled m : bool * Manager * list Effect :=
  (true, m, [Emit "bitmunk.purchase.DownloadState.progressUpdate"]).

Definition handleMessage (env : Env) (msg : Msg T) m : bool * Manager * list Effect :=
  match msg with
  | MsgInterrupt => interrupt m
  | MsgAssignOptionalPiece => (true, set_assignOptional true m, [])
  | MsgPieceUpdate pm => pieceUpdate env pm m
  | MsgPoolTimeout => poolTimeout m
  | MsgPoolUpdate pools => poolUpdate env pools m
  | MsgPoolError => (true, clear_pool_flags m, [])
  | MsgNegotiateComplete err must ex => negotiationComplete err must ex m
  | MsgPauseDownload id uid del => pauseDownload id uid del m
  | MsgProgressPoll => progressPolled m
  | MsgIgnore => (true, m, [])
  end.

(** ** The message loop *)

(** Where [handleMessages] is: at the top of the loop, waiting for messages with
    the result of the last one and whether one was not a progress poll, waiting
    for the child fibers to exit, or returned. *)
Inductive Phase :=
| Loop
| Sleep (rval nonProgressUpdate : bool)
| Exiting (rval complete : bool)
| Returned (rval complete : bool).

Definition isComplete m : bool := ds_remainingPieces (mDownloadState m) =? 0.

(** One evaluation of the loop condition and, if it holds, of the loop body up to
    the wait. *)
Definition loopTop (env : Env) m : Phase * Manager * list Effect :=
  if mInterrupted m then (Exiting true false, m, [])
  else if isComplete m then (Exiting true true, m, (progressPolled m).2)
  else if negb (mNegotiating m) && negb (mSellerPoolsInitializing m) then
    let '(r, m, eff) := tryAssignPiece env m in
    if negb r && Nat.eqb (length (mPieceDownloaders m)) 0
    then (Exiting false false, m, eff)
    else (Sleep true false, m, eff)
  else (Sleep true false, m, []).

Definition is_progress_poll (msg : Msg T) : bool :=
  match msg with MsgProgressPoll => true | _ => false end.

(** One message taken from the queue while waiting. *)
Definition loopMessage (env : Env) (nonProgressUpdate : bool) (msg : Msg T) m
  : Phase * Manager * list Effect :=
  let '(rval, m, eff) := handleMessage env msg m in
  (Sleep rval (nonProgressUpdate || negb (is_progress_poll msg)), m,
   eff ++ (if rval then [] else [InterruptSelf])).

(** One message of a child while waiting for the children to exit. *)
Definition exitMessage (env : Env) (msg : Msg T) m : Manager * list Effect :=
  match msg with
  | MsgPieceUpdate pm => let '(_, m, eff) := pieceUpdate env pm m in (m, eff)
  | MsgNegotiateComplete _ _ _ => (set_negotiating false m, [])
  | MsgPoolUpdate _ | MsgPoolError =>
      (with_flags (mSellerPoolsInitializing m) (mNegotiating m) false (mAssignOptionalPiece m)
         (mInterrupted m) m, [])
  | _ => (m, [])
  end.

Definition childrenGone m : bool :=
  negb (mNegotiating m || mSellerPoolsUpdating m || negb (Nat.eqb (length (mPieceDownloaders m)) 0)).

(** The events sent on the way out. *)
Definition finalEvents (complete : bool) m : list Effect :=
  (if mInterrupted m then
     Emit "bitmunk.purchase.DownloadState.downloadInterrupted" ::
     (if ds_deleting (mDownloadState m) then []
      else [Emit "bitmunk.purchase.DownloadState.downloadPaused"])
   else []) ++
  Emit "bitmunk.purchase.DownloadState.downloadStopped" ::
  (if complete && negb (mInterrupted m)
   then [Emit "bitmunk.purchase.DownloadState.downloadCompleted"] else []).
End Manager.
Arguments Manager : clear implicits.
