(* ===== verification/Negotiator.v ===== *)
(** Negotiation with sellers ([cpp/purchase/Negotiator.cpp]).

    A fiber that, when no negotiated seller can take a piece, looks for another
    one: files with the fewest sellers first, sellers within the file's budget,
    a contract section that the seller confirms and whose price is checked again
    before the buyer signs it. *)
From S2P Require Import Prelude DynMap Money Payees Signer SellerPicker DownloadState FileCost.
From S2P Require Import Download.
From stdpp Require Import pretty relations.

Local Open Scope Z_scope.

Section Negotiator.
Context {D T : Type} `{BigDecimal D} `{Scalar T}.
Implicit Types (ds : DownloadState T) (fp : FileProgress T) (sd : SellerData T).

(** ** Files and sellers *)

(** Insertion of a file into the map from seller counts to files, whose entries
    are in increasing order of the count and keep the order of insertion. *)
Fixpoint autoSort_add (n : Z) (e : string * FileProgress T)
  (l : list (Z * list (string * FileProgress T))) : list (Z * list (string * FileProgress T)) :=
  match l with
  | [] => [(n, [e])]
  | (n', es) :: l' =>
      if n =? n' then (n', es ++ [e]) :: l'
      else if n <? n' then (n, [e]) :: l
      else (n', es) :: autoSort_add n e l'
  end.

Definition fileSellerCount (e : string * FileProgress T) : Z :=
  Z.of_nat (length (fp_sellerData e.2)).

(** The stack of files that could use another seller. *)
Definition pickFiles ds : list (string * FileProgress T) :=
  let autoSort := foldl (fun acc e =>
    if 0 <? Z.of_nat (length (fp_unassigned e.2)) then autoSort_add (fileSellerCount e) e acc
    else acc) [] (ds_progress ds) in
  concat (autoSort.*2).

(** Sellers of the pool that may be negotiated with. *)
Definition negotiable ds fp sd : bool :=
  let key := sd_key sd in
  negb (String.eqb key "") && negb (dm_has (ds_blacklist ds) key) &&
  negb (dm_has (fp_sellers fp) key) &&
  bd_leb (bd_of_string (sd_price sd) : D) (bd_of_string (fp_budget fp)).

Definition pickSeller (random : Z -> Z -> Z) ds (sp : SellerPool T) : option (SellerData T) :=
  let fp := progress_of ds (sp_fileId sp) in
  SellerPicker.pickSeller D random (ds_fast ds)
    (filter (fun sd => negotiable ds fp sd = true) (sp_sellers sp)).

(** ** The negotiated section *)

(** The section the seller sent back, as the negotiator checks it; the seller it
    names is not among what is checked. *)
Record Offer := {
  of_fileId : string;
  of_mediaId : Z;
  of_wareId : string;
  of_contentSize : Z;
  of_size : Z;
  of_hash : string;
  of_seller : Z * Z;
  of_section : ContractSection
}.

(** The section that is requested: the ware [pickSeller] set up and the buyer
    [negotiateSection] filled in. *)
Record Request := {
  rq_fileId : string;
  rq_mediaId : Z;
  rq_wareId : string;
  rq_contentSize : Z;
  rq_buyerId : Z;
  rq_buyerProfileId : Z
}.

Definition wareRequest fp : Request :=
  {| rq_fileId := fp_fileId fp; rq_mediaId := fp_mediaId fp;
     rq_wareId := "bitmunk:file:" +:+ pretty (fp_mediaId fp) +:+ "-" +:+ fp_fileId fp;
     rq_contentSize := fp_contentSize fp; rq_buyerId := 0; rq_buyerProfileId := 0 |}.

Definition set_buyer (userId profileId : Z) (rq : Request) : Request :=
  {| rq_fileId := rq_fileId rq; rq_mediaId := rq_mediaId rq; rq_wareId := rq_wareId rq;
     rq_contentSize := rq_contentSize rq; rq_buyerId := userId; rq_buyerProfileId := profileId |}.

(** The seller's section replaces the requested one in the seller data. *)
Definition with_section (o : Offer) sd : SellerData T :=
  {| sd_userId := sd_userId sd; sd_serverId := sd_serverId sd; sd_price := sd_price sd;
     sd_downloadRate := sd_downloadRate sd; sd_hash := of_hash o; sd_fileId := of_fileId o;
     sd_sectionSeller := of_seller o |}.

Definition with_price (p : string) sd : SellerData T :=
  {| sd_userId := sd_userId sd; sd_serverId := sd_serverId sd; sd_price := p;
     sd_downloadRate := sd_downloadRate sd; sd_hash := sd_hash sd; sd_fileId := sd_fileId sd;
     sd_sectionSeller := sd_sectionSeller sd |}.

Definition set_ware_payees (ps : list Payee) (cs : ContractSection) : ContractSection :=
  set_ware {| w_id := w_id (cs_ware cs); w_mediaId := w_mediaId (cs_ware cs);
              w_fileInfos := w_fileInfos (cs_ware cs); w_payees := ps |} cs.

(** [checkSectionPrice]: resolves the ware's payees against the license, records
    the total as the seller's price and compares it with the file's budget. *)
Definition checkSectionPrice ds (fileId : string) (cs : ContractSection) sd
  : outcome unit * ContractSection * SellerData T :=
  let license := bd_of_string (ds_licenseAmount ds) in
  let '(payees, total) := resolvePayeeAmounts (w_payees (cs_ware cs)) (Some (license : D)) in
  (if bd_gtb total (bd_of_string (fp_budget (progress_of ds fileId)))
   then Raise "bitmunk.purchase.Negotiator.OverBudget" else Ok tt,
   set_ware_payees payees cs, with_price (bd_to_string total) sd).

Context {PrivateKey PublicKey : Type} `{SignatureScheme PrivateKey PublicKey}.

(** [verifySection]: the buyer signs a section whose price is acceptable. *)
Definition verifySection ds (fileId : string) (profile : Profile PrivateKey)
  (cs : ContractSection) sd : outcome unit * ContractSection * SellerData T :=
  match checkSectionPrice ds fileId cs sd with
  | (Ok _, cs, sd) => let '(cs, r) := signContractSection cs profile false in (r, cs, sd)
  | (Raise e, cs, sd) => (Raise e, cs, sd)
  end.

(** [negotiateWithSeller]: [reply] is the seller's answer or the messenger's
    exception. *)
Definition negotiateWithSeller ds (profile : Profile PrivateKey) (rq : Request)
  (reply : outcome Offer) sd : outcome (ContractSection * SellerData T) :=
  match reply with
  | Raise e => Raise e
  | Ok o =>
      if negb (String.eqb (rq_fileId rq) (of_fileId o))
      then Raise "bitmunk.purchase.Negotiator.FileIdOutOfSync"
      else if negb (rq_mediaId rq =? of_mediaId o)
      then Raise "bitmunk.purchase.Negotiator.MediaIdOutOfSync"
      else if negb (String.eqb (rq_wareId rq) (of_wareId o))
      then Raise "bitmunk.purchase.Negotiator.WareIdOutOfSync"
      else if negb (rq_contentSize rq =? of_contentSize o)
      then Raise "bitmunk.purchase.Negotiator.FileInfoOutOfSync"
      else if of_size o <? rq_contentSize rq
      then Raise "bitmunk.purchase.Negotiator.FileTooSmall"
      else
        match verifySection ds (of_fileId o) profile (of_section o) (with_section o sd) with
        | (Ok _, cs, sd) => Ok (cs, sd)
        | (Raise e, _, _) => Raise e
        end
  end.

(** ** The fiber *)

Definition insertSection sd ds : DownloadState T :=
  let fp := progress_of ds (sd_fileId sd) in
  put_progress (sd_fileId sd)
    (set_fp_sellers (dm_set (fp_sellers fp) (sd_key sd) (sd_userId sd, sd_serverId sd))
      (set_fp_sellerData (dm_set (fp_sellerData fp) (sd_hash sd) sd) fp)) ds.

Definition blacklistSeller sd (now : Z) ds : DownloadState T :=
  set_ds_blacklist (dm_set (ds_blacklist ds) (sd_key sd) (sd_userId sd, sd_serverId sd, now)) ds.

(** Answers of the node to one attempt: the random number generator, whether a
    negotiate module is loaded (it has nothing to add on the buyer's side), the
    login data, the messenger's post to the seller, the clock and the insertion
    into the database. *)
Record NegEnv := {
  ne_random : Z -> Z -> Z;
  ne_module : bool;
  ne_login : outcome (Profile PrivateKey);
  ne_post : Request -> SellerData T -> outcome Offer;
  ne_now : Z;
  ne_inserted : bool
}.

(** The message [negotiateSection] sends to its fiber. *)
Inductive Verdict :=
| BadSeller
| ContractNegotiated (sd : SellerData T)
| NegotiationFailed (e : string).

(** Any failure once the seller is asked makes it a bad seller. *)
Definition negotiateSection (ne : NegEnv) ds fp sd : Verdict :=
  if negb (ne_module ne) then NegotiationFailed "bitmunk.purchase.MissingNegotiateModule"
  else
    match ne_login ne with
    | Raise e => NegotiationFailed e
    | Ok profile =>
        let rq := set_buyer (ds_userId ds) (profile_id profile) (wareRequest fp) in
        match negotiateWithSeller ds profile rq (ne_post ne rq sd) sd with
        | Ok (_, sd) => ContractNegotiated sd
        | Raise _ => BadSeller
        end
    end.

(** Whether a seller was found and whether there was an error. *)
Record Outcome := {
  no_found : bool;
  no_error : bool;
  no_state : DownloadState T;
  no_attempts : nat;
  no_events : list Effect
}.

Definition error_event : Effect := Emit "bitmunk.purchase.DownloadState.exception".

(** The inner loop of [processMessages]: sellers of one pool are asked until one
    agrees.  [att] gives the environment of each attempt. *)
Fixpoint sellerLoop (fuel : nat) (att : nat -> NegEnv) (n : nat) ds (sp : SellerPool T)
  : option Outcome :=
  match fuel with
  | O => None
  | S fuel =>
      let ne := att n in
      match pickSeller (ne_random ne) ds sp with
      | None => Some {| no_found := false; no_error := false; no_state := ds; no_attempts := n;
                        no_events := [] |}
      | Some sd =>
          match negotiateSection ne ds (progress_of ds (sp_fileId sp)) sd with
          | BadSeller => sellerLoop fuel att (S n) (blacklistSeller sd (ne_now ne) ds) sp
          | ContractNegotiated sd =>
              Some {| no_found := ne_inserted ne; no_error := negb (ne_inserted ne);
                      no_state := insertSection sd ds; no_attempts := S n;
                      no_events := [if ne_inserted ne
                                    then Emit "bitmunk.purchase.Negotiator.negotiationComplete"
                                    else error_event] |}
          | NegotiationFailed _ =>
              Some {| no_found := false; no_error := true; no_state := ds; no_attempts := S n;
                      no_events := [error_event] |}
          end
      end
  end.

(** The outer loop over the files.  Every retry of the inner loop uses up a
    seller, so one more round than there are sellers is enough. *)
Fixpoint fileLoop (att : nat -> NegEnv) (n : nat) ds (fps : list (string * FileProgress T))
  : option Outcome :=
  match fps with
  | [] => Some {| no_found := false; no_error := false; no_state := ds; no_attempts := n;
                  no_events := [] |}
  | e :: fps =>
      let sp := fp_pool e.2 in
      match sp_sellers sp with
      | [] => fileLoop att n ds fps
      | _ =>
          match sellerLoop (S (length (sp_sellers sp))) att n ds sp with
          | None => None
          | Some o => if no_found o || no_error o then Some o
                      else fileLoop att (no_attempts o) (no_state o) fps
          end
      end
  end.

(** The message to the download manager. *)
Definition processMessages (must : bool) (att : nat -> NegEnv) ds
  : option (Msg T * Outcome) :=
  match fileLoop att 0 ds (pickFiles ds) with
  | None => None
  | Some o =>
      Some (if no_found o then MsgNegotiateComplete false false ""
            else MsgNegotiateComplete true must
                   "bitmunk.purchase.DownloadState.NoSellersAvailable", o)
  end.
End Negotiator.

(** * Properties *)

Section PickFiles.
Context {T : Type}.
Implicit Types (e : string * FileProgress T) (l : list (Z * list (string * FileProgress T))).

Definition needs_seller e : Prop := 0 < Z.of_nat (length (fp_unassigned e.2)).

#[local] Instance needs_seller_dec e : Decision (needs_seller e) := Z_lt_dec _ _.

(** The map is ordered by its keys and files are under their seller count. *)
Definition buckets_ok l : Prop :=
  StronglySorted (fun a b => a.1 < b.1) l /\
  Forall (fun b => Forall (fun e => fileSellerCount e = b.1) b.2) l.

Lemma autoSort_add_keys n e l (k : Z) :
  Forall (fun b => k < b.1) l -> k < n -> Forall (fun b => k < b.1) (autoSort_add n e l).
Proof.
  intros Hl Hn. induction Hl as [|[n' es] l Hk Hl IH]; simpl.
  - by constructor.
  - repeat case_match; repeat constructor; auto.
Qed.

Lemma autoSort_add_ok e l : buckets_ok l -> buckets_ok (autoSort_add (fileSellerCount e) e l).
Proof.
  intros [Hs Hf]. induction l as [|[n' es] l IH]; simpl.
  - split; repeat constructor.
  - apply StronglySorted_inv in Hs as [Hs Hn]. apply Forall_cons in Hf as [He Hf].
    destruct (Z.eqb_spec (fileSellerCount e) n') as [Heq|Hne].
    + split; [by constructor|]. constructor; [|done]. apply Forall_app. by split; [|constructor].
    + destruct (Z.ltb_spec (fileSellerCount e) n').
      * split; [|by repeat constructor]. constructor; [by constructor|]. constructor; [done|].
        eapply Forall_impl; [exact Hn|]. simpl. lia.
      * destruct IH as [IHs IHf]; [done..|]. split; constructor; try done.
        apply autoSort_add_keys; [done|simpl; lia].
Qed.

Lemma autoSort_add_perm n e l : concat (autoSort_add n e l).*2 ≡ₚ e :: concat l.*2.
Proof.
  induction l as [|[n' es] l IH]; simpl; [done|]. repeat case_match; simpl.
  - rewrite <-app_assoc. simpl. by rewrite Permutation_middle.
  - done.
  - rewrite IH. by rewrite Permutation_middle.
Qed.

Lemma buckets_sorted l :
  buckets_ok l -> StronglySorted (fun a b => fileSellerCount a <= fileSellerCount b) (concat l.*2).
Proof.
  intros [Hs Hf]. induction Hs as [|[n es] l Hs IH Hn]; simpl; [constructor|].
  apply Forall_cons in Hf as [He Hf]. specialize (IH Hf). cbn [fst snd] in He.
  assert (forall x, x ∈ concat l.*2 -> n < fileSellerCount x) as Hlt.
  { intros x Hx. apply list_elem_of_concat in Hx as (es' & Hx & Hes').
    apply list_elem_of_fmap in Hes' as ([n' es''] & -> & Hb).
    rewrite Forall_forall in Hn. specialize (Hn _ Hb). rewrite Forall_forall in Hf.
    specialize (Hf _ Hb). rewrite Forall_forall in Hf. cbn in *. rewrite (Hf x Hx). lia. }
  clear Hs Hn. induction He as [|e1 es1 He1 Hes1 IHes]; simpl; [done|]. constructor; [done|].
  apply Forall_forall. intros x Hx. apply elem_of_app in Hx as [Hx|Hx].
  - rewrite Forall_forall in Hes1. rewrite He1, (Hes1 _ Hx). lia.
  - specialize (Hlt _ Hx). cbn [fst] in *. lia.
Qed.

(** The files offered for negotiation are exactly the files with unassigned
    pieces, in increasing order of the number of sellers they already have. *)
Theorem pickFiles_sorted (ds : DownloadState T) :
  StronglySorted (fun a b => fileSellerCount a <= fileSellerCount b) (pickFiles ds) /\
  pickFiles ds ≡ₚ filter needs_seller (ds_progress ds).
Proof.
  unfold pickFiles. set (step := fun acc e => if 0 <? _ then autoSort_add _ e acc else acc).
  assert (buckets_ok (foldl step [] (ds_progress ds)) /\
    concat (foldl step [] (ds_progress ds)).*2 ≡ₚ filter needs_seller (ds_progress ds)) as [Hb Hp].
  { induction (ds_progress ds) as [|e l IH] using rev_ind; [by split; [split; constructor|]|].
    destruct IH as [IHb IHp]. rewrite foldl_app, filter_app. cbn [foldl].
    rewrite filter_cons, filter_nil. unfold step at 1 3.
    destruct (Z.ltb_spec 0 (Z.of_nat (length (fp_unassigned e.2)))) as [Hlt|Hge].
    - rewrite decide_True by done. split; [by apply autoSort_add_ok|].
      rewrite autoSort_add_perm, IHp. by rewrite Permutation_app_comm.
    - rewrite decide_False by (unfold needs_seller; lia). by rewrite app_nil_r. }
  split; [by apply buckets_sorted|done].
Qed.
End PickFiles.

Section Budget.
Context {D T PrivateKey PublicKey : Type} `{BigDecimalLaws D} `{SignatureLaws PrivateKey PublicKey}.

Lemma negotiateWithSeller_facts (ds : DownloadState T) profile rq reply sd cs sd' :
  negotiateWithSeller (D:=D) (PublicKey:=PublicKey) ds profile rq reply sd = Ok (cs, sd') ->
  exists o, reply = Ok o /\
  of_fileId o = rq_fileId rq /\ of_mediaId o = rq_mediaId rq /\ of_wareId o = rq_wareId rq /\
  of_contentSize o = rq_contentSize rq /\ rq_contentSize rq <= of_size o /\
  bd_leb (bd_of_string (sd_price sd') : D)
    (bd_of_string (fp_budget (progress_of ds (rq_fileId rq)))) = true /\
  is_Some (cs_buyerSignature cs) /\
  sd_key sd' = sd_key sd /\ sd_hash sd' = of_hash o /\ sd_fileId sd' = of_fileId o.
Proof.
  destruct reply as [o|]; [|done]. unfold negotiateWithSeller, verifySection, checkSectionPrice.
  destruct (String.eqb_spec (rq_fileId rq) (of_fileId o)) as [Ef|]; [|done].
  destruct (Z.eqb_spec (rq_mediaId rq) (of_mediaId o)); [|done].
  destruct (String.eqb_spec (rq_wareId rq) (of_wareId o)); [|done].
  destruct (Z.eqb_spec (rq_contentSize rq) (of_contentSize o)); [|done].
  destruct (Z.ltb_spec (of_size o) (rq_contentSize rq)); [done|]. cbn [negb].
  destruct (resolvePayeeAmounts _ _) as [payees total] eqn:Er.
  destruct (bd_gtb total _) eqn:Hb; [done|].
  unfold signContractSection. destruct (appendContractSectionContent _ _) as [cs1 c].
  destruct (sign profile c) as [sig|]; [|done]. intros [=]; subst. exists o. rewrite Ef.
  split_and!; try done; try lia. unfold bd_gtb in Hb. unfold bd_leb.
  apply resolvePayeeAmounts_rounded in Er as [t ->].
  apply negb_true_iff. rewrite <-Hb. apply bd_ltb_proper; [done|]. rewrite bd_equiv_val. apply val_print.
Qed.

(** (safety): a negotiation that succeeds is for the requested file, media and
    ware at the requested content size; the price recorded for the seller is
    within the file's budget, the section carries the buyer's signature, and the
    seller data is of the seller asked, with the section it sent. *)
Theorem negotiateWithSeller_safe (ds : DownloadState T) profile rq (o : Offer) sd cs sd' :
  negotiateWithSeller (D:=D) (PublicKey:=PublicKey) ds profile rq (Ok o) sd = Ok (cs, sd') ->
  of_fileId o = rq_fileId rq /\ of_mediaId o = rq_mediaId rq /\ of_wareId o = rq_wareId rq /\
  of_contentSize o = rq_contentSize rq /\ rq_contentSize rq <= of_size o /\
  bd_leb (bd_of_string (sd_price sd') : D)
    (bd_of_string (fp_budget (progress_of ds (rq_fileId rq)))) = true /\
  is_Some (cs_buyerSignature cs) /\
  sd_key sd' = sd_key sd /\ sd_hash sd' = of_hash o /\ sd_fileId sd' = of_fileId o.
Proof. by intros (? & [= ->] & ?)%negotiateWithSeller_facts. Qed.
End Budget.

(** ** The fiber terminates *)

Section Fiber.
Context {D T PrivateKey PublicKey : Type} `{BigDecimalLaws D} `{!Scalar T}
  `{SignatureLaws PrivateKey PublicKey}.
Implicit Types (ds : DownloadState T) (sd : SellerData T) (sp : SellerPool T).

(** Sellers of a pool that can still be asked. *)
Definition candidates ds sp : list (SellerData T) :=
  filter (fun sd => negotiable (D:=D) ds (progress_of ds (sp_fileId sp)) sd = true)
    (sp_sellers sp).

(** [ds'] is [ds] after some sellers have been blacklisted. *)
Definition blacklisted : DownloadState T -> DownloadState T -> Prop :=
  rtc (fun a b => exists sd now, b = blacklistSeller sd now a).

Lemma blacklisted_frame ds ds' :
  blacklisted ds ds' -> exists bl, ds' = set_ds_blacklist bl ds.
Proof.
  induction 1 as [ds|ds ? ds' (sd & now & ->) _ (bl & ->)];
    [by exists (ds_blacklist ds); destruct ds|by exists bl].
Qed.

Lemma negotiable_blacklistSeller ds fp sd now x :
  negotiable (D:=D) (blacklistSeller sd now ds) fp x = true ->
  negotiable (D:=D) ds fp x = true /\ sd_key x <> sd_key sd.
Proof.
  unfold negotiable. cbn [blacklistSeller ds_blacklist set_ds_blacklist].
  rewrite !andb_true_iff, !negb_true_iff. intros [[[? Hb] ?] ?].
  destruct (decide (sd_key sd = sd_key x)) as [E|Hne].
  - rewrite E in Hb. unfold dm_has in Hb. by rewrite dm_get_set_eq in Hb.
  - split; [|congruence]. unfold dm_has in *. rewrite dm_get_set_ne in Hb by done. by split_and!.
Qed.

Lemma negotiable_blacklisted ds ds' fp x :
  blacklisted ds ds' ->
  negotiable (D:=D) ds' fp x = true -> negotiable (D:=D) ds fp x = true.
Proof. induction 1 as [|? ? ? (sd & now & ->) _ IH]; [done|]. by intros [? _]%IH%negotiable_blacklistSeller. Qed.

Lemma pick_candidate random ds sp sd :
  pickSeller (D:=D) random ds sp = Some sd -> sd ∈ candidates ds sp.
Proof. exact (pickSeller_in D random (ds_fast ds) _ sd). Qed.

Lemma candidates_shrink ds sp sd now :
  sd ∈ candidates ds sp ->
  (length (candidates (blacklistSeller sd now ds) sp) < length (candidates ds sp))%nat.
Proof.
  unfold candidates. change (progress_of (blacklistSeller sd now ds)) with (progress_of ds).
  generalize (progress_of ds (sp_fileId sp)) as fp. intros fp.
  assert (forall l, (length (filter (fun x => negotiable (D:=D) (blacklistSeller sd now ds) fp x = true) l)
    <= length (filter (fun x => negotiable (D:=D) ds fp x = true) l))%nat) as Hle.
  { induction l as [|x l IH]; [done|]. rewrite !filter_cons. case_decide as Hb; case_decide as Hn; simpl; try lia.
    by apply negotiable_blacklistSeller in Hb as [? _]. }
  induction (sp_sellers sp) as [|x l IH]; [by intros ?%elem_of_nil|].
  rewrite !filter_cons. specialize (Hle l). case_decide as Hn; case_decide as Hb; simpl.
  - intros [<-|Hin]%elem_of_cons; [|specialize (IH Hin); lia].
    by apply negotiable_blacklistSeller in Hb as [_ []].
  - intros _. lia.
  - by apply negotiable_blacklistSeller in Hb as [? _].
  - done.
Qed.

(** How the fiber can leave the sellers of one pool. *)
Inductive asked ds sp (o : Outcome (T:=T)) : Prop :=
| asked_all :
    no_found o = false -> no_error o = false -> no_events o = [] ->
    blacklisted ds (no_state o) -> candidates (no_state o) sp = [] -> asked ds sp o
| asked_failed :
    no_found o = false -> no_error o = true -> no_events o = [error_event] ->
    blacklisted ds (no_state o) -> asked ds sp o
| asked_agreed ds1 sd sd' :
    blacklisted ds ds1 -> sd ∈ candidates ds1 sp -> no_state o = insertSection sd' ds1 ->
    sd_key sd' = sd_key sd -> sd_fileId sd' = fp_fileId (progress_of ds (sp_fileId sp)) ->
    bd_leb (bd_of_string (sd_price sd') : D)
      (bd_of_string (fp_budget (progress_of ds (sd_fileId sd')))) = true ->
    no_error o = negb (no_found o) -> (no_found o = false -> no_events o = [error_event]) ->
    asked ds sp o.

Lemma asked_blacklist ds sp sd now o : asked (blacklistSeller sd now ds) sp o -> asked ds sp o.
Proof.
  assert (forall ds', blacklisted (blacklistSeller sd now ds) ds' -> blacklisted ds ds') as Hb.
  { intros ds' Hb. eapply rtc_l; [|exact Hb]. by eexists _, _. }
  destruct 1; [eapply asked_all|eapply asked_failed|eapply asked_agreed]; eauto.
Qed.

Lemma negotiateSection_agreed ne ds fp sd sd' :
  negotiateSection (D:=D) (PublicKey:=PublicKey) ne ds fp sd = ContractNegotiated sd' ->
  sd_key sd' = sd_key sd /\ sd_fileId sd' = fp_fileId fp /\
  bd_leb (bd_of_string (sd_price sd') : D)
    (bd_of_string (fp_budget (progress_of ds (sd_fileId sd')))) = true.
Proof.
  unfold negotiateSection. destruct (ne_module ne); [|done]. destruct (ne_login ne); [|done].
  cbn [negb]. destruct (negotiateWithSeller _ _ _ _ _) as [[cs x]|] eqn:E; [|done].
  intros [= ->]. apply negotiateWithSeller_facts in E as (o & _ & E). destruct_and! E.
  cbn [set_buyer wareRequest rq_fileId] in *. split_and!; congruence.
Qed.

(** One more round than there are candidates is enough. *)
Lemma sellerLoop_asked fuel (att : nat -> NegEnv) n ds sp :
  (forall n, random_in_range (ne_random (att n))) ->
  (length (candidates ds sp) < fuel)%nat ->
  exists o, sellerLoop (D:=D) (PublicKey:=PublicKey) fuel att n ds sp = Some o /\ asked ds sp o.
Proof.
  intros Hr. revert n ds. induction fuel as [|fuel IH]; intros n ds Hl; [lia|]. cbn [sellerLoop].
  destruct (pickSeller _ ds sp) as [sd|] eqn:Ep.
  - apply pick_candidate in Ep as Hin. destruct (negotiateSection _ _ _ _) as [|sd'|e] eqn:En.
    + destruct (IH (S n) (blacklistSeller sd (ne_now (att n)) ds)) as (o & -> & Ho).
      { pose proof (candidates_shrink ds sp sd (ne_now (att n)) Hin). lia. }
      eexists. split; [done|]. by eapply asked_blacklist.
    + apply negotiateSection_agreed in En as (Hk & Hf & Hp). eexists. split; [done|].
      eapply (asked_agreed _ _ _ ds sd sd'); try done. simpl. by intros ->.
    + eexists. split; [done|]. by apply asked_failed.
  - eexists. split; [done|]. apply asked_all; try done.
    exact (pickSeller_empty D _ _ _ (Hr n) Ep).
Qed.
Lemma candidates_blacklisted ds ds' sp :
  blacklisted ds ds' -> candidates ds sp = [] -> candidates ds' sp = [].
Proof.
  intros Hb Hc. destruct (blacklisted_frame _ _ Hb) as [bl E].
  destruct (candidates ds' sp) as [|x l] eqn:Ex; [done|].
  assert (x ∈ candidates ds' sp) as Hx by (rewrite Ex; left). apply list_elem_of_filter in Hx as [Hn Hx].
  assert (x ∈ candidates ds sp) as Hin; [|rewrite Hc in Hin; by apply elem_of_nil in Hin].
  apply list_elem_of_filter. split; [|done]. subst ds'. by apply (negotiable_blacklisted _ _ _ _ Hb).
Qed.

Lemma candidates_length ds sp : (length (candidates ds sp) < S (length (sp_sellers sp)))%nat.
Proof. pose proof (length_filter (fun sd => negotiable (D:=D) ds (progress_of ds (sp_fileId sp)) sd = true) (sp_sellers sp)). unfold candidates. lia. Qed.

Lemma fileLoop_asked (att : nat -> NegEnv) fps n ds :
  (forall n, random_in_range (ne_random (att n))) ->
  exists o, fileLoop (D:=D) (PublicKey:=PublicKey) att n ds fps = Some o /\
    if no_found o || no_error o
    then exists e ds0, e ∈ fps /\ blacklisted ds ds0 /\ asked ds0 (fp_pool e.2) o
    else blacklisted ds (no_state o) /\
         forall e, e ∈ fps -> candidates (no_state o) (fp_pool e.2) = [].
Proof.
  intros Hr. revert n ds. induction fps as [|e fps IH]; intros n ds.
  { eexists. split; [done|]. split; [done|]. by intros e ?%elem_of_nil. }
  destruct (sellerLoop_asked (S (length (sp_sellers (fp_pool e.2)))) att n ds (fp_pool e.2) Hr)
    as (o & Eo & Ho); [apply candidates_length|].
  assert (forall n' ds', blacklisted ds ds' -> candidates ds' (fp_pool e.2) = [] -> exists o,
    fileLoop (D:=D) (PublicKey:=PublicKey) att n' ds' fps = Some o /\
    if no_found o || no_error o
    then exists e' ds0, e' ∈ e :: fps /\ blacklisted ds ds0 /\ asked ds0 (fp_pool e'.2) o
    else blacklisted ds (no_state o) /\
         forall e', e' ∈ e :: fps -> candidates (no_state o) (fp_pool e'.2) = []) as Hrest.
  { intros n' ds' Hb Hc. destruct (IH n' ds') as (o' & -> & Ho'). exists o'. split; [done|].
    destruct (no_found o' || no_error o').
    - destruct Ho' as (e' & ds0 & ? & ? & ?). exists e', ds0.
      split_and!; [by right|by etrans|done].
    - destruct Ho' as [Hb' Hc']. split; [by etrans|].
      intros e' [->|?]%elem_of_cons; [by eapply candidates_blacklisted|auto]. }
  cbn [fileLoop]. destruct (sp_sellers (fp_pool e.2)) eqn:Es.
  { apply Hrest; [done|]. unfold candidates. by rewrite Es. }
  rewrite Eo. destruct (no_found o || no_error o) eqn:Ef.
  - exists o. rewrite Ef. split; [done|]. exists e, ds. split_and!; [left|done|done].
  - apply orb_false_iff in Ef as [Hf He].
    destruct Ho as [_ _ _ Hb Hc|? He' ?|? ? ? ? ? ? ? ? ? He']; [by apply Hrest|congruence|].
    by rewrite Hf, He in He'.
Qed.

(** C31 (termination): provided the random numbers are in range, the negotiator
    always reports to the manager, whatever the sellers, the messenger and the
    database answer.  It reports success only after a seller of a file with
    unassigned pieces, blacklisted neither before nor during the search, has agreed to a price within
    its file's budget; otherwise an error occurred, or every seller of every
    such file has been asked and blacklisted, or was excluded from the start. *)
Theorem negotiator_reports must (att : nat -> NegEnv) ds :
  (forall n, random_in_range (ne_random (att n))) ->
  exists msg o, processMessages (D:=D) (PublicKey:=PublicKey) must att ds = Some (msg, o) /\
    if no_found o then
      msg = MsgNegotiateComplete false false "" /\
      exists e sd sd' bl, e ∈ pickFiles ds /\ sd ∈ sp_sellers (fp_pool e.2) /\
        no_state o = insertSection sd' (set_ds_blacklist bl ds) /\ sd_key sd' = sd_key sd /\
        dm_has bl (sd_key sd) = false /\ dm_has (ds_blacklist ds) (sd_key sd) = false /\
        bd_leb (bd_of_string (sd_price sd') : D)
          (bd_of_string (fp_budget (progress_of ds (sd_fileId sd')))) = true
    else
      msg = MsgNegotiateComplete true must "bitmunk.purchase.DownloadState.NoSellersAvailable" /\
      (no_events o = [error_event] \/
       (exists bl, no_state o = set_ds_blacklist bl ds) /\
       forall e, e ∈ pickFiles ds -> candidates (no_state o) (fp_pool e.2) = []).
Proof.
  intros Hr. destruct (fileLoop_asked att (pickFiles ds) 0 ds Hr) as (o & E & Ho).
  unfold processMessages. rewrite E. eexists _, o. split; [done|].
  destruct (no_found o) eqn:Ef; cbn [orb] in Ho.
  - split; [done|]. destruct Ho as (e & ds0 & He & Hb0 & [?|?|ds1 sd sd' Hb Hin Hst Hk Hid Hp _ _]);
      [congruence|congruence|].
    assert (blacklisted ds ds1) as Hb1 by by etrans.
    apply list_elem_of_filter in Hin as [Hn Hin].
    pose proof (negotiable_blacklisted _ _ _ _ Hb1 Hn) as Hn0.
    destruct (blacklisted_frame _ _ Hb0) as [bl0 ->].
    destruct (blacklisted_frame _ _ Hb1) as [bl ->]. exists e, sd, sd', bl.
    unfold negotiable in Hn, Hn0. rewrite !andb_true_iff, !negb_true_iff in Hn, Hn0.
    split_and!; try done; naive_solver.
  - split; [done|]. destruct (no_error o) eqn:Ee.
    + left. destruct Ho as (e & ds0 & _ & _ & [?|?|]); [congruence|done|auto].
    + right. destruct Ho as [Hb Hc]. by split; [apply blacklisted_frame|].
Qed.
End Fiber.

Import Exact Sealed.

Definition sample_request : Request :=
  {| rq_fileId := "f"; rq_mediaId := 1; rq_wareId := "bitmunk:file:1-f"; rq_contentSize := 2500;
     rq_buyerId := 901; rq_buyerProfileId := 1 |}.

Definition sample_offer : Offer :=
  {| of_fileId := "f"; of_mediaId := 1; of_wareId := "bitmunk:file:1-f"; of_contentSize := 2500;
     of_size := 2600; of_hash := "h2"; of_seller := (901, 1); of_section := csection |}.

Lemma negotiateWithSeller_safe_witness :
  match negotiateWithSeller (D:=Q) (PublicKey:=string) sample_download (profile 901 "k")
          sample_request (Ok sample_offer) slow_seller with
  | Ok (cs, sd') => is_Some (cs_buyerSignature cs)
  | Raise _ => False
  end.
Proof.
  destruct (negotiateWithSeller (D:=Q) (PublicKey:=string) sample_download (profile 901 "k")
    sample_request (Ok sample_offer) slow_seller) as [[cs sd']|] eqn:E;
    [|vm_compute in E; discriminate E].
  apply (negotiateWithSeller_safe (D:=Q) (PublicKey:=string) sample_download (profile 901 "k")
    sample_request sample_offer slow_seller cs sd' E).
Defined.

(** A market with one seller that agrees on the second attempt at asking. *)
Definition sample_market : DownloadState Z :=
  put_progress "f" (set_fp_budget "30000000" (set_fp_pool
    {| sp_fileId := "f"; sp_mediaId := 1; sp_contentSize := 2500; sp_extension := "mp3";
       sp_pieceSize := 1000; sp_pieceCount := 3; sp_bfpId := 1; sp_minPrice := "1000000";
       sp_medPrice := "2000000"; sp_maxPrice := "3000000";
       sp_sellers := [quick_seller; slow_seller] |} sample_progress)) sample_download.

Definition sample_attempt (n : nat) : NegEnv (T:=Z) (PrivateKey:=string) :=
  {| ne_random := fun lo _ => lo; ne_module := true; ne_login := Ok (profile 901 "k");
     ne_post := fun _ _ => match n with O => Raise "timeout" | _ => Ok sample_offer end;
     ne_now := 5; ne_inserted := true |}.

Lemma negotiator_reports_witness :
  exists msg o, processMessages (D:=Q) (PublicKey:=string) true sample_attempt sample_market =
                  Some (msg, o) /\ no_found o = true /\ no_attempts o = 2%nat.
Proof.
  destruct (negotiator_reports (D:=Q) (PublicKey:=string) true sample_attempt sample_market)
    as (msg & o & E & _); [intros n lo hi; simpl; lia|].
  exists msg, o. split; [exact E|].
  assert (option_map (fun r => (no_found r.2, no_attempts r.2))
    (processMessages (D:=Q) (PublicKey:=string) true sample_attempt sample_market) =
    Some (true, 2%nat)) as Hc by (vm_compute; reflexivity).
  rewrite E in Hc. cbn [option_map snd] in Hc. injection Hc as H1 H2. split; assumption.
Defined.
