(* ===== verification/DownloadInv.v ===== *)
(** Invariants of a download.

    The message loop of the download manager together with the fibers it starts
    is a transition system; every piece of the purchase is in exactly one of the
    unassigned, assigned and downloaded lists in all its reachable states, and a
    download that reports completion has every piece.  Pieces are only assigned
    under sections negotiated for their file within its budget; connections are
    counted right as long as sections name the seller that was asked. *)
From S2P Require Import Prelude DynMap Money Payees SellerPicker DownloadState FileCost.
From S2P Require Import Signer Download Negotiator.
From stdpp Require Import relations.

Local Open Scope Z_scope.

(** * Pieces by reference *)

Section Refs.
Context {T : Type}.
Implicit Types (e : string * FileProgress T) (fp : FileProgress T) (ds : DownloadState T).

(** A piece is identified by its file and index; while assigned, also by the hash
    of its section. *)
Definition tag_pieces {B} (f : string -> Z -> B) (m : dmap (list Piece)) : list B :=
  flat_map (fun hp => map (fun p => f hp.1 (pc_index p)) hp.2) m.

Definition unassigned_of e : list (string * Z) :=
  map (fun p => (e.1, pc_index p)) (fp_unassigned e.2).
Definition assigned_of e : list (string * string * Z) :=
  tag_pieces (fun h i => (e.1, h, i)) (fp_assigned e.2).
Definition downloaded_of e : list (string * Z) :=
  tag_pieces (fun _ i => (e.1, i)) (fp_downloaded e.2).

Definition unassigned_refs ds := flat_map unassigned_of (ds_progress ds).
Definition assigned_refs ds := flat_map assigned_of (ds_progress ds).
Definition downloaded_refs ds := flat_map downloaded_of (ds_progress ds).

Definition forget (r : string * string * Z) : string * Z := (r.1.1, r.2).

(** Pieces that are not downloaded yet, and all pieces. *)
Definition open_refs ds : list (string * Z) := unassigned_refs ds ++ map forget (assigned_refs ds).
Definition all_refs ds : list (string * Z) := open_refs ds ++ downloaded_refs ds.

(** Maps are in key order. *)
Definition progress_wf fp : Prop := dm_wf (fp_assigned fp) /\ dm_wf (fp_downloaded fp).
Definition state_wf ds : Prop :=
  dm_wf (ds_progress ds) /\ dm_wf (ds_activeSellers ds) /\
  (forall f fp, dm_get (ds_progress ds) f = Some fp -> progress_wf fp).

(** ** Replacing one file's progress *)

Lemma flat_map_perm {A B} (g : A -> list B) l l' : l ≡ₚ l' -> flat_map g l ≡ₚ flat_map g l'.
Proof.
  induction 1 as [|x l l' Hp IH|x y l|l1 l2 l3 H1 IH1 H2 IH2]; simpl.
  - done.
  - by rewrite IH.
  - by rewrite !app_assoc, (Permutation_app_comm (g y)).
  - by rewrite IH1.
Qed.

Lemma put_flat_map {B} (g : string * FileProgress T -> list B) ds f fp :
  dm_wf (ds_progress ds) ->
  flat_map g (ds_progress (put_progress f fp ds)) ≡ₚ
  g (f, fp) ++ flat_map g (dm_remove (ds_progress ds) f).
Proof. intros Hwf. exact (flat_map_perm g _ _ (dm_perm_set _ f fp Hwf)). Qed.

Lemma get_flat_map {B} (g : string * FileProgress T -> list B) ds f :
  dm_wf (ds_progress ds) -> g (f, no_progress) = [] ->
  flat_map g (ds_progress ds) ≡ₚ
  g (f, progress_of ds f) ++ flat_map g (dm_remove (ds_progress ds) f).
Proof.
  intros Hwf Hno. unfold progress_of, dm_get_or. destruct (dm_get (ds_progress ds) f) as [fp|] eqn:E.
  - exact (flat_map_perm g _ _ (dm_perm_get _ _ _ Hwf E)).
  - cbn [default]. by rewrite Hno, dm_values_remove_None.
Qed.

Lemma progress_of_wf ds f : state_wf ds -> progress_wf (progress_of ds f).
Proof.
  intros (_ & _ & Hall). unfold progress_of, dm_get_or.
  destruct (dm_get (ds_progress ds) f) as [fp|] eqn:E; [by eapply Hall|].
  split; apply dm_wf_nil.
Qed.

Lemma put_progress_wf ds f fp :
  state_wf ds -> progress_wf fp -> state_wf (put_progress f fp ds).
Proof.
  intros (Hp & Ha & Hall) Hfp. split_and!; simpl; [by apply dm_wf_set|done|].
  intros f' fp'. destruct (decide (f = f')) as [->|Hne].
  - rewrite dm_get_set_eq. by intros [= <-].
  - rewrite dm_get_set_ne by done. apply Hall.
Qed.

(** ** Pieces of one section *)

Lemma tag_pieces_perm {B} (f : string -> Z -> B) m m' :
  m ≡ₚ m' -> tag_pieces f m ≡ₚ tag_pieces f m'.
Proof. apply flat_map_perm. Qed.

Lemma tag_pieces_set {B} (f : string -> Z -> B) m h ps :
  dm_wf m ->
  tag_pieces f (dm_set m h ps) ≡ₚ map (fun p => f h (pc_index p)) ps ++ tag_pieces f (dm_remove m h).
Proof. intros Hwf. exact (tag_pieces_perm f _ _ (dm_perm_set m h ps Hwf)). Qed.

Lemma tag_pieces_get {B} (f : string -> Z -> B) m h :
  dm_wf m ->
  tag_pieces f m ≡ₚ
  map (fun p => f h (pc_index p)) (dm_get_or m h []) ++ tag_pieces f (dm_remove m h).
Proof.
  intros Hwf. unfold dm_get_or. destruct (dm_get m h) as [ps|] eqn:E.
  - exact (tag_pieces_perm f _ _ (dm_perm_get _ _ _ Hwf E)).
  - cbn [default map app]. by rewrite dm_values_remove_None.
Qed.

(** Appending a piece to a section's list adds its reference. *)
Lemma tag_pieces_append {B} (f : string -> Z -> B) m h p :
  dm_wf m ->
  tag_pieces f (dm_set m h (dm_get_or m h [] ++ [p])) ≡ₚ f h (pc_index p) :: tag_pieces f m.
Proof.
  intros Hwf. rewrite tag_pieces_set, (tag_pieces_get f m h) by done. rewrite map_app. simpl.
  rewrite <-app_assoc. simpl. by rewrite <-Permutation_middle.
Qed.

Lemma remove_assigned_wf h i m : dm_wf m -> dm_wf (remove_assigned h i m).
Proof. unfold remove_assigned. intros. case_match; auto using dm_wf_remove, dm_wf_set. Qed.

Lemma remove_assigned_tags {B} (f : string -> Z -> B) h i m :
  dm_wf m ->
  tag_pieces f (remove_assigned h i m) ≡ₚ
  map (fun p => f h (pc_index p)) (remove_first (fun p => pc_index p =? i) (dm_get_or m h [])) ++
  tag_pieces f (dm_remove m h).
Proof.
  intros Hwf. unfold remove_assigned. set (ps := remove_first _ _).
  destruct (Z.eqb_spec (Z.of_nat (length ps)) 0) as [E|E].
  - destruct ps; [done|simpl in E; lia].
  - by rewrite tag_pieces_set.
Qed.

(** Taking a piece that is there off its section's list removes its reference. *)
Lemma remove_assigned_perm {B} (f : string -> Z -> B) h i m :
  dm_wf m -> Exists (fun p => pc_index p = i) (dm_get_or m h []) ->
  tag_pieces f m ≡ₚ f h i :: tag_pieces f (remove_assigned h i m).
Proof.
  intros Hwf Hex. rewrite (tag_pieces_get f m h), remove_assigned_tags by done.
  destruct (remove_first_perm (fun p => pc_index p =? i) (dm_get_or m h [])) as (p & Hp & _ & Hperm).
  { apply existsb_exists. apply Exists_exists in Hex as (p & Hp%list_elem_of_In & Hi).
    exists p. split; [done|]. by apply Z.eqb_eq. }
  apply Z.eqb_eq in Hp. rewrite Hperm at 1. simpl. by rewrite Hp.
Qed.
End Refs.

(** * Moving pieces *)

Section Moves.
Context {T : Type}.
Implicit Types (fp : FileProgress T) (ds : DownloadState T).

(** [ds'] has the same pieces in the same places, and the same counters. *)
Record same_pieces ds ds' : Prop := {
  sp_wf : state_wf ds';
  sp_unassigned : unassigned_refs ds' ≡ₚ unassigned_refs ds;
  sp_assigned : assigned_refs ds' ≡ₚ assigned_refs ds;
  sp_downloaded : downloaded_refs ds' ≡ₚ downloaded_refs ds;
  sp_remaining : ds_remainingPieces ds' = ds_remainingPieces ds;
  sp_active : ds_activeSellers ds' = ds_activeSellers ds
}.

Lemma same_pieces_refl ds : state_wf ds -> same_pieces ds ds.
Proof. by split. Qed.

Lemma same_pieces_trans ds1 ds2 ds3 :
  same_pieces ds1 ds2 -> same_pieces ds2 ds3 -> same_pieces ds1 ds3.
Proof.
  intros [? ? ? ? ? ?] [? ? ? ? ? ?]. split; [done|by etrans..|congruence|congruence].
Qed.

(** Writing back a progress with the same piece lists. *)
Lemma put_same_pieces ds f fp :
  state_wf ds ->
  fp_unassigned fp = fp_unassigned (progress_of ds f) ->
  fp_assigned fp = fp_assigned (progress_of ds f) ->
  fp_downloaded fp = fp_downloaded (progress_of ds f) ->
  same_pieces ds (put_progress f fp ds).
Proof.
  intros Hwf Eu Ea Ed. pose proof (progress_of_wf ds f Hwf) as Hpw.
  destruct (Hwf) as (Hp & _ & _).
  split; [apply put_progress_wf; [done|]; unfold progress_wf; by rewrite Ea, Ed| | | |done|done];
    unfold unassigned_refs, assigned_refs, downloaded_refs.
  - rewrite (put_flat_map unassigned_of), (get_flat_map _ ds f) by done. unfold unassigned_of. simpl. by rewrite Eu.
  - rewrite (put_flat_map assigned_of), (get_flat_map _ ds f) by done.
    unfold assigned_of. simpl. by rewrite Ea.
  - rewrite (put_flat_map downloaded_of), (get_flat_map _ ds f) by done.
    unfold downloaded_of. simpl. by rewrite Ed.
Qed.

(** Assigning the first unassigned piece. *)
Lemma move_assigned_refs ds f h p0 p rest :
  state_wf ds -> fp_unassigned (progress_of ds f) = p0 :: rest -> pc_index p = pc_index p0 ->
  let ds' := put_progress f (move_assigned h p rest (progress_of ds f)) ds in
  state_wf ds' /\
  unassigned_refs ds ≡ₚ (f, pc_index p) :: unassigned_refs ds' /\
  assigned_refs ds' ≡ₚ (f, h, pc_index p) :: assigned_refs ds /\
  downloaded_refs ds' ≡ₚ downloaded_refs ds.
Proof.
  intros Hwf Hu Hi. cbv zeta. destruct (progress_of_wf ds f Hwf) as [Hwa Hwd].
  destruct (Hwf) as (Hp & _ & _).
  unfold unassigned_refs, assigned_refs, downloaded_refs. split_and!.
  - apply put_progress_wf; [done|]. split; [by apply dm_wf_set|done].
  - rewrite (put_flat_map unassigned_of), (get_flat_map _ ds f) by done.
    unfold unassigned_of. cbn [fst snd]. rewrite Hu. simpl. by rewrite Hi.
  - rewrite (put_flat_map assigned_of), (get_flat_map _ ds f) by done.
    unfold assigned_of at 1 3. cbn [fst snd]. simpl. by rewrite tag_pieces_append.
  - rewrite (put_flat_map downloaded_of), (get_flat_map _ ds f) by done. done.
Qed.

Lemma assigned_ref_in ds f h i :
  state_wf ds -> (f, h, i) ∈ assigned_refs ds ->
  Exists (fun p => pc_index p = i) (dm_get_or (fp_assigned (progress_of ds f)) h []).
Proof.
  intros (Hp & _ & Hall) Hin. unfold assigned_refs in Hin.
  apply list_elem_of_In, in_flat_map in Hin as ([f' fp] & Hf%list_elem_of_In & Hin).
  unfold assigned_of, tag_pieces in Hin. apply in_flat_map in Hin as ([h' ps] & Hh & Hin).
  apply in_map_iff in Hin as (p & [=] & Hps). cbn [fst snd] in *. subst.
  pose proof (dm_elem_get _ _ _ Hp Hf) as Hg. destruct (Hall _ _ Hg) as [Hwa _].
  apply list_elem_of_In in Hh. pose proof (dm_elem_get _ _ _ Hwa Hh) as Hgh.
  unfold progress_of, dm_get_or. rewrite Hg. simpl. rewrite Hgh. simpl.
  apply Exists_exists. exists p. split; [by apply list_elem_of_In|done].
Qed.

(** A finished piece leaves the assigned list. *)
Definition taken (f h : string) (i : Z) ds : FileProgress T :=
  let fp := progress_of ds f in set_fp_assigned (remove_assigned h i (fp_assigned fp)) fp.

Lemma received_refs ds (pm : PieceMsg T) :
  let f := pm_fileId pm in let h := pm_hash pm in let i := pc_index (pm_piece pm) in
  let ds' := put_progress f (piece_received pm (taken f h i ds)) ds in
  state_wf ds -> (f, h, i) ∈ assigned_refs ds ->
  state_wf ds' /\ unassigned_refs ds' ≡ₚ unassigned_refs ds /\
  assigned_refs ds ≡ₚ (f, h, i) :: assigned_refs ds' /\
  downloaded_refs ds' ≡ₚ (f, i) :: downloaded_refs ds.
Proof.
  cbv zeta. intros Hwf Hin. pose proof (assigned_ref_in _ _ _ _ Hwf Hin) as Hex.
  destruct (progress_of_wf ds (pm_fileId pm) Hwf) as [Hwa Hwd]. destruct (Hwf) as (Hp & _ & _).
  unfold unassigned_refs, assigned_refs, downloaded_refs. split_and!.
  - apply put_progress_wf; [done|]. split; [by apply remove_assigned_wf|by apply dm_wf_set].
  - rewrite (put_flat_map unassigned_of), (get_flat_map _ ds (pm_fileId pm)) by done. done.
  - rewrite (put_flat_map assigned_of), (get_flat_map _ ds (pm_fileId pm)) by done.
    unfold assigned_of at 1 3. cbn [fst snd]. simpl.
    by rewrite (remove_assigned_perm _ _ _ _ Hwa Hex).
  - rewrite (put_flat_map downloaded_of), (get_flat_map _ ds (pm_fileId pm)) by done.
    unfold downloaded_of at 1 3. cbn [fst snd]. simpl. by rewrite tag_pieces_append.
Qed.

Lemma failed_refs ds (pm : PieceMsg T) :
  let f := pm_fileId pm in let h := pm_hash pm in let i := pc_index (pm_piece pm) in
  let fp := taken f h i ds in
  let ds' := put_progress f (set_fp_unassigned (fp_unassigned fp ++ [pm_piece pm]) fp) ds in
  state_wf ds -> (f, h, i) ∈ assigned_refs ds ->
  state_wf ds' /\ unassigned_refs ds' ≡ₚ (f, i) :: unassigned_refs ds /\
  assigned_refs ds ≡ₚ (f, h, i) :: assigned_refs ds' /\
  downloaded_refs ds' ≡ₚ downloaded_refs ds.
Proof.
  cbv zeta. intros Hwf Hin. pose proof (assigned_ref_in _ _ _ _ Hwf Hin) as Hex.
  destruct (progress_of_wf ds (pm_fileId pm) Hwf) as [Hwa Hwd]. destruct (Hwf) as (Hp & _ & _).
  unfold unassigned_refs, assigned_refs, downloaded_refs. split_and!.
  - apply put_progress_wf; [done|]. split; [by apply remove_assigned_wf|done].
  - rewrite (put_flat_map unassigned_of), (get_flat_map _ ds (pm_fileId pm)) by done.
    unfold unassigned_of at 1 3. cbn [fst snd]. simpl. rewrite map_app, <-app_assoc. simpl.
    by rewrite <-Permutation_middle.
  - rewrite (put_flat_map assigned_of), (get_flat_map _ ds (pm_fileId pm)) by done.
    unfold assigned_of at 1 3. cbn [fst snd]. simpl.
    by rewrite (remove_assigned_perm _ _ _ _ Hwa Hex).
  - rewrite (put_flat_map downloaded_of), (get_flat_map _ ds (pm_fileId pm)) by done. done.
Qed.
End Moves.

(** ** Steps that move no piece *)

Section Frames.
Context {D T : Type} `{BigDecimal D} `{Scalar T} `{!BigDecimalLaws D}.
Implicit Types (fp : FileProgress T) (ds : DownloadState T).

Lemma same_pieces_fields ds ds' :
  state_wf ds -> ds_progress ds' = ds_progress ds ->
  ds_remainingPieces ds' = ds_remainingPieces ds -> ds_activeSellers ds' = ds_activeSellers ds ->
  same_pieces ds ds'.
Proof.
  intros (Hp & Ha & Hall) Ep Er Ea.
  split; unfold state_wf, unassigned_refs, assigned_refs, downloaded_refs; rewrite ?Ep, ?Ea; done.
Qed.

Lemma repriced_refs l l' :
  Forall2 (fun e e' : string * FileProgress T => e'.1 = e.1 /\ repriced e.2 e'.2) l l' ->
  dm_keys l' = dm_keys l /\
  flat_map unassigned_of l' = flat_map unassigned_of l /\
  flat_map assigned_of l' = flat_map assigned_of l /\
  flat_map downloaded_of l' = flat_map downloaded_of l /\
  (forall f fp', dm_get l' f = Some fp' -> exists fp, dm_get l f = Some fp /\ repriced fp fp').
Proof.
  induction 1 as [|[k fp] [k' fp'] l l' [E R] HF (IH1 & IH2 & IH3 & IH4 & IH5)]; [done|].
  cbn [fst snd] in *. subst k'. split_and!.
  - exact (f_equal (cons k) IH1).
  - cbn [flat_map]. rewrite IH2, R. done.
  - cbn [flat_map]. rewrite IH3, R. done.
  - cbn [flat_map]. rewrite IH4, R. done.
  - intros f fp1. simpl. case_match; [|apply IH5]. intros [= <-]. eauto.
Qed.

Lemma calculate_same ds : state_wf ds -> same_pieces ds (calculate (D:=D) ds).2.
Proof.
  intros (Hp & Ha & Hall). pose proof (calculate_progress (D:=D) ds) as HF.
  destruct (calculate_counters (D:=D) ds) as (Er & Eact & _).
  assert (Forall2 (fun e e' : string * FileProgress T => e'.1 = e.1 /\ repriced e.2 e'.2)
    (ds_progress ds) (ds_progress (calculate (D:=D) ds).2)) as HF'.
  { eapply Forall2_impl; [exact HF|]. by intros ? ? (? & ? & _). }
  destruct (repriced_refs _ _ HF') as (Ek & Eu & Eas & Ed & Eg).
  split; unfold state_wf, unassigned_refs, assigned_refs, downloaded_refs, dm_wf in *;
    rewrite ?Ek, ?Eu, ?Eas, ?Ed, ?Eact; try done.
  split_and!; try done. intros f fp' Hf. destruct (Eg _ _ Hf) as (fp & Hfp & ->).
  exact (Hall _ _ Hfp).
Qed.

Lemma storePool_same ds sp : state_wf ds -> same_pieces ds (storePool ds sp).
Proof. intros Hwf. unfold storePool. by apply put_same_pieces. Qed.

Lemma storePools_same ds pools : state_wf ds -> same_pieces ds (foldl storePool ds pools).
Proof.
  revert ds. induction pools as [|sp pools IH]; intros ds Hwf; [by apply same_pieces_refl|].
  pose proof (storePool_same ds sp Hwf) as Hs. eapply same_pieces_trans; [exact Hs|].
  apply IH, Hs.
Qed.

Lemma insertSection_same ds sd : state_wf ds -> same_pieces ds (insertSection sd ds).
Proof. intros Hwf. unfold insertSection. by apply put_same_pieces. Qed.
End Frames.

(** * The system *)

(** [ok] says which sections the negotiator may add in a state. *)
Section System.
Context {D T : Type} `{BigDecimal D} `{Scalar T} (ok : DownloadState T -> SellerData T -> Prop).
Implicit Types (ds : DownloadState T) (m : Manager T) (d : Downloader) (live : list Downloader).

(** The manager, where its loop is, the piece downloaders that have not reported
    yet, and what has been sent to the node. *)
Record Sys := {
  sys_m : Manager T;
  sys_phase : Phase;
  sys_live : list Downloader;
  sys_out : list Effect
}.

Definition started (eff : list Effect) : list Downloader :=
  flat_map (fun x => match x with StartDownloader d => [d] | _ => [] end) eff.

(** A finished downloader reports with the data it was given; the piece may have
    got its actual size and keys, its index is the same. *)
Definition reports d (pm : PieceMsg T) : Prop :=
  pm_id pm = dl_id d /\ pm_fileId pm = dl_fileId d /\ pm_hash pm = dl_hash d /\
  pm_userId pm = dl_userId d /\ pm_serverId pm = dl_serverId d /\
  pc_index (pm_piece pm) = pc_index (dl_piece d).

(** A piece message comes from a live downloader, which is then gone; any other
    message can arrive at any time. *)
Inductive delivered : Msg T -> list Downloader -> list Downloader -> Prop :=
| delivered_piece pm d l1 l2 :
    reports d pm -> delivered (MsgPieceUpdate pm) (l1 ++ d :: l2) (l1 ++ l2)
| delivered_other msg live :
    (forall pm, msg <> MsgPieceUpdate pm) -> delivered msg live live.

Definition advance (s : Sys) (ph : Phase) m live (eff : list Effect) : Sys :=
  {| sys_m := m; sys_phase := ph; sys_live := live ++ started eff; sys_out := sys_out s ++ eff |}.

(** The steps of [handleMessages] and of the negotiator, which works on the same
    download state. *)
Inductive step : Sys -> Sys -> Prop :=
| step_loop env s ph m eff :
    sys_phase s = Loop -> random_in_range (env_random env) ->
    loopTop (D:=D) env (sys_m s) = (ph, m, eff) ->
    step s (advance s ph m (sys_live s) eff)
| step_message env s rval np msg live ph m eff :
    sys_phase s = Sleep rval np -> delivered msg (sys_live s) live ->
    loopMessage env np msg (sys_m s) = (ph, m, eff) ->
    step s (advance s ph m live eff)
| step_wake s rval np :
    sys_phase s = Sleep rval np -> rval = false \/ np = true ->
    step s (advance s (if rval then Loop else Exiting false false) (sys_m s) (sys_live s) [])
| step_exit_message env s rval complete msg live m eff :
    sys_phase s = Exiting rval complete -> delivered msg (sys_live s) live ->
    exitMessage env msg (sys_m s) = (m, eff) ->
    step s (advance s (Exiting rval complete) m live eff)
| step_return s rval complete :
    sys_phase s = Exiting rval complete -> childrenGone (sys_m s) = true ->
    step s (advance s (Returned rval complete) (sys_m s) (sys_live s)
              (finalEvents complete (sys_m s)))
| step_negotiated s sd :
    ok (mDownloadState (sys_m s)) sd ->
    step s (advance s (sys_phase s)
              (with_state (insertSection sd (mDownloadState (sys_m s))) (sys_m s)) (sys_live s) [])
| step_blacklisted s sd now :
    step s (advance s (sys_phase s)
              (with_state (blacklistSeller sd now (mDownloadState (sys_m s))) (sys_m s))
              (sys_live s) []).

(** [processMessages] up to the loop: the checks, pieces left assigned by an
    earlier run are unassigned, and the flags of a new manager. *)
Definition startManager ds : outcome (Manager T) :=
  (let? _ := checkInit ds in
   let? _ := checkLicense (D:=D) ds in
   Ok {| mDownloadState := unassignPieces ds; mSellerPoolsInitializing := true;
         mNegotiating := false; mSellerPoolsUpdating := false; mAssignOptionalPiece := false;
         mInterrupted := false; mPieceDownloaderId := 0; mPieceDownloaders := [] |})%bitmunk.

(** The first pool update is requested, and [handleMessages] announces the
    download. *)
Definition startEffects : list Effect :=
  [SelfPoolTimeout; Emit "bitmunk.purchase.DownloadState.downloadStarted"].

Inductive reachable ds : Sys -> Prop :=
| reachable_start m :
    startManager ds = Ok m ->
    reachable ds {| sys_m := m; sys_phase := Loop; sys_live := []; sys_out := startEffects |}
| reachable_step s s' : reachable ds s -> step s s' -> reachable ds s'.
End System.
Arguments Sys : clear implicits.

(** * The invariant *)

Section Invariant.
Context {D T : Type} `{BigDecimal D} `{Scalar T} `{!BigDecimalLaws D}.
Implicit Types (ds : DownloadState T) (m : Manager T) (d : Downloader) (live : list Downloader).

Definition dl_ref d : string * string * Z := (dl_fileId d, dl_hash d, pc_index (dl_piece d)).
Definition dl_key d : string := createSellerServerKey (dl_userId d) (dl_serverId d).

(** [pieces] are the pieces of the purchase.  Every live downloader has its piece
    on the assigned list. *)
Record ds_inv (pieces : list (string * Z)) live ds : Prop := {
  inv_wf : state_wf ds;
  inv_all : all_refs ds ≡ₚ pieces;
  inv_remaining : ds_remainingPieces ds = Z.of_nat (length (open_refs ds));
  inv_width : ds_remainingPieces ds < 2 ^ 32;
  inv_live : map dl_ref live ⊆+ assigned_refs ds
}.

Lemma same_open ds ds' : same_pieces ds ds' -> open_refs ds' ≡ₚ open_refs ds.
Proof. intros [? Hu Ha ? ? ?]. unfold open_refs. by rewrite Hu, Ha. Qed.

Lemma inv_same pieces live ds ds' :
  ds_inv pieces live ds -> same_pieces ds ds' -> ds_inv pieces live ds'.
Proof.
  intros [Hwf Hall Hrem Hwid Hlive] Hs. pose proof (same_open _ _ Hs) as Ho.
  destruct Hs as [Hwf' Hu Ha Hd Er _]. split; rewrite ?Er; try done.
  - unfold all_refs in *. by rewrite Ho, Hd.
  - by rewrite Ho.
  - by rewrite Ha.
Qed.

(** The invariant when one piece has been assigned; its downloader may have been
    started or not. *)
Lemma inv_assign pieces live ds (sd : SellerData T) p0 p rest :
  ds_inv pieces live ds ->
  fp_unassigned (progress_of ds (sd_fileId sd)) = p0 :: rest -> pc_index p = pc_index p0 ->
  let ds' := set_ds_activeSellers (add_connection (sd_key sd) (ds_activeSellers ds))
    (put_progress (sd_fileId sd)
      (move_assigned (sd_hash sd) p rest (progress_of ds (sd_fileId sd))) ds) in
  ds_inv pieces live ds' /\
  (forall d, dl_ref d = (sd_fileId sd, sd_hash sd, pc_index p) -> ds_inv pieces (live ++ [d]) ds').
Proof.
  intros [Hwf Hall Hrem Hwid Hlive] Hu Hi. cbv zeta.
  destruct (move_assigned_refs ds _ (sd_hash sd) p0 p rest Hwf Hu Hi) as (Hwf1 & Eu & Ea & Ed).
  set (ds1 := put_progress _ _ ds) in *. set (ds' := set_ds_activeSellers _ ds1).
  change (unassigned_refs ds1) with (unassigned_refs ds') in *.
  change (assigned_refs ds1) with (assigned_refs ds') in *.
  change (downloaded_refs ds1) with (downloaded_refs ds') in *.
  assert (open_refs ds' ≡ₚ open_refs ds) as Eo.
  { unfold open_refs. rewrite Ea, Eu. simpl. by rewrite <-Permutation_middle. }
  assert (state_wf ds') as Hwf'.
  { destruct Hwf1 as (? & ? & ?), Hwf as (_ & ? & _). split_and!; try done. by apply dm_wf_set. }
  assert (ds_inv pieces live ds') as Hinv.
  { split; try done.
    - unfold all_refs in *. by rewrite Eo, Ed.
    - change (ds_remainingPieces ds') with (ds_remainingPieces ds). by rewrite Eo.
    - rewrite Ea. by apply submseteq_cons. }
  split; [done|]. intros d Hr. destruct Hinv. split; try done. rewrite map_app. cbn [map].
  rewrite Hr, Ea, Permutation_app_comm. simpl. by apply submseteq_skip.
Qed.

(** A finished piece leaves one reference on the assigned list. *)
Lemma live_split live1 live2 d ds :
  map dl_ref (live1 ++ d :: live2) ⊆+ assigned_refs ds ->
  dl_ref d ∈ assigned_refs ds /\
  forall rest, assigned_refs ds ≡ₚ dl_ref d :: rest -> map dl_ref (live1 ++ live2) ⊆+ rest.
Proof.
  intros Hs. rewrite <-Permutation_middle in Hs. simpl in Hs. split.
  - eapply elem_of_submseteq; [|exact Hs]. left.
  - intros rest E. rewrite E in Hs. apply (submseteq_app_inv_l _ _ [dl_ref d]). exact Hs.
Qed.

Lemma drop_connection_wf key active : dm_wf active -> dm_wf (drop_connection key active).
Proof. unfold drop_connection. intros. repeat case_match; auto using dm_wf_set, dm_wf_remove. Qed.

Lemma inv_finish pieces live1 live2 d ds ds' :
  ds_inv pieces (live1 ++ d :: live2) ds ->
  state_wf (set_ds_activeSellers [] ds') ->
  ds_activeSellers ds' = drop_connection (dl_key d) (ds_activeSellers ds) ->
  assigned_refs ds ≡ₚ dl_ref d :: assigned_refs ds' ->
  all_refs ds' ≡ₚ all_refs ds ->
  ds_remainingPieces ds' = Z.of_nat (length (open_refs ds')) ->
  ds_remainingPieces ds' < 2 ^ 32 ->
  ds_inv pieces (live1 ++ live2) ds'.
Proof.
  intros [(_ & Hwa & _) Hall0 _ _ Hlive] (Hp & _ & Hall) Eact Ea Eall Er Hw.
  split; try done; [|by rewrite Eall|by apply (live_split _ _ _ _ Hlive)].
  split_and!; [done| |done]. rewrite Eact. by apply drop_connection_wf.
Qed.

(** Reporting a piece, received or failed. *)
Lemma received_inv pieces live1 live2 d ds (pm : PieceMsg T) :
  reports d pm -> ds_inv pieces (live1 ++ d :: live2) ds ->
  ds_inv pieces (live1 ++ live2)
    (set_ds_remainingPieces (u32 (ds_remainingPieces ds - 1))
      (put_progress (pm_fileId pm)
        (piece_received pm (taken (pm_fileId pm) (pm_hash pm) (pc_index (pm_piece pm)) ds))
        (set_ds_activeSellers (drop_connection (dl_key d) (ds_activeSellers ds)) ds))).
Proof.
  intros (_ & Ef & Eh & _ & _ & Ei) Hinv. destruct (live_split _ _ _ _ (inv_live _ _ _ Hinv)) as [Hin _].
  unfold dl_ref in Hin. rewrite <-Ef, <-Eh, <-Ei in Hin.
  destruct (received_refs ds pm (inv_wf _ _ _ Hinv) Hin) as (Hwf2 & E1 & E2 & E3).
  set (ds2 := put_progress _ _ ds) in *. set (ds' := set_ds_remainingPieces _ _).
  assert (open_refs ds ≡ₚ (pm_fileId pm, pc_index (pm_piece pm)) :: open_refs ds') as Eo.
  { change (open_refs ds') with (open_refs ds2). unfold open_refs. rewrite E1, E2.
    simpl. by rewrite <-Permutation_middle. }
  assert (ds_remainingPieces ds = 1 + Z.of_nat (length (open_refs ds'))) as Er
    by (rewrite (inv_remaining _ _ _ Hinv), Eo; simpl; lia).
  pose proof (inv_width _ _ _ Hinv) as Hw.
  assert (ds_remainingPieces ds' = Z.of_nat (length (open_refs ds'))) as Er'.
  { change (u32 (ds_remainingPieces ds - 1) = Z.of_nat (length (open_refs ds'))).
    rewrite u32_small; lia. }
  eapply inv_finish; [exact Hinv| |done| | |done|lia].
  - destruct Hwf2 as (? & _ & ?). split_and!; [done|apply dm_wf_nil|done].
  - unfold dl_ref. by rewrite <-Ef, <-Eh, <-Ei.
  - unfold all_refs. change (downloaded_refs ds') with (downloaded_refs ds2).
    rewrite E3, Eo. by rewrite <-Permutation_middle.
Qed.

Lemma failed_inv pieces live1 live2 d ds (pm : PieceMsg T) bl :
  reports d pm -> ds_inv pieces (live1 ++ d :: live2) ds ->
  let fp := taken (pm_fileId pm) (pm_hash pm) (pc_index (pm_piece pm)) ds in
  ds_inv pieces (live1 ++ live2)
    (set_ds_blacklist bl
      (put_progress (pm_fileId pm) (set_fp_unassigned (fp_unassigned fp ++ [pm_piece pm]) fp)
        (set_ds_activeSellers (drop_connection (dl_key d) (ds_activeSellers ds)) ds))).
Proof.
  intros (_ & Ef & Eh & _ & _ & Ei) Hinv. cbv zeta.
  destruct (live_split _ _ _ _ (inv_live _ _ _ Hinv)) as [Hin _].
  unfold dl_ref in Hin. rewrite <-Ef, <-Eh, <-Ei in Hin.
  destruct (failed_refs ds pm (inv_wf _ _ _ Hinv) Hin) as (Hwf2 & E1 & E2 & E3).
  set (ds2 := put_progress _ _ ds) in *. set (ds' := set_ds_blacklist _ _).
  assert (open_refs ds' ≡ₚ open_refs ds) as Eo.
  { change (open_refs ds') with (open_refs ds2). unfold open_refs. rewrite E1, E2.
    simpl. by rewrite <-Permutation_middle. }
  eapply inv_finish; [exact Hinv| |done| | | |exact (inv_width _ _ _ Hinv)].
  - destruct Hwf2 as (? & _ & ?). split_and!; [done|apply dm_wf_nil|done].
  - unfold dl_ref. by rewrite <-Ef, <-Eh, <-Ei.
  - unfold all_refs. change (downloaded_refs ds') with (downloaded_refs ds2). by rewrite Eo, E3.
  - change (ds_remainingPieces ds') with (ds_remainingPieces ds).
    by rewrite (inv_remaining _ _ _ Hinv), Eo.
Qed.

Lemma pieceUpdate_inv env pieces live1 live2 d m pm :
  reports d pm -> ds_inv pieces (live1 ++ d :: live2) (mDownloadState m) ->
  ds_inv pieces (live1 ++ live2) (mDownloadState (pieceUpdate env pm m).1.2).
Proof.
  intros Hr Hinv. pose proof Hr as (_ & _ & _ & Eu & Es & _).
  unfold pieceUpdate. rewrite Eu, Es. fold (dl_key d). cbn [fst snd].
  destruct (pm_received pm).
  - exact (received_inv _ _ _ _ _ _ Hr Hinv).
  - exact (failed_inv _ _ _ _ _ _ _ Hr Hinv).
Qed.

(** ** Handlers *)

(** A seller that is picked may be given a piece. *)
Lemma pickSeller_eligible env must m sd m' eff :
  Download.pickSeller (D:=D) env must m = (Some sd, m', eff) ->
  m' = m /\ eff = [] /\
  exists f fp, (f, fp) ∈ ds_progress (mDownloadState m) /\ fp_unassigned fp <> [] /\
    sd ∈ dm_values (fp_sellerData fp) /\
    eligible (mDownloadState m) (bd_of_string (fp_budget fp) : D) sd = true.
Proof.
  unfold Download.pickSeller. destruct (SellerPicker.pickSeller _ _ _ _) as [sd'|] eqn:E.
  2:{ by repeat case_match. }
  intros [=]; subst. split_and!; [done..|]. apply (pickSeller_in D) in E.
  unfold eligibleSellers in E. apply list_elem_of_In, in_flat_map in E as ([f fp] & Hf & Hsd).
  exists f, fp. cbn [snd] in Hsd. unfold fileSellers in Hsd. apply list_elem_of_In in Hf, Hsd.
  destruct (fp_unassigned fp) eqn:Hu; [by apply elem_of_nil in Hsd|].
  by apply list_elem_of_filter in Hsd as [? ?].
Qed.

Lemma pickSeller_none env must m m' eff :
  Download.pickSeller (D:=D) env must m = (None, m', eff) ->
  mDownloadState m' = mDownloadState m /\ started eff = [].
Proof. unfold Download.pickSeller. repeat case_match; intros [=]; by subst. Qed.

Lemma eligible_inactive ds (budget : D) sd :
  eligible ds budget sd = true -> dm_get (ds_activeSellers ds) (sd_key sd) = None.
Proof.
  unfold eligible. rewrite !andb_true_iff, !negb_true_iff. intros [[_ ?%dm_has_false] _]. done.
Qed.

Lemma assignPiece_inv env pieces live sd m r m' eff :
  ds_inv pieces live (mDownloadState m) ->
  assignPiece env sd m = (r, m', eff) ->
  ds_inv pieces (live ++ started eff) (mDownloadState m').
Proof.
  intros Hinv. unfold assignPiece. set (ds := mDownloadState m) in *.
  destruct (env_config env) as [cfg|]; [|intros [=]; subst; by rewrite app_nil_r].
  destruct (fp_unassigned (progress_of ds (sd_fileId sd))) as [|p rest] eqn:Hu.
  { intros [=]; subst. rewrite app_nil_r. eapply inv_same; [exact Hinv|].
    apply put_same_pieces; [exact (inv_wf _ _ _ Hinv)|done..]. }
  assert (forall date, ds_inv pieces live (set_ds_startDate date ds)) as Hdate.
  { intros date. eapply inv_same; [exact Hinv|].
    by apply same_pieces_fields; [exact (inv_wf _ _ _ Hinv)|..]. }
  assert (exists ds1 rval, (if String.eqb (ds_startDate ds) ""
      then (env_updateFlags env, set_ds_startDate (env_date env) ds) else (true, ds)) = (rval, ds1) /\
    ds_inv pieces live ds1 /\ progress_of ds1 (sd_fileId sd) = progress_of ds (sd_fileId sd))
    as (ds1 & rval & -> & Hinv1 & Ep).
  { case_match; eexists _, _; split_and!; try reflexivity; auto. }
  destruct rval; cbn [negb].
  2:{ intros [=]; subst. rewrite app_nil_r. eapply inv_same; [exact Hinv1|].
      apply put_same_pieces; [exact (inv_wf _ _ _ Hinv1)|by rewrite Ep..]. }
  rewrite <-Ep in *.
  destruct (env_expand env (cfg_temporaryPath cfg)) as [path|].
  2:{ intros [=]; subst. rewrite app_nil_r. by eapply inv_assign. }
  set (p' := set_pc_path _ p). destruct (env_updateProgress env); cbn [negb]; intros [=]; subst.
  - cbn [started flat_map app]. by eapply inv_assign.
  - rewrite app_nil_r. by eapply inv_assign.
Qed.

(** Either nothing is assigned, or a seller is picked in the state with the newly
    calculated budgets. *)
Lemma tryAssignPiece_cases env m r m' eff :
  tryAssignPiece (D:=D) env m = (r, m', eff) ->
  let ds := (calculate (D:=D) (mDownloadState m)).2 in
  (started eff = [] /\ (mDownloadState m' = mDownloadState m \/ mDownloadState m' = ds)) \/
  exists f fp sd m1, (f, fp) ∈ ds_progress ds /\ fp_unassigned fp <> [] /\
    sd ∈ dm_values (fp_sellerData fp) /\ eligible ds (bd_of_string (fp_budget fp) : D) sd = true /\
    mDownloadState m1 = ds /\ assignPiece env sd m1 = (r, m', eff).
Proof.
  unfold tryAssignPiece. destruct (shouldAssignPiece env m) as [[should must] m1] eqn:E1.
  assert (mDownloadState m1 = mDownloadState m) as Em.
  { revert E1. unfold shouldAssignPiece. repeat case_match; intros [=]; by subst. }
  destruct should; [|intros [=]; subst; left; auto]. rewrite Em. cbv zeta.
  set (m2 := with_state _ m1).
  destruct (Download.pickSeller (D:=D) env must m2) as [[[sd|] m3] eff1] eqn:E2.
  - apply pickSeller_eligible in E2 as (-> & -> & f & fp & Hf & Hu & Hsd & Hel).
    destruct (assignPiece env sd m2) as [[r' m4] eff2] eqn:E3. intros [=]; subst.
    right. by exists f, fp, sd, m2.
  - apply pickSeller_none in E2 as [Ed Es]. intros [=]; subst. left. rewrite Es, Ed. auto.
Qed.

Lemma tryAssignPiece_inv env pieces live m r m' eff :
  ds_inv pieces live (mDownloadState m) ->
  tryAssignPiece (D:=D) env m = (r, m', eff) ->
  ds_inv pieces (live ++ started eff) (mDownloadState m').
Proof.
  intros Hinv Ht. apply tryAssignPiece_cases in Ht.
  assert (ds_inv pieces live (calculate (D:=D) (mDownloadState m)).2) as Hc
    by (eapply inv_same; [exact Hinv|apply calculate_same, (inv_wf _ _ _ Hinv)]).
  destruct Ht as [[-> Hm]|(f & fp & sd & m1 & _ & _ & _ & _ & Em & Ha)].
  - rewrite app_nil_r. by destruct Hm as [->| ->].
  - eapply assignPiece_inv; [|exact Ha]. by rewrite Em.
Qed.
End Invariant.

(** * Start *)

Section Start.
Context {D T : Type} `{BigDecimal D} `{Scalar T}.
Implicit Types (ds : DownloadState T) (fp : FileProgress T).

(** A download state as it is loaded: the counter of remaining pieces is right
    and there are no connections. *)
Record download_ok ds : Prop := {
  ok_wf : state_wf ds;
  ok_remaining : ds_remainingPieces ds = Z.of_nat (length (open_refs ds));
  ok_width : ds_remainingPieces ds < 2 ^ 32;
  ok_active : ds_activeSellers ds = []
}.

Lemma unassignFile_pieces f fp :
  unassigned_of (f, unassignFile fp) = unassigned_of (f, fp) ++ map forget (assigned_of (f, fp)).
Proof.
  unfold unassigned_of, assigned_of, unassignFile. cbn [fst snd fp_unassigned set_fp_assigned
    set_fp_unassigned]. generalize (fp_unassigned fp) as u.
  induction (fp_assigned fp) as [|[h ps] l IH]; intros u; simpl; [by rewrite app_nil_r|].
  rewrite IH. unfold tag_pieces. simpl. rewrite map_app, <-app_assoc, map_app. simpl.
  by rewrite map_map.
Qed.

Lemma unassign_get (l : dmap (FileProgress T)) f :
  dm_get (map (fun e => (e.1, unassignFile e.2)) l) f = unassignFile <$> dm_get l f.
Proof. induction l as [|[k fp] l IH]; simpl; [done|]. by case_match. Qed.

Lemma unassign_refs ds :
  assigned_refs (unassignPieces ds) = [] /\
  downloaded_refs (unassignPieces ds) = downloaded_refs ds /\
  unassigned_refs (unassignPieces ds) ≡ₚ open_refs ds.
Proof.
  unfold open_refs, assigned_refs, downloaded_refs, unassigned_refs. simpl.
  induction (ds_progress ds) as [|[f fp] l (IH1 & IH2 & IH3)]; [done|]. cbn [map flat_map].
  rewrite IH1, IH2, IH3, unassignFile_pieces, map_app. split_and!; [done|done|].
  solve_Permutation.
Qed.

Lemma unassign_wf ds : state_wf ds -> state_wf (unassignPieces ds).
Proof.
  intros (Hp & Ha & Hall). split_and!; simpl; [|done|].
  - unfold dm_wf, dm_keys. rewrite <-list_fmap_compose. exact Hp.
  - intros f fp'. rewrite unassign_get. destruct (dm_get (ds_progress ds) f) as [fp|] eqn:E; [|done].
    intros [= <-]. destruct (Hall _ _ E) as [_ Hd]. split; [apply dm_wf_nil|exact Hd].
Qed.

Lemma start_inv ds :
  download_ok ds -> ds_inv (all_refs ds) [] (unassignPieces ds).
Proof.
  intros [Hwf Hrem Hwid Hact]. destruct (unassign_refs ds) as (Ea & Ed & Eu).
  assert (open_refs (unassignPieces ds) ≡ₚ open_refs ds) as Eo.
  { unfold open_refs at 1. rewrite Ea. simpl. by rewrite app_nil_r. }
  split; try done.
  - by apply unassign_wf.
  - unfold all_refs. by rewrite Eo, Ed.
  - simpl. by rewrite Hrem, Eo.
  - simpl. apply submseteq_nil_l.
Qed.

(** ** Initialization of the file progress *)

(** [SellerPoolUpdater::initFileProgress]: all pieces of a new download are
    unassigned. *)
Definition newPieces (sp : SellerPool T) : list Piece :=
  map (fun n => {| pc_index := Z.of_nat n; pc_size := sp_pieceSize sp; pc_bfpId := sp_bfpId sp;
                   pc_path := "" |}) (seq 0 (Z.to_nat (sp_pieceCount sp))).

Definition initPool (acc : DownloadState T * Z) (sp : SellerPool T) : DownloadState T * Z :=
  let '(ds, totalPieces) := acc in
  let old := progress_of ds (sp_fileId sp) in
  (put_progress (sp_fileId sp)
     {| fp_fileId := sp_fileId sp; fp_mediaId := sp_mediaId sp;
        fp_contentSize := sp_contentSize sp; fp_extension := sp_extension sp;
        fp_bytesDownloaded := 0; fp_budget := fp_budget old; fp_pool := sp;
        fp_sellerData := fp_sellerData old; fp_sellers := fp_sellers old;
        fp_unassigned := fp_unassigned old ++ newPieces sp; fp_assigned := fp_assigned old;
        fp_downloaded := fp_downloaded old; fp_microPaymentCost := fp_microPaymentCost old |} ds,
   u32 (totalPieces + sp_pieceCount sp)).

(** Returns the state and whether it could be stored. *)
Definition initFileProgress (updateFlags : bool) (pools : list (SellerPool T)) ds
  : DownloadState T * bool :=
  let '(ds, totalPieces) := foldl initPool (ds, 0) pools in
  let ds := (calculate (D:=D) ds).2 in
  (set_ds_initialized true
     (set_ds_totalPieceCount totalPieces (set_ds_remainingPieces totalPieces ds)), updateFlags).

(** The pieces of a pool's file. *)
Definition pool_refs (sp : SellerPool T) : list (string * Z) :=
  map (fun n => (sp_fileId sp, Z.of_nat n)) (seq 0 (Z.to_nat (sp_pieceCount sp))).

Lemma initPool_refs ds n sp :
  state_wf ds ->
  let ds' := (initPool (ds, n) sp).1 in
  state_wf ds' /\ open_refs ds' ≡ₚ pool_refs sp ++ open_refs ds /\
  downloaded_refs ds' ≡ₚ downloaded_refs ds /\ ds_activeSellers ds' = ds_activeSellers ds.
Proof.
  intros Hwf. cbv zeta. destruct (progress_of_wf ds (sp_fileId sp) Hwf) as [Hwa Hwd].
  destruct (Hwf) as (Hp & _ & _). unfold initPool. cbn [fst].
  unfold open_refs, unassigned_refs, assigned_refs, downloaded_refs. split_and!; [| | |done].
  - by apply put_progress_wf.
  - rewrite (put_flat_map unassigned_of), (get_flat_map unassigned_of ds (sp_fileId sp)) by done.
    rewrite (put_flat_map assigned_of), (get_flat_map assigned_of ds (sp_fileId sp)) by done.
    unfold unassigned_of at 1. cbn [fst snd fp_unassigned]. rewrite map_app.
    unfold newPieces. rewrite map_map. cbn [pc_index]. fold (pool_refs sp).
    fold (unassigned_of (sp_fileId sp, progress_of ds (sp_fileId sp))).
    rewrite !map_app. unfold assigned_of at 1. cbn [fst snd fp_assigned].
    fold (assigned_of (sp_fileId sp, progress_of ds (sp_fileId sp))). solve_Permutation.
  - rewrite (put_flat_map downloaded_of), (get_flat_map downloaded_of ds (sp_fileId sp)) by done.
    done.
Qed.

Lemma initPools_refs pools ds n :
  state_wf ds -> Forall (fun sp => 0 <= sp_pieceCount sp) pools ->
  let '(ds', n') := foldl initPool (ds, n) pools in
  state_wf ds' /\ open_refs ds' ≡ₚ flat_map pool_refs pools ++ open_refs ds /\
  downloaded_refs ds' ≡ₚ downloaded_refs ds /\ ds_activeSellers ds' = ds_activeSellers ds /\
  u32 n' = u32 (n + Z.of_nat (length (flat_map pool_refs pools))).
Proof.
  revert ds n. induction pools as [|sp pools IH]; intros ds n Hwf Hc; cbn [foldl flat_map].
  { simpl. split_and!; try done. f_equal. lia. }
  apply Forall_cons in Hc as [Hsp Hc]. destruct (initPool_refs ds n sp Hwf) as (W & O & Dn & A).
  change (initPool (ds, n) sp) with
    ((initPool (ds, n) sp).1, u32 (n + sp_pieceCount sp)).
  specialize (IH _ (u32 (n + sp_pieceCount sp)) W Hc).
  destruct (foldl initPool _ pools) as [ds' n']. destruct IH as (W' & O' & D' & A' & N').
  split_and!; [done| | |by rewrite A'|].
  - rewrite O', O. solve_Permutation.
  - by rewrite D', Dn.
  - rewrite N', length_app. unfold pool_refs at 2. rewrite length_map, length_seq.
    unfold u32. rewrite Zplus_mod_idemp_l. f_equal. lia.
Qed.

Lemma initPools_range pools ds n ds' n' :
  0 <= n < 2 ^ 32 -> foldl initPool (ds, n) pools = (ds', n') -> 0 <= n' < 2 ^ 32.
Proof.
  revert ds n. induction pools as [|sp pools IH]; intros ds n Hn; cbn [foldl].
  - by intros [=]; subst.
  - apply IH. apply u32_range.
Qed.
End Start.

(** * Properties of all reachable states *)

Section Reachable.
Context {D T : Type} `{BigDecimal D} `{Scalar T} `{!BigDecimalLaws D}
  (ok : DownloadState T -> SellerData T -> Prop).
Implicit Types (ds : DownloadState T) (m : Manager T) (s : Sys T).

(** The event that a download is complete. *)
Definition completed_event : Effect := Emit "bitmunk.purchase.DownloadState.downloadCompleted".

Definition is_completed (x : Effect) : bool :=
  match x with
  | Emit t => String.eqb t "bitmunk.purchase.DownloadState.downloadCompleted"
  | _ => false
  end.

Lemma not_completed eff : existsb is_completed eff = false -> completed_event ∉ eff.
Proof.
  intros Hf Hin. apply not_true_iff_false in Hf. apply Hf, existsb_exists.
  exists completed_event. split; [by apply list_elem_of_In|reflexivity].
Qed.

Lemma interrupts_silent (l : list (Z * (string * Z))) :
  existsb is_completed (map (fun e => InterruptDownloader e.1) l) = false.
Proof. by induction l. Qed.

Lemma interrupts_start_nothing (l : list (Z * (string * Z))) :
  started (map (fun e => InterruptDownloader e.1) l) = [].
Proof. by induction l. Qed.

Lemma started_app eff1 eff2 : started (eff1 ++ eff2) = started eff1 ++ started eff2.
Proof. unfold started. apply flat_map_app. Qed.

Lemma assignPiece_silent env sd m r m' eff :
  assignPiece env sd m = (r, m', eff) -> existsb is_completed eff = false.
Proof. unfold assignPiece. repeat case_match; intros [=]; by subst. Qed.

Lemma tryAssignPiece_silent env m r m' eff :
  tryAssignPiece (D:=D) env m = (r, m', eff) -> existsb is_completed eff = false.
Proof.
  unfold tryAssignPiece. destruct (shouldAssignPiece env m) as [[[] must] m1]; [|by intros [=]; subst].
  destruct (Download.pickSeller _ _ _) as [[[sd|] m2] eff1] eqn:E.
  - apply pickSeller_eligible in E as (_ & -> & _).
    destruct (assignPiece env sd m2) as [[r' m3] eff2] eqn:E2. intros [=]; subst.
    by eapply assignPiece_silent.
  - intros [=]; subst. revert E. unfold Download.pickSeller. repeat case_match; intros [=]; by subst.
Qed.

Lemma handleMessage_silent env msg m :
  existsb is_completed (handleMessage env msg m).2 = false /\
  started (handleMessage env msg m).2 = [].
Proof.
  destruct msg; unfold handleMessage, interrupt, pieceUpdate, poolTimeout, poolUpdate,
    negotiationComplete, pauseDownload, progressPolled; repeat case_match; cbn [snd];
    rewrite ?existsb_app, ?started_app, ?interrupts_silent, ?interrupts_start_nothing; done.
Qed.

(** A handler other than that of a piece message moves no piece. *)
Lemma handleMessage_same env msg m :
  state_wf (mDownloadState m) -> (forall pm, msg <> MsgPieceUpdate pm) ->
  same_pieces (mDownloadState m) (mDownloadState (handleMessage env msg m).1.2).
Proof.
  intros Hwf Hn. destruct msg as [| |pm| |pools| | | | |]; try (by destruct (Hn pm)); cbn [handleMessage].
  all: try (by apply same_pieces_refl).
  - by apply same_pieces_fields.
  - unfold poolTimeout. repeat case_match; by apply same_pieces_refl.
  - pose proof (storePools_same _ pools Hwf) as Hs. eapply same_pieces_trans; [exact Hs|].
    by apply same_pieces_fields; [apply Hs|..].
  - unfold negotiationComplete. case_match; by apply same_pieces_refl.
  - unfold pauseDownload. case_match; [by apply same_pieces_fields|by apply same_pieces_refl].
Qed.

(** ** The invariant of the system *)

Definition finished (ph : Phase) : bool :=
  match ph with Exiting _ c | Returned _ c => c | _ => false end.

Record sys_inv (pieces : list (string * Z)) s : Prop := {
  si_ds : ds_inv pieces (sys_live s) (mDownloadState (sys_m s));
  si_finished : finished (sys_phase s) = true ->
    ds_remainingPieces (mDownloadState (sys_m s)) = 0;
  si_completed : completed_event ∈ sys_out s -> exists r, sys_phase s = Returned r true
}.

(** With no piece left, no downloader is live. *)
Lemma no_remaining_no_live pieces live ds :
  ds_inv pieces live ds -> ds_remainingPieces ds = 0 ->
  open_refs ds = [] /\ live = [].
Proof.
  intros Hinv Hz. rewrite (inv_remaining _ _ _ Hinv) in Hz.
  assert (open_refs ds = []) as Ho by (destruct (open_refs ds); [done|simpl in Hz; lia]).
  split; [done|]. unfold open_refs in Ho. apply app_eq_nil in Ho as [_ Ha].
  apply map_eq_nil in Ha. pose proof (inv_live _ _ _ Hinv) as Hl. rewrite Ha in Hl.
  apply submseteq_nil_r, map_eq_nil in Hl. done.
Qed.

Lemma advance_inv pieces s ph m live eff :
  sys_inv pieces s ->
  ds_inv pieces (live ++ started eff) (mDownloadState m) ->
  (finished ph = true -> ds_remainingPieces (mDownloadState m) = 0) ->
  (completed_event ∈ eff -> exists r, ph = Returned r true) ->
  (forall r, sys_phase s = Returned r true -> ph = Returned r true) ->
  sys_inv pieces (advance s ph m live eff).
Proof.
  intros [_ _ Hc] Hds Hf He Hr. split; [done|done|]. cbn [advance sys_out sys_phase].
  intros [Hin|Hin]%elem_of_app; [|by apply He].
  destruct (Hc Hin) as [r E]. exists r. by apply Hr.
Qed.

Lemma loopTop_inv env pieces live m ph m' eff :
  ds_inv pieces live (mDownloadState m) -> loopTop (D:=D) env m = (ph, m', eff) ->
  ds_inv pieces (live ++ started eff) (mDownloadState m') /\
  (finished ph = true -> ds_remainingPieces (mDownloadState m') = 0) /\
  existsb is_completed eff = false.
Proof.
  intros Hinv. unfold loopTop, isComplete.
  destruct (mInterrupted m); [intros [=]; subst; by rewrite app_nil_r|].
  destruct (Z.eqb_spec (ds_remainingPieces (mDownloadState m)) 0).
  { intros [=]; subst. cbn [progressPolled snd started flat_map]. by rewrite app_nil_r. }
  destruct (negb (mNegotiating m) && _); [|intros [=]; subst; by rewrite app_nil_r].
  destruct (tryAssignPiece env m) as [[r m1] eff1] eqn:E.
  pose proof (tryAssignPiece_inv _ _ _ _ _ _ _ Hinv E) as Hinv1.
  pose proof (tryAssignPiece_silent _ _ _ _ _ E) as Hs.
  case_match; intros [=]; by subst.
Qed.

(** One message, taken from the live downloaders or not. *)
Lemma delivered_inv env pieces msg live live' m :
  ds_inv pieces live (mDownloadState m) -> delivered msg live live' ->
  ds_inv pieces live' (mDownloadState (handleMessage env msg m).1.2).
Proof.
  intros Hinv Hd. destruct Hd as [pm d l1 l2 Hr|msg live Hn].
  - by eapply pieceUpdate_inv.
  - eapply inv_same; [exact Hinv|]. apply handleMessage_same; [exact (inv_wf _ _ _ Hinv)|done].
Qed.

Lemma exitMessage_inv env pieces msg live live' m m' eff :
  ds_inv pieces live (mDownloadState m) -> delivered msg live live' ->
  exitMessage env msg m = (m', eff) ->
  eff = [] /\ ds_inv pieces live' (mDownloadState m') /\
  (ds_remainingPieces (mDownloadState m) = 0 -> mDownloadState m' = mDownloadState m).
Proof.
  intros Hinv Hd. destruct Hd as [pm d l1 l2 Hr|msg live Hn].
  - cbn [exitMessage]. pose proof (pieceUpdate_inv env _ _ _ _ _ _ Hr Hinv) as Hp.
    assert ((pieceUpdate env pm m).2 = []) as He by done.
    destruct (pieceUpdate env pm m) as [[r m1] eff1]. cbn [fst snd] in *.
    intros [=]; subst. split_and!; [done|done|]. intros Hz.
    destruct (no_remaining_no_live _ _ _ Hinv Hz) as [_ Hl]. by destruct l1.
  - destruct msg as [| |pm| |pools| | | | |]; cbn [exitMessage]; try (by destruct (Hn pm));
      intros [=]; by subst.
Qed.

Lemma step_inv pieces s s' : sys_inv pieces s -> step (D:=D) ok s s' -> sys_inv pieces s'.
Proof.
  intros Hsi Hst. pose proof (si_ds _ _ Hsi) as Hinv. pose proof (si_finished _ _ Hsi) as Hfin.
  destruct Hst as [env s ph m eff Hp Hr E|env s rval np msg live ph m eff Hp Hd E|s rval np Hp Hw
    |env s rval c msg live m eff Hp Hd E|s rval c Hp Hc|s sd Hok|s sd now]; apply advance_inv; try done.
  - eapply loopTop_inv; [exact Hinv|exact E].
  - eapply (loopTop_inv env _ _ _ _ _ _ Hinv E).
  - intros Hin. exfalso. revert Hin. apply not_completed, (loopTop_inv _ _ _ _ _ _ _ Hinv E).
  - by rewrite Hp.
  - revert E. unfold loopMessage. pose proof (delivered_inv env _ _ _ _ _ Hinv Hd) as Hi.
    destruct (handleMessage_silent env msg (sys_m s)) as [_ Hs].
    destruct (handleMessage env msg (sys_m s)) as [[r m1] eff1]. cbn [fst snd] in *.
    intros [=]; subst. rewrite started_app, Hs. destruct r; simpl; by rewrite app_nil_r.
  - revert E. unfold loopMessage. destruct (handleMessage _ _ _) as [[r m1] eff1].
    intros [=]; by subst.
  - intros Hin. exfalso. revert Hin. apply not_completed. revert E. unfold loopMessage.
    destruct (handleMessage_silent env msg (sys_m s)) as [Hs _].
    destruct (handleMessage env msg (sys_m s)) as [[r m1] eff1]. cbn [snd] in Hs.
    intros [=]; subst. rewrite existsb_app, Hs. by destruct r.
  - by rewrite Hp.
  - simpl. by rewrite app_nil_r.
  - by destruct rval.
  - by intros ?%elem_of_nil.
  - by rewrite Hp.
  - destruct (exitMessage_inv _ _ _ _ _ _ _ _ Hinv Hd E) as (-> & Hi & _). simpl. by rewrite app_nil_r.
  - destruct (exitMessage_inv _ _ _ _ _ _ _ _ Hinv Hd E) as (_ & _ & Hz). rewrite Hp in Hfin.
    intros Hf. specialize (Hfin Hf). by rewrite Hz.
  - destruct (exitMessage_inv _ _ _ _ _ _ _ _ Hinv Hd E) as (-> & _ & _). by intros ?%elem_of_nil.
  - by rewrite Hp.
  - assert (started (finalEvents c (sys_m s)) = []) as ->; [|by rewrite app_nil_r].
    unfold finalEvents. by repeat case_match.
  - rewrite Hp in Hfin. exact Hfin.
  - intros Hin. destruct c; [by eexists|]. exfalso. revert Hin. apply not_completed.
    unfold finalEvents. by repeat case_match.
  - by rewrite Hp.
  - simpl. rewrite app_nil_r. eapply inv_same; [exact Hinv|].
    apply insertSection_same, (inv_wf _ _ _ Hinv).
  - by intros ?%elem_of_nil.
  - simpl. rewrite app_nil_r. eapply inv_same; [exact Hinv|].
    by apply same_pieces_fields; [exact (inv_wf _ _ _ Hinv)|..].
  - by intros ?%elem_of_nil.
Qed.

Lemma reachable_inv ds s : download_ok ds -> reachable (D:=D) ok ds s -> sys_inv (all_refs ds) s.
Proof.
  intros Hok. induction 1 as [m E|s s' _ IH Hst]; [|by eapply step_inv].
  revert E. unfold startManager. destruct (checkInit ds); [|done].
  destruct (checkLicense ds); [|done]. simpl. intros [=]; subst.
  split; [by apply start_inv|done|]. intros Hin. exfalso.
  cbn [sys_out startEffects] in Hin. unfold completed_event in Hin. set_solver.
Qed.

(** C1 (conservation): in every state a download can reach, under any order of
    messages, assignments, failures, retries, interruptions and concurrent
    negotiation, whatever sections it adds, the pieces on the unassigned, assigned and downloaded lists are
    together exactly the pieces of the purchase, each once; the counter of
    remaining pieces is the number of pieces not downloaded; and every running
    downloader has its piece on the assigned list. *)
Theorem pieces_conserved ds s :
  download_ok ds -> reachable (D:=D) ok ds s ->
  let ds' := mDownloadState (sys_m s) in
  unassigned_refs ds' ++ map forget (assigned_refs ds') ++ downloaded_refs ds' ≡ₚ all_refs ds /\
  ds_remainingPieces ds' =
    Z.of_nat (length (unassigned_refs ds')) + Z.of_nat (length (assigned_refs ds')) /\
  map dl_ref (sys_live s) ⊆+ assigned_refs ds'.
Proof.
  intros Hok Hr. destruct (reachable_inv _ _ Hok Hr) as [Hinv _ _]. cbv zeta. split_and!.
  - rewrite app_assoc. exact (inv_all _ _ _ Hinv).
  - rewrite (inv_remaining _ _ _ Hinv). unfold open_refs. rewrite length_app, length_map. lia.
  - exact (inv_live _ _ _ Hinv).
Qed.

(** C2 (completion): when the manager has sent the event that the download is
    completed, nothing is unassigned or assigned, no downloader is running, and
    the downloaded pieces are exactly the pieces of the purchase. *)
Theorem completed_has_all ds s :
  download_ok ds -> reachable (D:=D) ok ds s -> completed_event ∈ sys_out s ->
  let ds' := mDownloadState (sys_m s) in
  unassigned_refs ds' = [] /\ assigned_refs ds' = [] /\ sys_live s = [] /\
  downloaded_refs ds' ≡ₚ all_refs ds.
Proof.
  intros Hok Hr Hc. destruct (reachable_inv _ _ Hok Hr) as [Hinv Hf Hcomp]. cbv zeta.
  destruct (Hcomp Hc) as [r Hp]. rewrite Hp in Hf.
  destruct (no_remaining_no_live _ _ _ Hinv (Hf eq_refl)) as [Ho Hl].
  pose proof (inv_all _ _ _ Hinv) as Hall. unfold all_refs at 1 in Hall. rewrite Ho in Hall.
  unfold open_refs in Ho. apply app_eq_nil in Ho as [Hu Ha]. by apply map_eq_nil in Ha.
Qed.

(** A fresh download whose file progress is initialized from seller pools has
    the right counter, no connections, and as its pieces every index of every
    pool's file. *)
Theorem initFileProgress_ok ds stored pools :
  state_wf ds -> all_refs ds = [] -> ds_activeSellers ds = [] ->
  Forall (fun sp => 0 <= sp_pieceCount sp) pools ->
  Z.of_nat (length (flat_map pool_refs pools)) < 2 ^ 32 ->
  let ds' := (initFileProgress (D:=D) stored pools ds).1 in
  download_ok ds' /\ all_refs ds' ≡ₚ flat_map pool_refs pools /\ ds_initialized ds' = true.
Proof.
  intros Hwf Hnone Hact Hcount Hlt. cbv zeta. unfold initFileProgress.
  apply app_eq_nil in Hnone as [Hopen Hdown].
  pose proof (initPools_refs pools ds 0 Hwf Hcount) as Hi.
  destruct (foldl initPool (ds, 0) pools) as [ds1 n] eqn:E.
  destruct Hi as (W & O & Dn & A & N). rewrite Hopen, app_nil_r in O. rewrite Hdown in Dn.
  pose proof (calculate_same (D:=D) ds1 W) as Hs. set (ds2 := (calculate ds1).2) in *.
  assert (n = Z.of_nat (length (flat_map pool_refs pools))) as Hn.
  { pose proof (initPools_range pools ds 0 ds1 n ltac:(lia) E). rewrite !u32_small in N; lia. }
  pose proof (same_open _ _ Hs) as Ho2. destruct Hs as [W2 _ _ D2 _ A2]. cbn [fst].
  split_and!; [split| |done].
  - by destruct W2 as (? & ? & ?).
  - change (n = Z.of_nat (length (open_refs ds2))). by rewrite Ho2, O.
  - simpl. lia.
  - simpl. by rewrite A2, A.
  - change (all_refs ds2 ≡ₚ flat_map pool_refs pools). unfold all_refs.
    rewrite Ho2, O, D2, Dn. by rewrite app_nil_r.
Qed.

(** The flag that pools are being updated is never set, so the test that
    should keep a second pool update from starting never fails for that reason. *)
Theorem pools_updating_never_set ds s :
  reachable (D:=D) ok ds s -> mSellerPoolsUpdating (sys_m s) = false.
Proof.
  induction 1 as [m E|s s' _ IH Hst].
  { revert E. unfold startManager. destruct (checkInit ds), (checkLicense ds); try done.
    by intros [=]; subst. }
  destruct Hst as [env s ph m eff _ _ E|env s rval np msg live ph m eff _ _ E|
    |env s rval c msg live m eff _ _ E| | |]; try exact IH; simpl; revert E.
  - unfold loopTop, tryAssignPiece, shouldAssignPiece, Download.pickSeller, assignPiece.
    repeat case_match; intros; simplify_eq; exact IH.
  - unfold loopMessage. destruct msg; unfold handleMessage, interrupt, pieceUpdate, poolTimeout,
      poolUpdate, negotiationComplete, pauseDownload, progressPolled; repeat case_match;
      intros; simplify_eq; done.
  - destruct msg; unfold exitMessage, pieceUpdate; intros; simplify_eq; done.
Qed.

(** When the temporary path cannot be expanded, the piece has already been
    moved to the assigned list and the seller marked as connected, but no
    downloader is started for it: it stays assigned and is never retried. *)
Theorem assignPiece_strands env cfg m (sd : SellerData T) p rest :
  env_config env = Some cfg -> env_expand env (cfg_temporaryPath cfg) = None ->
  ds_startDate (mDownloadState m) <> "" -> state_wf (mDownloadState m) ->
  fp_unassigned (progress_of (mDownloadState m) (sd_fileId sd)) = p :: rest ->
  let '(r, m', eff) := assignPiece env sd m in
  r = false /\ started eff = [] /\ mPieceDownloaders m' = mPieceDownloaders m /\
  assigned_refs (mDownloadState m') ≡ₚ
    (sd_fileId sd, sd_hash sd, pc_index p) :: assigned_refs (mDownloadState m).
Proof.
  intros Hcfg Hex Hdate Hwf Hu. unfold assignPiece. rewrite Hcfg, Hu.
  apply String.eqb_neq in Hdate. rewrite Hdate. cbn [negb]. rewrite Hex. split_and!; [done..|].
  exact (proj1 (proj2 (proj2 (move_assigned_refs _ _ (sd_hash sd) p p rest Hwf Hu eq_refl)))).
Qed.

(** ** Running the system *)

Definition do_loop (env : Env) s : Sys T :=
  let '(ph, m, eff) := loopTop (D:=D) env (sys_m s) in advance s ph m (sys_live s) eff.

Definition do_message (env : Env) (msg : Msg T) (live : list Downloader) s : Sys T :=
  match sys_phase s with
  | Sleep _ np =>
      let '(ph, m, eff) := loopMessage env np msg (sys_m s) in advance s ph m live eff
  | _ => s
  end.

Lemma do_loop_step env s :
  sys_phase s = Loop -> random_in_range (env_random env) -> step (D:=D) ok s (do_loop env s).
Proof.
  intros Hp Hr. unfold do_loop. destruct (loopTop env (sys_m s)) as [[ph m] eff] eqn:E.
  by eapply step_loop.
Qed.

Lemma do_message_step env msg live s rval np :
  sys_phase s = Sleep rval np -> delivered msg (sys_live s) live ->
  step (D:=D) ok s (do_message env msg live s).
Proof.
  intros Hp Hd. unfold do_message. rewrite Hp.
  destruct (loopMessage env np msg (sys_m s)) as [[ph m] eff] eqn:E. by eapply step_message.
Qed.
End Reachable.

(** * Sellers and connections *)

Section Held.
Context {D T : Type} `{BigDecimal D} `{Scalar T} `{!BigDecimalLaws D}.
Implicit Types (ds : DownloadState T) (m : Manager T) (d : Downloader) (live : list Downloader)
  (s : Sys T) (sd : SellerData T).

(** The sellers negotiated with for a file, by the hash of their section. *)
Definition held ds (f : string) : dmap (SellerData T) := fp_sellerData (progress_of ds f).

(** Every seller is held by the file and under the hash of its section, and
    satisfies [P]. *)
Definition filed (P : SellerData T -> Prop) ds : Prop :=
  forall f h sd, (h, sd) ∈ held ds f -> sd_fileId sd = f /\ sd_hash sd = h /\ P sd.

(** The section of every live downloader is held. *)
Record held_inv (P : SellerData T -> Prop) live ds : Prop := {
  hi_filed : filed P ds;
  hi_live : forall d, d ∈ live -> is_Some (dm_get (held ds (dl_fileId d)) (dl_hash d))
}.

(** Every live downloader has the only connection to its seller. *)
Record conn_inv live ds : Prop := {
  ci_one : forall key n, dm_get (ds_activeSellers ds) key = Some n -> n = 1;
  ci_keys : NoDup (map dl_key live);
  ci_active : forall d, d ∈ live -> dm_get (ds_activeSellers ds) (dl_key d) = Some 1
}.

(** ** Steps that change neither *)

Record same_sellers ds ds' : Prop := {
  ss_held : forall f, held ds' f = held ds f;
  ss_active : ds_activeSellers ds' = ds_activeSellers ds
}.

Lemma same_sellers_refl ds : same_sellers ds ds.
Proof. done. Qed.

Lemma same_sellers_trans ds1 ds2 ds3 :
  same_sellers ds1 ds2 -> same_sellers ds2 ds3 -> same_sellers ds1 ds3.
Proof. intros [? ?] [? ?]. split; congruence. Qed.

Lemma same_sellers_fields ds ds' :
  ds_progress ds' = ds_progress ds -> ds_activeSellers ds' = ds_activeSellers ds ->
  same_sellers ds ds'.
Proof. intros Ep Ea. split; [|done]. intros f. unfold held, progress_of. by rewrite Ep. Qed.

Lemma held_put ds f fp f' :
  held (put_progress f fp ds) f' = if decide (f = f') then fp_sellerData fp else held ds f'.
Proof.
  unfold held, progress_of, dm_get_or. cbn [put_progress ds_progress set_ds_progress].
  case_decide as E; [subst; by rewrite dm_get_set_eq|by rewrite dm_get_set_ne].
Qed.

Lemma put_same_sellers ds f fp :
  fp_sellerData fp = held ds f -> same_sellers ds (put_progress f fp ds).
Proof. intros E. split; [|done]. intros f'. rewrite held_put. case_decide; [by subst|done]. Qed.

Lemma calculate_sellers ds : state_wf ds -> same_sellers ds (calculate (D:=D) ds).2.
Proof.
  intros _. pose proof (calculate_progress (D:=D) ds) as HF.
  destruct (calculate_counters (D:=D) ds) as (_ & Eact & _). split; [|done].
  intros f. unfold held, progress_of, dm_get_or.
  induction HF as [|[k fp] [k' fp'] l l' (E & R & _) _ IH]; [done|].
  cbn [fst snd] in *. subst k'. cbn [dm_get]. case_match; [by rewrite R|done].
Qed.

Lemma storePools_sellers pools ds : same_sellers ds (foldl storePool ds pools).
Proof.
  revert ds. induction pools as [|sp pools IH]; intros ds; [done|].
  eapply same_sellers_trans; [|apply IH]. unfold storePool. by apply put_same_sellers.
Qed.

Lemma unassign_sellers ds : same_sellers ds (unassignPieces ds).
Proof.
  split; [|done]. intros f. unfold held, progress_of, dm_get_or.
  cbn [unassignPieces ds_progress set_ds_progress]. rewrite unassign_get.
  by destruct (dm_get (ds_progress ds) f).
Qed.

Lemma handleMessage_sellers env msg m :
  (forall pm, msg <> MsgPieceUpdate pm) ->
  same_sellers (mDownloadState m) (mDownloadState (handleMessage env msg m).1.2).
Proof.
  intros Hn. destruct msg as [| |pm| |pools| | | | |]; try (by destruct (Hn pm)); cbn [handleMessage].
  all: try (by apply same_sellers_refl).
  - by apply same_sellers_fields.
  - unfold poolTimeout. by repeat case_match.
  - eapply same_sellers_trans; [apply (storePools_sellers pools)|]. by apply same_sellers_fields.
  - unfold negotiationComplete. by case_match.
  - unfold pauseDownload. by case_match.
Qed.

Lemma held_same P live ds ds' :
  (forall f, held ds' f = held ds f) -> held_inv P live ds -> held_inv P live ds'.
Proof.
  intros Eh [Hf Hl]. split.
  - intros f h sd. rewrite Eh. apply Hf.
  - intros d Hd. rewrite Eh. by apply Hl.
Qed.

Lemma conn_same live ds ds' :
  ds_activeSellers ds' = ds_activeSellers ds -> conn_inv live ds -> conn_inv live ds'.
Proof. intros Ea [? ? ?]. split; rewrite ?Ea; done. Qed.

(** ** Adding a section *)

Lemma dm_set_elem {V} (mm : dmap V) k v x : x ∈ dm_set mm k v -> x = (k, v) \/ x ∈ mm.
Proof.
  induction mm as [|[k' v'] mm IH]; cbn [dm_set]; [rewrite list_elem_of_singleton; auto|].
  repeat case_match; rewrite !elem_of_cons; naive_solver.
Qed.

Lemma dm_set_keeps {V} (mm : dmap V) k v k' :
  is_Some (dm_get mm k') -> is_Some (dm_get (dm_set mm k v) k').
Proof.
  destruct (decide (k = k')) as [->|Hne]; [rewrite dm_get_set_eq; by eexists|].
  by rewrite dm_get_set_ne.
Qed.

(** [h] gets an entry that is filed there. *)
Lemma held_add P live ds ds' f h sd :
  (forall f', held ds' f' = if decide (f = f') then dm_set (held ds f) h sd else held ds f') ->
  sd_fileId sd = f -> sd_hash sd = h -> P sd ->
  held_inv P live ds -> held_inv P live ds'.
Proof.
  intros Eh Ef Ehash HP [Hf Hl]. split.
  - intros f' h' x. rewrite Eh. case_decide as E; [|apply Hf].
    intros [[= -> ->]|Hin]%dm_set_elem; [by subst|]. subst f'. by apply Hf.
  - intros d Hd. rewrite Eh. case_decide as E; [|by apply Hl].
    apply dm_set_keeps. rewrite E. by apply Hl.
Qed.

Lemma insertSection_held P live ds sd :
  P sd -> held_inv P live ds -> held_inv P live (insertSection sd ds).
Proof. intros HP. apply (held_add P live ds _ (sd_fileId sd) (sd_hash sd) sd); try done. intros f'. apply held_put. Qed.

(** ** A finished piece *)

Lemma pieceUpdate_active env pm m :
  ds_activeSellers (mDownloadState (pieceUpdate env pm m).1.2) =
  drop_connection (createSellerServerKey (pm_userId pm) (pm_serverId pm))
    (ds_activeSellers (mDownloadState m)).
Proof. unfold pieceUpdate. by destruct (pm_received pm). Qed.

Lemma pieceUpdate_held P env live1 live2 d m pm :
  (forall r sd, P sd -> P (set_rate r sd)) ->
  reports d pm -> held_inv P (live1 ++ d :: live2) (mDownloadState m) ->
  held_inv P (live1 ++ live2) (mDownloadState (pieceUpdate env pm m).1.2).
Proof.
  intros HP (_ & Ef & Eh & _ & _ & _) [Hf Hl]. set (ds := mDownloadState m) in *.
  assert (held_inv P (live1 ++ live2) ds) as Hinv.
  { split; [done|]. intros d' Hd'. apply Hl. rewrite elem_of_app, elem_of_cons.
    apply elem_of_app in Hd'. tauto. }
  destruct (Hl d) as [sd Hsd]; [apply elem_of_app; right; left|]. rewrite <-Ef, <-Eh in Hsd.
  destruct (Hf _ _ _ (dm_get_elem _ _ _ Hsd)) as (Efile & Ehash & HPsd).
  unfold pieceUpdate. fold ds. cbn [fst snd]. destruct (pm_received pm).
  - eapply (held_add P _ ds _ (pm_fileId pm) (pm_hash pm) (set_rate (pm_rate pm) sd));
      [|done|done|by apply HP|exact Hinv].
    intros f'. etrans; [apply held_put|]. case_decide; [|done].
    unfold held, dm_get_or in *. cbn. by rewrite Hsd.
  - eapply held_same; [|exact Hinv]. intros f'. etrans; [apply held_put|].
    case_decide; [by subst|done].
Qed.

Lemma conn_drop live1 live2 d ds ds' :
  conn_inv (live1 ++ d :: live2) ds ->
  ds_activeSellers ds' = drop_connection (dl_key d) (ds_activeSellers ds) ->
  conn_inv (live1 ++ live2) ds'.
Proof.
  intros [Hone Hkeys Hact] E.
  assert (drop_connection (dl_key d) (ds_activeSellers ds) =
    dm_remove (ds_activeSellers ds) (dl_key d)) as Ed.
  { unfold drop_connection. rewrite (Hact d); [done|]. apply elem_of_app. right. left. }
  rewrite Ed in E.
  rewrite <-Permutation_middle in Hkeys. simpl in Hkeys. apply NoDup_cons in Hkeys as [Hd Hkeys].
  split; [|done|]; rewrite E.
  - intros k n. destruct (decide (dl_key d = k)) as [<-|Hk]; [by rewrite dm_get_remove_eq|].
    rewrite dm_get_remove_ne by done. apply Hone.
  - intros d' Hd'. rewrite dm_get_remove_ne.
    + apply Hact. rewrite elem_of_app, elem_of_cons. apply elem_of_app in Hd'. tauto.
    + intros Ek. apply Hd. rewrite Ek. by apply list_elem_of_fmap_2.
Qed.

(** ** An assigned piece *)

Lemma conn_add live ds ds' key :
  conn_inv live ds -> dm_get (ds_activeSellers ds) key = None ->
  ds_activeSellers ds' = add_connection key (ds_activeSellers ds) ->
  conn_inv live ds' /\ forall d, dl_key d = key -> conn_inv (live ++ [d]) ds'.
Proof.
  intros [Hone Hkeys Hact] Hnone E.
  assert (dm_get (ds_activeSellers ds') key = Some 1) as Hnew.
  { rewrite E. unfold add_connection. rewrite dm_get_set_eq. unfold dm_get_or. by rewrite Hnone. }
  assert (forall k, k <> key -> dm_get (ds_activeSellers ds') k = dm_get (ds_activeSellers ds) k)
    as Hold by (intros; rewrite E; by apply dm_get_set_ne).
  assert (forall d, d ∈ live -> dl_key d <> key) as Hne.
  { intros d Hd Ek. specialize (Hact d Hd). rewrite Ek, Hnone in Hact. done. }
  assert (conn_inv live ds') as Hinv.
  { split; [|done|].
    - intros k n. destruct (decide (k = key)) as [->|Hk]; [rewrite Hnew; congruence|].
      rewrite Hold by done. apply Hone.
    - intros d Hd. rewrite Hold by auto. auto. }
  split; [done|]. intros d Hk. destruct Hinv as [Hone' _ Hact'].
  split; [done|rewrite map_app; cbn [map]|].
  - apply NoDup_app. split_and!; [done| |apply NoDup_singleton].
    intros x (d' & -> & Hd')%list_elem_of_fmap. rewrite list_elem_of_singleton, Hk. by apply Hne.
  - intros d' [Hd'|Hd'%list_elem_of_singleton]%elem_of_app; [auto|]. subst d'. by rewrite Hk.
Qed.

(** The downloader that is started is for the file and section of the seller's
    entry, and talks to the seller the section names. *)
Definition started_for sd d : Prop :=
  dl_fileId d = sd_fileId sd /\ dl_hash d = sd_hash sd /\
  (dl_userId d, dl_serverId d) = sd_sectionSeller sd.

Lemma assignPiece_sellers env sd m r m' eff :
  assignPiece env sd m = (r, m', eff) ->
  let ds := mDownloadState m in let ds' := mDownloadState m' in
  (same_sellers ds ds' /\ started eff = []) \/
  (forall f, held ds' f = held ds f) /\
  ds_activeSellers ds' = add_connection (sd_key sd) (ds_activeSellers ds) /\
  (started eff = [] \/ exists d p rest, started eff = [d] /\ started_for sd d /\
     fp_unassigned (progress_of ds (sd_fileId sd)) = p :: rest /\
     pc_index (dl_piece d) = pc_index p).
Proof.
  cbv zeta. unfold assignPiece. set (ds := mDownloadState m).
  destruct (env_config env) as [cfg|]; [|intros [=]; subst; by left].
  destruct (fp_unassigned (progress_of ds (sd_fileId sd))) as [|p rest] eqn:Hu.
  { intros [=]; subst. left. split; [by apply put_same_sellers|done]. }
  assert (exists ds1 rval, (if String.eqb (ds_startDate ds) ""
      then (env_updateFlags env, set_ds_startDate (env_date env) ds) else (true, ds)) = (rval, ds1) /\
    same_sellers ds ds1 /\ ds_progress ds1 = ds_progress ds) as (ds1 & rval & -> & Hs & Ep).
  { case_match; eexists _, _; split_and!; try reflexivity; by apply same_sellers_fields. }
  assert (progress_of ds (sd_fileId sd) = progress_of ds1 (sd_fileId sd)) as Ef
    by (unfold progress_of; by rewrite Ep).
  destruct rval; cbn [negb].
  2:{ intros [=]; subst. left. split; [|done]. eapply same_sellers_trans; [exact Hs|].
      apply put_same_sellers. by rewrite Ef. }
  assert (forall f p', held (put_progress (sd_fileId sd)
    (move_assigned (sd_hash sd) p' rest (progress_of ds (sd_fileId sd))) ds1) f = held ds f) as Hh.
  { intros f p'. rewrite held_put, (ss_held _ _ Hs). case_decide; [by subst|done]. }
  destruct (env_expand env (cfg_temporaryPath cfg)) as [path|].
  2:{ intros [=]; subst. right. split_and!; [intros f; apply Hh| |by left].
      simpl. by rewrite (ss_active _ _ Hs). }
  destruct (env_updateProgress env); cbn [negb]; intros [=]; subst; right;
    (split_and!; [intros f; apply Hh|simpl; by rewrite (ss_active _ _ Hs)|]); [right|by left].
  eexists _, p, rest. split_and!; [done| |done|done]. split_and!; [done..|]. simpl. by destruct (sd_sectionSeller sd).
Qed.

(** ** The steps of the system *)

Inductive sellers_step (ok : DownloadState T -> SellerData T -> Prop) ds live ds' live' : Prop :=
| sellers_same : same_sellers ds ds' -> live' = live -> sellers_step ok ds live ds' live'
| sellers_assigned sd f h :
    (h, sd) ∈ held ds f -> dm_get (ds_activeSellers ds) (sd_key sd) = None ->
    (forall f, held ds' f = held ds f) ->
    ds_activeSellers ds' = add_connection (sd_key sd) (ds_activeSellers ds) ->
    live' = live \/ (exists d, live' = live ++ [d] /\ started_for sd d) ->
    sellers_step ok ds live ds' live'
| sellers_finished env m pm d l1 l2 :
    reports d pm -> live = l1 ++ d :: l2 -> live' = l1 ++ l2 -> ds = mDownloadState m ->
    ds' = mDownloadState (pieceUpdate env pm m).1.2 -> sellers_step ok ds live ds' live'
| sellers_negotiated sd :
    ok ds sd -> ds' = insertSection sd ds -> live' = live -> sellers_step ok ds live ds' live'.

Lemma held_elem ds f fp sd :
  state_wf ds -> (f, fp) ∈ ds_progress ds -> sd ∈ dm_values (fp_sellerData fp) ->
  progress_of ds f = fp /\ exists h, (h, sd) ∈ held ds f.
Proof.
  intros (Hp & _) Hf ([h x] & -> & Hh)%list_elem_of_fmap. pose proof (dm_elem_get _ _ _ Hp Hf) as Hg.
  assert (progress_of ds f = fp) as E by (unfold progress_of, dm_get_or; by rewrite Hg).
  split; [done|]. exists h. unfold held. by rewrite E.
Qed.

Lemma tryAssignPiece_sellers ok env m r m' eff live :
  state_wf (mDownloadState m) -> tryAssignPiece (D:=D) env m = (r, m', eff) ->
  sellers_step ok (mDownloadState m) live (mDownloadState m') (live ++ started eff).
Proof.
  intros Hwf Ht. pose proof (calculate_sellers _ Hwf) as Hc.
  pose proof (sp_wf _ _ (calculate_same (D:=D) _ Hwf)) as Hwf'.
  destruct (tryAssignPiece_cases _ _ _ _ _ Ht)
    as [[-> [-> | ->]]|(f & fp & sd & m1 & Hf & _ & Hsd & Hel & Em & Ha)].
  - rewrite app_nil_r. by apply sellers_same.
  - rewrite app_nil_r. by apply sellers_same.
  - destruct (held_elem _ _ _ _ Hwf' Hf Hsd) as (_ & h & Hh). rewrite (ss_held _ _ Hc) in Hh.
    apply eligible_inactive in Hel. rewrite (ss_active _ _ Hc) in Hel.
    apply assignPiece_sellers in Ha as [[Hs ->]|(Hs & Eact & Hst)]; rewrite Em in *.
    + rewrite app_nil_r. apply sellers_same; [by eapply same_sellers_trans|done].
    + eapply sellers_assigned; [exact Hh|exact Hel| | |].
      * intros f'. by rewrite Hs, (ss_held _ _ Hc).
      * by rewrite Eact, (ss_active _ _ Hc).
      * destruct Hst as [->|(d & _ & _ & -> & Hd & _)]; [left; by rewrite app_nil_r|right; by exists d].
Qed.

Lemma handleMessage_sellers_step ok env msg live live' m :
  delivered msg live live' ->
  sellers_step ok (mDownloadState m) live (mDownloadState (handleMessage env msg m).1.2) live'.
Proof.
  intros [pm d l1 l2 Hr|msg' live1 Hn]; [by eapply (sellers_finished _ _ _ _ _ env m pm d)|].
  by apply sellers_same; [apply handleMessage_sellers|].
Qed.

Lemma exitMessage_sellers_step ok env msg live live' m m' eff :
  delivered msg live live' -> exitMessage env msg m = (m', eff) ->
  started eff = [] /\ sellers_step ok (mDownloadState m) live (mDownloadState m') live'.
Proof.
  intros [pm d l1 l2 Hr|msg' live1 Hn].
  - cbn [exitMessage]. intros Hp. split; [by revert Hp; unfold pieceUpdate; intros [=]; subst|].
    eapply (sellers_finished _ _ _ _ _ env m pm d); try done.
    by destruct (pieceUpdate env pm m) as [[r m1] eff1]; injection Hp as <- _.
  - destruct msg' as [| |pm| |pools| | | | |]; try (by destruct (Hn pm)); cbn [exitMessage];
      intros [=]; subst; (split; [done|by apply sellers_same]).
Qed.

Lemma step_sellers ok pieces s s' :
  sys_inv pieces s -> step (D:=D) ok s s' ->
  sellers_step ok (mDownloadState (sys_m s)) (sys_live s) (mDownloadState (sys_m s')) (sys_live s').
Proof.
  intros [Hinv _ _] Hst. pose proof (inv_wf _ _ _ Hinv) as Hwf.
  destruct Hst as [env s ph m eff _ _ E|env s rval np msg live ph m eff _ Hd E|s rval np _ _
    |env s rval c msg live m eff _ Hd E|s rval c _ _|s sd Hok|s sd now]; cbn [advance sys_m sys_live].
  - revert E. unfold loopTop. case_match; [intros [=]; subst; rewrite app_nil_r; by apply sellers_same|].
    case_match; [intros [=]; subst; simpl; rewrite app_nil_r; by apply sellers_same|].
    case_match; [|intros [=]; subst; rewrite app_nil_r; by apply sellers_same].
    destruct (tryAssignPiece env (sys_m s)) as [[r m1] eff1] eqn:E.
    pose proof (tryAssignPiece_sellers ok _ _ _ _ _ (sys_live s) Hwf E).
    case_match; intros [=]; by subst.
  - revert E. unfold loopMessage. pose proof (handleMessage_sellers_step ok env _ _ _ (sys_m s) Hd) as Hs.
    destruct (handleMessage_silent env msg (sys_m s)) as [_ He].
    destruct (handleMessage env msg (sys_m s)) as [[r m1] eff1]. cbn [fst snd] in *.
    intros [=]; subst. rewrite started_app, He. destruct r; simpl; by rewrite app_nil_r.
  - rewrite app_nil_r. by apply sellers_same.
  - destruct (exitMessage_sellers_step ok _ _ _ _ _ _ _ Hd E) as [-> Hs]. by rewrite app_nil_r.
  - apply sellers_same; [done|]. unfold finalEvents. by repeat case_match; rewrite app_nil_r.
  - rewrite app_nil_r. by apply (sellers_negotiated _ _ _ _ _ sd).
  - rewrite app_nil_r. apply sellers_same; [by apply same_sellers_fields|done].
Qed.

Section Preserved.
Context (P : SellerData T -> Prop) (P_rate : forall r sd, P sd -> P (set_rate r sd)).
Context (ok : DownloadState T -> SellerData T -> Prop) (ok_P : forall ds sd, ok ds sd -> P sd).

Lemma sellers_step_held ds live ds' live' :
  sellers_step ok ds live ds' live' -> held_inv P live ds -> held_inv P live' ds'.
Proof.
  intros [[Hs _] El|sd f h Hin _ Eh _ Hl|env m pm d l1 l2 Hr -> -> -> ->|sd Hok -> ->] Hinv.
  - subst. by eapply held_same.
  - apply (held_same _ _ _ _ Eh) in Hinv as [Hf Hd].
    destruct Hl as [->|(d & -> & Ef & Ehash & _)]; [done|]. split; [done|].
    intros d' [?|Ed%list_elem_of_singleton]%elem_of_app; [by apply Hd|subst d'].
    rewrite <-Eh in Hin. destruct (Hf _ _ _ Hin) as (E1 & E2 & _). rewrite Ef, Ehash, E1, E2.
    apply not_eq_None_Some. rewrite dm_get_None. intros Hn. apply Hn.
    by apply (list_elem_of_fmap_2 fst _ (h, sd)).
  - by eapply pieceUpdate_held.
  - apply insertSection_held; [by eapply ok_P|done].
Qed.

Lemma reachable_held ds s :
  download_ok ds -> filed P ds -> reachable (D:=D) ok ds s ->
  held_inv P (sys_live s) (mDownloadState (sys_m s)).
Proof.
  intros Hok Hf. induction 1 as [m E|s s' Hr IH Hst].
  - revert E. unfold startManager. destruct (checkInit ds), (checkLicense ds); try done.
    intros [=]; subst. eapply held_same; [apply unassign_sellers|]. split; [done|].
    by intros d ?%elem_of_nil.
  - eapply sellers_step_held; [|exact IH].
    eapply step_sellers; [|exact Hst]. by eapply reachable_inv.
Qed.
End Preserved.

(** The section names the seller the entry is for. *)
Definition names_seller sd : Prop := sd_sectionSeller sd = (sd_userId sd, sd_serverId sd).

Lemma sellers_step_conn ds live ds' live' :
  sellers_step (fun _ => names_seller) ds live ds' live' -> held_inv names_seller live ds ->
  conn_inv live ds -> conn_inv live' ds'.
Proof.
  intros [[_ Hs] El|sd f h Hin Hnone _ Ea Hl|env m pm d l1 l2 Hr -> -> -> ->|sd _ -> ->] [Hf _] Hinv.
  - subst. by eapply conn_same.
  - destruct (conn_add _ _ _ _ Hinv Hnone Ea) as [Hc Hnew].
    destruct Hl as [->|(d & -> & _ & _ & Hd)]; [done|]. apply Hnew.
    destruct (Hf _ _ _ Hin) as (_ & _ & Hn). unfold names_seller in Hn. rewrite Hn in Hd.
    injection Hd as Eu Es. unfold dl_key, sd_key. by rewrite Eu, Es.
  - eapply conn_drop; [exact Hinv|]. rewrite pieceUpdate_active.
    destruct Hr as (_ & _ & _ & Eu & Es & _). by rewrite Eu, Es.
  - by eapply conn_same; [|exact Hinv].
Qed.

Lemma reachable_conn ds s :
  download_ok ds -> filed names_seller ds -> reachable (D:=D) (fun _ => names_seller) ds s ->
  conn_inv (sys_live s) (mDownloadState (sys_m s)).
Proof.
  intros Hok Hf. induction 1 as [m E|s s' Hr IH Hst].
  - revert E. unfold startManager. destruct (checkInit ds), (checkLicense ds); try done.
    intros [=]; subst. destruct Hok as [_ _ _ Hact].
    split; cbn; rewrite ?Hact; [done|apply NoDup_nil_2|by intros d ?%elem_of_nil].
  - eapply sellers_step_conn; [eapply step_sellers; [|exact Hst]; by eapply reachable_inv| |exact IH].
    by eapply (reachable_held names_seller); [..|exact Hr].
Qed.

Lemma filed_weaken P ds : filed P ds -> filed (fun _ => True) ds.
Proof. intros Hf f h sd (? & ? & _)%Hf. done. Qed.

(** C33 (connections): in a download whose negotiated contract sections each name
    the seller that was asked, the manager has at any time at most one
    connection to a seller, and the running downloaders talk to distinct
    sellers, each marked as active. *)
Theorem one_connection_per_seller ds s :
  download_ok ds -> filed names_seller ds -> reachable (D:=D) (fun _ => names_seller) ds s ->
  let ds' := mDownloadState (sys_m s) in
  (forall key n, dm_get (ds_activeSellers ds') key = Some n -> n = 1) /\
  NoDup (map dl_key (sys_live s)) /\
  (forall d, d ∈ sys_live s -> dm_get (ds_activeSellers ds') (dl_key d) = Some 1).
Proof. intros Hok Hf Hr. by destruct (reachable_conn _ _ Hok Hf Hr) as [? ? ?]. Qed.

(** C32 (budget): whatever sections are negotiated, a downloader that is started in
    a reachable state is for the first unassigned piece of one of the purchase's
    files and for a section negotiated for that file; the price of the seller it
    was negotiated with is within the budget just calculated for the file, and
    that seller is neither blacklisted nor connected.  The downloader talks to
    the seller the section names. *)
Theorem tryAssignPiece_within_budget ok ds s env r m' eff d :
  download_ok ds -> filed (fun _ => True) ds -> reachable (D:=D) ok ds s ->
  tryAssignPiece (D:=D) env (sys_m s) = (r, m', eff) -> StartDownloader d ∈ eff ->
  let ds' := (calculate (D:=D) (mDownloadState (sys_m s))).2 in
  exists fp sd p rest,
    dm_get (ds_progress ds') (dl_fileId d) = Some fp /\ (dl_hash d, sd) ∈ fp_sellerData fp /\
    fp_unassigned fp = p :: rest /\ pc_index (dl_piece d) = pc_index p /\
    bd_leb (bd_of_string (sd_price sd) : D) (bd_of_string (fp_budget fp)) = true /\
    dm_get (ds_blacklist ds') (sd_key sd) = None /\
    dm_get (ds_activeSellers ds') (sd_key sd) = None /\
    (dl_userId d, dl_serverId d) = sd_sectionSeller sd.
Proof.
  intros Hok Hf Hr Ht Hin. cbv zeta. set (ds' := (calculate _).2).
  pose proof (si_ds _ _ (reachable_inv _ _ _ Hok Hr)) as Hinv.
  pose proof (calculate_sellers _ (inv_wf _ _ _ Hinv)) as Hc.
  pose proof (sp_wf _ _ (calculate_same (D:=D) _ (inv_wf _ _ _ Hinv))) as Hwf.
  assert (held_inv (fun _ => True) (sys_live s) (mDownloadState (sys_m s))) as [Hfiled _]
    by (by eapply (reachable_held (fun _ => True)); [..|exact Hr]).
  assert (d ∈ started eff) as Hd.
  { apply list_elem_of_In, in_flat_map. exists (StartDownloader d). split; [|by left].
    by apply list_elem_of_In. }
  destruct (tryAssignPiece_cases _ _ _ _ _ Ht)
    as [[E _]|(f & fp & sd & m1 & Hfp & _ & Hsd & Hel & Em & Ha)];
    [rewrite E in Hd; by apply elem_of_nil in Hd|]. fold ds' in Hfp, Hel, Em.
  destruct (held_elem _ _ _ _ Hwf Hfp Hsd) as (Efp & h & Hh). fold ds' in Efp, Hh.
  pose proof Hh as Hh'. rewrite (ss_held _ _ Hc) in Hh'. apply Hfiled in Hh' as (Ef & Eh & _).
  apply assignPiece_sellers in Ha as [[_ E]|(_ & _ & [E|(d' & p & rest & E & Hst & Hu & Hp)])];
    rewrite E in Hd; try by apply elem_of_nil in Hd.
  apply list_elem_of_singleton in Hd as ->. destruct Hst as (E1 & E2 & E3).
  rewrite Em, Ef, Efp in Hu. unfold eligible in Hel. rewrite !andb_true_iff, !negb_true_iff in Hel.
  destruct Hel as [[[_ Hb%dm_has_false] Hact%dm_has_false] Hle].
  exists fp, sd, p, rest. split_and!; try done.
  - rewrite E1, Ef. destruct Hwf as (Hpw & _). by apply dm_elem_get.
  - rewrite E2, Eh. unfold held in Hh. by rewrite Efp in Hh.
Qed.
End Held.

(** * The negotiator as part of the system *)

Section Negotiation.
Context {D T PrivateKey PublicKey : Type} `{BigDecimal D} `{Scalar T} `{!BigDecimalLaws D}
  `{SignatureLaws PrivateKey PublicKey}.
Implicit Types (ds : DownloadState T) (s : Sys T).

(** The system with another download state. *)
Definition with_ds ds s : Sys T :=
  {| sys_m := with_state ds (sys_m s); sys_phase := sys_phase s; sys_live := sys_live s;
     sys_out := sys_out s |}.

Lemma advance_with_ds ds s :
  advance s (sys_phase s) (with_state ds (sys_m s)) (sys_live s) [] = with_ds ds s.
Proof. unfold advance, with_ds. simpl. by rewrite !app_nil_r. Qed.

(** Every file's progress and pool carry the id the file is kept under. *)
Definition named ds : Prop :=
  dm_wf (ds_progress ds) /\
  forall f fp, dm_get (ds_progress ds) f = Some fp -> fp_fileId fp = f /\ sp_fileId (fp_pool fp) = f.

(** What the negotiator promises of a section it adds: its file has unassigned
    pieces, its seller is one of the file's pool, not blacklisted and not yet
    negotiated with for the file, and the price is within the file's budget. *)
Definition agreed ds (sd : SellerData T) : Prop :=
  let fp := progress_of ds (sd_fileId sd) in
  fp_unassigned fp <> [] /\
  (exists sd0, sd0 ∈ sp_sellers (fp_pool fp) /\ sd_key sd0 = sd_key sd) /\
  dm_get (ds_blacklist ds) (sd_key sd) = None /\ dm_get (fp_sellers fp) (sd_key sd) = None /\
  bd_leb (bd_of_string (sd_price sd) : D) (bd_of_string (fp_budget fp)) = true.

Lemma pickFiles_elem ds e :
  e ∈ pickFiles ds -> e ∈ ds_progress ds /\ fp_unassigned e.2 <> [].
Proof.
  destruct (pickFiles_sorted ds) as [_ ->]. intros [Hn ?]%list_elem_of_filter. split; [done|].
  unfold needs_seller in Hn. intros E. rewrite E in Hn. simpl in Hn. lia.
Qed.

Lemma blacklisted_steps ok s ds ds' :
  blacklisted ds ds' -> rtc (step (D:=D) ok) (with_ds ds s) (with_ds ds' s).
Proof.
  induction 1 as [|ds ? ds' (sd & now & ->) _ IH]; [done|]. eapply rtc_l; [|exact IH].
  pose proof (step_blacklisted (D:=D) ok (with_ds ds s) sd now) as Hst.
  by rewrite advance_with_ds in Hst.
Qed.

Lemma asked_steps s ds f fp (o : Outcome) :
  named ds -> dm_get (ds_progress ds) f = Some fp -> fp_unassigned fp <> [] ->
  asked (D:=D) ds (fp_pool fp) o ->
  rtc (step (D:=D) agreed) (with_ds ds s) (with_ds (no_state o) s).
Proof.
  intros [_ Hn] Hf Hu. destruct (Hn _ _ Hf) as [Eid Esp].
  assert (progress_of ds f = fp) as Efp by (unfold progress_of, dm_get_or; by rewrite Hf).
  destruct 1 as [_ _ _ Hb _|_ _ _ Hb|ds1 sd sd' Hb Hin -> Hk Hid Hp _ _];
    [by apply blacklisted_steps..|].
  eapply rtc_r; [by apply blacklisted_steps|]. rewrite Esp, Efp, Eid in Hid.
  destruct (blacklisted_frame _ _ Hb) as [bl ->]. unfold candidates in Hin.
  rewrite Esp in Hin. change (progress_of (set_ds_blacklist bl ds)) with (progress_of ds) in Hin.
  rewrite Efp in Hin. apply list_elem_of_filter in Hin as [Hneg Hin]. unfold negotiable in Hneg.
  rewrite !andb_true_iff, !negb_true_iff, !dm_has_false in Hneg. destruct Hneg as [[[_ Hbl] Hs] _].
  assert (agreed (set_ds_blacklist bl ds) sd') as Hag.
  { unfold agreed. change (progress_of (set_ds_blacklist bl ds)) with (progress_of ds).
    rewrite Hid, Efp in *. rewrite Hk. split_and!; try done. by exists sd. }
  pose proof (step_negotiated (D:=D) agreed (with_ds (set_ds_blacklist bl ds) s) sd' Hag) as Hst.
  by rewrite advance_with_ds in Hst.
Qed.

(** C40 (refinement): a complete run of the negotiator, from its choice of files to
    its report, is a sequence of steps of the system in which sellers are
    blacklisted and a section is added only if its file has unassigned pieces,
    its seller is one of the file's pool that is neither blacklisted nor
    negotiated with for the file, and its price is within the file's budget;
    nothing else of the download changes. *)
Theorem negotiator_refines s must (att : nat -> NegEnv) msg o :
  named (mDownloadState (sys_m s)) -> (forall n, random_in_range (ne_random (att n))) ->
  processMessages (D:=D) (PublicKey:=PublicKey) must att (mDownloadState (sys_m s)) =
    Some (msg, o) ->
  rtc (step (D:=D) agreed) s (with_ds (no_state o) s).
Proof.
  intros Hn Hr. unfold processMessages. set (ds := mDownloadState (sys_m s)) in *.
  destruct (fileLoop_asked (D:=D) (PublicKey:=PublicKey) att (pickFiles ds) 0 ds Hr)
    as (o' & -> & Ho).
  intros [= _ <-]. replace s with (with_ds ds s) at 1 by (by destruct s as [[]]).
  destruct (no_found o' || no_error o'); [|by apply blacklisted_steps, Ho].
  destruct Ho as ([f fp] & ds0 & He & Hb & Ha). etrans; [by apply blacklisted_steps|].
  destruct (pickFiles_elem _ _ He) as [Hf Hu]. cbn [snd] in *.
  destruct (blacklisted_frame _ _ Hb) as [bl ->].
  eapply (asked_steps _ (set_ds_blacklist bl ds) f fp); [exact Hn| |exact Hu|exact Ha].
  by apply dm_elem_get; [apply Hn|].
Qed.
End Negotiation.

(** * A complete run *)

Import Exact Sealed.

(** A file of one piece and one negotiated seller. *)
Definition tiny_seller : SellerData Z :=
  {| sd_userId := 900; sd_serverId := 1; sd_price := "100"; sd_downloadRate := None;
     sd_hash := "h"; sd_fileId := "f"; sd_sectionSeller := (900, 1) |}.

Definition tiny_pool : SellerPool Z :=
  {| sp_fileId := "f"; sp_mediaId := 1; sp_contentSize := 900; sp_extension := "mp3";
     sp_pieceSize := 1000; sp_pieceCount := 1; sp_bfpId := 1; sp_minPrice := "100";
     sp_medPrice := "100"; sp_maxPrice := "100"; sp_sellers := [] |}.

Definition tiny_empty : DownloadState Z :=
  {| ds_id := 7; ds_userId := 901; ds_maxPrice := "50000000"; ds_fast := false;
     ds_sellerLimit := 5; ds_licenseAmount := "10000000"; ds_piecePayees := None;
     ds_progress := []; ds_remainingPieces := 0; ds_totalPieceCount := 0;
     ds_totalMicroPaymentCost := ""; ds_totalMinPrice := ""; ds_totalMedPrice := "";
     ds_totalMaxPrice := ""; ds_initialized := false; ds_licenseAcquired := true;
     ds_downloadPaused := false; ds_deleting := false; ds_startDate := "2010-01-01 00:00:00";
     ds_activeSellers := []; ds_blacklist := [] |}.

(** The download after initialization and negotiation. *)
Definition tiny_download : DownloadState Z :=
  Eval vm_compute in insertSection tiny_seller (initFileProgress (D:=Q) true [tiny_pool] tiny_empty).1.

Definition tiny_env : Env :=
  {| env_config := Some {| cfg_maxPieces := 0; cfg_maxExcessBandwidth := 0;
                           cfg_temporaryPath := "/tmp"; cfg_sellerPoolTimeout := None |};
     env_rate := 0; env_rateLimit := 0; env_random := fun lo _ => lo; env_updateFlags := true;
     env_updateProgress := true; env_expand := Some; env_join := fun a b => a +:+ "/" +:+ b;
     env_date := "2010-01-01 00:00:00"; env_now := 0 |}.

Lemma tiny_random : random_in_range (env_random tiny_env).
Proof. intros lo hi. simpl. lia. Qed.

Definition tiny_start : Sys Z :=
  {| sys_m := {| mDownloadState := unassignPieces tiny_download; mSellerPoolsInitializing := true;
                 mNegotiating := false; mSellerPoolsUpdating := false;
                 mAssignOptionalPiece := false; mInterrupted := false; mPieceDownloaderId := 0;
                 mPieceDownloaders := [] |};
     sys_phase := Loop; sys_live := []; sys_out := startEffects |}.

Definition wake (ph : Phase) (s : Sys Z) : Sys Z := advance s ph (sys_m s) (sys_live s) [].

(** The pools could not be refreshed, the piece is assigned, ... *)
Definition tiny_waiting : Sys Z := Eval vm_compute in do_loop (D:=Q) tiny_env tiny_start.
Definition tiny_refreshed : Sys Z :=
  Eval vm_compute in do_message tiny_env MsgPoolError [] tiny_waiting.
Definition tiny_assigned : Sys Z :=
  Eval vm_compute in do_loop (D:=Q) tiny_env (wake Loop tiny_refreshed).

Definition tiny_message : PieceMsg Z :=
  {| pm_received := true; pm_id := 1; pm_fileId := "f"; pm_hash := "h"; pm_userId := 900;
     pm_serverId := 1; pm_piece := {| pc_index := 0; pc_size := 900; pc_bfpId := 1; pc_path := "p" |};
     pm_rate := 500 |}.

(** ... received, and the manager returns. *)
Definition tiny_received : Sys Z :=
  Eval vm_compute in do_message tiny_env (MsgPieceUpdate tiny_message) [] tiny_assigned.
Definition tiny_exiting : Sys Z :=
  Eval vm_compute in do_loop (D:=Q) tiny_env (wake Loop tiny_received).
Definition tiny_end : Sys Z :=
  advance tiny_exiting (Returned true true) (sys_m tiny_exiting) (sys_live tiny_exiting)
    (finalEvents true (sys_m tiny_exiting)).

Lemma tiny_ok : download_ok tiny_download.
Proof.
  split; [|reflexivity|reflexivity|reflexivity].
  split_and!; [repeat constructor|constructor|]. intros f fp Hf%dm_get_elem.
  apply list_elem_of_singleton in Hf. injection Hf as -> ->. split; repeat constructor.
Qed.

Lemma tiny_steps :
  tiny_waiting = do_loop (D:=Q) tiny_env tiny_start /\
  tiny_refreshed = do_message tiny_env MsgPoolError [] tiny_waiting /\
  tiny_assigned = do_loop (D:=Q) tiny_env (wake Loop tiny_refreshed) /\
  tiny_received = do_message tiny_env (MsgPieceUpdate tiny_message) [] tiny_assigned /\
  tiny_exiting = do_loop (D:=Q) tiny_env (wake Loop tiny_received).
Proof. split_and!; vm_compute; reflexivity. Qed.

Lemma tiny_assigned_reachable : reachable (D:=Q) (fun _ => names_seller) tiny_download tiny_assigned.
Proof.
  destruct tiny_steps as (E1 & E2 & E3 & _ & _). rewrite E3.
  eapply reachable_step; [|apply do_loop_step; [reflexivity|exact tiny_random]].
  eapply reachable_step; [|apply (step_wake _ tiny_refreshed true true); [reflexivity|by right]].
  rewrite E2.
  eapply reachable_step; [|apply (do_message_step _ _ _ _ tiny_waiting true false); [reflexivity|by apply delivered_other]].
  rewrite E1. eapply reachable_step; [|apply do_loop_step; [reflexivity|exact tiny_random]].
  apply reachable_start. vm_compute. reflexivity.
Qed.

Lemma tiny_end_reachable : reachable (D:=Q) (fun _ => names_seller) tiny_download tiny_end.
Proof.
  destruct tiny_steps as (_ & _ & _ & E4 & E5).
  eapply reachable_step; [|eapply step_return; reflexivity]. rewrite E5.
  eapply reachable_step; [|apply do_loop_step; [reflexivity|exact tiny_random]].
  eapply reachable_step; [|apply (step_wake _ tiny_received true true); [reflexivity|by right]].
  rewrite E4.
  eapply reachable_step; [exact tiny_assigned_reachable|].
  apply (do_message_step _ _ _ _ tiny_assigned true false); [reflexivity|]. by apply (delivered_piece tiny_message _ [] []).
Qed.

Lemma tiny_filed : filed names_seller tiny_download.
Proof.
  intros f h sd. unfold held, progress_of, dm_get_or. cbn [tiny_download ds_progress dm_get].
  case_match eqn:E; [|by intros ?%elem_of_nil]. apply String.eqb_eq in E as ->.
  cbn [default fp_sellerData]. intros [= -> ->]%list_elem_of_singleton. done.
Qed.

Lemma tiny_empty_wf : state_wf tiny_empty.
Proof. split_and!; [constructor|constructor|]. by intros f fp. Qed.

Lemma pieces_conserved_witness :
  let ds' := mDownloadState (sys_m tiny_assigned) in
  ds_remainingPieces ds' =
    Z.of_nat (length (unassigned_refs ds')) + Z.of_nat (length (assigned_refs ds')).
Proof.
  apply (pieces_conserved _ tiny_download tiny_assigned tiny_ok tiny_assigned_reachable).
Defined.

Lemma completed_has_all_witness :
  downloaded_refs (mDownloadState (sys_m tiny_end)) ≡ₚ all_refs tiny_download.
Proof.
  apply (completed_has_all _ tiny_download tiny_end tiny_ok tiny_end_reachable).
  apply elem_of_app. right. right. left.
Defined.

Lemma one_connection_per_seller_witness :
  NoDup (map dl_key (sys_live tiny_assigned)).
Proof.
  apply (one_connection_per_seller tiny_download tiny_assigned tiny_ok tiny_filed
    tiny_assigned_reachable).
Defined.

Lemma initFileProgress_ok_witness :
  download_ok (initFileProgress (D:=Q) true [tiny_pool] tiny_empty).1.
Proof.
  apply (initFileProgress_ok (D:=Q) tiny_empty true [tiny_pool] tiny_empty_wf eq_refl eq_refl).
  - by repeat constructor.
  - vm_compute. reflexivity.
Defined.

Definition tiny_ready : Manager Z := sys_m tiny_refreshed.

Lemma tiny_refreshed_reachable :
  reachable (D:=Q) (fun _ => names_seller) tiny_download tiny_refreshed.
Proof.
  destruct tiny_steps as (E1 & E2 & _). rewrite E2.
  eapply reachable_step; [|apply (do_message_step _ _ _ _ tiny_waiting true false); [reflexivity|by apply delivered_other]].
  rewrite E1. eapply reachable_step; [|apply do_loop_step; [reflexivity|exact tiny_random]].
  apply reachable_start. vm_compute. reflexivity.
Qed.

Lemma tryAssignPiece_within_budget_witness :
  exists d fp (sd : SellerData Z),
    StartDownloader d ∈ (tryAssignPiece (D:=Q) tiny_env tiny_ready).2 /\
    dm_get (ds_progress (calculate (D:=Q) (mDownloadState tiny_ready)).2) (dl_fileId d) = Some fp /\
    bd_leb (bd_of_string (sd_price sd) : Q) (bd_of_string (fp_budget fp)) = true.
Proof.
  destruct (tryAssignPiece (D:=Q) tiny_env tiny_ready) as [[r m'] eff] eqn:E.
  assert (exists d rest, eff = StartDownloader d :: rest) as (d & rest & ->).
  { vm_compute in E. injection E as _ _ <-. eauto. }
  destruct (tryAssignPiece_within_budget (D:=Q) (fun _ => names_seller) tiny_download tiny_refreshed
    tiny_env r m' _ d tiny_ok (filed_weaken _ _ tiny_filed) tiny_refreshed_reachable E ltac:(left))
    as (fp & sd & p & rest' & Hf & _ & _ & _ & Hp & _).
  exists d, fp, sd. split; [left|]. split; [exact Hf|exact Hp].
Defined.

(** A seller that returns a section naming another one keeps its connection when
    the piece has arrived, and gets no further piece. *)
Definition posing_seller : SellerData Z :=
  {| sd_userId := 900; sd_serverId := 1; sd_price := "100"; sd_downloadRate := None;
     sd_hash := "h"; sd_fileId := "f"; sd_sectionSeller := (902, 1) |}.

Definition posing_ready : Manager Z :=
  with_state (insertSection posing_seller (mDownloadState tiny_ready)) tiny_ready.

Definition posing_assigned : bool * Manager Z * list Effect :=
  Eval vm_compute in tryAssignPiece (D:=Q) tiny_env posing_ready.

Lemma connection_leaks :
  let '(_, m', eff) := posing_assigned in
  tryAssignPiece (D:=Q) tiny_env posing_ready = posing_assigned /\
  exists d, started eff = [d] /\ (dl_userId d, dl_serverId d) = (902, 1) /\
  forall pm, reports d pm ->
    dm_get (ds_activeSellers (mDownloadState (pieceUpdate tiny_env pm m').1.2)) "900:1" = Some 1.
Proof.
  unfold posing_assigned. split; [vm_compute; reflexivity|]. eexists. split_and!; [reflexivity..|].
  intros pm (_ & _ & _ & Eu & Es & _). rewrite pieceUpdate_active, Eu, Es. reflexivity.
Qed.

Lemma pools_updating_never_set_witness : mSellerPoolsUpdating (sys_m tiny_end) = false.
Proof. exact (pools_updating_never_set (D:=Q) _ tiny_download tiny_end tiny_end_reachable). Defined.

(** The same node, unable to expand paths. *)
Definition tiny_bad_env : Env :=
  {| env_config := env_config tiny_env; env_rate := 0; env_rateLimit := 0;
     env_random := env_random tiny_env; env_updateFlags := true; env_updateProgress := true;
     env_expand := fun _ => None; env_join := env_join tiny_env; env_date := ""; env_now := 0 |}.

Lemma assignPiece_strands_witness :
  let '(r, m', eff) := assignPiece tiny_bad_env tiny_seller tiny_ready in
  r = false /\ started eff = [] /\ mPieceDownloaders m' = mPieceDownloaders tiny_ready /\
  assigned_refs (mDownloadState m') ≡ₚ
    ("f", "h", 0) :: assigned_refs (mDownloadState tiny_ready).
Proof.
  refine (assignPiece_strands tiny_bad_env _ tiny_ready tiny_seller
    {| pc_index := 0; pc_size := 1000; pc_bfpId := 1; pc_path := "" |} [] eq_refl eq_refl _ _ _).
  - discriminate.
  - exact (unassign_wf _ (ok_wf _ tiny_ok)).
  - reflexivity.
Defined.

(** The manager of the sample market, waiting for its negotiator. *)
Definition market : Sys Z :=
  {| sys_m := {| mDownloadState := sample_market; mSellerPoolsInitializing := false;
                 mNegotiating := true; mSellerPoolsUpdating := false;
                 mAssignOptionalPiece := false; mInterrupted := false; mPieceDownloaderId := 0;
                 mPieceDownloaders := [] |};
     sys_phase := Sleep true false; sys_live := []; sys_out := [] |}.

Lemma market_named : named (mDownloadState (sys_m market)).
Proof.
  split; [repeat constructor|]. intros f fp Hf%dm_get_elem.
  apply list_elem_of_singleton in Hf. injection Hf as -> ->. done.
Qed.

Lemma negotiator_refines_witness :
  exists ds, sd_price <$> dm_get (fp_sellerData (progress_of ds "f")) "h2" = Some "0" /\
             rtc (step (D:=Q) (agreed (D:=Q))) market (with_ds ds market).
Proof.
  destruct (processMessages (D:=Q) (PublicKey:=string) true sample_attempt sample_market)
    as [[msg o]|] eqn:E; [|vm_compute in E; discriminate E].
  exists (no_state o). split.
  - vm_compute in E. injection E as _ <-. vm_compute. reflexivity.
  - apply (negotiator_refines (D:=Q) (PublicKey:=string) market true sample_attempt msg o);
      [exact market_named|intros n lo hi; simpl; lia|exact E].
Defined.
