(* ===== verification/Sessions.v ===== *)
(** Sessions of the web interface ([cpp/webui/SessionManager.cpp]) and their
    access control list ([cpp/webui/SessionDatabase.cpp]).

    A session is created for a user who may log in from its internet address,
    and is identified by a cookie.  Operations take the session lock, so that
    they do not interleave; the manager counts how often the lock has been
    acquired and not yet released. *)
From S2P Require Import Prelude DynMap.
From stdpp Require Import pretty.

Local Open Scope Z_scope.

Definition SESSION_TIMEOUT_MIN : Z := 30 * 60.
Definition SESSION_TIMEOUT_MS : Z := u64 (SESSION_TIMEOUT_MIN * 60 * 1000).

(** * Access control list *)

(** The table [access_control], whose primary key is the whole row. *)
Definition AccessControl := list (Z * string).

Definition insertAccessControlEntry (userId : Z) (ip : string) (acl : AccessControl)
  : AccessControl :=
  (userId, ip) :: filter (fun e => e <> (userId, ip)) acl.

Definition deleteAccessControlEntry (userId : Z) (ip : string) (acl : AccessControl)
  : AccessControl :=
  filter (fun e => e <> (userId, ip)) acl.

Definition checkAccessEntry (userId : Z) (ip : string) (acl : AccessControl) : outcome unit :=
  if existsb (fun e => (e.1 =? userId) && (String.eqb e.2 ip || String.eqb e.2 "*")) acl
  then Ok tt else Raise "bitmunk.webui.SessionDatabase.AccessDeniedFromIP".

(** A missing address stands for all of them. *)
Definition grantAccess (userId : Z) (ip : option string) (acl : AccessControl) : AccessControl :=
  insertAccessControlEntry userId (default "*" ip) acl.

Definition revokeAccess (userId : Z) (ip : option string) (acl : AccessControl) : AccessControl :=
  deleteAccessControlEntry userId (default "*" ip) acl.

(** * Sessions *)

Record SessionData (U : Type) := {
  se_id : string;
  se_userId : Z;
  se_username : string;
  se_ip : string;
  se_time : Z;
  se_valid : bool;
  se_userdata : U
}.
Arguments se_id {U} _.
Arguments se_userId {U} _.
Arguments se_username {U} _.
Arguments se_ip {U} _.
Arguments se_time {U} _.
Arguments se_valid {U} _.
Arguments se_userdata {U} _.

Record SessionManager (U : Type) := {
  mSessions : dmap (SessionData U);
  mSessionLocks : nat
}.
Arguments mSessions {U} _.
Arguments mSessionLocks {U} _.

(** What a request carries: the session cookie and the client's address. *)
Record Action := { ac_cookie : option string; ac_ip : outcome string }.

(** Changes of the client's cookies. *)
Inductive CookieOp :=
| SetCookies (session : string) (userId : Z) (username : string)
| DeleteCookies.

Section Sessions.
Context {U : Type}.
Implicit Types (sd : SessionData U) (m : SessionManager U) (a : Action).

Definition set_valid (b : bool) sd : SessionData U :=
  {| se_id := se_id sd; se_userId := se_userId sd; se_username := se_username sd;
     se_ip := se_ip sd; se_time := se_time sd; se_valid := b; se_userdata := se_userdata sd |}.

Definition set_time (t : Z) sd : SessionData U :=
  {| se_id := se_id sd; se_userId := se_userId sd; se_username := se_username sd;
     se_ip := se_ip sd; se_time := t; se_valid := se_valid sd; se_userdata := se_userdata sd |}.

Definition set_userdata (u : U) sd : SessionData U :=
  {| se_id := se_id sd; se_userId := se_userId sd; se_username := se_username sd;
     se_ip := se_ip sd; se_time := se_time sd; se_valid := se_valid sd; se_userdata := u |}.

Definition with_sessions (l : dmap (SessionData U)) m : SessionManager U :=
  {| mSessions := l; mSessionLocks := mSessionLocks m |}.

Definition lock m : SessionManager U :=
  {| mSessions := mSessions m; mSessionLocks := S (mSessionLocks m) |}.

Definition unlock m : SessionManager U :=
  {| mSessions := mSessions m; mSessionLocks := pred (mSessionLocks m) |}.

Definition expired (now : Z) sd : bool := SESSION_TIMEOUT_MS <? u64 (now - se_time sd).

(** ** Creating a session *)

(** The loop over all sessions: invalid and expired ones are dropped, and the
    first one of the same user and address. *)
Fixpoint cleanSessions (now userId : Z) (ip : string) (removed : bool) (l : dmap (SessionData U))
  : dmap (SessionData U) :=
  match l with
  | [] => []
  | (k, sd) :: l' =>
      let sd := if expired now sd then set_valid false sd else sd in
      if negb (se_valid sd) then cleanSessions now userId ip removed l'
      else if negb removed then
        if (userId =? se_userId sd) && String.eqb ip (se_ip sd)
        then cleanSessions now userId ip true l'
        else (k, sd) :: cleanSessions now userId ip removed l'
      else (k, sd) :: cleanSessions now userId ip removed l'
  end.

(** Answers of the node: the user's id from the Bitmunk server, the login, a
    random number, the clock, the digest and the initial userdata. *)
Record LoginEnv := {
  le_lookup : outcome Z;
  le_login : outcome Z;
  le_random : Z;
  le_now : Z;
  le_sha1 : string -> string;
  le_userdata : U
}.

Definition is_localhost (ip : string) : bool := String.prefix "127." ip.

Definition checkAccessControl (env : LoginEnv) (acl : AccessControl) (ip : string)
  : outcome unit :=
  if is_localhost ip then Ok tt
  else
    match le_lookup env with
    | Ok uid =>
        match checkAccessEntry uid ip acl with
        | Ok _ => Ok tt
        | Raise _ => Raise "bitmunk.webui.SessionManager.AccessDenied"
        end
    | Raise _ => Raise "bitmunk.webui.SessionManager.AccessDenied"
    end.

Definition sessionId (env : LoginEnv) (username password ip : string) : string :=
  le_sha1 env (username +:+ password +:+ ip +:+ pretty (Z.to_N (le_random env))).

Definition createSession (env : LoginEnv) (acl : AccessControl) (username password ip : string) m
  : outcome (string * Z) * SessionManager U * list CookieOp :=
  match checkAccessControl env acl ip with
  | Raise e => (Raise e, m, [])
  | Ok _ =>
      match le_login env with
      | Raise e => (Raise e, m, [])
      | Ok userId =>
          let session := sessionId env username password ip in
          let sd := {| se_id := session; se_userId := userId; se_username := username;
                       se_ip := ip; se_time := le_now env; se_valid := true;
                       se_userdata := le_userdata env |} in
          let m := lock m in
          let l := cleanSessions (le_now env) userId ip false (mSessions m) in
          let l := if dm_has l session then l else dm_set l session sd in
          (Ok (session, userId), unlock (with_sessions l m),
           [SetCookies session userId username])
      end
  end.

(** ** Using a session *)

Definition getSessionFromAction a : outcome (string * string) :=
  match ac_cookie a with
  | None => Raise "bitmunk.webui.SessionManager.MissingCookie"
  | Some session =>
      match ac_ip a with Ok ip => Ok (session, ip) | Raise e => Raise e end
  end.

(** The session, if it is returned, the exception, if one is set, and the map.  An
    expired session is marked invalid and returned. *)
Definition findSession (now : Z) (session ip : string) (l : dmap (SessionData U))
  : option (SessionData U) * option string * dmap (SessionData U) :=
  match dm_get l session with
  | Some sd =>
      if se_valid sd then
        if String.eqb ip (se_ip sd) then
          if expired now sd then
            let sd := set_valid false sd in
            (Some sd, Some "bitmunk.webui.SessionManager.SessionExpired", dm_set l session sd)
          else
            let sd := set_time now sd in (Some sd, None, dm_set l session sd)
        else (None, Some "bitmunk.webui.SessionManager.InvalidSessionIP", l)
      else (None, Some "bitmunk.webui.SessionManager.InvalidSessionId", l)
  | None => (None, Some "bitmunk.webui.SessionManager.InvalidSessionId", l)
  end.

Definition getSessionData (now : Z) a m
  : option (SessionData U) * option string * SessionManager U :=
  match getSessionFromAction a with
  | Ok (session, ip) =>
      let '(sd, e, l) := findSession now session ip (mSessions m) in (sd, e, with_sessions l m)
  | Raise e => (None, Some e, m)
  end.

Definition deleteSession a m : SessionManager U * list CookieOp :=
  let m :=
    match ac_cookie a with
    | Some session =>
        let m := lock m in
        let l :=
          match dm_get (mSessions m) session, ac_ip a with
          | Some sd, Ok ip =>
              if String.eqb ip (se_ip sd) then dm_remove (mSessions m) session else mSessions m
          | _, _ => mSessions m
          end in
        unlock (with_sessions l m)
    | None => m
    end in
  (m, [DeleteCookies]).

(** [loggedIn] is [Node::getLoginData]. *)
Definition isSessionValid (loggedIn : Z -> bool) (now : Z) a m
  : outcome Z * SessionManager U * list CookieOp :=
  let '(sd, _, m) := getSessionData now a (lock m) in
  match sd with
  | Some sd =>
      if loggedIn (se_userId sd)
      then (Ok (se_userId sd), unlock m, [SetCookies (se_id sd) (se_userId sd) (se_username sd)])
      else
        let '(m, c) := deleteSession a (unlock m) in
        (Raise "bitmunk.webui.SessionManager.InvalidSession", m, c)
  | None =>
      let '(m, c) := deleteSession a (unlock m) in
      (Raise "bitmunk.webui.SessionManager.InvalidSession", m, c)
  end.

(** The session's userdata is changed in place. *)
Definition setSessionUserdata (now : Z) a (u : U) m : bool * SessionManager U :=
  let '(sd, _, m) := getSessionData now a (lock m) in
  match sd with
  | Some sd =>
      (true, unlock (with_sessions (dm_set (mSessions m) (default "" (ac_cookie a))
                                      (set_userdata u sd)) m))
  | None => (false, unlock m)
  end.

(** Locks again where it should unlock. *)
Definition getSessionUserdata (now : Z) a m : option U * SessionManager U :=
  let '(sd, _, m) := getSessionData now a (lock m) in
  (se_userdata <$> sd, lock m).
End Sessions.
Arguments LoginEnv : clear implicits.

(** * Properties *)

Section Properties.
Context {U : Type}.
Implicit Types (sd : SessionData U) (m : SessionManager U) (a : Action).
Implicit Types (l : dmap (SessionData U)).

(** Whose session it is. *)
Definition owner sd : Z * string := (se_userId sd, se_ip sd).
Definition owners l : list (Z * string) := map owner (dm_values l).

(** The calls of the services, in any order. *)
Inductive SessionOp :=
| OpCreate (env : LoginEnv U) (acl : AccessControl) (username password ip : string)
| OpDelete (a : Action)
| OpValid (loggedIn : Z -> bool) (now : Z) (a : Action)
| OpSet (now : Z) (a : Action) (u : U)
| OpGet (now : Z) (a : Action).

Definition run_session m (op : SessionOp) : SessionManager U :=
  match op with
  | OpCreate env acl username password ip => (createSession env acl username password ip m).1.2
  | OpDelete a => (deleteSession a m).1
  | OpValid loggedIn now a => (isSessionValid loggedIn now a m).1.2
  | OpSet now a u => (setSessionUserdata now a u m).2
  | OpGet now a => (getSessionUserdata now a m).2
  end.

Definition is_get (op : SessionOp) : bool := match op with OpGet _ _ => true | _ => false end.

Definition no_sessions : SessionManager U := {| mSessions := []; mSessionLocks := 0 |}.

Record sessions_ok l : Prop := {
  sok_wf : dm_wf l;
  sok_id : forall k sd, dm_get l k = Some sd -> se_id sd = k;
  sok_owner : NoDup (owners l)
}.

Lemma owners_set l k sd :
  dm_wf l -> owners (dm_set l k sd) ≡ₚ owner sd :: owners (dm_remove l k).
Proof. intros Hwf. unfold owners, dm_values. by rewrite (dm_perm_set l k sd Hwf). Qed.

Lemma owners_get l k sd :
  dm_wf l -> dm_get l k = Some sd -> owners l ≡ₚ owner sd :: owners (dm_remove l k).
Proof. intros Hwf Hg. unfold owners, dm_values. by rewrite (dm_perm_get l k sd Hwf Hg) at 1. Qed.

Lemma set_ok l k sd sd' :
  sessions_ok l -> dm_get l k = Some sd -> owner sd' = owner sd -> se_id sd' = k ->
  sessions_ok (dm_set l k sd').
Proof.
  intros [Hwf Hid Hnd] Hg Ho Hk. split; [by apply dm_wf_set| |].
  - intros k' x. destruct (decide (k = k')) as [<-|Hne].
    + rewrite dm_get_set_eq. by intros [= <-].
    + rewrite dm_get_set_ne by done. apply Hid.
  - rewrite owners_set by done. rewrite (owners_get l k sd) in Hnd by done. by rewrite Ho.
Qed.

Lemma remove_ok l k : sessions_ok l -> sessions_ok (dm_remove l k).
Proof.
  intros [Hwf Hid Hnd]. split; [by apply dm_wf_remove| |].
  - intros k' x. destruct (decide (k = k')) as [<-|Hne]; [by rewrite dm_get_remove_eq|].
    rewrite dm_get_remove_ne by done. apply Hid.
  - destruct (dm_get l k) as [sd|] eqn:E.
    + rewrite (owners_get l k sd) in Hnd by done. by apply NoDup_cons in Hnd as [_ ?].
    + rewrite dm_remove_fresh; [done|]. by apply dm_get_None.
Qed.

Lemma owners_sublist l l' : sublist l' l -> sublist (owners l') (owners l).
Proof. intros Hs. unfold owners, dm_values. by do 2 apply fmap_sublist. Qed.

(** Cleaning keeps entries as they are ... *)
Lemma clean_sublist now uid ip r l : sublist (cleanSessions now uid ip r l) l.
Proof.
  revert r. induction l as [|[k sd] l IH]; intros r; simpl; [constructor|].
  destruct (expired now sd); simpl; [by apply sublist_cons|].
  destruct (se_valid sd); simpl; [|by apply sublist_cons].
  destruct r; simpl; [by apply sublist_skip|].
  destruct (_ && _); [by apply sublist_cons|by apply sublist_skip].
Qed.

(** ... and none of the new session's owner. *)
Lemma clean_owner now uid ip l :
  NoDup (owners l) -> (uid, ip) ∉ owners (cleanSessions now uid ip false l).
Proof.
  induction l as [|[k sd] l IH]; simpl; [by intros _ ?%elem_of_nil|].
  intros [Hk Hnd]%NoDup_cons. specialize (IH Hnd).
  destruct (expired now sd); simpl; [done|]. destruct (se_valid sd); simpl; [|done].
  destruct ((uid =? se_userId sd) && String.eqb ip (se_ip sd)) eqn:E.
  - apply andb_true_iff in E as [->%Z.eqb_eq ->%String.eqb_eq]. intros Hin. apply Hk.
    eapply elem_of_sublist; [exact Hin|]. apply owners_sublist, clean_sublist.
  - apply not_elem_of_cons. split; [|done]. unfold owner. intros [= -> ->].
    by rewrite Z.eqb_refl, String.eqb_refl in E.
Qed.

Lemma sublist_ok l l' : sublist l' l -> sessions_ok l -> sessions_ok l'.
Proof.
  intros Hs [Hwf Hid Hnd].
  assert (dm_wf l') as Hwf'. { clear Hid Hnd. unfold dm_wf, dm_keys in *. induction Hs; simpl in *.
    - constructor.
    - inversion Hwf as [|? ? Hwf' Hf]; subst. constructor; [auto|].
      rewrite Forall_forall in *. intros y Hy. apply Hf.
      eapply elem_of_sublist; [exact Hy|]. by apply fmap_sublist.
    - inversion Hwf; subst. auto. }
  split; [done| |].
  - intros k sd Hg%dm_get_elem. apply Hid. apply dm_elem_get; [done|].
    by eapply elem_of_sublist.
  - eapply sublist_NoDup; [exact Hnd|]. by apply owners_sublist.
Qed.

Lemma insert_ok l k sd :
  sessions_ok l -> dm_get l k = None -> owner sd ∉ owners l -> se_id sd = k ->
  sessions_ok (dm_set l k sd).
Proof.
  intros [Hwf Hid Hnd] Hg Ho Hk. split; [by apply dm_wf_set| |].
  - intros k' x. destruct (decide (k = k')) as [<-|Hne].
    + rewrite dm_get_set_eq. by intros [= <-].
    + rewrite dm_get_set_ne by done. apply Hid.
  - rewrite owners_set, dm_values_remove_None by done. by apply NoDup_cons.
Qed.

Lemma createSession_ok env acl username password ip m :
  sessions_ok (mSessions m) ->
  sessions_ok (mSessions (createSession env acl username password ip m).1.2).
Proof.
  intros Hok. unfold createSession. destruct (checkAccessControl _ _ _); [|done].
  destruct (le_login env) as [uid|]; [|done]. simpl.
  assert (sessions_ok (cleanSessions (le_now env) uid ip false (mSessions m))) as Hc.
  { eapply sublist_ok; [apply clean_sublist|done]. }
  destruct (dm_has _ _) eqn:Eh; [done|]. apply insert_ok; [done|by apply dm_has_false| |done].
  apply clean_owner, Hok.
Qed.

(** Looking a session up changes at most its time or its validity. *)
Lemma findSession_cases now s ip l :
  let '(r, e, l') := findSession now s ip l in
  match r with
  | Some sd' =>
      exists sd, dm_get l s = Some sd /\ se_valid sd = true /\ se_ip sd = ip /\
        owner sd' = owner sd /\ se_id sd' = se_id sd /\ se_username sd' = se_username sd /\
        l' = dm_set l s sd' /\ se_valid sd' = negb (expired now sd)
  | None => l' = l /\ forall sd, dm_get l s = Some sd -> se_valid sd = true -> se_ip sd <> ip
  end.
Proof.
  unfold findSession. destruct (dm_get l s) as [sd|] eqn:Eg; [|by split].
  destruct (se_valid sd) eqn:Ev; [|split; [done|intros ? [= <-]; congruence]].
  destruct (String.eqb_spec ip (se_ip sd)) as [->|Hne];
    [|split; [done|intros ? [= <-] _ ?; congruence]].
  destruct (expired now sd) eqn:Ee; exists sd; split_and!; try done; simpl; by rewrite Ee.
Qed.

Lemma getSessionData_ok now a m :
  sessions_ok (mSessions m) -> sessions_ok (mSessions (getSessionData now a m).2).
Proof.
  intros Hok. unfold getSessionData. destruct (getSessionFromAction a) as [[s ip]|]; [|done].
  pose proof (findSession_cases now s ip (mSessions m)) as Hf.
  destruct (findSession _ _ _ _) as [[[sd'|] e] l']; simpl.
  - destruct Hf as (sd & Hg & _ & _ & Ho & Hi & _ & -> & _).
    eapply set_ok; [done..|]. rewrite Hi. by apply (sok_id _ Hok).
  - by destruct Hf as [-> _].
Qed.

Lemma deleteSession_ok a m :
  sessions_ok (mSessions m) -> sessions_ok (mSessions (deleteSession a m).1).
Proof.
  intros Hok. unfold deleteSession. destruct (ac_cookie a) as [s|]; [|done]. simpl.
  destruct (dm_get _ _) as [sd|]; [|done]. destruct (ac_ip a) as [ip|]; [|done].
  destruct (String.eqb _ _); [by apply remove_ok|done].
Qed.

Lemma deleteSession_locks a m : mSessionLocks (deleteSession a m).1 = mSessionLocks m.
Proof. unfold deleteSession. by destruct (ac_cookie a). Qed.

Lemma getSessionData_locks now a m :
  mSessionLocks (getSessionData now a m).2 = mSessionLocks m.
Proof.
  unfold getSessionData. destruct (getSessionFromAction a) as [[s ip]|]; [|done].
  by destruct (findSession _ _ _ _) as [[? ?] ?].
Qed.

(** The session handed out is the one of the cookie, as it is in the map. *)
Lemma getSessionData_some now a m sd :
  (getSessionData now a m).1.1 = Some sd ->
  exists s ip, ac_cookie a = Some s /\ ac_ip a = Ok ip /\
    dm_get (mSessions (getSessionData now a m).2) s = Some sd.
Proof.
  unfold getSessionData, getSessionFromAction. destruct (ac_cookie a) as [s|]; [|done].
  destruct (ac_ip a) as [ip|]; [|done].
  pose proof (findSession_cases now s ip (mSessions m)) as Hf.
  destruct (findSession _ _ _ _) as [[r e] l']; simpl. intros ->.
  destruct Hf as (sd0 & _ & _ & _ & _ & _ & _ & -> & _). exists s, ip.
  split_and!; [done|done|apply dm_get_set_eq].
Qed.

Lemma run_session_ok m op :
  sessions_ok (mSessions m) -> sessions_ok (mSessions (run_session m op)).
Proof.
  intros Hok. assert (sessions_ok (mSessions (lock m))) as Hl by done.
  destruct op as [env acl u p ip|a|loggedIn now a|now a u|now a]; simpl.
  - by apply createSession_ok.
  - by apply deleteSession_ok.
  - unfold isSessionValid. pose proof (getSessionData_ok now a _ Hl) as Hg.
    destruct (getSessionData now a (lock m)) as [[[sd|] e] m']; cbn [snd] in Hg;
      [destruct (loggedIn _); [done|]|];
      pose proof (deleteSession_ok a (unlock m') Hg) as Hd; by destruct (deleteSession a _).
  - unfold setSessionUserdata. pose proof (getSessionData_ok now a _ Hl) as Hg.
    pose proof (getSessionData_some now a (lock m)) as Hs.
    destruct (getSessionData now a (lock m)) as [[[sd|] e] m']; cbn [fst snd] in *; [|done].
    destruct (Hs sd eq_refl) as (s & ip & -> & _ & Hget). simpl.
    eapply set_ok; [done..|]. exact (sok_id _ Hg s sd Hget).
  - unfold getSessionUserdata. pose proof (getSessionData_ok now a _ Hl) as Hg.
    by destruct (getSessionData now a (lock m)) as [[? ?] m'].
Qed.

Lemma run_session_locks m op :
  mSessionLocks (run_session m op) = ((if is_get op then 2 else 0) + mSessionLocks m)%nat.
Proof.
  destruct op as [env acl u p ip|a|loggedIn now a|now a u|now a]; simpl.
  - unfold createSession. destruct (checkAccessControl _ _ _); [|done].
    by destruct (le_login env).
  - apply deleteSession_locks.
  - unfold isSessionValid. pose proof (getSessionData_locks now a (lock m)) as Hg.
    destruct (getSessionData now a (lock m)) as [[[sd|] e] m']; cbn [snd] in Hg;
      [destruct (loggedIn _); [by simpl; rewrite Hg|]|];
      pose proof (deleteSession_locks a (unlock m')) as Hd; destruct (deleteSession a _);
      simpl in *; by rewrite Hd, Hg.
  - unfold setSessionUserdata. pose proof (getSessionData_locks now a (lock m)) as Hg.
    destruct (getSessionData now a (lock m)) as [[[sd|] e] m']; simpl in *; by rewrite Hg.
  - unfold getSessionUserdata. pose proof (getSessionData_locks now a (lock m)) as Hg.
    destruct (getSessionData now a (lock m)) as [[? ?] m']; simpl in *. by rewrite Hg.
Qed.

(** C38 (invariant): after any sequence of calls there is at most one session per
    user and internet address, each is stored under its own id, and the session
    lock has been acquired but not released twice for every call of
    [getSessionUserdata] and for no other. *)
Theorem sessions_invariant ops :
  let m := foldl run_session no_sessions ops in
  sessions_ok (mSessions m) /\
  mSessionLocks m = (2 * length (filter (fun op => is_get op = true) ops))%nat.
Proof.
  cbv zeta. induction ops as [|op ops [IHs IHl]] using rev_ind.
  - split; [|done]. split; [constructor|done|constructor].
  - rewrite foldl_app. cbn [foldl]. split; [by apply run_session_ok|].
    rewrite run_session_locks, IHl, filter_app, length_app, filter_cons, filter_nil.
    destruct (is_get op); simpl; lia.
Qed.

Lemma accepted_iff loggedIn now a m uid :
  (isSessionValid loggedIn now a m).1.1 = Ok uid <->
  exists sd, (getSessionData now a (lock m)).1.1 = Some sd /\ se_userId sd = uid /\
             loggedIn uid = true.
Proof.
  unfold isSessionValid. destruct (getSessionData now a (lock m)) as [[[sd|] e] m']; cbn [fst].
  - destruct (loggedIn (se_userId sd)) eqn:El; cbn [fst].
    + split; [intros [= <-]; by exists sd|by intros (? & [= <-] & -> & _)].
    + destruct (deleteSession (U:=U) a _). split; [done|].
      intros (? & [= <-] & <- & ?). congruence.
  - destruct (deleteSession (U:=U) a _). split; [done|by intros (? & ? & _)].
Qed.


(** A request that is accepted before the session has timed out renews it for
    another timeout.  The first request after the timeout is accepted as well;
    only the ones after it are rejected. *)
Theorem session_lifetime loggedIn now a m s ip sd :
  ac_cookie a = Some s -> ac_ip a = Ok ip -> dm_get (mSessions m) s = Some sd ->
  se_valid sd = true -> se_ip sd = ip -> loggedIn (se_userId sd) = true ->
  let '(r, m', _) := isSessionValid loggedIn now a m in
  r = Ok (se_userId sd) /\
  if expired now sd
  then forall loggedIn' now',
         (isSessionValid loggedIn' now' a m').1.1 =
         Raise "bitmunk.webui.SessionManager.InvalidSession"
  else exists sd', dm_get (mSessions m') s = Some sd' /\ se_userId sd' = se_userId sd /\
         se_valid sd' = true /\ se_time sd' = now.
Proof.
  intros Hc Hi Hg Hv Hip Hl. unfold isSessionValid at 1, getSessionData, getSessionFromAction.
  rewrite Hc, Hi. unfold findSession. cbn [lock mSessions]. rewrite Hg, Hv, Hip, String.eqb_refl.
  destruct (expired now sd); cbn [se_userId set_valid set_time]; rewrite Hl; split; [done| |done|].
  - intros loggedIn' now'. unfold isSessionValid, getSessionData, getSessionFromAction.
    rewrite Hc, Hi. unfold findSession. cbn [lock unlock with_sessions mSessions].
    rewrite dm_get_set_eq. cbn [se_valid set_valid]. by destruct (deleteSession (U:=U) a _).
  - exists (set_time now sd). split_and!; [apply dm_get_set_eq|done..].
Qed.

(** A session is only created from the local host or an address the user has
    been granted, and it is valid for its user from that address as long as the
    user is logged in. *)
Theorem createSession_usable env acl username password ip m s uid m' c :
  createSession env acl username password ip m = (Ok (s, uid), m', c) ->
  dm_get (mSessions m) s = None ->
  (is_localhost ip = true \/
   exists id, le_lookup env = Ok id /\ ((id, ip) ∈ acl \/ (id, "*") ∈ acl)) /\
  forall (loggedIn : Z -> bool) now, loggedIn uid = true ->
    (isSessionValid loggedIn now {| ac_cookie := Some s; ac_ip := Ok ip |} m').1.1 = Ok uid.
Proof.
  unfold createSession. destruct (checkAccessControl env acl ip) as [[]|] eqn:Ea; [|done].
  destruct (le_login env) as [id|]; [|done]. intros [= <- <- <- _] Hn. split.
  - revert Ea. unfold checkAccessControl. destruct (is_localhost ip); [by left|].
    destruct (le_lookup env) as [lid|]; [|done]. unfold checkAccessEntry.
    destruct (existsb _ _) eqn:Ee; [|done]. intros _. right. exists lid. split; [done|].
    apply existsb_exists in Ee as ([u i] & Hin%list_elem_of_In & He). cbn [fst snd] in He.
    apply andb_true_iff in He as [->%Z.eqb_eq [->%String.eqb_eq| ->%String.eqb_eq]%orb_true_iff]; auto.
  - intros loggedIn now Hl. apply accepted_iff. cbn [mSessions lock].
    assert (dm_has (cleanSessions (le_now env) id ip false (mSessions m))
              (sessionId env username password ip) = false) as ->.
    { apply dm_has_false, dm_get_None. apply dm_get_None in Hn. intros Hin. apply Hn.
      eapply elem_of_sublist; [exact Hin|]. apply fmap_sublist, clean_sublist. }
    unfold getSessionData, getSessionFromAction, findSession.
    cbn [ac_cookie ac_ip lock unlock with_sessions mSessions].
    rewrite dm_get_set_eq. cbn [se_valid se_ip]. rewrite String.eqb_refl.
    destruct (expired now _); eexists; split_and!; done.
Qed.
End Properties.

(** * Examples *)

Definition sample_action : Action := {| ac_cookie := Some "s"; ac_ip := Ok "10.0.0.1" |}.

(** A session that was last used at time 0. *)
Definition sample_sessions : SessionManager unit :=
  {| mSessions := [("s", {| se_id := "s"; se_userId := 900; se_username := "dev";
                            se_ip := "10.0.0.1"; se_time := 0; se_valid := true;
                            se_userdata := tt |})];
     mSessionLocks := 0 |}.

(** The timeout is thirty hours. *)
Lemma session_lifetime_witness :
  let '(r, m', _) :=
    isSessionValid (fun _ => true) (30 * 60 * 60 * 1000 + 1) sample_action sample_sessions in
  r = Ok 900 /\
  forall loggedIn' now',
    (isSessionValid loggedIn' now' sample_action m').1.1 =
    Raise "bitmunk.webui.SessionManager.InvalidSession".
Proof.
  exact (session_lifetime (fun _ => true) (30 * 60 * 60 * 1000 + 1) sample_action sample_sessions
    "s" "10.0.0.1" _ eq_refl eq_refl eq_refl eq_refl eq_refl eq_refl).
Defined.

Definition sample_login : LoginEnv unit :=
  {| le_lookup := Ok 900; le_login := Ok 900; le_random := 7; le_now := 5;
     le_sha1 := fun s => s; le_userdata := tt |}.

Lemma createSession_usable_witness :
  (isSessionValid (fun _ => true) 6
     {| ac_cookie := Some "devpassword10.0.0.17"; ac_ip := Ok "10.0.0.1" |}
     (createSession sample_login (grantAccess 900 None []) "dev" "password" "10.0.0.1"
        sample_sessions).1.2).1.1 = Ok 900.
Proof.
  apply (createSession_usable sample_login (grantAccess 900 None []) "dev" "password" "10.0.0.1"
    sample_sessions "devpassword10.0.0.17" 900 _
    [SetCookies "devpassword10.0.0.17" 900 "dev"]); vm_compute; reflexivity.
Defined.
