(* ===== verification/TimeSets.v ===== *)
(** Time sets of a stream ([cpp/data/StreamTimeParser.cpp]).

    A parser that cuts samples out of an audio stream keeps the intervals of time
    whose data is wanted.  Times are the values of the C++ type [double], of which
    only the order is used ([Scalar]); they are not NaN. *)
From S2P Require Import Prelude.
From Stdlib Require Import ZifyBool.

Section TimeSets.
Context {T : Type} `{Scalar T}.

Record StreamTimeParser := { mTimeSets : list (T * T); mTime : T }.

Definition with_sets (l : list (T * T)) (p : StreamTimeParser) : StreamTimeParser :=
  {| mTimeSets := l; mTime := mTime p |}.

Definition addTimeSet (start end_ : T) (p : StreamTimeParser) : bool * StreamTimeParser :=
  if sc_ltb start end_ && sc_leb sc_zero end_ && sc_leb sc_zero start then
    if existsb (fun i => sc_eqb i.1 start && sc_eqb i.2 end_) (mTimeSets p) then (false, p)
    else (true, with_sets (mTimeSets p ++ [(start, end_)]) p)
  else (false, p).

(** [setCurrentTime(0)], then the set, if it is one, is added. *)
Definition newParser (start end_ : T) : StreamTimeParser :=
  (addTimeSet start end_ {| mTimeSets := []; mTime := sc_zero |}).2.

(** One iteration of [removeTimeSet]: what the set becomes and what is put on the
    list of new sets. *)
Definition removeStep (start end_ : T) (i : T * T) : list (T * T) * list (T * T) :=
  if sc_eqb start i.1 then
    if sc_leb i.2 end_ then ([], []) else ([(end_, i.2)], [])
  else if sc_ltb i.1 start then
    ([(i.1, start)], if sc_ltb end_ i.2 then [(end_, i.2)] else [])
  else if sc_ltb i.1 end_ then
    if sc_leb i.2 end_ then ([], []) else ([(end_, i.2)], [])
  else ([i], []).

(** The list after the loop, and the new sets. *)
Fixpoint removeLoop (start end_ : T) (l : list (T * T)) : list (T * T) * list (T * T) :=
  match l with
  | [] => ([], [])
  | i :: l' =>
      let '(kept, new) := removeStep start end_ i in
      let '(kept', new') := removeLoop start end_ l' in
      (kept ++ kept', new ++ new')
  end.

Definition removeTimeSet (start end_ : T) (p : StreamTimeParser) : StreamTimeParser :=
  let '(kept, new) := removeLoop start end_ (mTimeSets p) in with_sets (kept ++ new) p.

Definition isTimeValid (time : T) (p : StreamTimeParser) : bool :=
  existsb (fun i => sc_leb i.1 time && sc_leb time i.2) (mTimeSets p).

Definition setCurrentTime (time : T) (p : StreamTimeParser) : StreamTimeParser :=
  {| mTimeSets := mTimeSets p; mTime := time |}.

Definition getCurrentTime (p : StreamTimeParser) : T := mTime p.

(** * Properties *)

Implicit Types (p : StreamTimeParser) (l : list (T * T)).

(** The time is in one of the sets. *)
Definition covered l (t : T) : Prop :=
  exists i, i ∈ l /\ sc_leb i.1 t = true /\ sc_leb t i.2 = true.

Lemma isTimeValid_covered t p : isTimeValid t p = true <-> covered (mTimeSets p) t.
Proof.
  unfold isTimeValid, covered. rewrite existsb_exists. setoid_rewrite andb_true_iff.
  by setoid_rewrite list_elem_of_In.
Qed.

Lemma covered_app l l' t : covered (l ++ l') t <-> covered l t \/ covered l' t.
Proof. unfold covered. setoid_rewrite elem_of_app. naive_solver. Qed.

Lemma covered_cons i l t :
  covered (i :: l) t <-> (sc_leb i.1 t = true /\ sc_leb t i.2 = true) \/ covered l t.
Proof. unfold covered. setoid_rewrite elem_of_cons. naive_solver. Qed.

Lemma covered_nil t : covered [] t <-> False.
Proof. split; [by intros (i & ?%elem_of_nil & _)|done]. Qed.

Lemma removeLoop_covered start end_ l t :
  covered ((removeLoop start end_ l).1 ++ (removeLoop start end_ l).2) t <->
  exists i, i ∈ l /\ covered ((removeStep start end_ i).1 ++ (removeStep start end_ i).2) t.
Proof.
  induction l as [|i l IH]; simpl.
  - split; [by intros ?%covered_nil|by intros (? & ?%elem_of_nil & _)].
  - setoid_rewrite elem_of_cons. destruct (removeStep start end_ i) as [k n] eqn:E.
    destruct (removeLoop start end_ l) as [k' n']. simpl in *. rewrite !covered_app in *.
    setoid_rewrite covered_app in IH. setoid_rewrite covered_app. split.
    + intros [[?|?]|[?|?]]; [| | |]; (exists i; rewrite E; by auto) || (apply proj1 in IH; destruct IH as (j & ? & ?); [by auto|]; exists j; by auto).
    + intros (j & [->|Hj] & Hc); [rewrite E in Hc; simpl in Hc; tauto|].
      apply proj2 in IH. destruct IH as [?|?]; [by exists j|tauto..].
Qed.

(** Cases of the comparisons of scalars in [l], decided by their ranks. *)
Ltac scalar_order l t :=
  repeat case_match; cbn [fst snd app]; rewrite ?covered_cons, ?covered_nil; cbn [fst snd];
  repeat match goal with
  | H : context [sc_leb ?x ?y] |- _ => rewrite (sc_rank_spec l x y) in H by done
  | |- context [sc_leb ?x ?y] => rewrite (sc_rank_spec l x y) by done
  end; lia.

(** One set: away from the two bounds, a set that does not end before the removed
    interval loses exactly the times in it. *)
Lemma removeStep_covered start end_ i t :
  sc_ltb start end_ = true -> sc_ltb i.1 i.2 = true -> sc_leb start i.2 = true ->
  t <> start -> t <> end_ ->
  covered ((removeStep start end_ i).1 ++ (removeStep start end_ i).2) t <->
  sc_leb i.1 t = true /\ sc_leb t i.2 = true /\ ~ (sc_ltb start t = true /\ sc_ltb t end_ = true).
Proof.
  destruct i as [a b]. cbn [fst snd]. set (l := [start; end_; a; b; t]).
  assert (Forall (fun x => x ∈ l) l) as Hl by (apply Forall_forall; done).
  repeat (apply Forall_cons in Hl as [? Hl]). intros Hse Hab Hb Hts Hte.
  assert (sc_rank l t <> sc_rank l start) by (intros ?; by apply Hts, (sc_rank_inj l)).
  assert (sc_rank l t <> sc_rank l end_) by (intros ?; by apply Hte, (sc_rank_inj l)).
  unfold removeStep, sc_eqb, sc_ltb in *. cbn [fst snd]. scalar_order l t.
Qed.

(** A set that ends before the removed interval is extended up to it. *)
Lemma removeStep_extends start end_ i t :
  sc_ltb start end_ = true -> sc_ltb i.1 i.2 = true -> sc_ltb i.2 start = true ->
  covered ((removeStep start end_ i).1 ++ (removeStep start end_ i).2) t <->
  sc_leb i.1 t = true /\ sc_leb t start = true.
Proof.
  destruct i as [a b]. cbn [fst snd]. set (l := [start; end_; a; b; t]).
  assert (Forall (fun x => x ∈ l) l) as Hl by (apply Forall_forall; done).
  repeat (apply Forall_cons in Hl as [? Hl]). intros Hse Hab Hb.
  unfold removeStep, sc_eqb, sc_ltb in *. cbn [fst snd]. scalar_order l t.
Qed.

(** Sets are intervals, and stay so. *)
Definition sets_ok p : Prop := Forall (fun i => sc_ltb i.1 i.2 = true) (mTimeSets p).

Lemma removeStep_ok start end_ i :
  sc_ltb i.1 i.2 = true ->
  Forall (fun i => sc_ltb i.1 i.2 = true) ((removeStep start end_ i).1 ++ (removeStep start end_ i).2).
Proof.
  intros Hi. unfold removeStep. repeat case_match; simpl; repeat constructor; try done;
    unfold sc_ltb; by apply negb_true_iff.
Qed.

Lemma removeLoop_ok start end_ l :
  Forall (fun i => sc_ltb i.1 i.2 = true) l ->
  Forall (fun i => sc_ltb i.1 i.2 = true)
    ((removeLoop start end_ l).1 ++ (removeLoop start end_ l).2).
Proof.
  induction 1 as [|i l Hi Hl IH]; simpl; [constructor|].
  pose proof (removeStep_ok start end_ i Hi) as Hst.
  destruct (removeStep start end_ i), (removeLoop start end_ l). cbn [fst snd] in *.
  rewrite !Forall_app in *. tauto.
Qed.

(** After an interval has been removed, and apart from its two bounds, the
    valid times are those of the sets that are not inside the interval, but a
    set that ends before the interval is extended up to its start.  All sets are
    still intervals. *)
Theorem removeTimeSet_exact start end_ p t :
  sets_ok p -> sc_ltb start end_ = true -> t <> start -> t <> end_ ->
  sets_ok (removeTimeSet start end_ p) /\
  (isTimeValid t (removeTimeSet start end_ p) = true <->
   exists i, i ∈ mTimeSets p /\ sc_leb i.1 t = true /\
    if sc_leb start i.2
    then sc_leb t i.2 = true /\ ~ (sc_ltb start t = true /\ sc_ltb t end_ = true)
    else sc_leb t start = true).
Proof.
  intros Hok Hse Hs He. rewrite isTimeValid_covered. unfold removeTimeSet.
  pose proof (removeLoop_ok start end_ (mTimeSets p) Hok) as Hok'.
  pose proof (removeLoop_covered start end_ (mTimeSets p) t) as Hl.
  destruct (removeLoop start end_ (mTimeSets p)) as [k n]. cbn [fst snd mTimeSets with_sets] in *.
  split; [exact Hok'|]. rewrite Hl. unfold sets_ok in Hok. rewrite Forall_forall in Hok.
  split; intros (i & Hi & Hc); exists i; (split; [done|]); specialize (Hok i Hi);
    destruct (sc_leb start i.2) eqn:Eb.
  - by apply removeStep_covered in Hc.
  - apply removeStep_extends in Hc; [done..|]. by apply sc_ltb_lt.
  - by apply removeStep_covered.
  - apply removeStep_extends; [done..| |done]. by apply sc_ltb_lt.
Qed.

(** Adding a set makes exactly the times in it valid in addition. *)
Theorem addTimeSet_valid start end_ p t :
  sc_ltb start end_ = true -> sc_leb sc_zero start = true ->
  isTimeValid t (addTimeSet start end_ p).2 =
  isTimeValid t p || (sc_leb start t && sc_leb t end_).
Proof.
  intros Hse Hs. unfold addTimeSet. rewrite Hse, Hs.
  rewrite (sc_leb_trans sc_zero start end_ Hs (sc_ltb_leb _ _ Hse)). cbn [andb].
  destruct (existsb _ _) eqn:Ee; cbn [snd].
  - apply existsb_exists in Ee as ([a b] & Hin & [Ha Hb]%andb_true_iff).
    cbn [fst snd] in Ha, Hb. apply sc_eqb_eq in Ha as ->. apply sc_eqb_eq in Hb as ->.
    destruct (sc_leb start t && sc_leb t end_) eqn:Et; [|by rewrite orb_false_r].
    rewrite orb_true_r. unfold isTimeValid. apply existsb_exists. by exists (start, end_).
  - unfold isTimeValid. cbn [mTimeSets with_sets]. rewrite existsb_app. cbn [existsb fst snd].
    by rewrite orb_false_r.
Qed.
End TimeSets.
Arguments StreamTimeParser : clear implicits.

(** * Examples *)

(** Seconds 1 to 3 and 10 to 20 are wanted. *)
Definition sample_parser : StreamTimeParser Z :=
  {| mTimeSets := [(1, 3); (10, 20)]%Z; mTime := 0%Z |}.

(** Removing seconds 12 to 15 makes second 7 valid. *)
Lemma removeTimeSet_exact_witness :
  isTimeValid 7%Z sample_parser = false /\
  isTimeValid 7%Z (removeTimeSet 12 15 sample_parser)%Z = true.
Proof.
  split; [reflexivity|].
  apply (removeTimeSet_exact 12%Z 15%Z sample_parser 7%Z); [repeat constructor|reflexivity|lia|lia|].
  exists (1, 3)%Z. split; [left|split; reflexivity].
Defined.

Lemma addTimeSet_valid_witness :
  isTimeValid 30%Z (addTimeSet 25 40 sample_parser).2%Z = true.
Proof. rewrite (addTimeSet_valid 25%Z 40%Z sample_parser 30%Z); reflexivity. Defined.
