(* ===== verification/Events.v ===== *)
(** The event service ([cpp/system/EventService.cpp]).

    Clients of the node create observers, register them for events and poll for
    the events that occurred.  Every observer has a queue of events, in which
    coalesce rules keep only the latest of the events they relate, and is dropped
    when it has not been polled for some time.  What the service asks of the event
    controller and of the event daemon are effects; each block under the observer
    lock is one step. *)
From S2P Require Import Prelude DynMap Monitor.
From stdpp Require Import pretty.

Local Open Scope Z_scope.

Definition OBSERVER_TIMEOUT : Z := u64 (5 * 60000).
Definition OBSERVER_TIMEOUT_EVENT : string := "bitmunk.webui.EventService.checkObserverTimeout".

Section Events.
(** [dyn_eqb] is the comparison of [DynamicObject]s. *)
Context {F : Type} (dyn_eqb : Dyn F -> Dyn F -> bool).

(** An entry of [mObserverInfo]; its id is its key. *)
Record ObserverInfo := {
  oi_events : list (Dyn F);
  oi_rules : list (Dyn F);
  oi_time : Z
}.

(** [mObservers] maps ids to delegates, which are told apart by their ids. *)
Record EventService := {
  mObserverInfo : dmap ObserverInfo;
  mObservers : dmap unit
}.

(** Calls of the event controller and of the event daemon; [None] where the code
    leaves the reference count to its default. *)
Inductive EventEffect :=
| RegisterSelf (type : string)
| UnregisterSelf (type : string)
| RegisterObserver (id : string) (events : Dyn F)
| UnregisterObserver (id : string)
| UnregisterObserverFrom (id : string) (events : string)
| Schedule (e : Dyn F)
| DaemonAdd (e : Dyn F) (interval count : Z) (refs : option Z)
| DaemonRemove (e : Dyn F) (interval : option Z) (refs : Z)
| DaemonRemoveType (type : string) (refs : option Z).

Implicit Types (st : EventService) (info : ObserverInfo).

Definition set_events (l : list (Dyn F)) info : ObserverInfo :=
  {| oi_events := l; oi_rules := oi_rules info; oi_time := oi_time info |}.
Definition set_rules (l : list (Dyn F)) info : ObserverInfo :=
  {| oi_events := oi_events info; oi_rules := l; oi_time := oi_time info |}.
Definition set_access (t : Z) info : ObserverInfo :=
  {| oi_events := oi_events info; oi_rules := oi_rules info; oi_time := t |}.

Definition with_info (l : dmap ObserverInfo) st : EventService :=
  {| mObserverInfo := l; mObservers := mObservers st |}.

Definition no_info : ObserverInfo := {| oi_events := []; oi_rules := []; oi_time := 0 |}.

(** [mObserverInfo[id]], changed in place. *)
Definition touch_info (id : string) (f : ObserverInfo -> ObserverInfo) st : EventService :=
  with_info (dm_set (mObserverInfo st) id (f (dm_get_or (mObserverInfo st) id no_info))) st.

(** ** Coalesce rules *)

(** Does the rule apply to the event, or to both events? *)
Fixpoint applyCoalesceRule (rule e1 : Dyn F) (e2 : option (Dyn F)) {struct rule} : bool :=
  match rule with
  | DMap m =>
      match e1, e2 with
      | DMap m1, None =>
          forallb (fun mv => match dm_get m1 mv.1 with
                             | Some x1 => applyCoalesceRule mv.2 x1 None
                             | None => false
                             end) m
      | DMap m1, Some (DMap m2) =>
          forallb (fun mv => match dm_get m1 mv.1, dm_get m2 mv.1 with
                             | Some x1, Some x2 => applyCoalesceRule mv.2 x1 (Some x2)
                             | _, _ => false
                             end) m
      | _, _ => false
      end
  | DArray l =>
      match e1, e2 with
      | DArray l1, None =>
          (fix each (l l1 : list (Dyn F)) : bool :=
             match l, l1 with
             | [], _ => true
             | av :: l, x1 :: l1 => applyCoalesceRule av x1 None && each l l1
             | _, _ => false
             end) l l1
      | DArray l1, Some (DArray l2) =>
          (fix each (l l1 l2 : list (Dyn F)) : bool :=
             match l, l1, l2 with
             | [], _, _ => true
             | av :: l, x1 :: l1, x2 :: l2 => applyCoalesceRule av x1 (Some x2) && each l l1 l2
             | _, _, _ => false
             end) l l1 l2
      | _, _ => false
      end
  | DBoolean b =>
      match e2 with
      | None => true
      | Some e2 => if b then dyn_eqb e1 e2 else negb (dyn_eqb e1 e2)
      end
  | _ => false
  end.

(** The events one rule leaves in a queue when [e] occurs. *)
Definition coalesce (e : Dyn F) (events : list (Dyn F)) (rule : Dyn F) : list (Dyn F) :=
  if applyCoalesceRule rule e None
  then filter (fun ne => applyCoalesceRule rule e (Some ne) = false) events
  else events.

(** [eventOccurred] for an observer. *)
Definition observerEvent (id : string) (e : Dyn F) st : EventService :=
  match dm_get (mObserverInfo st) id with
  | None => st
  | Some info =>
      with_info (dm_set (mObserverInfo st) id
        (set_events (foldl (coalesce e) (oi_events info) (oi_rules info) ++ [e]) info)) st
  end.

(** ** Observers *)

Definition cleanupObserverTimeoutHandling : list EventEffect :=
  [UnregisterSelf OBSERVER_TIMEOUT_EVENT; DaemonRemoveType OBSERVER_TIMEOUT_EVENT None].

(** [cleanup]: the observers are dropped, their information is not. *)
Definition cleanup st : EventService * list EventEffect :=
  ({| mObserverInfo := mObserverInfo st; mObservers := [] |},
   cleanupObserverTimeoutHandling ++ map (fun e => UnregisterObserver e.1) (mObservers st)).

(** Random ids are drawn until one is not in use. *)
Fixpoint freshId (infos : dmap ObserverInfo) (rand : list Z) : option (string * list Z) :=
  match rand with
  | [] => None
  | n :: rand =>
      let id := pretty (Z.to_N n) in
      if dm_has infos id then freshId infos rand else Some (id, rand)
  end.

Definition timeout_event : Dyn F := DMap [("type", DString OBSERVER_TIMEOUT_EVENT)].

(** [None] while the random numbers given are all in use. *)
Definition createObserver (now : Z) (rand : list Z) st
  : option (string * list Z * EventService * list EventEffect) :=
  match freshId (mObserverInfo st) rand with
  | None => None
  | Some (id, rand) =>
      let infos := dm_set (mObserverInfo st) id
        {| oi_events := []; oi_rules := []; oi_time := now |} in
      let obs := if dm_has (mObservers st) id then mObservers st
                 else dm_set (mObservers st) id tt in
      Some (id, rand, {| mObserverInfo := infos; mObservers := obs |},
            if Nat.eqb (length obs) 1
            then [RegisterSelf OBSERVER_TIMEOUT_EVENT;
                  DaemonAdd timeout_event OBSERVER_TIMEOUT (-1) None]
            else [])
  end.

(** The lock is taken for each observer; [clock] is what the clock says then. *)
Fixpoint createObservers (count : nat) (clock : nat -> Z) (rand : list Z) st
  : option (list string * EventService * list EventEffect) :=
  match count with
  | O => Some ([], st, [])
  | S count =>
      match createObserver (clock count) rand st with
      | None => None
      | Some (id, rand, st, eff) =>
          match createObservers count clock rand st with
          | None => None
          | Some (ids, st, eff') => Some (id :: ids, st, eff ++ eff')
          end
      end
  end.

(** One id of [deleteObservers]. *)
Definition deleteObserver (id : string) st : list string * EventService * list EventEffect :=
  if dm_has (mObservers st) id then
    ([id], {| mObserverInfo := dm_remove (mObserverInfo st) id;
              mObservers := dm_remove (mObservers st) id |}, [UnregisterObserver id])
  else ([], st, []).

(** The last block of [deleteObservers] and of the maintenance. *)
Definition checkEmpty st : list EventEffect :=
  if Nat.eqb (length (mObservers st)) 0 then cleanupObserverTimeoutHandling else [].

Fixpoint deleteObservers (ids : list string) st : list string * EventService * list EventEffect :=
  match ids with
  | [] => ([], st, checkEmpty st)
  | id :: ids =>
      let '(out, st, eff) := deleteObserver id st in
      let '(out', st, eff') := deleteObservers ids st in
      (out ++ out', st, eff ++ eff')
  end.

(** The loop of the maintenance event over the observer information. *)
Fixpoint expireObservers (now : Z) (infos : dmap ObserverInfo) (obs : dmap unit)
  : dmap ObserverInfo * dmap unit * list EventEffect :=
  match infos with
  | [] => ([], obs, [])
  | (id, info) :: infos =>
      if OBSERVER_TIMEOUT <? u64 (now - oi_time info) then
        let eff := if dm_has obs id then [UnregisterObserver id] else [] in
        let '(infos', obs', eff') := expireObservers now infos (dm_remove obs id) in
        (infos', obs', eff ++ eff')
      else
        let '(infos', obs', eff') := expireObservers now infos obs in
        ((id, info) :: infos', obs', eff')
  end.

(** [eventOccurred] for the service itself. *)
Definition maintenance (now : Z) st : EventService * list EventEffect :=
  let '(infos, obs, eff) := expireObservers now (mObserverInfo st) (mObservers st) in
  let st := {| mObserverInfo := infos; mObservers := obs |} in
  (st, eff ++ checkEmpty st).

(** ** Registration *)

Record RegisterEntry := {
  re_id : string;
  re_events : option (Dyn F);
  re_rules : option (list (Dyn F))
}.

(** Ids that are neither "0" nor those of observers. *)
Definition invalidIds st (entries : list RegisterEntry) : list string :=
  map re_id (filter (fun en => negb (String.eqb (re_id en) "0") &&
                               negb (dm_has (mObservers st) (re_id en)) = true) entries).

Definition registerEntry (now : Z) (id : string) (en : RegisterEntry) st
  : EventService * list EventEffect :=
  (touch_info id (fun info =>
     set_access now (set_rules (oi_rules info ++ default [] (re_rules en)) info)) st,
   match re_events en with Some evs => [RegisterObserver id evs] | None => [] end).

Fixpoint registerEntries (now : Z) (rand : list Z) (entries : list RegisterEntry) st
  : option (list string * EventService * list EventEffect) :=
  match entries with
  | [] => Some ([], st, [])
  | en :: entries =>
      match (if String.eqb (re_id en) "0" then createObserver now rand st
             else Some (re_id en, rand, st, [])) with
      | None => None
      | Some (id, rand, st, eff1) =>
          let '(st, eff2) := registerEntry now id en st in
          match registerEntries now rand entries st with
          | None => None
          | Some (out, st, eff3) => Some (id :: out, st, eff1 ++ eff2 ++ eff3)
          end
      end
  end.

(** All observers are checked before any is registered. *)
Definition registerObservers (now : Z) (rand : list Z) (entries : list RegisterEntry) st
  : option (outcome (list string) * EventService * list EventEffect) :=
  match invalidIds st entries with
  | [] =>
      match registerEntries now rand entries st with
      | None => None
      | Some (out, st, eff) => Some (Ok out, st, eff)
      end
  | _ => Some (Raise "bitmunk.webui.EventService.ObserverNotFound", st, [])
  end.

Record UnregisterEntry := {
  ue_id : string;
  ue_events : option string;
  ue_rules : option (list (Dyn F))
}.

Definition unregisterEntry (en : UnregisterEntry) st
  : list string * EventService * list EventEffect :=
  if dm_has (mObservers st) (ue_id en) then
    if Nat.eqb (String.length (default "" (ue_events en))) 0 &&
       Nat.eqb (length (default [] (ue_rules en))) 0
    then ([ue_id en], touch_info (ue_id en) (set_rules []) st, [UnregisterObserver (ue_id en)])
    else
      let eff := match ue_events en with
                 | Some evs => [UnregisterObserverFrom (ue_id en) evs]
                 | None => []
                 end in
      let st := foldl (fun st removeRule =>
        touch_info (ue_id en) (fun info =>
          set_rules (filter (fun rule => dyn_eqb removeRule rule = false) (oi_rules info)) info) st)
        st (default [] (ue_rules en)) in
      ([ue_id en], st, eff)
  else ([], st, []).

Fixpoint unregisterObservers (entries : list UnregisterEntry) st
  : list string * EventService * list EventEffect :=
  match entries with
  | [] => ([], st, [])
  | en :: entries =>
      let '(out, st, eff) := unregisterEntry en st in
      let '(out', st, eff') := unregisterObservers entries st in
      (out ++ out', st, eff ++ eff')
  end.

(** ** Polling *)

Record AddEntry := {
  ae_event : Dyn F;
  ae_interval : Z;
  ae_count : Z;
  ae_refs : Z
}.

(** An event, or the type of the events, to remove. *)
Record RemoveEntry := {
  rm_event : option (Dyn F);
  rm_eventType : string;
  rm_interval : option Z;
  rm_refs : Z
}.

Definition sendEffects (send : list (Dyn F)) (add : list AddEntry) (remove : list RemoveEntry)
  : list EventEffect :=
  map Schedule send ++
  map (fun a => DaemonAdd (ae_event a) (ae_interval a) (ae_count a) (Some (ae_refs a))) add ++
  map (fun r => match rm_event r with
                | Some e => DaemonRemove e (rm_interval r) (rm_refs r)
                | None => DaemonRemoveType (rm_eventType r) (Some (rm_refs r))
                end) remove.

(** One observer of an iteration of the poll loop. *)
Definition receive (now : Z) (id : string) (s : EventService * dmap (list (Dyn F)))
  : EventService * dmap (list (Dyn F)) :=
  let '(st, out) := s in
  match dm_get (mObserverInfo st) id with
  | None => (st, out)
  | Some info =>
      if Nat.ltb 0 (length (oi_events info)) then
        (with_info (dm_set (mObserverInfo st) id (set_access now (set_events [] info))) st,
         dm_set out id (oi_events info))
      else (with_info (dm_set (mObserverInfo st) id (set_access now info)) st, out)
  end.

Definition receiveAll (now : Z) (ids : list string) st : EventService * dmap (list (Dyn F)) :=
  foldl (fun s id => receive now id s) (st, []) ids.

(** What an iteration of the loop meets: what the other threads did to the service
    before it took the lock, the clock, and how its sleep ends. *)
Record PollEnv := {
  pe_others : EventService -> EventService;
  pe_now : Z;
  pe_sleep : outcome unit;
  pe_closed : bool
}.

(** [fuel] bounds the iterations; [None] when it runs out. *)
Fixpoint pollLoop (fuel : nat) (env : nat -> PollEnv) (ids : list string)
  (remaining pollInterval : Z) st : option (outcome (dmap (list (Dyn F))) * EventService) :=
  match fuel with
  | O => None
  | S fuel =>
      let pe := env O in
      let '(st, out) := receiveAll (pe_now pe) ids (pe_others pe st) in
      let again remaining :=
        if Nat.eqb (length out) 0 && (0 <? remaining) && (0 <? pollInterval)
        then pollLoop fuel (fun n => env (S n)) ids remaining pollInterval st
        else Some (Ok out, st) in
      if Nat.eqb (length out) 0 && (0 <? pollInterval) then
        if pollInterval <=? remaining then
          match pe_sleep pe with
          | Raise e => Some (Raise e, st)
          | Ok _ => if pe_closed pe then Some (Raise "monarch.net.Socket", st)
                    else again (remaining - pollInterval)
          end
        else again remaining
      else again remaining
  end.

Definition POLL_TIME : Z := 4 * 60 * 1000.

Definition getEvents (fuel : nat) (env : nat -> PollEnv)
  (send : list (Dyn F)) (add : list AddEntry) (remove : list RemoveEntry)
  (rcv : option (list string)) (pollInterval : option Z) st
  : option (outcome (dmap (list (Dyn F))) * EventService * list EventEffect) :=
  let eff := sendEffects send add remove in
  match rcv with
  | None => Some (Ok [], st, eff)
  | Some ids =>
      if forallb (dm_has (mObserverInfo st)) ids then
        match pollLoop fuel env ids POLL_TIME (default 0 pollInterval) st with
        | None => None
        | Some (o, st) => Some (o, st, eff)
        end
      else Some (Raise "bitmunk.webui.EventService.ObserverNotFound", st, eff)
  end.

(** ** Steps of the service

    The blocks under the observer lock, in any order. *)

Inductive Step :=
| StCreate (now : Z) (rand : list Z)
| StDelete (id : string)
| StCheckEmpty
| StMaintenance (now : Z)
| StEvent (id : string) (e : Dyn F)
| StRegister (now : Z) (rand : list Z) (entries : list RegisterEntry)
| StUnregister (en : UnregisterEntry)
| StReceive (now : Z) (ids : list string).

(** The state after a step, what it asks for and the events it delivers. *)
Definition estep st (s : Step)
  : EventService * list EventEffect * dmap (list (Dyn F)) :=
  match s with
  | StCreate now rand =>
      match createObserver now rand st with
      | Some (_, _, st', eff) => (st', eff, [])
      | None => (st, [], [])
      end
  | StDelete id => let '(_, st', eff) := deleteObserver id st in (st', eff, [])
  | StCheckEmpty => (st, checkEmpty st, [])
  | StMaintenance now => let '(st', eff) := maintenance now st in (st', eff, [])
  | StEvent id e => (observerEvent id e st, [], [])
  | StRegister now rand entries =>
      match registerObservers now rand entries st with
      | Some (_, st', eff) => (st', eff, [])
      | None => (st, [], [])
      end
  | StUnregister en => let '(_, st', eff) := unregisterEntry en st in (st', eff, [])
  | StReceive now ids => let '(st', out) := receiveAll now ids st in (st', [], out)
  end.

Definition after st (s : Step) : EventService := (estep st s).1.1.
Definition effects st (s : Step) : list EventEffect := (estep st s).1.2.
Definition delivery st (s : Step) : dmap (list (Dyn F)) := (estep st s).2.

Fixpoint run st (l : list Step) : EventService :=
  match l with [] => st | s :: l => run (after st s) l end.

Fixpoint run_effects st (l : list Step) : list EventEffect :=
  match l with [] => [] | s :: l => effects st s ++ run_effects (after st s) l end.

(** The events delivered for one observer, in order. *)
Fixpoint delivered (id : string) st (l : list Step) : list (Dyn F) :=
  match l with
  | [] => []
  | s :: l => dm_get_or (delivery st s) id [] ++ delivered id (after st s) l
  end.

(** The events that occurred for one observer, in order. *)
Definition occurred (id : string) (l : list Step) : list (Dyn F) :=
  flat_map (fun s => match s with
                     | StEvent i e => if String.eqb i id then [e] else []
                     | _ => []
                     end) l.

Definition queue (id : string) st : list (Dyn F) :=
  oi_events (dm_get_or (mObserverInfo st) id no_info).
Definition rules (id : string) st : list (Dyn F) :=
  oi_rules (dm_get_or (mObserverInfo st) id no_info).

(** The observer is there before every step, and after the last. *)
Fixpoint alive (id : string) st (l : list Step) : bool :=
  dm_has (mObserverInfo st) id &&
  match l with [] => true | s :: l => alive id (after st s) l end.

(** It has no coalesce rules before any step. *)
Fixpoint ruleless (id : string) st (l : list Step) : bool :=
  Nat.eqb (length (rules id st)) 0 &&
  match l with [] => true | s :: l => ruleless id (after st s) l end.

(** Is the maintenance event on, after these effects? *)
Definition maintained (on : bool) (eff : list EventEffect) : bool :=
  foldl (fun on x => match x with
                     | RegisterSelf _ => true
                     | UnregisterSelf _ => false
                     | _ => on
                     end) on eff.

(** ** Properties *)

(** Induction over a value and the values inside it. *)
Lemma Dyn_nested_ind (P : Dyn F -> Prop) :
  (forall s, P (DString s)) -> (forall b, P (DBoolean b)) -> (forall z, P (DInt32 z)) ->
  (forall z, P (DUInt32 z)) -> (forall z, P (DInt64 z)) -> (forall z, P (DUInt64 z)) ->
  (forall f, P (DDouble f)) -> (forall m, Forall (fun mv => P mv.2) m -> P (DMap m)) ->
  (forall l, Forall P l -> P (DArray l)) -> forall d, P d.
Proof.
  intros Hs Hb H1 H2 H3 H4 Hf Hm Ha. fix IH 1. intros [s|b|z|z|z|z|f|m|l];
    [apply Hs|apply Hb|apply H1|apply H2|apply H3|apply H4|apply Hf| |].
  - apply Hm. induction m as [|[k v] m IHm]; constructor; [apply IH|exact IHm].
  - apply Ha. induction l as [|v l IHl]; constructor; [apply IH|exact IHl].
Qed.

(** A rule that relates two events applies to each of them alone. *)
Lemma applyCoalesceRule_alone rule : forall e ne,
  applyCoalesceRule rule e (Some ne) = true -> applyCoalesceRule rule e None = true.
Proof.
  induction rule as [| | | | | | |m IH|l IH] using Dyn_nested_ind; intros e ne; simpl; try done.
  - destruct e; try done. destruct ne; try done. rewrite !forallb_forall. intros Hall [k v] Hin.
    specialize (Hall _ Hin). rewrite Forall_forall in IH.
    specialize (IH _ (proj2 (list_elem_of_In _ _) Hin)). simpl in *.
    destruct (dm_get m0 k); [|done]. destruct (dm_get m1 k); [|done]. by eapply IH.
  - destruct e as [| | | | | | | |l1]; try done. destruct ne as [| | | | | | | |l2]; try done.
    revert l1 l2. induction IH as [|v l Hv _ IHl]; intros [|x1 l1] [|x2 l2]; simpl; try done.
    intros [Hx Hl]%andb_prop. by rewrite (Hv _ _ Hx), (IHl _ _ Hl).
Qed.

(** Does some rule relate the new event to a queued one? *)
Definition related (rs : list (Dyn F)) (e ne : Dyn F) : bool :=
  existsb (fun rule => applyCoalesceRule rule e (Some ne)) rs.

Lemma coalesce_filter e l rule :
  coalesce e l rule = filter (fun ne => applyCoalesceRule rule e (Some ne) = false) l.
Proof.
  unfold coalesce. destruct (applyCoalesceRule rule e None) eqn:E; [done|].
  symmetry. apply filter_all. intros ne _.
  apply not_true_is_false. intros ?%applyCoalesceRule_alone. congruence.
Qed.

Lemma coalesce_all e l rs :
  foldl (coalesce e) l rs = filter (fun ne => related rs e ne = false) l.
Proof.
  revert l. induction rs as [|rule rs IH]; intros l; simpl.
  - symmetry. by apply filter_all.
  - rewrite IH, coalesce_filter, list_filter_filter. apply list_filter_iff. intros ne.
    unfold related. simpl. rewrite orb_false_iff. tauto.
Qed.

(** *** Polling *)

Definition quiet (ids : list string) st : Prop := forall id, id ∈ ids -> queue id st = [].

Lemma queue_set id i x st :
  queue id (with_info (dm_set (mObserverInfo st) i x) st) =
  if String.eqb id i then oi_events x else queue id st.
Proof.
  unfold queue, dm_get_or, with_info. simpl. destruct (String.eqb_spec id i) as [->|?].
  - by rewrite dm_get_set_eq.
  - by rewrite dm_get_set_ne by congruence.
Qed.

Lemma queue_get id st info : dm_get (mObserverInfo st) id = Some info -> queue id st = oi_events info.
Proof. unfold queue, dm_get_or. by intros ->. Qed.

Lemma receive_quiet now ids i st :
  i ∈ ids -> quiet ids st -> exists st', receive now i (st, []) = (st', []) /\ quiet ids st'.
Proof.
  intros Hi Hq. simpl. destruct (dm_get (mObserverInfo st) i) as [info|] eqn:E; [|by exists st].
  assert (oi_events info = []) as Hinfo by (rewrite <-(queue_get _ _ _ E); by apply Hq).
  rewrite Hinfo. simpl. eexists. split; [reflexivity|]. intros id Hid. rewrite queue_set.
  destruct (String.eqb_spec id i) as [->|?]; [done|by apply Hq].
Qed.

Lemma receiveAll_quiet now ids st :
  quiet ids st -> exists st', receiveAll now ids st = (st', []) /\ quiet ids st'.
Proof.
  unfold receiveAll. assert (forall l st, l ⊆ ids -> quiet ids st -> exists st',
    foldl (fun s id => receive now id s) (st, []) l = (st', []) /\ quiet ids st') as Hl.
  { induction l as [|i l IH]; intros st0 Hsub Hq; cbn [foldl]; [by exists st0|].
    destruct (receive_quiet now ids i st0) as (st1 & -> & Hq1); [set_solver|done|].
    apply IH; [set_solver|done]. }
  by apply Hl.
Qed.

Lemma pollLoop_divides n ids p : 0 < p -> forall fuel env st,
  (n < fuel)%nat -> is_Some (pollLoop fuel env ids (Z.of_nat n * p) p st).
Proof.
  intros Hp. induction n as [|n IH]; intros [|fuel] env st Hf; try lia; cbn [pollLoop];
    destruct (receiveAll _ _ _) as [st' out]; replace (0 <? p) with true by lia;
    (destruct (Nat.eqb (length out) 0); [cbn [andb]|by eexists]).
  - change (Z.of_nat 0 * p) with 0. replace (p <=? 0) with false by lia. by eexists.
  - rewrite (proj2 (Z.leb_le p (Z.of_nat (S n) * p))) by nia.
    destruct (pe_sleep _); [|by eexists]. destruct (pe_closed _); [by eexists|].
    replace (Z.of_nat (S n) * p - p) with (Z.of_nat n * p) by lia.
    destruct (0 <? _); [apply IH; lia|by eexists].
Qed.

Lemma pollLoop_once n ids r env st : is_Some (pollLoop (S n) env ids r 0 st).
Proof.
  simpl. destruct (receiveAll _ _ _) as [st' out]. rewrite !andb_false_r. by eexists.
Qed.

Lemma pollLoop_spins fuel ids p : 0 < p -> forall env remaining st,
  0 < remaining -> ~ (p | remaining) -> quiet ids st ->
  (forall n st', quiet ids st' -> quiet ids (pe_others (env n) st')) ->
  (forall n, Z.of_nat n < remaining / p ->
     pe_sleep (env n) = Ok tt /\ pe_closed (env n) = false) ->
  pollLoop fuel env ids remaining p st = None.
Proof.
  intros Hp. induction fuel as [|fuel IH]; intros env remaining st Hr Hnd Hq Hoth Henv; [done|].
  simpl. destruct (receiveAll_quiet (pe_now (env O)) ids (pe_others (env O) st)) as (st' & -> & Hq').
  { by apply Hoth. }
  simpl. replace (0 <? p) with true by lia. destruct (Z.leb_spec p remaining) as [Hle|Hgt].
  - destruct (Henv O) as [-> ->].
    { assert (1 <= remaining / p) by (apply Z.div_le_lower_bound; lia). lia. }
    assert (~ (p | remaining - p)) as Hnd'.
    { intros Hd. apply Hnd. replace remaining with (remaining - p + p) by lia.
      apply Z.divide_add_r; [done|reflexivity]. }
    assert (remaining - p <> 0) by (intros Hz; apply Hnd'; rewrite Hz; apply Z.divide_0_r).
    replace (0 <? remaining - p) with true by lia. simpl. apply IH; try done; [lia|auto|].
    intros n Hn. apply Henv. replace remaining with (remaining - p + 1 * p) by lia.
    rewrite Z.div_add by lia. lia.
  - replace (0 <? remaining) with true by lia. simpl. apply IH; try done; [auto|].
    intros n. rewrite Z.div_small by lia. lia.
Qed.

(** *** Invariants *)

(** Observers and their information go together. *)
Definition ev_inv st : Prop :=
  dm_wf (mObserverInfo st) /\
  forall id, dm_has (mObservers st) id = dm_has (mObserverInfo st) id.

Lemma freshId_fresh infos rand id rand' :
  freshId infos rand = Some (id, rand') -> dm_has infos id = false.
Proof. induction rand as [|n rand IH]; simpl; [done|]. case_match; [done|]. by intros [= <- <-]. Qed.

(** How an operation treats an observer that is there: it keeps it and its queue. *)
Definition keeps st st' : Prop :=
  forall id info, dm_get (mObserverInfo st) id = Some info ->
  exists info', dm_get (mObserverInfo st') id = Some info' /\ oi_events info' = oi_events info.

#[local] Instance keeps_preorder : PreOrder keeps.
Proof.
  split; [by intros st id info ?; eexists|].
  intros s1 s2 s3 H12 H23 id info Hg. destruct (H12 _ _ Hg) as (i2 & Hg2 & He2).
  destruct (H23 _ _ Hg2) as (i3 & Hg3 & He3). exists i3. split; congruence.
Qed.

Lemma touch_info_keeps id f st :
  (forall info, oi_events (f info) = oi_events info) -> keeps st (touch_info id f st).
Proof.
  intros Hf i info Hg. unfold touch_info, with_info. simpl.
  destruct (decide (i = id)) as [->|?].
  - rewrite dm_get_set_eq. eexists. split; [reflexivity|]. unfold dm_get_or. rewrite Hg. apply Hf.
  - rewrite dm_get_set_ne by congruence. by eexists.
Qed.

Lemma touch_info_inv id f st :
  dm_has (mObserverInfo st) id = true -> ev_inv st -> ev_inv (touch_info id f st).
Proof.
  intros Hid [Hwf Hk]. split; simpl; [by apply dm_wf_set|].
  intros i. rewrite dm_has_set, Hk. destruct (String.eqb_spec i id) as [->|?]; simpl; congruence.
Qed.

Lemma touch_info_has id f st i :
  dm_has (mObserverInfo st) id = true ->
  dm_has (mObserverInfo (touch_info id f st)) i = dm_has (mObserverInfo st) i.
Proof.
  intros Hid. simpl. rewrite dm_has_set. destruct (String.eqb_spec i id) as [->|?]; simpl; congruence.
Qed.

(** While there are observers, the maintenance event is on. *)
Definition covered (on : bool) st : Prop := mObservers st <> [] -> on = true.

Lemma maintained_app on e1 e2 : maintained on (e1 ++ e2) = maintained (maintained on e1) e2.
Proof. unfold maintained. by rewrite foldl_app. Qed.

Lemma keeps_has st st' id :
  keeps st st' -> dm_has (mObserverInfo st) id = true -> dm_has (mObserverInfo st') id = true.
Proof.
  intros Hk [info Hg]%dm_has_true. destruct (Hk _ _ Hg) as (info' & Hg' & _).
  apply dm_has_true. by eexists.
Qed.

(** What an operation that drops no observer promises. *)
Definition extends st st' (eff : list EventEffect) : Prop :=
  (ev_inv st -> ev_inv st') /\ keeps st st' /\
  forall on, covered on st -> covered (maintained on eff) st'.

Lemma extends_refl st : extends st st [].
Proof. split; [done|]. split; [reflexivity|]. by intros on. Qed.

Lemma extends_trans s1 s2 s3 e1 e2 :
  extends s1 s2 e1 -> extends s2 s3 e2 -> extends s1 s3 (e1 ++ e2).
Proof.
  intros (Hi1 & Hk1 & Hc1) (Hi2 & Hk2 & Hc2). split; [auto|]. split; [by etrans|].
  intros on Hon. rewrite maintained_app. auto.
Qed.

Lemma createObserver_extends now rand st id rand' st' eff :
  createObserver now rand st = Some (id, rand', st', eff) ->
  extends st st' eff /\ dm_has (mObserverInfo st') id = true.
Proof.
  unfold createObserver. destruct (freshId _ _) as [[i r]|] eqn:Ef; [|done].
  apply freshId_fresh in Ef. intros [= <- <- <- <-]. simpl.
  split; [|by rewrite dm_has_set, String.eqb_refl]. split; [|split].
  - intros [Hwf Hk]. split; simpl; [by apply dm_wf_set|]. intros id. rewrite dm_has_set, <-Hk.
    rewrite <-Hk in Ef. rewrite Ef. apply dm_has_set.
  - intros id info Hg. simpl. rewrite dm_get_set_ne; [by eexists|].
    intros ->. apply dm_has_false in Ef. congruence.
  - unfold covered. intros on Hc _. destruct (mObservers st) as [|o l]; [reflexivity|].
    rewrite Hc by done. by case_match.
Qed.

Lemma touch_info_extends id f st eff :
  (forall info, oi_events (f info) = oi_events info) -> dm_has (mObserverInfo st) id = true ->
  (forall on, maintained on eff = on) -> extends st (touch_info id f st) eff.
Proof.
  intros Hf Hid He. split; [by apply touch_info_inv|]. split; [by apply touch_info_keeps|].
  intros on Hc. by rewrite He.
Qed.

Definition known st (en : RegisterEntry) : Prop :=
  re_id en = "0" \/ dm_has (mObserverInfo st) (re_id en) = true.

Lemma invalidIds_nil st entries :
  ev_inv st -> invalidIds st entries = [] -> Forall (known st) entries.
Proof.
  intros [_ Hk] Hn%map_eq_nil. apply Forall_forall. intros en Hin. unfold known.
  destruct (String.eqb_spec (re_id en) "0") as [->|Hne]; [by left|right].
  apply not_false_is_true. intros Hf.
  apply (filter_nil_not_elem_of _ _ en Hn); [|done]. rewrite Hk, Hf.
  by destruct (String.eqb_spec (re_id en) "0").
Qed.

Lemma registerEntries_extends now entries : forall rand st out st' eff,
  Forall (known st) entries ->
  registerEntries now rand entries st = Some (out, st', eff) -> extends st st' eff.
Proof.
  induction entries as [|en entries IH]; intros rand st out st' eff Hval; simpl.
  { intros [= _ <- <-]. apply extends_refl. }
  inversion Hval as [|? ? Hen Hval']; subst.
  destruct (if String.eqb (re_id en) "0" then _ else _) as [[[[id r] st1] eff1]|] eqn:E1; [|done].
  destruct (registerEntries _ _ _ _) as [[[out' st3] eff3]|] eqn:E3; [|done].
  intros [= <- <- <-].
  assert (extends st st1 eff1 /\ dm_has (mObserverInfo st1) id = true) as (Hx1 & Hid).
  { destruct (String.eqb_spec (re_id en) "0") as [E0|E0].
    - by eapply createObserver_extends.
    - injection E1 as <- <- <- <-. split; [apply extends_refl|]. by destruct Hen. }
  assert (extends st1 (registerEntry now id en st1).1
    (match re_events en with Some evs => [RegisterObserver id evs] | None => [] end)) as Hx2.
  { apply touch_info_extends; [done..|]. by destruct (re_events en). }
  apply (extends_trans _ _ _ _ _ Hx1), (extends_trans _ _ _ _ _ Hx2).
  eapply IH; [|exact E3]. eapply Forall_impl; [exact Hval'|]. intros x [?|Hx]; [by left|right].
  eapply keeps_has; [apply Hx2|]. eapply keeps_has; [apply Hx1|done].
Qed.

Lemma unregisterEntry_extends en st out st' eff :
  ev_inv st -> unregisterEntry en st = (out, st', eff) -> extends st st' eff.
Proof.
  intros Hinv. unfold unregisterEntry.
  destruct (dm_has (mObservers st) (ue_id en)) eqn:Hh.
  2:{ intros [= _ <- <-]. apply extends_refl. }
  rewrite (proj2 Hinv) in Hh. case_match; intros [= _ <- <-].
  { by apply touch_info_extends. }
  set (eff := match ue_events en with Some _ => _ | None => _ end).
  assert (forall on, maintained on eff = on) as He by (subst eff; by destruct (ue_events en)).
  clearbody eff. clear Hinv H. revert st Hh.
  induction (default [] (ue_rules en)) as [|rule l IH]; intros st Hh; simpl.
  { split; [done|]. split; [reflexivity|]. intros on Hc. by rewrite He. }
  eapply (extends_trans _ _ _ [] eff); [|apply IH; by rewrite touch_info_has].
  by apply touch_info_extends.
Qed.

Definition expired (now : Z) info : bool := OBSERVER_TIMEOUT <? u64 (now - oi_time info).

(** The information that is left, and who is dropped. *)
Definition unexpired (now : Z) (infos : dmap ObserverInfo) (id : string) : option ObserverInfo :=
  match dm_get infos id with
  | Some info => if expired now info then None else Some info
  | None => None
  end.

Lemma expireObservers_keys now infos obs infos' obs' eff :
  expireObservers now infos obs = (infos', obs', eff) ->
  dm_keys infos' ⊆ dm_keys infos /\ (dm_wf infos -> dm_wf infos') /\
  forall on, maintained on eff = on.
Proof.
  revert obs infos' obs' eff. induction infos as [|[k info] infos IH]; intros obs i o e; simpl.
  { by intros [= <- _ <-]. }
  case_match.
  - destruct (expireObservers _ _ _) as [[i' o'] e'] eqn:E. intros [= <- <- <-].
    apply IH in E as (Hsub & Hwf & Hon). split; [set_solver|]. split.
    + by intros [? _]%dm_wf_cons; apply Hwf.
    + intros on. rewrite maintained_app. by destruct (dm_has obs k).
  - destruct (expireObservers _ _ _) as [[i' o'] e'] eqn:E. intros [= <- <- <-].
    apply IH in E as (Hsub & Hwf & Hon). split; [unfold dm_keys in *; set_solver|]. split; [|done].
    intros [? Hall]%dm_wf_cons. apply dm_wf_cons. split; [by apply Hwf|].
    rewrite Forall_forall in Hall |- *. auto.
Qed.

Lemma expireObservers_get now infos obs infos' obs' eff :
  dm_wf infos -> expireObservers now infos obs = (infos', obs', eff) -> forall id,
  dm_get infos' id = unexpired now infos id /\
  dm_has obs' id = dm_has obs id &&
    match dm_get infos id with Some info => negb (expired now info) | None => true end.
Proof.
  revert obs infos' obs' eff. induction infos as [|[k info] infos IH]; intros obs i o e Hwf; simpl.
  { intros [= <- <- _] id. by rewrite andb_true_r. }
  apply dm_wf_cons in Hwf as [Hwf Hall].
  assert (dm_get infos k = None) as Hk.
  { apply dm_get_None. intros Hin. rewrite Forall_forall in Hall.
    by destruct (key_lt_irrefl k), (Hall k Hin). }
  unfold unexpired, expired at 1. simpl. destruct (_ <? _) eqn:Ex;
    destruct (expireObservers _ _ _) as [[i' o'] e'] eqn:E; intros [= <- <- <-] id;
    destruct (IH _ _ _ _ Hwf E id) as [Hg Ho]; simpl.
  - rewrite Hg, Ho, dm_has_remove. unfold unexpired, expired.
    destruct (String.eqb_spec id k) as [->|?]; simpl; [|done].
    by rewrite Hk, Ex, andb_false_r.
  - rewrite Hg, Ho. unfold unexpired, expired.
    destruct (String.eqb_spec id k) as [->|?]; simpl; [|done]. by rewrite Hk, Ex.
Qed.

Lemma checkEmpty_covered on st : covered on st -> covered (maintained on (checkEmpty st)) st.
Proof. unfold covered, checkEmpty. by destruct (mObservers st). Qed.

Lemma maintenance_step now st st' eff :
  ev_inv st -> maintenance now st = (st', eff) ->
  ev_inv st' /\ (forall id, dm_get (mObserverInfo st') id = unexpired now (mObserverInfo st) id) /\
  forall on, covered on st -> covered (maintained on eff) st'.
Proof.
  intros [Hwf Hk]. unfold maintenance.
  destruct (expireObservers _ _ _) as [[infos obs] e] eqn:E. intros [= <- <-].
  pose proof (expireObservers_get _ _ _ _ _ _ Hwf E) as Hg.
  destruct (expireObservers_keys _ _ _ _ _ _ E) as (_ & Hwf' & Hon). split; [|split].
  - split; simpl; [by apply Hwf'|]. intros id. destruct (Hg id) as [Hi Ho].
    rewrite Ho, Hk. unfold dm_has. rewrite Hi. unfold unexpired.
    destruct (dm_get (mObserverInfo st) id) as [info|]; [|done]. by destruct (expired now info).
  - intros id. apply Hg.
  - intros on Hc. rewrite maintained_app, Hon. apply checkEmpty_covered. unfold covered in *. simpl.
    intros Hne. apply Hc. intros Hz. destruct obs as [|[k u] obs]; [done|].
    destruct (Hg k) as [_ Ho]. unfold dm_has in Ho at 1. simpl in Ho.
    rewrite String.eqb_refl, Hz in Ho. done.
Qed.

Lemma deleteObserver_step i st out st' eff :
  ev_inv st -> deleteObserver i st = (out, st', eff) ->
  ev_inv st' /\ (forall id, dm_has (mObserverInfo st') id = true ->
    dm_get (mObserverInfo st') id = dm_get (mObserverInfo st) id) /\
  forall on, covered on st -> covered (maintained on eff) st'.
Proof.
  intros [Hwf Hk]. unfold deleteObserver. destruct (dm_has (mObservers st) i) eqn:Hi.
  2:{ by intros [= _ <- <-]. }
  intros [= _ <- <-]. split; [|split].
  - split; simpl; [by apply dm_wf_remove|]. intros id. by rewrite !dm_has_remove, Hk.
  - simpl. intros id Hid. rewrite dm_has_remove in Hid. apply dm_get_remove_ne.
    intros ->. by rewrite String.eqb_refl in Hid.
  - intros on Hc _. simpl. apply Hc. by destruct (mObservers st).
Qed.

(** *** Delivery *)

Abbreviation got out id := (dm_get_or out id []).

Lemma receive_conserves now i st out st' out' :
  receive now i (st, out) = (st', out') ->
  (ev_inv st -> ev_inv st') /\ mObservers st' = mObservers st /\
  forall id, (got out id = [] \/ queue id st = []) ->
  (got out' id = [] \/ queue id st' = []) /\ got out' id ++ queue id st' = got out id ++ queue id st.
Proof.
  cbn [receive]. destruct (dm_get (mObserverInfo st) i) as [info|] eqn:Hg; [|by intros [= <- <-]].
  assert (forall x, ev_inv st -> ev_inv (with_info (dm_set (mObserverInfo st) i x) st)) as Hinv.
  { intros x [Hwf Hk]. split; simpl; [by apply dm_wf_set|]. intros id. rewrite dm_has_set, Hk.
    destruct (String.eqb_spec id i) as [->|?]; [|done]. apply dm_has_true. by eexists. }
  pose proof (queue_get _ _ _ Hg) as Hq.
  destruct (Nat.ltb_spec 0 (length (oi_events info))) as [Hl|Hl]; intros [= <- <-];
    (split; [by apply Hinv|]); (split; [done|]); intros id Hor; rewrite queue_set;
    destruct (String.eqb_spec id i) as [->|?].
  - unfold dm_get_or. rewrite dm_get_set_eq. simpl. split; [by right|].
    destruct Hor as [Ho|Ho]; [|rewrite Hq in Ho; rewrite Ho in Hl; simpl in Hl; lia].
    unfold dm_get_or in Ho. by rewrite Ho, Hq, app_nil_r.
  - unfold dm_get_or in *. by rewrite dm_get_set_ne by congruence.
  - simpl. by rewrite <-Hq.
  - done.
Qed.

Lemma receiveAll_conserves now ids st st' out :
  receiveAll now ids st = (st', out) ->
  (ev_inv st -> ev_inv st') /\ mObservers st' = mObservers st /\
  forall id, got out id ++ queue id st' = queue id st.
Proof.
  unfold receiveAll. assert (forall l st0 out0 st1 out1,
    foldl (fun s id => receive now id s) (st0, out0) l = (st1, out1) ->
    (ev_inv st0 -> ev_inv st1) /\ mObservers st1 = mObservers st0 /\
    forall id, (got out0 id = [] \/ queue id st0 = []) ->
    got out1 id ++ queue id st1 = got out0 id ++ queue id st0) as Hl.
  { induction l as [|i l IH]; intros st0 out0 st1 out1; cbn [foldl]; [by intros [= <- <-]|].
    destruct (receive now i (st0, out0)) as [s o] eqn:E.
    apply receive_conserves in E as (Hi & Hm & Hc). intros (Hi' & Hm' & Hc')%IH.
    split; [auto|]. split; [congruence|]. intros id Hor. destruct (Hc id Hor) as [Hor' <-]. auto. }
  intros (Hi & Hm & Hc)%Hl. split; [done|]. split; [done|]. intros id. apply Hc. by left.
Qed.

Lemma queue_observerEvent id i e st :
  queue id (observerEvent i e st) =
  if String.eqb id i && dm_has (mObserverInfo st) i
  then filter (fun ne => related (rules i st) e ne = false) (queue i st) ++ [e]
  else queue id st.
Proof.
  unfold observerEvent, dm_has. destruct (dm_get _ i) as [info|] eqn:E; [|by rewrite andb_false_r].
  rewrite queue_set, andb_true_r. case_match; [|done]. simpl. rewrite coalesce_all.
  unfold rules, queue, dm_get_or. by rewrite E.
Qed.

Lemma observerEvent_inv i e st :
  (ev_inv st -> ev_inv (observerEvent i e st)) /\ mObservers (observerEvent i e st) = mObservers st.
Proof.
  unfold observerEvent. destruct (dm_get _ i) as [info|] eqn:E; [|done]. split; [|done].
  intros [Hwf Hk]. split; simpl; [by apply dm_wf_set|]. intros id. rewrite dm_has_set, Hk.
  destruct (String.eqb_spec id i) as [->|?]; [|done]. apply dm_has_true. by eexists.
Qed.

Lemma registerObservers_extends now rand entries st r st' eff :
  ev_inv st -> registerObservers now rand entries st = Some (r, st', eff) -> extends st st' eff.
Proof.
  intros Hinv. unfold registerObservers. destruct (invalidIds st entries) eqn:Hv.
  - apply invalidIds_nil in Hv; [|done].
    destruct (registerEntries _ _ _ _) as [[[o s] x]|] eqn:E; [|done]. intros [= _ <- <-].
    by eapply registerEntries_extends.
  - intros [= _ <- <-]. apply extends_refl.
Qed.

Lemma estep_inv st s on :
  ev_inv st -> covered on st ->
  ev_inv (after st s) /\ covered (maintained on (effects st s)) (after st s).
Proof.
  intros Hinv Hon. unfold after, effects.
  destruct s as [now rand|id| |now|id e|now rand entries|en|now ids]; simpl.
  - destruct (createObserver _ _ _) as [[[[id r] st'] eff]|] eqn:E; [|done].
    apply createObserver_extends in E as [(Hi & _ & Hc) _]. simpl. auto.
  - destruct (deleteObserver _ _) as [[out st'] eff] eqn:E.
    apply deleteObserver_step in E as (Hi & _ & Hc); [|done]. simpl. auto.
  - split; [done|by apply checkEmpty_covered].
  - destruct (maintenance _ _) as [st' eff] eqn:E.
    apply maintenance_step in E as (Hi & _ & Hc); [|done]. simpl. auto.
  - destruct (observerEvent_inv id e st) as [Hi Hm]. split; [auto|]. unfold covered. by rewrite Hm.
  - destruct (registerObservers _ _ _ _) as [[[r st'] eff]|] eqn:E; [|done].
    apply registerObservers_extends in E as (Hi & _ & Hc); [|done]. simpl. auto.
  - destruct (unregisterEntry _ _) as [[out st'] eff] eqn:E.
    apply unregisterEntry_extends in E as (Hi & _ & Hc); [|done]. simpl. auto.
  - destruct (receiveAll _ _ _) as [st' out] eqn:E.
    apply receiveAll_conserves in E as (Hi & Hm & _). simpl. split; [auto|]. unfold covered. by rewrite Hm.
Qed.

(** A whole deletion is a sequence of steps, between which others can occur. *)
Lemma deleteObservers_run ids st :
  let l := map StDelete ids ++ [StCheckEmpty] in
  (deleteObservers ids st).1.2 = run st l /\ (deleteObservers ids st).2 = run_effects st l.
Proof.
  revert st. induction ids as [|id ids IH]; intros st; simpl; [by rewrite app_nil_r|].
  unfold after, effects at 1. simpl.
  destruct (deleteObserver id st) as [[out st'] eff]. simpl. destruct (IH st') as [<- <-].
  by destruct (deleteObservers ids st') as [[out' st2] eff'].
Qed.

Lemma keeps_queue st st' id :
  keeps st st' -> dm_has (mObserverInfo st) id = true -> queue id st' = queue id st.
Proof.
  intros Hk [info Hg]%dm_has_true. destruct (Hk _ _ Hg) as (info' & Hg' & He).
  by rewrite (queue_get _ _ _ Hg), (queue_get _ _ _ Hg').
Qed.

(** One step, for an observer that is there before and after it. *)
Lemma estep_delivery id st s :
  ev_inv st -> dm_has (mObserverInfo st) id = true -> dm_has (mObserverInfo (after st s)) id = true ->
  let new := got (delivery st s) id ++ queue id (after st s) in
  let old := queue id st ++ occurred id [s] in
  new `sublist_of` old /\ last new = last old /\ (rules id st = [] -> new = old).
Proof.
  intros Hinv Hb. unfold after, delivery.
  assert (forall a b : list (Dyn F), a = b ->
    a `sublist_of` b /\ last a = last b /\ (rules id st = [] -> a = b)) as Heq by (by intros a b ->).
  destruct s as [now rand|i| |now|i e|now rand entries|en|now ids]; simpl; intros Ha;
    rewrite ?app_nil_r.
  - apply Heq. destruct (createObserver _ _ _) as [[[[j r] st'] eff]|] eqn:E; [|done].
    apply createObserver_extends in E as [(_ & Hk & _) _]. by apply keeps_queue.
  - apply Heq. destruct (deleteObserver _ _) as [[out st'] eff] eqn:E.
    apply deleteObserver_step in E as (_ & Hg & _); [|done]. simpl in *.
    unfold queue, dm_get_or. by rewrite Hg.
  - by apply Heq.
  - apply Heq. destruct (maintenance _ _) as [st' eff] eqn:E.
    apply maintenance_step in E as (_ & Hg & _); [|done]. simpl in *.
    unfold dm_has in Ha. unfold queue, dm_get_or. rewrite Hg in Ha |- *. unfold unexpired in *.
    destruct (dm_get (mObserverInfo st) id) as [info|]; [|done]. by destruct (expired now info).
  - rewrite queue_observerEvent, String.eqb_sym. destruct (String.eqb_spec i id) as [->|?]; simpl.
    + rewrite Hb, !last_snoc. split; [|split; [done|]].
      * apply sublist_app; [|done]. apply sublist_filter.
      * intros ->. by rewrite filter_all.
    + apply Heq. by rewrite app_nil_r.
  - apply Heq. destruct (registerObservers _ _ _ _) as [[[r st'] eff]|] eqn:E; [|done].
    apply registerObservers_extends in E as (_ & Hk & _); [|done]. by apply keeps_queue.
  - apply Heq. destruct (unregisterEntry _ _) as [[out st'] eff] eqn:E.
    apply unregisterEntry_extends in E as (_ & Hk & _); [|done]. by apply keeps_queue.
  - apply Heq. destruct (receiveAll _ _ _) as [st' out] eqn:E.
    apply receiveAll_conserves in E as (_ & _ & Hc). apply Hc.
Qed.

Lemma last_app_r {A} (l1 l2 l3 : list A) : last l2 = last l3 -> last (l1 ++ l2) = last (l1 ++ l3).
Proof. intros H. by rewrite !last_app, H. Qed.
Lemma last_app_l {A} (l1 l2 l3 : list A) : last l1 = last l2 -> last (l1 ++ l3) = last (l2 ++ l3).
Proof. intros H. by rewrite !last_app, H. Qed.

Definition no_observers : EventService := {| mObserverInfo := []; mObservers := [] |}.

Lemma run_app st l1 l2 : run st (l1 ++ l2) = run (run st l1) l2.
Proof. revert st. induction l1; simpl; auto. Qed.

Lemma run_inv l : forall st on, ev_inv st -> covered on st ->
  ev_inv (run st l) /\ covered (maintained on (run_effects st l)) (run st l).
Proof.
  induction l as [|s l IH]; intros st on Hi Hc; simpl; [done|].
  destruct (estep_inv st s on Hi Hc) as [Hi' Hc']. rewrite maintained_app. by apply IH.
Qed.

Lemma no_observers_inv : ev_inv no_observers.
Proof. split; [apply dm_wf_nil|done]. Qed.

(** From the start, whatever blocks of the service run in whatever order: an
    observer has information exactly when it has a delegate, and while there are
    observers the service is registered for the maintenance event, so that idle
    observers are dropped. *)
Theorem observers_maintained l :
  let st := run no_observers l in
  (forall id, dm_has (mObservers st) id = dm_has (mObserverInfo st) id) /\
  (mObservers st <> [] -> maintained false (run_effects no_observers l) = true).
Proof.
  destruct (run_inv l no_observers false no_observers_inv) as [[_ Hk] Hc]; [by intros []|]. by split.
Qed.

(** An event for an observer is put last in its queue, from which exactly the
    events that some coalesce rule relates to it are removed; the order of the others is
    kept.  The test of each rule on the new event alone is only an optimisation. *)
Theorem coalesced_queue id i e st :
  queue id (observerEvent i e st) =
  if String.eqb id i && dm_has (mObserverInfo st) i
  then filter (fun ne => existsb (fun rule => applyCoalesceRule rule e (Some ne)) (rules i st) = false)
         (queue i st) ++ [e]
  else queue id st.
Proof. apply queue_observerEvent. Qed.

(** C34 Events are delivered in order and at most once.  After any steps from the
    start, over any further steps during which an observer is there, what is delivered
    for it and what is left in its queue form a subsequence of what was queued and of the
    events that occurred, with the same last event; with no coalesce rules, nothing is
    lost. *)
Theorem events_delivered l0 l id :
  let st := run no_observers l0 in
  alive id st l = true ->
  let new := delivered id st l ++ queue id (run st l) in
  let old := queue id st ++ occurred id l in
  new `sublist_of` old /\ last new = last old /\ (ruleless id st l = true -> new = old).
Proof.
  intros st. assert (ev_inv st) as Hinv by (by apply (run_inv l0 _ false no_observers_inv); intros []).
  clearbody st. revert st Hinv. induction l as [|s l IH]; intros st Hinv;
    cbn [alive delivered run ruleless].
  { intros _. by rewrite app_nil_r. }
  intros [Hh Ha]%andb_prop.
  assert (dm_has (mObserverInfo (after st s)) id = true) as Hh'.
  { destruct l; simpl in Ha; by apply andb_prop in Ha as [? _]. }
  destruct (estep_delivery id st s Hinv Hh Hh') as (Hsub & Hlast & Heq).
  destruct (IH (after st s)) as (Hsub' & Hlast' & Heq'); [|done|].
  { by apply (estep_inv st s true); [|intros ?]. }
  assert (occurred id (s :: l) = occurred id [s] ++ occurred id l) as Ho.
  { unfold occurred. simpl. by rewrite app_nil_r. }
  rewrite Ho, (assoc_L (++)), <-(assoc_L (++)).
  set (D1 := got (delivery st s) id) in *. split; [|split].
  - etrans; [apply sublist_app; [reflexivity|exact Hsub']|]. rewrite (assoc_L (++)).
    by apply sublist_app.
  - rewrite (last_app_r _ _ _ Hlast'), (assoc_L (++)). by apply last_app_l.
  - intros [Hr Hrs]%andb_prop. rewrite Heq' by done. rewrite (assoc_L (++)), Heq; [done|].
    by destruct (rules id st).
Qed.

(** C35 A request for events returns, with events, with none or with an error, whatever
    the other threads, the clock and the connection do, when it does not poll or when the
    interval divides the four minutes it may wait. *)
Theorem getEvents_returns pollInterval :
  match pollInterval with None => True | Some p => 0 <= p /\ (p = 0 \/ (p | POLL_TIME)) end ->
  exists fuel, forall env send add remove rcv st,
  is_Some (getEvents fuel env send add remove rcv pollInterval st).
Proof.
  intros Hp. exists (S (Z.to_nat (POLL_TIME / default 1 pollInterval))).
  intros env send add remove rcv st.
  unfold getEvents. destruct rcv as [ids|]; [|by eexists].
  destruct (forallb _ ids); [|by eexists].
  match goal with |- context [pollLoop ?n ?e ?i ?r ?p ?s] =>
    assert (is_Some (pollLoop n e i r p s)) as [[o st'] ->]; [|by eexists] end.
  destruct pollInterval as [p|]; simpl default; [|apply pollLoop_once].
  destruct Hp as [Hp [->|[q Hq]]]; [apply pollLoop_once|].
  assert (q * p = 240000) as Hqp by (by rewrite <-Hq).
  assert (0 < p) by (destruct (Z.eq_dec p 0); [subst|]; lia).
  assert (0 <= q) by nia.
  rewrite Hq, Z.div_mul by lia. rewrite <-(Z2Nat.id q) at 2 by lia.
  apply pollLoop_divides; lia.
Qed.

(** With an interval that does not divide the four minutes the request does not
    return as long as no event comes: once less than an interval is left, the loop neither
    sleeps nor looks at the connection. *)
Theorem getEvents_spins env send add remove ids p st :
  0 < p -> ~ (p | POLL_TIME) -> forallb (dm_has (mObserverInfo st)) ids = true -> quiet ids st ->
  (forall n st', quiet ids st' -> quiet ids (pe_others (env n) st')) ->
  (forall n, Z.of_nat n < POLL_TIME / p ->
     pe_sleep (env n) = Ok tt /\ pe_closed (env n) = false) ->
  forall fuel, getEvents fuel env send add remove (Some ids) (Some p) st = None.
Proof.
  intros Hp Hnd Hids Hq Hoth Henv fuel. unfold getEvents. rewrite Hids. simpl default.
  by rewrite pollLoop_spins.
Qed.

(** The maintenance event drops exactly the observers that were last asked for more
    than five minutes ago, and those whose time is ahead of a clock that was set back:
    their age wraps around. *)
Theorem maintenance_expiry l now id info :
  let st := run no_observers l in
  dm_get (mObserverInfo st) id = Some info -> 0 <= now < 2 ^ 64 -> 0 <= oi_time info < 2 ^ 64 ->
  oi_time info + OBSERVER_TIMEOUT < now + 2 ^ 64 ->
  let st' := (maintenance now st).1 in
  dm_has (mObservers st') id = dm_has (mObserverInfo st') id /\
  dm_has (mObservers st') id =
    (oi_time info <=? now) && (now <=? oi_time info + OBSERVER_TIMEOUT).
Proof.
  intros st Hg Hn Ht Hahead. assert (ev_inv st) as Hinv.
  { by apply (run_inv l _ false no_observers_inv); intros []. }
  destruct (maintenance now st) as [st' eff] eqn:E.
  apply maintenance_step in E as ([_ Hk] & Hgs & _); [|done]. cbn [fst].
  split; [apply Hk|]. rewrite Hk. unfold dm_has. rewrite Hgs. unfold unexpired, expired. rewrite Hg.
  change OBSERVER_TIMEOUT with 300000 in *.
  destruct (Z.leb_spec (oi_time info) now).
  - rewrite u64_small by lia. destruct (Z.ltb_spec 300000 (now - oi_time info)),
      (Z.leb_spec now (oi_time info + 300000)); done || lia.
  - assert (u64 (now - oi_time info) = now - oi_time info + 2 ^ 64) as ->.
    { unfold u64. rewrite <-(Z.mod_add _ 1) by lia. rewrite Z.mod_small; lia. }
    by destruct (Z.ltb_spec 300000 (now - oi_time info + 2 ^ 64)); [|lia].
Qed.
End Events.

(** ** Concrete runs *)

Definition event_eqb (a b : Dyn Z) : bool :=
  match a, b with
  | DString x, DString y => String.eqb x y
  | DInt32 x, DInt32 y => x =? y
  | _, _ => false
  end.

Definition progress_event (file : string) (n : Z) : Dyn Z :=
  DMap [("file", DString file); ("progress", DInt32 n)].

(** Only the latest progress of each file is of interest. *)
Definition progress_rule : Dyn Z := DMap [("file", DBoolean true)].

Definition create_steps : list (@Step Z) :=
  [StCreate 1000 [7]; StRegister 1000 [] [{| re_id := "7"; re_events := None;
                                             re_rules := Some [progress_rule] |}]].

Definition poll_steps : list (@Step Z) :=
  [StEvent "7" (progress_event "a" 1); StEvent "7" (progress_event "b" 1);
   StEvent "7" (progress_event "a" 2); StReceive 2000 ["7"]; StEvent "7" (progress_event "b" 2)].

Lemma events_delivered_witness :
  delivered event_eqb "7" (run event_eqb no_observers create_steps) poll_steps =
    [progress_event "b" 1; progress_event "a" 2] /\
  last (delivered event_eqb "7" (run event_eqb no_observers create_steps) poll_steps ++
        queue "7" (run event_eqb (run event_eqb no_observers create_steps) poll_steps)) =
    Some (progress_event "b" 2).
Proof.
  split; [reflexivity|].
  destruct (events_delivered event_eqb create_steps poll_steps "7") as (_ & Hlast & _);
    [reflexivity|]. rewrite Hlast. reflexivity.
Defined.

Lemma getEvents_returns_witness :
  exists fuel, forall env send add remove rcv st,
  is_Some (@getEvents Z fuel env send add remove rcv (Some 1000) st).
Proof. apply getEvents_returns. split; [lia|]. right. by exists 240. Defined.

Definition idle_env : PollEnv :=
  {| pe_others := fun st : @EventService Z => st; pe_now := 5; pe_sleep := Ok tt; pe_closed := false |}.

Lemma getEvents_spins_witness :
  POLL_TIME / 7000 = 34 /\ forall fuel,
  getEvents fuel (fun _ => idle_env) [] [] [] (Some ["7"]) (Some 7000)
    (run event_eqb no_observers create_steps) = None.
Proof.
  split; [reflexivity|]. apply getEvents_spins; [lia| |reflexivity| |done|done].
  - intros [q Hq]. unfold POLL_TIME in Hq. lia.
  - intros id Hid. apply list_elem_of_singleton in Hid as ->. reflexivity.
Defined.

Lemma maintenance_expiry_witness :
  dm_has (mObservers (maintenance 999 (run event_eqb no_observers create_steps)).1) "7" = false.
Proof.
  destruct (maintenance_expiry event_eqb create_steps 999 "7"
    {| oi_events := []; oi_rules := [progress_rule]; oi_time := 1000 |}) as [_ ->];
    [reflexivity|lia|simpl; lia|change OBSERVER_TIMEOUT with 300000; simpl; lia|]. reflexivity.
Defined.
