(* ===== verification/Http.v ===== *)
(** HTTP headers and the C library's string functions.

    The header, the body streams and the compressors that the protocol code uses are
    classes of the Monarch library: an interface with the laws the code relies on, and
    one instance.  [strstr], [strncmp], [strrchr] and [strtoull] are written out. *)
From S2P Require Import Prelude DynMap.
From stdpp Require Import pretty.
From Stdlib Require Import Ascii.

Local Open Scope Z_scope.

(** * Strings *)

(** [strncmp(s, p, strlen(p)) == 0] *)
Definition starts_with (s p : string) : bool := String.prefix p s.

(** [strstr(s, p) != NULL] *)
Fixpoint strstr (s p : string) : bool :=
  String.prefix p s || match s with String _ s' => strstr s' p | EmptyString => false end.

(** The part of [s] before the last [c], if there is one. *)
Fixpoint strrchr (s : string) (c : Ascii.ascii) : option string :=
  match s with
  | EmptyString => None
  | String a s' =>
      match strrchr s' c with
      | Some t => Some (String a t)
      | None => if Ascii.eqb a c then Some EmptyString else None
      end
  end.

(** [tolower] in the C locale. *)
Definition lower_char (c : Ascii.ascii) : Ascii.ascii :=
  let n := Ascii.N_of_ascii c in
  if (65 <=? n)%N && (n <=? 90)%N then Ascii.ascii_of_N (n + 32) else c.

Fixpoint lower (s : string) : string :=
  match s with EmptyString => EmptyString | String c s' => String (lower_char c) (lower s') end.

(** [strcasecmp(a, b) == 0] *)
Definition strcase_eqb (a b : string) : bool := String.eqb (lower a) (lower b).

(** [PRIu64], and [HttpHeader::setField] of an integer. *)
Definition print_u64 (z : Z) : string := pretty (Z.to_N z).

Definition digit_value (c : Ascii.ascii) : option Z :=
  let n := Z.of_N (Ascii.N_of_ascii c) in
  if (48 <=? n) && (n <=? 57) then Some (n - 48) else None.

(** The digits up to the first character that is not one. *)
Fixpoint read_digits (acc : Z) (s : string) : Z :=
  match s with
  | EmptyString => acc
  | String c s' => match digit_value c with
                   | Some d => read_digits (acc * 10 + d) s'
                   | None => acc
                   end
  end.

Definition is_space (c : Ascii.ascii) : bool :=
  let n := Ascii.N_of_ascii c in (n =? 32)%N || ((9 <=? n)%N && (n <=? 13)%N).

Fixpoint skip_spaces (s : string) : string :=
  match s with String c s' => if is_space c then skip_spaces s' else s | EmptyString => s end.

(** [strtoull(s, NULL, 10)]: a value that does not fit reads as the largest one, a
    minus sign negates in the unsigned type. *)
Definition strtoull (s : string) : Z :=
  let clamp v := if v <? 2 ^ 64 then v else 2 ^ 64 - 1 in
  match skip_spaces s with
  | String "+"%char s' => clamp (read_digits 0 s')
  | String "-"%char s' => let v := read_digits 0 s' in if v <? 2 ^ 64 then u64 (- v) else 2 ^ 64 - 1
  | s' => clamp (read_digits 0 s')
  end.

Lemma digit_value_char x : (x < 10)%N -> digit_value (pretty_N_char x) = Some (Z.of_N x).
Proof.
  intros. assert (x = 0 \/ x = 1 \/ x = 2 \/ x = 3 \/ x = 4 \/ x = 5 \/ x = 6 \/ x = 7 \/
    x = 8 \/ x = 9)%N as Hx by lia. by repeat destruct Hx as [->|Hx]; [..|subst].
Qed.

Lemma read_digits_pretty x : exists k, 0 <= k /\ forall acc s,
  read_digits acc (pretty_N_go x s) = read_digits (acc * 10 ^ k + Z.of_N x) s.
Proof.
  induction (N.lt_wf_0 x) as [x _ IH]. destruct (decide (x = 0)%N) as [->|Hx].
  { exists 0. split; [done|]. intros acc s. rewrite pretty_N_go_0. f_equal. lia. }
  destruct (IH (x `div` 10)%N) as (k & Hk & Hgo); [apply N.div_lt; lia|].
  exists (k + 1). split; [lia|]. intros acc s. rewrite pretty_N_go_step by lia. rewrite Hgo.
  cbn [read_digits]. rewrite digit_value_char by (apply N.mod_lt; lia). f_equal.
  rewrite Z.pow_add_r, N2Z.inj_div, N2Z.inj_mod by lia. change (Z.of_N 10) with 10.
  change (10 ^ 1) with 10. pose proof (Z.div_mod (Z.of_N x) 10 ltac:(lia)). lia.
Qed.

Lemma pretty_N_go_digit x : (0 < x)%N -> forall s,
  exists c t, pretty_N_go x s = String c t /\ is_Some (digit_value c).
Proof.
  induction (N.lt_wf_0 x) as [x _ IH]. intros Hx s. rewrite pretty_N_go_step by done.
  destruct (decide (0 < x `div` 10)%N) as [Hd|Hd].
  - apply IH; [apply N.div_lt; lia|done].
  - assert ((x `div` 10)%N = 0%N) as -> by (apply N.le_0_r, N.le_ngt, Hd). rewrite pretty_N_go_0. do 2 eexists.
    split; [reflexivity|]. rewrite digit_value_char; [by eexists|apply N.mod_lt; lia].
Qed.

(** Reading what was printed. *)
Lemma strtoull_digit c s : is_Some (digit_value c) ->
  strtoull (String c s) =
  let v := read_digits 0 (String c s) in if v <? 2 ^ 64 then v else 2 ^ 64 - 1.
Proof.
  intros Hd. unfold strtoull. cbn [skip_spaces].
  replace (is_space c) with false
    by (destruct Hd as [d Hd]; revert Hd; by destruct c as [[] [] [] [] [] [] [] []]).
  destruct Hd as [d Hd]; revert Hd; by destruct c as [[] [] [] [] [] [] [] []].
Qed.

Lemma strtoull_print z : 0 <= z < 2 ^ 64 -> strtoull (print_u64 z) = z.
Proof.
  intros Hz. unfold print_u64, pretty, pretty_N. case_decide as Hz0.
  { assert (z = 0) as -> by lia. reflexivity. }
  destruct (pretty_N_go_digit (Z.to_N z) ltac:(lia) "") as (c & t & Hgo & Hd).
  rewrite Hgo, strtoull_digit by done. rewrite <-Hgo.
  destruct (read_digits_pretty (Z.to_N z)) as (k & _ & ->). cbn [read_digits].
  replace (0 * 10 ^ k + Z.of_N (Z.to_N z)) with z by lia. cbv zeta.
  by replace (z <? 2 ^ 64) with true by lia.
Qed.

Lemma print_u64_nonempty z : String.length (print_u64 z) <> O.
Proof.
  unfold print_u64, pretty, pretty_N. case_decide; [done|].
  destruct (pretty_N_go_digit (Z.to_N z) ltac:(lia) "") as (c & t & -> & _). done.
Qed.

(** * Headers *)

Inductive HeaderType := RequestHeader | ResponseHeader.

(** [HttpHeader], [HttpRequestHeader] and [HttpResponseHeader]. *)
Class HttpHeader (H : Type) := {
  hd_type : H -> HeaderType;
  hd_get : H -> string -> option string;
  hd_get_int : H -> string -> Z;
  hd_set : H -> string -> string -> H;
  hd_add : H -> string -> string -> H;
  hd_remove : H -> string -> H;
  hd_startLine : H -> string;
  hd_version : H -> string;
  hd_setVersion : H -> string -> H;
  hd_method : H -> string;
  hd_setMethod : H -> string -> H;
  hd_path : H -> string;
  hd_setPath : H -> string -> H;
  hd_status : H -> Z;
  hd_setStatus : H -> Z -> string -> H;
  hd_hasContent : H -> bool
}.

Definition hd_has {H} `{HttpHeader H} (h : H) (n : string) : bool :=
  match hd_get h n with Some _ => true | None => false end.

(** [string s; header->getField(n, s);] *)
Definition hd_string {H} `{HttpHeader H} (h : H) (n : string) : string := default "" (hd_get h n).

(** Fields are told apart by their names, up to case; setting one changes neither the
    others nor the rest of the header. *)
Class HttpHeaderLaws (H : Type) `{HttpHeader H} := {
  get_set_eq : forall h n v, hd_get (hd_set h n v) n = Some v;
  get_set_ne : forall h n n' v, strcase_eqb n n' = false -> hd_get (hd_set h n v) n' = hd_get h n';
  get_remove_eq : forall h n, hd_get (hd_remove h n) n = None;
  get_remove_ne : forall h n n', strcase_eqb n n' = false -> hd_get (hd_remove h n) n' = hd_get h n';
  get_add_ne : forall h n n' v, strcase_eqb n n' = false -> hd_get (hd_add h n v) n' = hd_get h n';
  get_int_set_ne : forall h n n' v,
    strcase_eqb n n' = false -> hd_get_int (hd_set h n v) n' = hd_get_int h n';
  get_int_none : forall h n, hd_get h n = None -> hd_get_int h n = 0;
  startLine_set : forall h n v, hd_startLine (hd_set h n v) = hd_startLine h;
  startLine_add : forall h n v, hd_startLine (hd_add h n v) = hd_startLine h;
  type_set : forall h n v, hd_type (hd_set h n v) = hd_type h;
  type_add : forall h n v, hd_type (hd_add h n v) = hd_type h;
  type_setMethod : forall h v, hd_type (hd_setMethod h v) = hd_type h;
  type_setPath : forall h v, hd_type (hd_setPath h v) = hd_type h;
  type_setVersion : forall h v, hd_type (hd_setVersion h v) = hd_type h;
  version_set : forall h n v, hd_version (hd_set h n v) = hd_version h;
  method_set : forall h n v, hd_method (hd_set h n v) = hd_method h;
  status_set : forall h n v, hd_status (hd_set h n v) = hd_status h;
  status_setStatus : forall h c s, hd_status (hd_setStatus h c s) = c;
  type_setStatus : forall h c s, hd_type (hd_setStatus h c s) = hd_type h
}.

(** Fields as a list, the start line as its parts. *)
Module PlainHeader.
Record t := {
  type : HeaderType;
  method : string; path : string; version : string; code : Z; message : string;
  fields : list (string * string)
}.

Fixpoint get (l : list (string * string)) (n : string) : option string :=
  match l with
  | [] => None
  | (n', v) :: l => if strcase_eqb n' n then Some v else get l n
  end.

Definition without (l : list (string * string)) (n : string) : list (string * string) :=
  List.filter (fun f => negb (strcase_eqb f.1 n)) l.

Definition with_fields (l : list (string * string)) (h : t) : t :=
  {| type := type h; method := method h; path := path h; version := version h; code := code h;
     message := message h; fields := l |}.

#[export] Instance header : HttpHeader t := {|
  hd_type := type;
  hd_get h n := get (fields h) n;
  hd_get_int h n := match get (fields h) n with Some v => strtoull v | None => 0 end;
  hd_set h n v := with_fields ((n, v) :: fields h) h;
  hd_add h n v := with_fields (fields h ++ [(n, v)]) h;
  hd_remove h n := with_fields (without (fields h) n) h;
  hd_startLine h :=
    match type h with
    | RequestHeader => method h +:+ " " +:+ path h +:+ " " +:+ version h
    | ResponseHeader => version h +:+ " " +:+ print_u64 (code h) +:+ " " +:+ message h
    end;
  hd_version := version;
  hd_setVersion h v := {| type := type h; method := method h; path := path h; version := v;
    code := code h; message := message h; fields := fields h |};
  hd_method := method;
  hd_setMethod h v := {| type := type h; method := v; path := path h; version := version h;
    code := code h; message := message h; fields := fields h |};
  hd_path := path;
  hd_setPath h v := {| type := type h; method := method h; path := v; version := version h;
    code := code h; message := message h; fields := fields h |};
  hd_status := code;
  hd_setStatus h c s := {| type := type h; method := method h; path := path h;
    version := version h; code := c; message := s; fields := fields h |};
  hd_hasContent h := match get (fields h) "Transfer-Encoding" with
                     | Some _ => true
                     | None => match get (fields h) "Content-Length" with
                               | Some v => negb (strtoull v =? 0)
                               | None => false
                               end
                     end
|}.

Lemma get_app_ne l n n' v : strcase_eqb n n' = false -> get (l ++ [(n, v)]) n' = get l n'.
Proof.
  intros Hn. induction l as [|[m w] l IH]; simpl; [by rewrite Hn|]. by rewrite IH.
Qed.

Lemma get_without_eq l n : get (without l n) n = None.
Proof.
  unfold without. induction l as [|[m w] l IH]; simpl; [done|]. destruct (strcase_eqb m n) eqn:E; simpl; [done|].
  by rewrite E.
Qed.

Lemma get_without_ne l n n' : strcase_eqb n n' = false -> get (without l n) n' = get l n'.
Proof.
  intros Hn. unfold without. induction l as [|[m w] l IH]; simpl; [done|].
  destruct (strcase_eqb m n) eqn:E; simpl; [|by rewrite IH].
  apply String.eqb_eq in E. unfold strcase_eqb in *. by rewrite E, Hn.
Qed.

#[export] Instance header_laws : HttpHeaderLaws t.
Proof.
  split; try done; simpl.
  - intros h n v. unfold strcase_eqb. by rewrite String.eqb_refl.
  - by intros h n n' v ->.
  - intros. apply get_without_eq.
  - intros. by apply get_without_ne.
  - intros. by apply get_app_ne.
  - by intros h n n' v ->.
  - by intros h n ->.
Qed.

Definition request (m p host : string) : t :=
  {| type := RequestHeader; method := m; path := p; version := "HTTP/1.1"; code := 0; message := "";
     fields := [("Host", host)] |}.
Definition response : t :=
  {| type := ResponseHeader; method := ""; path := ""; version := "HTTP/1.1"; code := 0;
     message := ""; fields := [] |}.
End PlainHeader.

(** Rewrites a field of a header to what was last set under that name; the names in
    the code are literals, so that they are compared by computation. *)
Ltac header_simpl :=
  repeat first
    [ rewrite get_set_eq | rewrite startLine_set | rewrite type_set | rewrite version_set
    | rewrite method_set | rewrite type_setMethod | rewrite type_setPath | rewrite type_setVersion
    | rewrite status_set | rewrite status_setStatus | rewrite type_setStatus
    | rewrite get_set_ne by reflexivity | rewrite get_int_set_ne by reflexivity ].

(** * Content coding *)

(** [Deflater] and [Gzipper]. *)
Class Compression := {
  deflate : string -> string;
  gzip : string -> string;
  inflate : string -> outcome string
}.
Class CompressionLaws `{Compression} := {
  inflate_deflate : forall s, inflate (deflate s) = Ok s;
  inflate_gzip : forall s, inflate (gzip s) = Ok s
}.

(** A one byte header. *)
Module StoredOnly.
#[export] Instance compression : Compression := {|
  deflate s := String "x" s;
  gzip s := String "x" s;
  inflate s := match s with String "x" s' => Ok s' | _ => Raise "not compressed" end
|}.
#[export] Instance compression_laws : CompressionLaws.
Proof. by split. Qed.
End StoredOnly.
