(* ===== verification/Btp.v ===== *)
(** BTP messages ([cpp/protocol/BtpMessage.cpp], [cpp/protocol/BtpTrailer.cpp]).

    A secure message is an HTTP message whose start line and host, and whose content, are
    signed by an agent.  Sending gives the header, the body and the trailer that are handed
    to the connection; receiving starts from those the connection gives.  Keys and
    signatures are those of the signer. *)
From S2P Require Import Prelude DynMap Payees Signer Http.

Local Open Scope Z_scope.
Local Open Scope bitmunk_scope.

(** * Types *)

Inductive Type_ := Undefined | Get | Put | Post | Delete | Head | Options | Trace | Connect.

#[global] Instance Type_eq_dec : EqDecision Type_.
Proof. solve_decision. Defined.

Inductive SecurityStatus := Unchecked | Breach | Secure.

#[global] Instance SecurityStatus_eq_dec : EqDecision SecurityStatus.
Proof. solve_decision. Defined.

Inductive DynoContentType := Invalid | Json | Xml | Form.

Definition stringToType (s : string) : Type_ :=
  if String.eqb s "GET" then Get
  else if String.eqb s "PUT" then Put
  else if String.eqb s "POST" then Post
  else if String.eqb s "DELETE" then Delete
  else if String.eqb s "HEAD" then Head
  else if String.eqb s "OPTIONS" then Options
  else if String.eqb s "TRACE" then Trace
  else if String.eqb s "CONNECT" then Connect
  else Undefined.

(** [None] is NULL. *)
Definition typeToString (t : Type_) : option string :=
  match t with
  | Get => Some "GET"
  | Put => Some "PUT"
  | Post => Some "POST"
  | Delete => Some "DELETE"
  | Head => Some "HEAD"
  | Options => Some "OPTIONS"
  | Trace => Some "TRACE"
  | Connect => Some "CONNECT"
  | Undefined => None
  end.

(** The readers and writers of objects, and [Convert::hexToBytes]'s result. *)
Class ObjectCodec (D : Type) := {
  writeObject : DynoContentType -> D -> outcome string;
  readObject : DynoContentType -> string -> outcome D;
  formEncode : D -> string;
  formDecode : D -> string -> D;
  newObject : D;
  exceptionType : D -> string
}.
Class HexCheck := { hex_valid : string -> bool }.

(** What was written is read back; what was encoded is valid, and signatures are not empty. *)
Class ObjectCodecLaws (D : Type) `{ObjectCodec D} := {
  read_write : forall t d s, t = Json \/ t = Xml -> writeObject t d = Ok s -> readObject t s = Ok d
}.
Class HexCheckLaws {PrivateKey PublicKey} `{SignatureScheme PrivateKey PublicKey} `{HexCheck} := {
  valid_encoded : forall b, hex_valid (bytesToHex b) = true;
  signature_nonempty : forall k c, String.length (bytesToHex (ds_value k c)) <> O
}.

Definition no_pointer : string := "NULL pointer".
Definition no_return : string := "does not return".

(** A trailer: the content length it was updated with, its content signature. *)
Record Trailer := { tr_length : Z; tr_signature : option string }.

(** What a connection received of a body: the bytes and the trailer. *)
Record Received := { rc_bytes : string; rc_trailer : Trailer }.

(** Values of custom headers that are not maps or arrays, and those that are. *)
Inductive HeaderValue := HVString (s : string) | HVArray (l : list string) | HVMap.

Section Btp.
Context {PrivateKey PublicKey : Type} `{SignatureScheme PrivateKey PublicKey} `{HexCheck}.
Context {Hdr : Type} `{HttpHeader Hdr} `{Compression} {D : Type} `{ObjectCodec D}.

(** [PublicKeySource::getPublicKey]: the key and whether the agent is a delegate. *)
Definition KeySource : Type := Z -> Z -> option (PublicKey * bool).

Record BtpMessage := {
  mType : Type_;
  mSecurityStatus : SecurityStatus;
  mUserId : Z;
  mAgentUserId : Z;
  mAgentProfileId : Z;
  mPublicKeySource : option KeySource;
  mAgentProfile : option (Profile PrivateKey);
  mContentType : option string;
  mContentSource : option string;
  mContentSink : bool;
  mCloseSink : bool;
  mDynamicObject : option D;
  mCustomHeaders : option (list (string * HeaderValue));
  mSaveHeaders : bool;
  mRequestHeader : option Hdr;
  mResponseHeader : option Hdr;
  mTrailer : option Trailer
}.

Implicit Types (m : BtpMessage) (h : Hdr).

Definition newMessage : BtpMessage :=
  {| mType := Undefined; mSecurityStatus := Unchecked; mUserId := 0; mAgentUserId := 0;
     mAgentProfileId := 0; mPublicKeySource := None; mAgentProfile := None; mContentType := None;
     mContentSource := None; mContentSink := false; mCloseSink := false; mDynamicObject := None;
     mCustomHeaders := None; mSaveHeaders := false; mRequestHeader := None; mResponseHeader := None;
     mTrailer := None |}.

Definition setType (t : Type_) m : BtpMessage :=
  {| mType := t; mSecurityStatus := mSecurityStatus m; mUserId := mUserId m;
     mAgentUserId := mAgentUserId m; mAgentProfileId := mAgentProfileId m;
     mPublicKeySource := mPublicKeySource m; mAgentProfile := mAgentProfile m;
     mContentType := mContentType m; mContentSource := mContentSource m;
     mContentSink := mContentSink m; mCloseSink := mCloseSink m; mDynamicObject := mDynamicObject m;
     mCustomHeaders := mCustomHeaders m; mSaveHeaders := mSaveHeaders m;
     mRequestHeader := mRequestHeader m; mResponseHeader := mResponseHeader m;
     mTrailer := mTrailer m |}.

Definition setSecurityStatus (s : SecurityStatus) m : BtpMessage :=
  {| mType := mType m; mSecurityStatus := s; mUserId := mUserId m;
     mAgentUserId := mAgentUserId m; mAgentProfileId := mAgentProfileId m;
     mPublicKeySource := mPublicKeySource m; mAgentProfile := mAgentProfile m;
     mContentType := mContentType m; mContentSource := mContentSource m;
     mContentSink := mContentSink m; mCloseSink := mCloseSink m; mDynamicObject := mDynamicObject m;
     mCustomHeaders := mCustomHeaders m; mSaveHeaders := mSaveHeaders m;
     mRequestHeader := mRequestHeader m; mResponseHeader := mResponseHeader m;
     mTrailer := mTrailer m |}.

(** [mUserId], [mAgentUserId] and [mAgentProfileId] assigned. *)
Definition set_ids (user agent profile : Z) m : BtpMessage :=
  {| mType := mType m; mSecurityStatus := mSecurityStatus m; mUserId := user;
     mAgentUserId := agent; mAgentProfileId := profile;
     mPublicKeySource := mPublicKeySource m; mAgentProfile := mAgentProfile m;
     mContentType := mContentType m; mContentSource := mContentSource m;
     mContentSink := mContentSink m; mCloseSink := mCloseSink m; mDynamicObject := mDynamicObject m;
     mCustomHeaders := mCustomHeaders m; mSaveHeaders := mSaveHeaders m;
     mRequestHeader := mRequestHeader m; mResponseHeader := mResponseHeader m;
     mTrailer := mTrailer m |}.

Definition setUserId (user : Z) m : BtpMessage := set_ids user (mAgentUserId m) (mAgentProfileId m) m.

Definition setAgentProfile (p : Profile PrivateKey) m : BtpMessage :=
  {| mType := mType m; mSecurityStatus := mSecurityStatus m; mUserId := mUserId m;
     mAgentUserId := mAgentUserId m; mAgentProfileId := mAgentProfileId m;
     mPublicKeySource := mPublicKeySource m; mAgentProfile := Some p;
     mContentType := mContentType m; mContentSource := mContentSource m;
     mContentSink := mContentSink m; mCloseSink := mCloseSink m;
     mDynamicObject := mDynamicObject m; mCustomHeaders := mCustomHeaders m;
     mSaveHeaders := mSaveHeaders m; mRequestHeader := mRequestHeader m;
     mResponseHeader := mResponseHeader m; mTrailer := mTrailer m |}.

Definition setPublicKeySource (src : KeySource) m : BtpMessage :=
  {| mType := mType m; mSecurityStatus := mSecurityStatus m; mUserId := mUserId m;
     mAgentUserId := mAgentUserId m; mAgentProfileId := mAgentProfileId m;
     mPublicKeySource := Some src; mAgentProfile := mAgentProfile m;
     mContentType := mContentType m; mContentSource := mContentSource m;
     mContentSink := mContentSink m; mCloseSink := mCloseSink m;
     mDynamicObject := mDynamicObject m; mCustomHeaders := mCustomHeaders m;
     mSaveHeaders := mSaveHeaders m; mRequestHeader := mRequestHeader m;
     mResponseHeader := mResponseHeader m; mTrailer := mTrailer m |}.

Definition setContentType (ct : option string) m : BtpMessage :=
  {| mType := mType m; mSecurityStatus := mSecurityStatus m; mUserId := mUserId m;
     mAgentUserId := mAgentUserId m; mAgentProfileId := mAgentProfileId m;
     mPublicKeySource := mPublicKeySource m; mAgentProfile := mAgentProfile m;
     mContentType := ct; mContentSource := mContentSource m; mContentSink := mContentSink m;
     mCloseSink := mCloseSink m; mDynamicObject := mDynamicObject m;
     mCustomHeaders := mCustomHeaders m; mSaveHeaders := mSaveHeaders m;
     mRequestHeader := mRequestHeader m; mResponseHeader := mResponseHeader m;
     mTrailer := mTrailer m |}.

Definition setContentSource (src : option string) m : BtpMessage :=
  {| mType := mType m; mSecurityStatus := mSecurityStatus m; mUserId := mUserId m;
     mAgentUserId := mAgentUserId m; mAgentProfileId := mAgentProfileId m;
     mPublicKeySource := mPublicKeySource m; mAgentProfile := mAgentProfile m;
     mContentType := mContentType m; mContentSource := src; mContentSink := mContentSink m;
     mCloseSink := mCloseSink m; mDynamicObject := None; mCustomHeaders := mCustomHeaders m;
     mSaveHeaders := mSaveHeaders m; mRequestHeader := mRequestHeader m;
     mResponseHeader := mResponseHeader m; mTrailer := mTrailer m |}.

Definition setContentSink (os close : bool) m : BtpMessage :=
  {| mType := mType m; mSecurityStatus := mSecurityStatus m; mUserId := mUserId m;
     mAgentUserId := mAgentUserId m; mAgentProfileId := mAgentProfileId m;
     mPublicKeySource := mPublicKeySource m; mAgentProfile := mAgentProfile m;
     mContentType := mContentType m; mContentSource := mContentSource m; mContentSink := os;
     mCloseSink := close; mDynamicObject := None; mCustomHeaders := mCustomHeaders m;
     mSaveHeaders := mSaveHeaders m; mRequestHeader := mRequestHeader m;
     mResponseHeader := mResponseHeader m; mTrailer := mTrailer m |}.

(** Without a content type, JSON. *)
Definition setDynamicObject (d : D) (contentType : option string) m : BtpMessage :=
  {| mType := mType m; mSecurityStatus := mSecurityStatus m; mUserId := mUserId m;
     mAgentUserId := mAgentUserId m; mAgentProfileId := mAgentProfileId m;
     mPublicKeySource := mPublicKeySource m; mAgentProfile := mAgentProfile m;
     mContentType := Some (default "application/json" contentType); mContentSource := None;
     mContentSink := false; mCloseSink := mCloseSink m; mDynamicObject := Some d;
     mCustomHeaders := mCustomHeaders m; mSaveHeaders := mSaveHeaders m;
     mRequestHeader := mRequestHeader m; mResponseHeader := mResponseHeader m;
     mTrailer := mTrailer m |}.

(** [mDynamicObject] assigned. *)
Definition set_object (d : option D) m : BtpMessage :=
  {| mType := mType m; mSecurityStatus := mSecurityStatus m; mUserId := mUserId m;
     mAgentUserId := mAgentUserId m; mAgentProfileId := mAgentProfileId m;
     mPublicKeySource := mPublicKeySource m; mAgentProfile := mAgentProfile m;
     mContentType := mContentType m; mContentSource := mContentSource m;
     mContentSink := mContentSink m; mCloseSink := mCloseSink m; mDynamicObject := d;
     mCustomHeaders := mCustomHeaders m; mSaveHeaders := mSaveHeaders m;
     mRequestHeader := mRequestHeader m; mResponseHeader := mResponseHeader m;
     mTrailer := mTrailer m |}.

(** [getCustomHeaders()] assigned. *)
Definition set_custom (l : option (list (string * HeaderValue))) m : BtpMessage :=
  {| mType := mType m; mSecurityStatus := mSecurityStatus m; mUserId := mUserId m;
     mAgentUserId := mAgentUserId m; mAgentProfileId := mAgentProfileId m;
     mPublicKeySource := mPublicKeySource m; mAgentProfile := mAgentProfile m;
     mContentType := mContentType m; mContentSource := mContentSource m;
     mContentSink := mContentSink m; mCloseSink := mCloseSink m;
     mDynamicObject := mDynamicObject m; mCustomHeaders := l; mSaveHeaders := mSaveHeaders m;
     mRequestHeader := mRequestHeader m; mResponseHeader := mResponseHeader m;
     mTrailer := mTrailer m |}.

(** [mTrailer] assigned. *)
Definition set_trailer (t : Trailer) m : BtpMessage :=
  {| mType := mType m; mSecurityStatus := mSecurityStatus m; mUserId := mUserId m;
     mAgentUserId := mAgentUserId m; mAgentProfileId := mAgentProfileId m;
     mPublicKeySource := mPublicKeySource m; mAgentProfile := mAgentProfile m;
     mContentType := mContentType m; mContentSource := mContentSource m;
     mContentSink := mContentSink m; mCloseSink := mCloseSink m;
     mDynamicObject := mDynamicObject m; mCustomHeaders := mCustomHeaders m;
     mSaveHeaders := mSaveHeaders m; mRequestHeader := mRequestHeader m;
     mResponseHeader := mResponseHeader m; mTrailer := Some t |}.

(** The saved headers assigned. *)
Definition set_saved (req res : option Hdr) m : BtpMessage :=
  {| mType := mType m; mSecurityStatus := mSecurityStatus m; mUserId := mUserId m;
     mAgentUserId := mAgentUserId m; mAgentProfileId := mAgentProfileId m;
     mPublicKeySource := mPublicKeySource m; mAgentProfile := mAgentProfile m;
     mContentType := mContentType m; mContentSource := mContentSource m;
     mContentSink := mContentSink m; mCloseSink := mCloseSink m;
     mDynamicObject := mDynamicObject m; mCustomHeaders := mCustomHeaders m;
     mSaveHeaders := mSaveHeaders m; mRequestHeader := req; mResponseHeader := res;
     mTrailer := mTrailer m |}.

(** ** Checking *)

Definition isHeaderSecurityPresent h : bool := hd_has h "Btp-User-Id".

Definition verifySignature (k : PublicKey) (content signature : string) : bool :=
  hex_valid signature && ds_verify k content (hexToBytes signature).

(** The ids of the header, or zeros and no signature if one is missing.  An id of a profile has 32
    bits. *)
Definition read_ids h m : BtpMessage * string :=
  let userId := hd_string h "Btp-User-Id" in
  let agentUserId := hd_string h "Btp-Agent-User-Id" in
  let agentProfileId := hd_string h "Btp-Agent-Profile-Id" in
  if Nat.ltb 0 (String.length userId) && Nat.ltb 0 (String.length agentUserId) &&
     Nat.ltb 0 (String.length agentProfileId)
  then (set_ids (strtoull userId) (strtoull agentUserId) (u32 (strtoull agentProfileId)) m,
        hd_string h "Btp-Header-Signature")
  else (set_ids 0 0 0 m, "").

(** What a receiver takes as signed: the start line and the host, that of a proxy first. *)
Definition header_data h : string :=
  hd_startLine h +:+
  match hd_get h "X-Forwarded-Host" with Some host => host | None => hd_string h "Host" end.

Definition header_status (src : KeySource) h m (hs : string) : SecurityStatus :=
  if (mUserId m =? 0) || (mAgentUserId m =? 0) || (mAgentProfileId m =? 0) ||
     Nat.eqb (String.length hs) 0
  then Breach
  else if negb (String.eqb (hd_string h "Btp-Version") "1.0") then Breach
  else match src (mAgentUserId m) (mAgentProfileId m) with
       | None => Breach
       | Some (k, isDelegate) =>
           if negb (mAgentUserId m =? mUserId m) && negb isDelegate then Breach
           else if verifySignature k (header_data h) hs then Secure else Breach
       end.

Definition checkHeaderSecurity h m : BtpMessage :=
  let '(m, hs) := read_ids h m in
  setSecurityStatus
    (match mPublicKeySource m with Some src => header_status src h m hs | None => Unchecked end) m.

(** [ds] is the key and the content that went through the signature. *)
Definition checkContentSecurity h (trailer : option Trailer) (ds : option (PublicKey * string)) m
  : BtpMessage :=
  match ds with
  | None => m
  | Some (k, content) =>
      let contentLength := match trailer with
                           | Some t => tr_length t
                           | None => hd_get_int h "Content-Length"
                           end in
      if 0 <? contentLength then
        let cs := match trailer with
                  | Some {| tr_signature := Some cs |} => cs
                  | _ => hd_string h "Btp-Content-Signature"
                  end in
        setSecurityStatus
          (if Nat.ltb 0 (String.length cs) && verifySignature k content cs then Secure else Breach) m
      else m
  end.

(** ** Sending *)

Definition setupRequestHeader (pathAndQuery authority : string) h m : BtpMessage * Hdr :=
  let '(m, h) := match typeToString (mType m) with
                 | Some t => (m, hd_setMethod h t)
                 | None => (setType (stringToType (hd_method h)) m, h)
                 end in
  let h := hd_setVersion (hd_setPath h pathAndQuery) "HTTP/1.1" in
  let h := hd_set h "Host" authority in
  let h := hd_set h "User-Agent" "BtpClient/1.0" in
  let h := hd_set h "Accept-Encoding" "deflate, gzip" in
  (m, if hd_has h "Accept" then h else hd_set h "Accept" "application/json").

(** The loop over the values of an array advances the wrong iterator: it does not end. *)
Fixpoint addCustomHeaders (l : list (string * HeaderValue)) h : outcome Hdr :=
  match l with
  | [] => Ok h
  | (name, HVString s) :: l => addCustomHeaders l (hd_add h name s)
  | (name, HVArray []) :: l => addCustomHeaders l h
  | (name, HVArray _) :: l => Raise no_return
  | (name, HVMap) :: l => addCustomHeaders l h
  end.

Definition has_source m : bool :=
  match mDynamicObject m, mContentSource m with None, None => false | _, _ => true end.

Definition chunk_unless_length h : Hdr :=
  if hd_has h "Content-Length" then h else hd_set h "Transfer-Encoding" "chunked".

(** The transfer encoding of a response and of a request. *)
Definition addTransferHeaders m h : Hdr :=
  match hd_type h with
  | ResponseHeader =>
      if negb (String.eqb (hd_version h) "HTTP/1.0") && has_source m
      then chunk_unless_length h else h
  | RequestHeader =>
      if has_source m then
        let connection := hd_string h "Connection" in
        let '(connection, h) := if String.eqb connection ""
                                then ("close", hd_set h "Connection" "close")
                                else (connection, h) in
        let h := if strstr connection ", TE" then h
                 else hd_set h "Connection" (connection +:+ ", TE") in
        chunk_unless_length (hd_set h "TE" "trailers, chunked")
      else h
  end.

(** The security fields; the signature of a profile without a key is NULL. *)
Definition addSecurityHeaders m h (ds : option PrivateKey) : outcome (BtpMessage * Hdr) :=
  match mAgentProfile m with
  | None => Ok (m, h)
  | Some p =>
      let m := set_ids (mUserId m) (profile_userId p) (profile_id p) m in
      let h := hd_set h "Btp-Version" "1.0" in
      let h := hd_set h "Btp-User-Id" (print_u64 (mUserId m)) in
      let h := hd_set h "Btp-Agent-User-Id" (print_u64 (mAgentUserId m)) in
      let h := hd_set h "Btp-Agent-Profile-Id" (print_u64 (mAgentProfileId m)) in
      match ds with
      | None => Raise no_pointer
      | Some k =>
          let data := hd_startLine h +:+ hd_string h "Host" in
          let h := hd_set h "Btp-Header-Signature" (bytesToHex (ds_value k data)) in
          Ok (m, if hd_has h "Content-Type" &&
                    String.eqb (hd_string h "Transfer-Encoding") "chunked"
                 then hd_set h "Trailer" "Btp-Content-Signature" else h)
      end
  end.

(** A response header is saved as the request header, and the other way round. *)
Definition saveHeaders m h : BtpMessage :=
  if mSaveHeaders m then
    match hd_type h with
    | ResponseHeader => set_saved (Some h) (mResponseHeader m) m
    | RequestHeader => set_saved (mRequestHeader m) (Some h) m
    end
  else m.

Definition addHeaders m h (ds : option PrivateKey) : outcome (BtpMessage * Hdr) :=
  let? h := match mCustomHeaders m with Some l => addCustomHeaders l h | None => Ok h end in
  let h := addTransferHeaders m h in
  let? mh := addSecurityHeaders m h ds in
  Ok (saveHeaders mh.1 mh.2, mh.2).

Definition encodeContent h (content : string) : string :=
  match hd_get h "Content-Encoding" with
  | None => content
  | Some ce => if strstr ce "deflate" then deflate content
               else if strstr ce "gzip" then gzip content else content
  end.

(** [BtpTrailer::update] when [contentLength] bytes have been sent: [ds] is the key and
    what went through the signature. *)
Definition BtpTrailer_update (ds : option (PrivateKey * string)) (contentLength : Z) : Trailer :=
  {| tr_length := contentLength;
     tr_signature := match ds with
                     | Some (k, content) =>
                         if 0 <? contentLength then Some (bytesToHex (ds_value k content)) else None
                     | None => None
                     end |}.

(** What is handed to the connection: the header, and the body with its trailer. *)
Record Sent := { sn_header : Hdr; sn_body : option (string * Trailer) }.

(** How the connection does: sending the header and the body. *)
Record SendIO := { io_header : outcome unit; io_body : outcome unit }.

Definition createSignature m : option PrivateKey :=
  match mAgentProfile m with Some p => profile_key p | None => None end.

(** The body and the trailer of some content, which is signed before it is encoded. *)
Definition sendBody h (ds : option PrivateKey) (content : string) : string * Trailer :=
  let body := encodeContent h content in
  (body, BtpTrailer_update (option_map (fun k => (k, content)) ds) (Z.of_nat (String.length body))).

Definition sendHeader m h (io : SendIO) : outcome (BtpMessage * Hdr * option PrivateKey) :=
  let ds := createSignature m in
  let? mh := addHeaders m h ds in
  let? _ := io_header io in
  Ok (mh.1, mh.2, ds).

(** An empty content source sends no body. *)
Definition sendHeaderAndStream m h (content : option string) (io : SendIO)
  : outcome (BtpMessage * Sent) :=
  let? mhd := sendHeader m h io in
  let '(m, h, ds) := mhd in
  match content with
  | None => Ok (m, {| sn_header := h; sn_body := None |})
  | Some content =>
      let b := sendBody h ds content in
      let? _ := io_body io in
      Ok (set_trailer b.2 m, {| sn_header := h; sn_body := Some b |})
  end.

Definition content_type (ct : string) : DynoContentType :=
  if starts_with ct "application/json" then Json
  else if starts_with ct "text/xml" then Xml
  else if starts_with ct "application/x-www-form-urlencoded" then Form
  else Invalid.

Definition checkContentType m h (send : bool) : outcome (Hdr * DynoContentType) :=
  let h := if send then match mContentType m with Some ct => hd_set h "Content-Type" ct | None => h end
           else h in
  match content_type (hd_string h "Content-Type") with
  | Invalid => Raise "bitmunk.protocol.InvalidContentType"
  | t => Ok (h, t)
  end.

Definition sendHeaderAndObject m h (d : D) (io : SendIO) : outcome (BtpMessage * Sent) :=
  let? ht := checkContentType m h true in
  let? mhd := sendHeader m ht.1 io in
  let '(m, h, ds) := mhd in
  let? content := match ht.2 with Form => Ok (formEncode d) | t => writeObject t d end in
  let b := sendBody h ds content in
  let? _ := io_body io in
  Ok (set_trailer b.2 m, {| sn_header := h; sn_body := Some b |}).

Definition sendContent m h (io : SendIO) : outcome (BtpMessage * Sent) :=
  match mDynamicObject m with
  | Some d => sendHeaderAndObject m h d io
  | None => sendHeaderAndStream m h (mContentSource m) io
  end.

(** [send] of a request, to an url with this path and authority. *)
Definition sendRequest (pathAndQuery authority : string) h m (io : SendIO)
  : outcome (BtpMessage * Sent) :=
  let '(m, h) := setupRequestHeader pathAndQuery authority h m in sendContent m h io.

Definition sendResponse h m (io : SendIO) : outcome (BtpMessage * Sent) := sendContent m h io.

(** ** Receiving *)

Definition decodeContent h (body : string) : outcome string :=
  match hd_get h "Content-Encoding" with
  | None => Ok body
  | Some ce => if strstr ce "deflate" || strstr ce "gzip" then inflate body else Ok body
  end.

(** The key the content is checked with: none without a source, a breach if there is none. *)
Definition contentKey m : BtpMessage * option PublicKey :=
  match mPublicKeySource m with
  | None => (m, None)
  | Some src =>
      match src (mAgentUserId m) (mAgentProfileId m) with
      | Some (k, _) => (m, Some k)
      | None => (setSecurityStatus Breach m, None)
      end
  end.

(** [rc] is what the connection receives; [sink] is what the sink makes of the content. *)
Definition receiveContentStream {A} h (rc : outcome Received) (sink : string -> outcome A) m
  : BtpMessage * outcome A :=
  let '(m, key) := contentKey m in
  match rc with
  | Raise e => (m, Raise e)
  | Ok rc =>
      let m := set_trailer (rc_trailer rc) m in
      match decodeContent h (rc_bytes rc) with
      | Raise e => (m, Raise e)
      | Ok content =>
          match sink content with
          | Raise e => (m, Raise e)
          | Ok a => (checkContentSecurity h (Some (rc_trailer rc))
                       (option_map (fun k => (k, content)) key) m, Ok a)
          end
      end
  end.

Definition receiveContentObject h (rc : outcome Received) (d : D) m : BtpMessage * outcome unit :=
  match checkContentType m h false with
  | Raise e => (m, Raise e)
  | Ok (_, Form) =>
      match receiveContentStream h rc (fun c => Ok (formDecode d c)) m with
      | (m, Raise e) => (m, Raise e)
      | (m, Ok d) => (set_object (Some d) m, Ok tt)
      end
  | Ok (_, t) =>
      match receiveContentStream h rc (readObject t) m with
      | (m, Raise e) => (m, Raise e)
      | (m, Ok d) => (set_object (Some d) m, Ok tt)
      end
  end.

(** [getContentReceiveStream]: what reading the stream to its end gives, and the signature
    that has seen it, for [checkContentSecurity]. *)
Definition getContentReceiveStream h (rc : outcome Received) m
  : BtpMessage * outcome string * option (PublicKey * string) :=
  let '(m, key) := contentKey m in
  match rc with
  | Raise e => (m, Raise e, None)
  | Ok rc =>
      match decodeContent h (rc_bytes rc) with
      | Raise e => (set_trailer (rc_trailer rc) m, Raise e, None)
      | Ok content =>
          (set_trailer (rc_trailer rc) m, Ok content, option_map (fun k => (k, content)) key)
      end
  end.

(** What the sink got, if all of the content, and whether it has been closed. *)
Record SinkData := { sk_content : option string; sk_closed : bool }.

Definition no_sink : SinkData := {| sk_content := None; sk_closed := false |}.

Definition receiveToSink h (rc : outcome Received) m : BtpMessage * outcome unit * SinkData :=
  let '(m, r) := receiveContentStream h rc Ok m in
  match r with
  | Ok content => (m, Ok tt, {| sk_content := Some content; sk_closed := mCloseSink m |})
  | Raise e => (m, Raise e, {| sk_content := None; sk_closed := mCloseSink m |})
  end.

Definition content_expected h : bool :=
  negb (hd_get_int h "Content-Length" =? 0) || hd_has h "Transfer-Encoding".

(** The type is taken from the method override, if that is one. *)
Definition requestType h : Type_ :=
  let type := match hd_get h "X-Method-Override" with
              | Some o => stringToType o
              | None => Undefined
              end in
  match type with Undefined => stringToType (hd_method h) | _ => type end.

Definition receiveContentOf h (rc : outcome Received) m : BtpMessage * outcome unit * SinkData :=
  match mDynamicObject m with
  | Some d => (receiveContentObject h rc d m, no_sink)
  | None => if mContentSink m then receiveToSink h rc m else (m, Ok tt, no_sink)
  end.

(** [receiveContent] of a request. *)
Definition receiveRequestContent h (rc : outcome Received) m : BtpMessage * outcome unit * SinkData :=
  let m := setType (requestType h) m in
  if content_expected h then receiveContentOf h rc m else (m, Ok tt, no_sink).

(** [receiveContent] of a response: the content of an error is its exception. *)
Definition receiveResponseContent h (rc : outcome Received) m : BtpMessage * outcome unit * SinkData :=
  if content_expected h then
    if 400 <=? hd_status h then
      match receiveContentObject h rc newObject (set_object (Some newObject) m) with
      | (m, Ok _) => (m, Raise (exceptionType (default newObject (mDynamicObject m))), no_sink)
      | (m, Raise e) => (m, Raise e, no_sink)
      end
    else receiveContentOf h rc m
  else (m, Ok tt, no_sink).
End Btp.

(** * Properties *)

Section BtpTheorems.
Context {PrivateKey PublicKey : Type} `{SignatureLaws PrivateKey PublicKey}.
Context `{HexCheck} `{!HexCheckLaws}.
Context {Hdr : Type} `{HttpHeader Hdr} `{!HttpHeaderLaws Hdr} `{Compression} `{!CompressionLaws}.
Context {D : Type} `{ObjectCodec D} `{!ObjectCodecLaws D}.
Abbreviation Message := (@BtpMessage PrivateKey PublicKey Hdr D).
Implicit Types (m r : Message) (h : Hdr).

(** The fields of a header signed with [k] for these ids. *)
Definition header_signed h (user agent profile : Z) (k : PrivateKey) : Prop :=
  hd_get h "Btp-Version" = Some "1.0" /\
  hd_get h "Btp-User-Id" = Some (print_u64 user) /\
  hd_get h "Btp-Agent-User-Id" = Some (print_u64 agent) /\
  hd_get h "Btp-Agent-Profile-Id" = Some (print_u64 profile) /\
  hd_get h "Btp-Header-Signature" =
    Some (bytesToHex (ds_value k (hd_startLine h +:+ hd_string h "Host"))).

Lemma addSecurityHeaders_signed m h ds m' h' p :
  mAgentProfile m = Some p -> addSecurityHeaders m h ds = Ok (m', h') ->
  exists k, ds = Some k /\ header_signed h' (mUserId m) (profile_userId p) (profile_id p) k /\
  forall n, n ∈ ["Transfer-Encoding"; "Content-Length"; "Content-Type"; "Content-Encoding"] ->
    hd_get h' n = hd_get h n.
Proof.
  unfold addSecurityHeaders. intros ->. destruct ds as [k|]; [|done].
  intros [= <- <-]. exists k. split; [done|]. split.
  - unfold header_signed, hd_string. case_match; header_simpl; by repeat split.
  - intros n Hn. set_unfold in Hn. destruct_or? Hn; subst n; case_match; by header_simpl.
Qed.

Lemma verify_hex_signed k c : verifySignature (public_key k) c (bytesToHex (ds_value k c)) = true.
Proof. unfold verifySignature. by rewrite valid_encoded, hex_round, verify_own. Qed.

Lemma nonempty_ltb s : String.length s <> O -> Nat.ltb 0 (String.length s) = true.
Proof. intros. apply Nat.ltb_lt. lia. Qed.

(** A signed header is secure for whoever knows the key, if nothing overrides the host. *)
Lemma header_signed_secure h user agent profile k r src dlg :
  header_signed h user agent profile k -> hd_get h "X-Forwarded-Host" = None ->
  0 < user < 2 ^ 64 -> 0 < agent < 2 ^ 64 -> 0 < profile < 2 ^ 32 ->
  mPublicKeySource r = Some src -> src agent profile = Some (public_key k, dlg) ->
  agent = user \/ dlg = true ->
  checkHeaderSecurity h r = setSecurityStatus Secure (set_ids user agent profile r).
Proof.
  intros (Hv & Hu & Ha & Hp & Hs) Hx Ru Ra Rp Hsrc Hkey Hdlg.
  unfold checkHeaderSecurity, read_ids, hd_string. rewrite Hu, Ha, Hp, Hs. simpl default.
  rewrite !nonempty_ltb by apply print_u64_nonempty. cbn [andb].
  rewrite !strtoull_print, u32_small by lia. cbn [mPublicKeySource set_ids]. rewrite Hsrc. f_equal.
  unfold header_status. cbn [mUserId mAgentUserId mAgentProfileId set_ids].
  replace (user =? 0) with false by lia. replace (agent =? 0) with false by lia.
  replace (profile =? 0) with false by lia. cbn [orb].
  rewrite (proj2 (Nat.eqb_neq _ _) (signature_nonempty _ _)). unfold hd_string. rewrite Hv. simpl default.
  change (String.eqb "1.0" "1.0") with true. cbn [negb]. rewrite Hkey.
  replace (negb (agent =? user) && negb dlg) with false.
  - unfold header_data. rewrite Hx. by rewrite verify_hex_signed.
  - destruct Hdlg as [->| ->]; [by rewrite Z.eqb_refl|by rewrite andb_false_r].
Qed.

Lemma decode_encode h c : decodeContent h (encodeContent h c) = Ok c.
Proof.
  unfold decodeContent, encodeContent. destruct (hd_get h "Content-Encoding") as [ce|]; [|done].
  destruct (strstr ce "deflate"); [apply inflate_deflate|].
  destruct (strstr ce "gzip"); [apply inflate_gzip|done].
Qed.

(** Receiving what was sent: the sink sees the content, and the status stays secure. *)
Lemma receive_sent {A} h k c (sink : string -> outcome A) a r src dlg :
  mPublicKeySource r = Some src -> src (mAgentUserId r) (mAgentProfileId r) = Some (public_key k, dlg) ->
  mSecurityStatus r = Secure -> sink c = Ok a ->
  let b := sendBody h (Some k) c in
  exists r', receiveContentStream h (Ok {| rc_bytes := b.1; rc_trailer := b.2 |}) sink r = (r', Ok a) /\
  mSecurityStatus r' = Secure.
Proof.
  intros Hsrc Hkey Hsec Hsink. cbv zeta. unfold receiveContentStream, contentKey.
  rewrite Hsrc, Hkey. cbn [rc_bytes rc_trailer fst snd sendBody]. rewrite decode_encode, Hsink.
  eexists. split; [reflexivity|]. unfold checkContentSecurity. cbn [option_map tr_length BtpTrailer_update].
  destruct (0 <? Z.of_nat (String.length (encodeContent h c))) eqn:El; [|done].
  cbn [tr_signature mSecurityStatus setSecurityStatus].
  by rewrite nonempty_ltb, verify_hex_signed by apply signature_nonempty.
Qed.

Lemma addCustomHeaders_type l h h' : addCustomHeaders l h = Ok h' -> hd_type h' = hd_type h.
Proof.
  revert h. induction l as [|[n [s|[|v vs]|]] l IH]; intros h; simpl; try done; intros E.
  - by injection E as <-.
  - apply IH in E. by rewrite E, type_add.
  - by apply IH.
  - by apply IH.
Qed.

Lemma chunk_unless_length_get h :
  hd_has (chunk_unless_length h) "Content-Length" = false ->
  hd_get (chunk_unless_length h) "Transfer-Encoding" = Some "chunked".
Proof.
  unfold chunk_unless_length. destruct (hd_has h "Content-Length") eqn:E; [congruence|].
  intros _. apply get_set_eq.
Qed.

(** A request with content and no length is chunked. *)
Lemma addTransferHeaders_chunked m h :
  hd_type h = RequestHeader -> has_source m = true ->
  hd_has (addTransferHeaders m h) "Content-Length" = false ->
  hd_get (addTransferHeaders m h) "Transfer-Encoding" = Some "chunked".
Proof.
  unfold addTransferHeaders. intros -> ->.
  destruct (if String.eqb _ _ then _ else _) as [c h1]. apply chunk_unless_length_get.
Qed.

(** No custom header has this name. *)
Definition untouched (n : string) m : Prop :=
  Forall (fun f => strcase_eqb f.1 n = false) (default [] (mCustomHeaders m)).

Lemma addCustomHeaders_get l n h h' :
  Forall (fun f => strcase_eqb f.1 n = false) l ->
  addCustomHeaders l h = Ok h' -> hd_get h' n = hd_get h n.
Proof.
  intros Hl. revert h. induction Hl as [|[f [s|[|v vs]|]] l Hf Hl IH]; intros h; simpl; try done;
    intros E.
  - by injection E as <-.
  - apply IH in E. by rewrite E, get_add_ne.
  - by apply IH.
  - by apply IH.
Qed.

Lemma addTransferHeaders_content_type m h :
  hd_get (addTransferHeaders m h) "Content-Type" = hd_get h "Content-Type".
Proof.
  unfold addTransferHeaders, chunk_unless_length.
  destruct (hd_type h); repeat case_match; simplify_eq; by header_simpl.
Qed.

(** What [addHeaders] makes of a secure message. *)
Lemma addHeaders_signed m h ds m' h' p :
  mAgentProfile m = Some p -> addHeaders m h ds = Ok (m', h') ->
  exists k, ds = Some k /\ header_signed h' (mUserId m) (profile_userId p) (profile_id p) k /\
  (hd_type h = RequestHeader -> has_source m = true -> hd_has h' "Content-Length" = false ->
   hd_get h' "Transfer-Encoding" = Some "chunked") /\
  (untouched "Content-Type" m -> hd_get h' "Content-Type" = hd_get h "Content-Type").
Proof.
  intros Hp. unfold addHeaders, untouched.
  destruct (match mCustomHeaders m with Some l => _ | None => _ end) as [h1|] eqn:E1; [|done].
  cbn [outcome_bind].
  destruct (addSecurityHeaders _ _ _) as [[m2 h2]|] eqn:E2; [|done]. intros [= _ <-].
  destruct (addSecurityHeaders_signed _ _ _ _ _ _ Hp E2) as (k & -> & Hs & Hk).
  exists k. split; [done|]. split; [done|]. split.
  - intros Ht Hsrc. unfold hd_has. rewrite !Hk by set_solver.
    apply addTransferHeaders_chunked; [|done].
    destruct (mCustomHeaders m); [|by injection E1 as <-]. by rewrite (addCustomHeaders_type _ _ _ E1).
  - rewrite Hk, addTransferHeaders_content_type by set_solver.
    destruct (mCustomHeaders m) as [l|]; [|by injection E1 as <-]. intros Hl.
    by eapply addCustomHeaders_get.
Qed.

(** What is sent of an object by a secure message. *)
Lemma sendHeaderAndObject_sent m h d io m' sent p ct :
  mAgentProfile m = Some p -> mDynamicObject m = Some d -> mContentType m = Some ct ->
  untouched "Content-Type" m -> sendHeaderAndObject m h d io = Ok (m', sent) ->
  exists k c, profile_key p = Some k /\
  header_signed (sn_header sent) (mUserId m) (profile_userId p) (profile_id p) k /\
  sn_body sent = Some (sendBody (sn_header sent) (Some k) c) /\
  hd_get (sn_header sent) "Content-Type" = Some ct /\
  (match content_type ct with Form => Ok (formEncode d) | t => writeObject t d end) = Ok c /\
  (hd_type h = RequestHeader -> hd_has (sn_header sent) "Content-Length" = false ->
   hd_get (sn_header sent) "Transfer-Encoding" = Some "chunked").
Proof.
  intros Hp Hd Hct Hun. unfold sendHeaderAndObject, checkContentType. rewrite Hct.
  unfold hd_string at 1. rewrite get_set_eq. simpl default. set (t := content_type ct).
  destruct (match t with Invalid => _ | _ => _ end) as [[h1 t1]|] eqn:Ect; [|done].
  assert (h1 = hd_set h "Content-Type" ct /\ t1 = t) as [-> ->] by (destruct t; by simplify_eq).
  cbn [outcome_bind fst snd]. unfold sendHeader.
  destruct (addHeaders _ _ _) as [[m2 h2]|] eqn:Eh; [|done].
  cbn [outcome_bind fst snd]. destruct (io_header io); [|done]. cbn [outcome_bind].
  bind_case Ec. destruct (io_body io); [|done]. intros [= _ <-]. cbn [sn_header sn_body].
  apply (addHeaders_signed _ _ _ _ _ p Hp) in Eh as (k & Hk & Hs & Hc & Hg).
  rewrite Hk. unfold createSignature in Hk. rewrite Hp in Hk.
  eexists k, _. rewrite Hg, get_set_eq by done. rewrite type_set in Hc.
  split; [done|]. split; [done|]. split; [done|]. split; [done|]. split; [done|].
  intros Ht. apply Hc; [done|]. unfold has_source. by rewrite Hd.
Qed.

Lemma setupRequestHeader_message path auth h m :
  let '(m', h') := setupRequestHeader path auth h m in
  mAgentProfile m' = mAgentProfile m /\ mDynamicObject m' = mDynamicObject m /\
  mContentType m' = mContentType m /\ mCustomHeaders m' = mCustomHeaders m /\
  mUserId m' = mUserId m /\ hd_type h' = hd_type h.
Proof.
  unfold setupRequestHeader. destruct (typeToString (mType m)); case_match; by header_simpl.
Qed.

(** What is handed to the connection for an object sent as a secure request. *)
Lemma sendRequest_sent path auth h m io m' sent p k d ct :
  sendRequest path auth h m io = Ok (m', sent) -> hd_type h = RequestHeader ->
  mAgentProfile m = Some p -> profile_key p = Some k -> mDynamicObject m = Some d ->
  mContentType m = Some ct -> content_type ct = Json \/ content_type ct = Xml ->
  untouched "Content-Type" m -> hd_has (sn_header sent) "Content-Length" = false ->
  header_signed (sn_header sent) (mUserId m) (profile_userId p) (profile_id p) k /\
  hd_get (sn_header sent) "Content-Type" = Some ct /\
  hd_get (sn_header sent) "Transfer-Encoding" = Some "chunked" /\
  exists c, sn_body sent = Some (sendBody (sn_header sent) (Some k) c) /\
  readObject (content_type ct) c = Ok d.
Proof.
  unfold sendRequest. pose proof (setupRequestHeader_message path auth h m) as Hm.
  destruct (setupRequestHeader path auth h m) as [m1 h1]. destruct Hm as (E1 & E2 & E3 & E4 & E5 & E6).
  intros Hs Ht Hp Hk Hd Hct Htype Hun Hcl.
  rewrite <-E1 in Hp. rewrite <-E3 in Hct. rewrite <-E5 in *. rewrite <-E6 in Ht. rewrite <-E2 in Hd.
  assert (untouched "Content-Type" m1) as Hun1 by (unfold untouched; by rewrite E4).
  unfold sendContent in Hs. rewrite Hd in Hs.
  apply (sendHeaderAndObject_sent _ _ _ _ _ _ p ct) in Hs as (k' & c & Hk' & Hh & Hb & Hc & Hw & Hch);
    [|done..]. assert (k' = k) as -> by congruence.
  split; [done|]. split; [done|]. split; [by apply Hch|]. exists c. split; [done|].
  apply read_write; [done|]. by destruct Htype as [E|E]; rewrite E in Hw |- *.
Qed.

(** Receiving it: the same object, and a message that stays secure. *)
Lemma receiveRequestContent_sent h k c ct d r src dlg d0 :
  hd_get h "Content-Type" = Some ct -> content_type ct = Json \/ content_type ct = Xml ->
  hd_get h "Transfer-Encoding" = Some "chunked" -> readObject (content_type ct) c = Ok d ->
  mPublicKeySource r = Some src -> src (mAgentUserId r) (mAgentProfileId r) = Some (public_key k, dlg) ->
  mSecurityStatus r = Secure -> mDynamicObject r = Some d0 ->
  let b := sendBody h (Some k) c in
  exists r2, receiveRequestContent h (Ok {| rc_bytes := b.1; rc_trailer := b.2 |}) r = (r2, Ok tt, no_sink) /\
  mSecurityStatus r2 = Secure /\ mDynamicObject r2 = Some d.
Proof.
  intros Hc Htype Hch Hread Hsrc Hkey Hsec Hr. cbv zeta.
  unfold receiveRequestContent, content_expected, hd_has. rewrite Hch.
  rewrite orb_true_r. unfold receiveContentOf. cbn [mDynamicObject setType].
  rewrite Hr. unfold receiveContentObject, checkContentType, hd_string. rewrite Hc. simpl default.
  destruct (receive_sent h k c (readObject (content_type ct)) d (setType (requestType h) r) src dlg)
      as (r2 & Hrc & Hs2); [done..|].
  cbv zeta in Hrc. exists (set_object (Some d) r2).
  destruct Htype as [E|E]; rewrite E in Hrc |- *; by rewrite Hrc.
Qed.

(** C9: a secure request round trip.  An object sent as a request by an agent, as JSON or
    XML and without a length, is chunked; whoever receives its header, body and trailer
    and finds the agent's public key finds the message secure, from the user it was sent
    for, and reads the same object, whatever the content encoding.  Ids are those of
    users, of 64 bits, and of profiles, of 32. *)
Theorem secure_request_roundtrip path auth h m io m' sent p k d ct r src dlg d0 :
  sendRequest path auth h m io = Ok (m', sent) -> hd_type h = RequestHeader ->
  mAgentProfile m = Some p -> profile_key p = Some k -> mDynamicObject m = Some d ->
  mContentType m = Some ct -> content_type ct = Json \/ content_type ct = Xml ->
  untouched "Content-Type" m ->
  0 < mUserId m < 2 ^ 64 -> 0 < profile_userId p < 2 ^ 64 -> 0 < profile_id p < 2 ^ 32 ->
  hd_get (sn_header sent) "X-Forwarded-Host" = None ->
  hd_has (sn_header sent) "Content-Length" = false ->
  mPublicKeySource r = Some src ->
  src (profile_userId p) (profile_id p) = Some (public_key k, dlg) ->
  profile_userId p = mUserId m \/ dlg = true -> mDynamicObject r = Some d0 ->
  exists body trailer, sn_body sent = Some (body, trailer) /\
  let r1 := checkHeaderSecurity (sn_header sent) r in
  let '(r2, res, _) :=
    receiveRequestContent (sn_header sent) (Ok {| rc_bytes := body; rc_trailer := trailer |}) r1 in
  mSecurityStatus r1 = Secure /\ mUserId r1 = mUserId m /\
  res = Ok tt /\ mSecurityStatus r2 = Secure /\ mDynamicObject r2 = Some d.
Proof.
  intros Hs Ht Hp Hk Hd Hct Htype Hun Ru Ra Rp Hx Hcl Hsrc Hkey Hdlg Hr.
  destruct (sendRequest_sent _ _ _ _ _ _ _ _ _ _ _ Hs Ht Hp Hk Hd Hct Htype Hun Hcl)
    as (Hh & Hc & Hch & c & Hb & Hread).
  rewrite (header_signed_secure _ _ _ _ k r src dlg) by done.
  destruct (receiveRequestContent_sent (sn_header sent) k c ct d
    (setSecurityStatus Secure (set_ids (mUserId m) (profile_userId p) (profile_id p) r)) src dlg d0)
    as (r2 & Hrc & Hs2 & Hd2); [done..|].
  destruct (sendBody (sn_header sent) (Some k) c) as [body trailer]. exists body, trailer.
  split; [done|]. cbv zeta in Hrc |- *. cbn [fst snd] in Hrc. by rewrite Hrc.
Qed.

(** The message names an agent that may act for the user, and the header carries the agent's
    signature of the start line and the host. *)
Definition authentic (src : KeySource) h m : Prop :=
  mUserId m <> 0 /\ mAgentUserId m <> 0 /\ mAgentProfileId m <> 0 /\
  exists key isDelegate, src (mAgentUserId m) (mAgentProfileId m) = Some (key, isDelegate) /\
  (mAgentUserId m = mUserId m \/ isDelegate = true) /\
  verifySignature key (header_data h) (hd_string h "Btp-Header-Signature") = true.

(** Reading and checking a header changes the ids and the status only. *)
Lemma read_ids_keeps h m m1 hs : read_ids h m = (m1, hs) ->
  exists user agent profile, m1 = set_ids user agent profile m.
Proof. unfold read_ids. case_match; intros [= <- <-]; by do 3 eexists. Qed.

Lemma checkHeaderSecurity_keeps h m : exists s user agent profile,
  checkHeaderSecurity h m = setSecurityStatus s (set_ids user agent profile m).
Proof.
  unfold checkHeaderSecurity. destruct (read_ids h m) as [m1 hs] eqn:E.
  destruct (read_ids_keeps _ _ _ _ E) as (? & ? & ? & ->). by do 4 eexists.
Qed.

Lemma checkHeaderSecurity_secure h m :
  mSecurityStatus (checkHeaderSecurity h m) = Secure ->
  exists src, mPublicKeySource m = Some src /\ authentic src h (checkHeaderSecurity h m).
Proof.
  unfold checkHeaderSecurity. destruct (read_ids h m) as [m1 hs] eqn:E.
  assert (mPublicKeySource m1 = mPublicKeySource m /\
          (hs = hd_string h "Btp-Header-Signature" \/ hs = "")) as [Hs Hhs].
  { split; [by destruct (read_ids_keeps _ _ _ _ E) as (? & ? & ? & ->)|].
    unfold read_ids in E. case_match; injection E as <- <-; auto. }
  cbn [mSecurityStatus setSecurityStatus]. rewrite Hs.
  destruct (mPublicKeySource m) as [src|]; [|done]. unfold header_status.
  destruct (_ || _ || _ || _) eqn:Ez; [done|]. destruct (negb (String.eqb _ _)); [done|].
  destruct (src _ _) as [[k dlg]|] eqn:Ek; [|done]. destruct (negb _ && negb _) eqn:Ed; [done|].
  destruct (verifySignature k (header_data h) hs) eqn:Ev; [|done]. intros _.
  exists src. split; [done|]. rewrite !orb_false_iff in Ez. destruct Ez as (((Hu & Ha) & Hp) & Hne).
  apply Z.eqb_neq in Hu, Ha, Hp. apply andb_false_iff in Ed.
  split; [done|]. split; [done|]. split; [done|].
  exists k, dlg. split; [done|]. split.
  { destruct Ed as [Ed|Ed]; apply negb_false_iff in Ed; [left; by apply Z.eqb_eq|by right]. }
  destruct Hhs as [<-| ->]; [done|discriminate].
Qed.

(** The content carries the signature of the owner of this key. *)
Definition content_signed (k : PublicKey) h (rc : Received) : Prop :=
  exists content cs, decodeContent h (rc_bytes rc) = Ok content /\ verifySignature k content cs = true /\
  (tr_signature (rc_trailer rc) = Some cs \/ hd_get h "Btp-Content-Signature" = Some cs).

(** Content that is received and leaves the message secure is signed, if there is any. *)
Lemma receive_secure {A} h (sink : string -> outcome A) rc0 m m' a src :
  mPublicKeySource m = Some src -> receiveContentStream h rc0 sink m = (m', Ok a) ->
  mSecurityStatus m' = Secure ->
  exists rc, rc0 = Ok rc /\
  (0 < tr_length (rc_trailer rc) -> exists k dlg, src (mAgentUserId m) (mAgentProfileId m) = Some (k, dlg) /\
   content_signed k h rc).
Proof.
  intros Hsrc. unfold receiveContentStream, contentKey. rewrite Hsrc.
  destruct (src _ _) as [[k dlg]|] eqn:Ek; destruct rc0 as [rc|]; try done;
    destruct (decodeContent h (rc_bytes rc)) as [content|] eqn:Ed; try done;
    destruct (sink content) as [x|]; try done; intros [= <- <-]; [|done].
  cbn [option_map]. unfold checkContentSecurity. intros Hsec. exists rc. split; [done|]. intros Hl.
  rewrite (proj2 (Z.ltb_lt _ _) Hl) in Hsec. exists k, dlg. split; [done|].
  set (cs := match rc_trailer rc with {| tr_signature := Some cs |} => cs | _ => _ end) in Hsec.
  exists content, cs. split; [done|]. cbn [mSecurityStatus setSecurityStatus] in Hsec.
  destruct (Nat.ltb 0 (String.length cs)) eqn:El; [|done]. destruct (verifySignature k content cs); [|done].
  split; [done|]. subst cs. destruct (rc_trailer rc) as [len [cs|]]; [by left|right].
  unfold hd_string in El |- *. by destruct (hd_get h "Btp-Content-Signature").
Qed.

(** Receiving content changes neither the ids nor the key source. *)
Definition same_sender m m' : Prop :=
  mUserId m' = mUserId m /\ mAgentUserId m' = mAgentUserId m /\
  mAgentProfileId m' = mAgentProfileId m /\ mPublicKeySource m' = mPublicKeySource m.

Lemma receiveContentStream_sender {A} h rc (sink : string -> outcome A) m :
  same_sender m (receiveContentStream h rc sink m).1.
Proof.
  unfold receiveContentStream, contentKey, checkContentSecurity.
  repeat first [done | case_match; simplify_eq/=].
Qed.

Lemma receiveContentObject_sender h rc d m : same_sender m (receiveContentObject h rc d m).1.
Proof.
  unfold receiveContentObject. destruct (checkContentType m h false) as [[h' t]|]; [|done].
  pose proof (receiveContentStream_sender h rc (readObject t) m) as Hr.
  pose proof (receiveContentStream_sender h rc (fun c => Ok (formDecode d c)) m) as Hf.
  destruct t;
    [destruct (receiveContentStream h rc (readObject _) m) as [m1 []]; exact Hr..|].
  destruct (receiveContentStream h rc (fun c => Ok (formDecode d c)) m) as [m1 []]; exact Hf.
Qed.

Lemma receiveRequestContent_sender h rc m : same_sender m (receiveRequestContent h rc m).1.1.
Proof.
  unfold receiveRequestContent, receiveContentOf, receiveToSink.
  destruct (content_expected h); [|done].
  destruct (mDynamicObject _) as [d|]; [apply (receiveContentObject_sender h rc d (setType _ m))|].
  destruct (mContentSink _); [|done].
  pose proof (receiveContentStream_sender h rc Ok (setType (requestType h) m)) as Hr.
  by destruct (receiveContentStream _ _ _ _) as [m1 []].
Qed.

(** C17: the host in the signature does not bind a request to the server it was meant for.
    Whoever has seen a secure header can send it on under any other host: it is still secure
    with the first host as forwarded host, which is not signed. *)
Theorem forwarded_host_replay h r other :
  hd_get h "X-Forwarded-Host" = None -> mSecurityStatus (checkHeaderSecurity h r) = Secure ->
  let h' := hd_set (hd_set h "X-Forwarded-Host" (hd_string h "Host")) "Host" other in
  hd_get h' "Host" = Some other /\ checkHeaderSecurity h' r = checkHeaderSecurity h r.
Proof.
  intros Hx Hsec. cbv zeta. split; [apply get_set_eq|].
  unfold checkHeaderSecurity, read_ids, header_status, header_data, hd_string in *.
  header_simpl. by rewrite Hx.
Qed.

(** Content without a signature is a breach for who checks it, and is received all the same. *)
Lemma receive_unsigned {A} h (sink : string -> outcome A) a c rc r src k dlg :
  mPublicKeySource r = Some src -> src (mAgentUserId r) (mAgentProfileId r) = Some (k, dlg) ->
  hd_get h "Btp-Content-Signature" = None -> tr_signature (rc_trailer rc) = None ->
  0 < tr_length (rc_trailer rc) -> decodeContent h (rc_bytes rc) = Ok c -> sink c = Ok a ->
  exists r', receiveContentStream h (Ok rc) sink r = (r', Ok a) /\ mSecurityStatus r' = Breach.
Proof.
  intros Hsrc Hkey Hh Ht Hl Hd Hs. unfold receiveContentStream, contentKey.
  rewrite Hsrc, Hkey, Hd, Hs. eexists. split; [reflexivity|]. cbn [option_map].
  unfold checkContentSecurity, hd_string. destruct (rc_trailer rc) as [len sig]. simpl in *. subst sig.
  replace (0 <? len) with true by lia. by rewrite Hh.
Qed.

Lemma addTransferHeaders_get m h n :
  strcase_eqb "Transfer-Encoding" n = false -> strcase_eqb "Connection" n = false ->
  strcase_eqb "TE" n = false -> hd_get (addTransferHeaders m h) n = hd_get h n.
Proof.
  intros. unfold addTransferHeaders, chunk_unless_length.
  destruct (hd_type h); repeat case_match; simplify_eq; by rewrite ?get_set_ne.
Qed.

Lemma addHeaders_content_signature m h ds m' h' :
  untouched "Btp-Content-Signature" m -> addHeaders m h ds = Ok (m', h') ->
  hd_get h' "Btp-Content-Signature" = hd_get h "Btp-Content-Signature".
Proof.
  intros Hun. unfold addHeaders. bind_case E1. bind_case E2. destruct a0 as [m2 h2]. intros [= _ <-].
  assert (hd_get a "Btp-Content-Signature" = hd_get h "Btp-Content-Signature") as <-.
  { unfold untouched in Hun. destruct (mCustomHeaders m) as [l|]; [|by injection E1 as <-].
    by eapply addCustomHeaders_get. }
  rewrite <-(addTransferHeaders_get m a) by reflexivity. revert E2.
  unfold addSecurityHeaders. destruct (mAgentProfile m); [|by intros [= _ <-]].
  destruct ds; [|done]. intros [= _ <-].
  match goal with |- context [if ?b then _ else _] => destruct b end; by header_simpl.
Qed.
End BtpTheorems.

(** * An instance *)

#[export] Existing Instance Sealed.sealed_scheme.
#[export] Existing Instance Sealed.sealed_laws.
#[export] Existing Instance PlainHeader.header.
#[export] Existing Instance PlainHeader.header_laws.
#[export] Existing Instance StoredOnly.compression.
#[export] Existing Instance StoredOnly.compression_laws.

(** Objects that are their own text. *)
Module PlainText.
Fixpoint is_hex (s : string) : bool :=
  match s with
  | EmptyString => true
  | String a (String b s') =>
      let ok c := match digit_value c with
                  | Some _ => true
                  | None => let n := Ascii.N_of_ascii c in (97 <=? n)%N && (n <=? 102)%N
                  end in
      ok a && ok b && is_hex s'
  | _ => false
  end.

#[export] Instance hex_check : HexCheck := {| hex_valid := is_hex |}.

Lemma is_hex_to_hex s : is_hex (Sealed.to_hex s) = true.
Proof.
  induction s as [|c s IH]; [done|]. cbn [Sealed.to_hex is_hex]. rewrite IH, andb_true_r.
  by destruct c as [[] [] [] [] [] [] [] []].
Qed.

#[export] Instance hex_check_laws : HexCheckLaws (PrivateKey := string) (PublicKey := string).
Proof. split; [apply is_hex_to_hex|done]. Qed.

#[export] Instance codec : ObjectCodec string := {|
  writeObject _ d := Ok d;
  readObject _ s := Ok s;
  formEncode d := d;
  formDecode _ s := s;
  newObject := "";
  exceptionType d := d
|}.
#[export] Instance codec_laws : ObjectCodecLaws string.
Proof. split. by intros t d s _ [= ->]. Qed.

Definition keys : KeySource (PublicKey := string) := fun user profile =>
  if (user =? 900) && (profile =? 1) then Some ("k", false) else None.

Definition io_ok : SendIO := {| io_header := Ok tt; io_body := Ok tt |}.

Abbreviation Msg := (@BtpMessage string string PlainHeader.t string).

(** A request of user 900 and its receiver. *)
Definition outgoing : Msg :=
  setUserId 900 (setAgentProfile (Sealed.profile 900 "k") (setDynamicObject "{}" None
    (setType Post newMessage))).
Definition incoming : Msg := setDynamicObject "" None (setPublicKeySource keys newMessage).

Definition header : PlainHeader.t := PlainHeader.request "" "" "".
Definition sent_pair : Msg * Sent := Eval vm_compute in
  match sendRequest "/api?nodeuser=900" "localhost" header outgoing io_ok with
  | Ok s => s
  | Raise _ => (outgoing, {| sn_header := header; sn_body := None |})
  end.
Definition sent : Sent := Eval cbv in sent_pair.2.
End PlainText.
#[export] Existing Instance PlainText.hex_check.
#[export] Existing Instance PlainText.hex_check_laws.
#[export] Existing Instance PlainText.codec.
#[export] Existing Instance PlainText.codec_laws.

Lemma secure_request_roundtrip_witness :
  mSecurityStatus (checkHeaderSecurity (sn_header PlainText.sent) PlainText.incoming) = Secure.
Proof.
  destruct (secure_request_roundtrip "/api?nodeuser=900" "localhost" PlainText.header PlainText.outgoing
    PlainText.io_ok PlainText.sent_pair.1 PlainText.sent (Sealed.profile 900 "k") "k" "{}"
    "application/json" PlainText.incoming PlainText.keys false "") as (b & t & _ & Hr);
    [first [simpl; lia|by left|constructor|vm_compute; reflexivity]..|].
  cbv zeta in Hr. destruct (receiveRequestContent (sn_header PlainText.sent) _ _) as [[r2 res] sk].
  apply Hr.
Defined.

Lemma forwarded_host_replay_witness :
  let h := hd_set (hd_set (sn_header PlainText.sent) "X-Forwarded-Host" "localhost") "Host" "victim" in
  mSecurityStatus (checkHeaderSecurity h PlainText.incoming) = Secure.
Proof.
  destruct (forwarded_host_replay (sn_header PlainText.sent) PlainText.incoming "victim")
    as [_ Hr]; [vm_compute; reflexivity..|]. cbv zeta in Hr |- *.
  change "localhost" with (hd_string (sn_header PlainText.sent) "Host"). rewrite Hr.
  vm_compute. reflexivity.
Defined.
