(* ===== verification/Client.v ===== *)
(** The client side of the protocol ([cpp/protocol/BtpClient.cpp],
    [cpp/node/Messenger.cpp]).

    An exchange sends a request and receives the response; whether a connection can be
    made, what it sends and what it receives are inputs. *)
From S2P Require Import Prelude DynMap Payees Signer Http Btp.

Local Open Scope Z_scope.
Local Open Scope bitmunk_scope.

(** What the code uses of an [Url]; [url_nodeuser] is the query variable. *)
Record Url := {
  url_scheme : string;
  url_authority : string;
  url_pathAndQuery : string;
  url_nodeuser : option Z
}.

Definition getBitmunkUserCommonName (userId : Z) : string := "bitmunk-" +:+ print_u64 userId.

(** The connection to make: with SSL or not, the user's virtual host, the time-outs. *)
Record Connection := { cn_ssl : bool; cn_commonName : option string; cn_timeout : Z }.

Definition createConnection (userId : Z) (url : Url) (timeout : Z) (connect : Connection -> bool)
  : outcome Connection :=
  let ssl := String.eqb (url_scheme url) "https" in
  let hc := {| cn_ssl := ssl;
               cn_commonName := if ssl && negb (userId =? 0)
                                then Some (getBitmunkUserCommonName userId) else None;
               cn_timeout := u32 (timeout * 1000) |} in
  if connect hc then Ok hc else Raise "bitmunk.protocol.ConnectError".

(** The exception for a status code, if it is an error. *)
Definition checkResponseCode (code : Z) : option string :=
  if 500 <=? code then Some "bitmunk.protocol.ServerError"
  else if 400 <=? code then
    Some (if code =? 403 then "bitmunk.protocol.ResourceForbidden"
          else if code =? 404 then "bitmunk.protocol.ResourceNotFound"
          else if code =? 405 then "bitmunk.protocol.MethodNotAllowed"
          else "bitmunk.protocol.BadRequest")
  else None.

Section Client.
Context {PrivateKey PublicKey : Type} `{SignatureScheme PrivateKey PublicKey} `{HexCheck}.
Context {Hdr : Type} `{HttpHeader Hdr} `{Compression} {D : Type} `{ObjectCodec D}.
Abbreviation Message := (@BtpMessage PrivateKey PublicKey Hdr D).
Implicit Types (m out inMsg : Message) (h : Hdr).

(** Header security, and the same host in the request and in the response. *)
Definition checkResponseSecurity (request response : Hdr) inMsg : Message * outcome unit :=
  let inMsg := checkHeaderSecurity response inMsg in
  match mSecurityStatus inMsg with
  | Breach => (inMsg, Raise "bitmunk.protocol.Security")
  | _ => if String.eqb (hd_string request "Host") (hd_string response "Host")
         then (inMsg, Ok tt)
         else (setSecurityStatus Breach inMsg, Raise "bitmunk.protocol.Security")
  end.

(** What the network does: sending, and the header and content of the response. *)
Record Network := {
  nw_connect : Connection -> bool;
  nw_send : SendIO;
  nw_response : outcome Hdr;
  nw_content : outcome Received
}.

(** Without a message for the response only the request is sent. *)
Definition sendMessage (url : Url) out (request : Hdr) (inMsg : option Message) (nw : Network)
  : option Message * outcome (option Hdr) :=
  match sendRequest (url_pathAndQuery url) (url_authority url) request out (nw_send nw), inMsg with
  | Raise e, _ => (inMsg, Raise e)
  | Ok _, None => (None, Ok None)
  | Ok (_, sent), Some inMsg =>
      match nw_response nw with
      | Raise e => (Some inMsg, Raise e)
      | Ok response =>
          match checkResponseSecurity (sn_header sent) response inMsg with
          | (inMsg, Raise e) => (Some inMsg, Raise e)
          | (inMsg, Ok _) =>
              let security := "bitmunk.protocol.Security" in
              match checkResponseCode (hd_status response) with
              | Some error =>
                  match mSecurityStatus inMsg with
                  | Breach => (Some inMsg, Raise security)
                  | _ => match receiveResponseContent response (nw_content nw) inMsg with
                         | (inMsg, Raise e, _) => (Some inMsg, Raise e)
                         | (inMsg, Ok _, _) => (Some inMsg, Raise error)
                         end
                  end
              | None =>
                  match mSecurityStatus inMsg with
                  | Breach => (Some inMsg, Raise security)
                  | _ => (Some inMsg, Ok (Some response))
                  end
              end
          end
      end
  end.

Definition exchange (userId : Z) (url : Url) out (request : Hdr) (inMsg : option Message) (timeout : Z)
  (nw : Network) : option Message * outcome unit :=
  match createConnection userId url timeout (nw_connect nw) with
  | Raise e => (inMsg, Raise e)
  | Ok _ =>
      match sendMessage url out request inMsg nw with
      | (Some inMsg, Ok (Some response)) =>
          let '(inMsg, r, _) := receiveResponseContent response (nw_content nw) inMsg in (Some inMsg, r)
      | (inMsg, Ok _) => (inMsg, Ok tt)
      | (inMsg, Raise e) => (inMsg, Raise e)
      end
  end.

(** ** The messenger *)

(** [getSelfUrl]; without a host address the configured host is read and dropped. *)
Definition getSelfUrl (ssl : bool) (hostAddress : option string) (port : string) : outcome string :=
  match hostAddress with
  | None => Raise no_pointer
  | Some host =>
      let host := if String.eqb host "0.0.0.0" then "127.0.0.1" else host in
      Ok (String.substring 0 (String.length host + 14)
            ("http" +:+ (if ssl then "s" else "") +:+ "://" +:+ host +:+ ":" +:+ port))
  end.

Definition not_logged_in : string := "bitmunk.node.Messenger.NotLoggedIn".

(** The login data of the sender: the agent, or else the user. *)
Definition sender_id (userId agentId : Z) : Z := if agentId =? 0 then userId else agentId.

Definition peer_of (peerId : Z) (url : Url) : Z := default peerId (url_nodeuser url).

(** [exchange] of prepared messages. *)
Definition exchangeMessages (login : Z -> option (option (Profile PrivateKey))) (keys : KeySource)
  (peerId : Z) (url : Url) out (request : Hdr) inMsg (userId agentId timeout : Z) (nw : Network)
  : Message * outcome unit :=
  let prepared :=
    if userId =? 0 then Ok (out, inMsg)
    else match login (sender_id userId agentId) with
         | None => Raise not_logged_in
         | Some None => Ok (out, inMsg)
         | Some (Some p) => Ok (setAgentProfile p (setUserId userId out), setPublicKeySource keys inMsg)
         end in
  match prepared with
  | Raise e => (inMsg, Raise e)
  | Ok (out, inMsg) =>
      match exchange (peer_of peerId url) url out request (Some inMsg) timeout nw with
      | (Some inMsg, r) => (inMsg, r)
      | (None, r) => (inMsg, r)
      end
  end.

(** [exchange] of objects: the object received, if there is one to receive. *)
Definition exchangeObjects (login : Z -> option (option (Profile PrivateKey))) (keys : KeySource)
  (peerId : Z) (type : Type_) (url : Url) (request : Hdr) (out inMsg : option D) (userId agentId : Z)
  (headers : option (list (string * HeaderValue))) (timeout : Z) (nw : Network)
  : option D * outcome unit :=
  match (if userId =? 0 then Some None else login (sender_id userId agentId)) with
  | None => (inMsg, Raise not_logged_in)
  | Some p =>
      let msgOut := setType type newMessage in
      let msgOut := set_custom headers msgOut in
      let msgOut := match out with Some d => setDynamicObject d None msgOut | None => msgOut end in
      let msgIn := match inMsg with Some d => setDynamicObject d None newMessage | None => newMessage end in
      let '(msgOut, msgIn) :=
        match p with
        | Some p => (setAgentProfile p (setUserId (if userId =? 0 then profile_userId p else userId) msgOut),
                     setPublicKeySource keys msgIn)
        | None => (msgOut, msgIn)
        end in
      match exchange (peer_of peerId url) url msgOut request (Some msgIn) timeout nw with
      | (Some msgIn, r) => (mDynamicObject msgIn, r)
      | (None, r) => (inMsg, r)
      end
  end.
End Client.

(** * Properties *)

Section ClientTheorems.
Context {PrivateKey PublicKey : Type} `{SignatureScheme PrivateKey PublicKey} `{HexCheck}.
Context {Hdr : Type} `{HttpHeader Hdr} `{Compression} {D : Type} `{ObjectCodec D}.
Abbreviation Message := (@BtpMessage PrivateKey PublicKey Hdr D).
Implicit Types (m out inMsg : Message) (h : Hdr).

(** What a message that was sent and answered without an error tells of the response. *)
Lemma sendMessage_response url out request inMsg nw in1 response src :
  sendMessage url out request (Some inMsg) nw = (Some in1, Ok (Some response)) ->
  mPublicKeySource inMsg = Some src ->
  nw_response nw = Ok response /\ hd_status response < 400 /\
  in1 = checkHeaderSecurity response inMsg /\ mSecurityStatus in1 = Secure /\
  exists sent m', sendRequest (url_pathAndQuery url) (url_authority url) request out (nw_send nw) =
    Ok (m', sent) /\ hd_string (sn_header sent) "Host" = hd_string response "Host".
Proof.
  intros E Hsrc. unfold sendMessage in E. destruct (sendRequest _ _ _ _ _) as [[m' sent]|] eqn:Es; [|done].
  destruct (nw_response nw) as [res|]; [|done].
  destruct (checkResponseSecurity _ _ _) as [i [u|e]] eqn:Ec; [|done].
  unfold checkResponseSecurity in Ec.
  assert (mSecurityStatus (checkHeaderSecurity res inMsg) <> Unchecked) as Hun.
  { unfold checkHeaderSecurity, header_status. destruct (read_ids res inMsg) as [m1 hs] eqn:Er.
    destruct (read_ids_keeps _ _ _ _ Er) as (? & ? & ? & ->). cbn [mPublicKeySource set_ids].
    rewrite Hsrc. simpl. by repeat case_match. }
  assert (checkHeaderSecurity res inMsg = i /\ mSecurityStatus i = Secure /\
    hd_string (sn_header sent) "Host" = hd_string res "Host") as (<- & Hsec & Hhost).
  { destruct (mSecurityStatus (checkHeaderSecurity res inMsg)) eqn:Est; [done..|].
    destruct (String.eqb_spec (hd_string (sn_header sent) "Host") (hd_string res "Host")); [|done].
    by injection Ec as <-. }
  rewrite Hsec in E. unfold checkResponseCode in E.
  destruct (Z.leb_spec 500 (hd_status res)).
  { destruct (receiveResponseContent _ _ _) as [[? []] ?]; done. }
  destruct (Z.leb_spec 400 (hd_status res)).
  { destruct (receiveResponseContent _ _ _) as [[? []] ?]; done. }
  injection E as <- <-. split; [done|]. split; [lia|]. split; [done|]. split; [done|].
  by exists sent, m'.
Qed.

Lemma sendMessage_some url out request inMsg nw :
  exists i r, sendMessage url out request (Some inMsg) nw = (Some i, r) /\ r <> Ok None.
Proof.
  unfold sendMessage. repeat case_match; simplify_eq; by do 2 eexists.
Qed.

(** C10: an exchange with a key source only succeeds for a response that is no error, whose
    header is signed by an agent that the source knows and that may act for the user it
    names, and that has the host of the request. *)
Theorem exchange_authentic userId url out request inMsg timeout nw in2 src :
  exchange userId url out request (Some inMsg) timeout nw = (Some in2, Ok tt) ->
  mPublicKeySource inMsg = Some src ->
  exists response sent m', nw_response nw = Ok response /\ hd_status response < 400 /\
  sendRequest (url_pathAndQuery url) (url_authority url) request out (nw_send nw) = Ok (m', sent) /\
  hd_string (sn_header sent) "Host" = hd_string response "Host" /\
  authentic src response (checkHeaderSecurity response inMsg).
Proof.
  unfold exchange. destruct (createConnection _ _ _ _); [|done].
  destruct (sendMessage_some url out request inMsg nw) as (in1 & r & E & Hr). rewrite E.
  destruct r as [[response|]|e]; [|done..]. intros _ Hsrc.
  apply (sendMessage_response _ _ _ _ _ _ _ src) in E
    as (Hres & Hst & -> & Hsec & sent & m' & Hs & Hh); [|done].
  exists response, sent, m'. do 4 (split; [done|]).
  apply checkHeaderSecurity_secure in Hsec as (src' & Hsrc' & Ha). congruence.
Qed.

(** The content of a response is not protected.  Once the header of the response is
    accepted, an object without a content signature is received and the exchange succeeds; the
    breach is recorded in the message only, which the messenger drops. *)
Theorem exchange_accepts_unsigned_content userId url out request inMsg timeout nw hc in1 response src
  d0 rc content d :
  createConnection userId url timeout (nw_connect nw) = Ok hc ->
  sendMessage url out request (Some inMsg) nw = (Some in1, Ok (Some response)) ->
  mPublicKeySource inMsg = Some src -> mDynamicObject inMsg = Some d0 ->
  content_expected response = true -> nw_content nw = Ok rc ->
  decodeContent response (rc_bytes rc) = Ok content ->
  (let t := content_type (hd_string response "Content-Type") in
   (t = Json \/ t = Xml) /\ readObject t content = Ok d) ->
  hd_get response "Btp-Content-Signature" = None -> tr_signature (rc_trailer rc) = None ->
  0 < tr_length (rc_trailer rc) ->
  exists in2, exchange userId url out request (Some inMsg) timeout nw = (Some in2, Ok tt) /\
  mDynamicObject in2 = Some d /\ mSecurityStatus in2 = Breach.
Proof.
  intros Hc Hsend Hsrc Hd0 Hexp Hrc Hdec [Ht Hread] Hsig Htr Hlen. unfold exchange. rewrite Hc, Hsend.
  apply (sendMessage_response _ _ _ _ _ _ _ src) in Hsend as (_ & Hst & Hin & Hsec & _); [|done].
  assert (mPublicKeySource in1 = mPublicKeySource inMsg /\ mDynamicObject in1 = mDynamicObject inMsg)
    as [Hsrc1 Hobj1].
  { rewrite Hin. by destruct (checkHeaderSecurity_keeps response inMsg) as (? & ? & ? & ? & ->). }
  rewrite Hin in Hsec. apply checkHeaderSecurity_secure in Hsec as (src' & Hsrc' & Ha).
  rewrite <-Hin in Ha. assert (src' = src) as -> by congruence.
  destruct Ha as (_ & _ & _ & key & dlg & Hkey & _).
  unfold receiveResponseContent. rewrite Hexp. replace (400 <=? hd_status response) with false by lia.
  unfold receiveContentOf. rewrite Hobj1, Hd0, Hrc. unfold receiveContentObject, checkContentType.
  edestruct (receive_unsigned response (readObject (content_type (hd_string response "Content-Type")))
    d content rc in1 src key dlg) as (in2 & Hin2 & Hbr); [congruence|done..|].
  destruct Ht as [E|E]; rewrite E in Hin2 |- *; rewrite Hin2; by eexists.
Qed.
End ClientTheorems.

(** * An exchange *)

Module Sample.
Import PlainText.

Definition url : Url :=
  {| url_scheme := "https"; url_authority := "localhost"; url_pathAndQuery := "/api?nodeuser=900";
     url_nodeuser := Some 900 |}.

(** A signed response to the request, and its header with a status. *)
Definition answer : Msg :=
  setUserId 900 (setAgentProfile (Sealed.profile 900 "k") (setDynamicObject "{1}" None newMessage)).

Definition response : PlainHeader.t := Eval vm_compute in
  match sendResponse (hd_set (hd_setStatus PlainHeader.response 200 "OK") "Host" "localhost")
          answer io_ok with
  | Ok (_, s) => sn_header s
  | Raise _ => PlainHeader.response
  end.

(** The content has been replaced on its way. *)
Definition network : Network :=
  {| nw_connect := fun _ => true; nw_send := io_ok; nw_response := Ok response;
     nw_content := Ok {| rc_bytes := "{2}"; rc_trailer := {| tr_length := 3; tr_signature := None |} |} |}.

Definition received : Msg := Eval vm_compute in checkHeaderSecurity response incoming.
End Sample.

Lemma exchange_authentic_witness :
  authentic PlainText.keys Sample.response (checkHeaderSecurity Sample.response PlainText.incoming).
Proof.
  destruct (exchange 900 Sample.url PlainText.outgoing PlainText.header (Some PlainText.incoming) 30
    Sample.network) as [[in2|] r] eqn:E; [|vm_compute in E; discriminate].
  assert (r = Ok tt) as -> by (vm_compute in E; congruence).
  destruct (exchange_authentic _ _ _ _ _ _ _ in2 PlainText.keys E eq_refl)
    as (res & sent & m' & Hr & _ & _ & _ & Ha).
  injection Hr as <-. exact Ha.
Defined.

Lemma exchange_accepts_unsigned_content_witness :
  exists in2, exchange 900 Sample.url PlainText.outgoing PlainText.header (Some PlainText.incoming) 30
    Sample.network = (Some in2, Ok tt) /\ mDynamicObject in2 = Some "{2}" /\ mSecurityStatus in2 = Breach.
Proof.
  apply (exchange_accepts_unsigned_content 900 Sample.url PlainText.outgoing PlainText.header
    PlainText.incoming 30 Sample.network
    {| cn_ssl := true; cn_commonName := Some "bitmunk-900"; cn_timeout := 30000 |}
    Sample.received Sample.response PlainText.keys ""
    {| rc_bytes := "{2}"; rc_trailer := {| tr_length := 3; tr_signature := None |} |} "{2}" "{2}");
    [first [split; [by left|reflexivity]|simpl; lia|vm_compute; reflexivity]..].
Defined.
