(* ===== verification/Profiles.v ===== *)
(** Profiles on disk ([cpp/common/Profile.cpp], and [generateProfile] and [loadProfile] of
    [cpp/node/LoginManager.cpp]).

    A profile is saved with its private key under a password.  At login it is read back and its
    keys are tried; a profile that cannot be used is replaced by a new one.  Keys, certificates
    and JSON are those of the Monarch library, an interface here. *)
From S2P Require Import Prelude Signer.
From Stdlib Require Import Ascii.
From stdpp Require Import countable strings.

Local Open Scope Z_scope.
Local Open Scope bitmunk_scope.

(** The members of a saved profile; a number or string that is not there reads as 0 or empty. *)
Record StoredProfile := {
  sp_id : option Z;
  sp_userId : Z;
  sp_privateKey : string;
  sp_certificate : option string
}.

(** [AsymmetricKeyFactory], [JsonWriter] and [JsonReader]. *)
Class KeyFactory (PrivateKey PublicKey Certificate : Type) := {
  writePrivateKeyToPem : PrivateKey -> string -> string;
  loadPrivateKeyFromPem : string -> string -> outcome PrivateKey;
  writePublicKeyToPem : PublicKey -> string;
  writeCertificateToPem : Certificate -> string;
  loadCertificateFromPem : string -> option Certificate;
  json_write : StoredProfile -> string;
  json_read : string -> outcome StoredProfile
}.

(** What was written is read back, a private key with its password. *)
Class KeyFactoryLaws (PrivateKey PublicKey Certificate : Type)
  `{KeyFactory PrivateKey PublicKey Certificate} := {
  key_round : forall k password,
    loadPrivateKeyFromPem (writePrivateKeyToPem k password) password = Ok k;
  certificate_round : forall c, loadCertificateFromPem (writeCertificateToPem c) = Some c;
  json_round : forall sp, json_read (json_write sp) = Ok sp
}.

Section Profiles.
Context {PrivateKey PublicKey Certificate : Type}.
Context `{SignatureScheme PrivateKey PublicKey} `{KeyFactory PrivateKey PublicKey Certificate}.

(** A [Profile] with its certificate. *)
Record FullProfile := {
  fp_profile : Profile PrivateKey;
  fp_certificate : option Certificate
}.
Implicit Types p : FullProfile.

Definition with_key (uid id : Z) (k : option PrivateKey) (c : option Certificate) : FullProfile :=
  {| fp_profile := {| profile_userId := uid; profile_id := id; profile_key := k |};
     fp_certificate := c |}.

Definition setCertificate (c : option Certificate) p : FullProfile :=
  {| fp_profile := fp_profile p; fp_certificate := c |}.

(** [Profile::save]: what is written; writing a profile without a key is not done. *)
Definition save (password : string) (k : PrivateKey) p : string :=
  json_write
    {| sp_id := Some (profile_id (fp_profile p)); sp_userId := profile_userId (fp_profile p);
       sp_privateKey := writePrivateKeyToPem k password;
       sp_certificate := writeCertificateToPem <$> fp_certificate p |}.

(** [Profile::load] into a new profile of user [uid]. *)
Definition load (password content : string) (uid : Z) : outcome FullProfile :=
  let? sp := json_read content in
  if negb (sp_userId sp =? uid) then Raise "bitmunk.InvalidProfileUserId"
  else match sp_id sp with
       | None => Raise "bitmunk.InvalidProfileId"
       | Some id =>
           let? k := loadPrivateKeyFromPem (sp_privateKey sp) password in
           Ok (with_key uid id (Some k) (sp_certificate sp ≫= loadCertificateFromPem))
       end.

(** What a login meets: the key cache, whether the file can be removed, new keys, the answers of
    the Bitmunk server to a public key and to a request for a certificate, and writing. *)
Record ProfileEnv := {
  pv_publicKey : Z -> Z -> option PublicKey;
  pv_removable : bool;
  pv_createKeyPair : outcome (PrivateKey * PublicKey);
  pv_register : Z -> string -> outcome Z;
  pv_certificate : Z -> Z -> outcome string;
  pv_write : string -> outcome unit
}.
Implicit Types env : ProfileEnv.

Definition test_data : string := "Data to sign, nothing special.".

(** The key the cache has for the profile accepts what the profile signs. *)
Definition checkKeys env p : bool :=
  match pv_publicKey env (profile_userId (fp_profile p)) (profile_id (fp_profile p)),
        profile_key (fp_profile p) with
  | Some key, Some k => ds_verify key test_data (ds_value k test_data)
  | _, _ => false
  end.

(** [generateProfile]: the new profile of user [uid] and the content of its file. *)
Definition generateProfile env (password : string) (uid : Z) : outcome (FullProfile * string) :=
  let? ks := pv_createKeyPair env in
  let? id := pv_register env uid (writePublicKeyToPem ks.2) in
  let p := with_key uid id (Some ks.1) None in
  let? _ := pv_write env (save password ks.1 p) in
  Ok (p, save password ks.1 p).

(** The file of the user, if it exists after the profile was tried, with how loading went. *)
Definition tryFile env (password : string) (uid : Z) (file : option string)
  : option (outcome FullProfile * string) :=
  match file with
  | None => None
  | Some content =>
      let r := load password content uid in
      let good := match r with Ok p => checkKeys env p | Raise _ => false end in
      if good || negb (pv_removable env) then Some (r, content) else None
  end.

(** A certificate for a profile that has none, and the file saved with it. *)
Definition addCertificate env (password : string) (pc : FullProfile * string)
  : outcome (FullProfile * string) :=
  let '(p, content) := pc in
  match fp_certificate p, profile_key (fp_profile p) with
  | None, Some k =>
      let? pem := pv_certificate env (profile_userId (fp_profile p)) (profile_id (fp_profile p)) in
      match loadCertificateFromPem pem with
      | None => Raise "bitmunk.node.CertificateError"
      | Some c =>
          let p := setCertificate (Some c) p in
          let? _ := pv_write env (save password k p) in
          Ok (p, save password k p)
      end
  | _, _ => Ok (p, content)
  end.

(** [loadProfile]: the profile and the content of its file. *)
Definition loadProfile env (password : string) (uid : Z) (file : option string)
  : outcome (FullProfile * string) :=
  let? pc := match tryFile env password uid file with
             | Some (r, content) => let? p := r in Ok (p, content)
             | None => generateProfile env password uid
             end in
  addCertificate env password pc.
End Profiles.
Arguments FullProfile : clear implicits.
Arguments ProfileEnv : clear implicits.

(** ** What is on disk and what is used *)

Section ProfileFacts.
Context {PrivateKey PublicKey Certificate : Type}.
Context `{SignatureScheme PrivateKey PublicKey} `{KeyFactoryLaws PrivateKey PublicKey Certificate}.
Implicit Types (p : FullProfile PrivateKey Certificate)
  (env : ProfileEnv PrivateKey PublicKey).

Lemma load_save password k p :
  profile_key (fp_profile p) = Some k ->
  load password (save password k p) (profile_userId (fp_profile p)) = Ok p.
Proof.
  destruct p as [[uid id key] cert]; intros [= ->]. unfold load, save.
  rewrite json_round; cbn. rewrite Z.eqb_refl; cbn. rewrite key_round; cbn.
  unfold with_key. do 2 f_equal. destruct cert as [c|]; [cbn; apply certificate_round|done].
Qed.

Lemma load_userId password content uid p :
  load password content uid = Ok p ->
  profile_userId (fp_profile p) = uid /\ is_Some (profile_key (fp_profile p)).
Proof.
  unfold load. destruct (json_read content) as [sp|]; [cbn|done].
  destruct (negb _); [done|]. destruct (sp_id sp) as [id|]; [|done].
  destruct (loadPrivateKeyFromPem _ _); [cbn|done]. intros [= <-]. cbn. eauto.
Qed.

Lemma generateProfile_ok env password uid p content :
  generateProfile env password uid = Ok (p, content) ->
  load password content uid = Ok p /\
  exists ks id, pv_createKeyPair env = Ok ks /\
    pv_register env uid (writePublicKeyToPem ks.2) = Ok id /\
    fp_profile p = {| profile_userId := uid; profile_id := id; profile_key := Some ks.1 |}.
Proof.
  unfold generateProfile. destruct (pv_createKeyPair env) as [ks|] eqn:Ek; [cbn|done].
  destruct (pv_register _ _ _) as [id|] eqn:Er; [cbn|done].
  destruct (pv_write _ _); [cbn|done]. intros [= <- <-].
  split; [|by exists ks, id].
  exact (load_save password ks.1 (with_key uid id (Some ks.1) None) eq_refl).
Qed.

Lemma addCertificate_ok env password uid p content q content' :
  load password content uid = Ok p ->
  addCertificate env password (p, content) = Ok (q, content') ->
  load password content' uid = Ok q /\ fp_profile q = fp_profile p.
Proof.
  intros Hl. destruct (load_userId _ _ _ _ Hl) as [<- [k Hk]]. cbn. rewrite Hk.
  destruct (fp_certificate p); [by intros [= <- <-]|].
  destruct (pv_certificate _ _ _) as [pem|]; [cbn|done].
  destruct (loadCertificateFromPem pem) as [c|]; [|done].
  destruct (pv_write _ _); [cbn|done]. intros [= <- <-]. split; [|done].
  exact (load_save password k (setCertificate (Some c) p) Hk).
Qed.

Lemma tryFile_ok env password uid file p content :
  tryFile env password uid file = Some (Ok p, content) ->
  file = Some content /\ load password content uid = Ok p /\
  (pv_removable env = true -> checkKeys env p = true).
Proof.
  unfold tryFile. destruct file as [c|]; [|done].
  destruct (load password c uid) as [q|] eqn:El;
    destruct (_ || _) eqn:Eg; intros [=]; simplify_eq.
  repeat split; auto. intros Hr. by rewrite Hr, orb_false_r in Eg.
Qed.

(** A profile that a login uses is the one its file holds: whether it was read, generated or
    given a certificate, loading the file with the password gives it back. *)
Theorem loadProfile_saved env password uid file p content :
  loadProfile env password uid file = Ok (p, content) ->
  load password content uid = Ok p /\ profile_userId (fp_profile p) = uid.
Proof.
  unfold loadProfile. intros E.
  enough (load password content uid = Ok p) as Hl by (split; [done|by apply load_userId in Hl as []]).
  destruct (tryFile env password uid file) as [[[q|] c]|] eqn:Et; [|done|]; cbn [outcome_bind] in E.
  - apply tryFile_ok in Et as (_ & Hl & _). by apply (addCertificate_ok _ _ _ _ _ _ _ Hl) in E as [].
  - destruct (generateProfile env password uid) as [[q c]|] eqn:Eg; [cbn [outcome_bind] in E|done].
    apply generateProfile_ok in Eg as [Hl _]. by apply (addCertificate_ok _ _ _ _ _ _ _ Hl) in E as [].
Qed.

(** When files can be removed, the keys of a profile that a login uses are good: either the
    known public key accepts what the profile of the file signs, or the profile is new and its
    public key has been registered under its id. *)
Theorem loadProfile_keys env password uid file p content :
  pv_removable env = true ->
  loadProfile env password uid file = Ok (p, content) ->
  (exists c q, file = Some c /\ load password c uid = Ok q /\ checkKeys env q = true /\
     fp_profile p = fp_profile q) \/
  (exists ks id, pv_createKeyPair env = Ok ks /\
     pv_register env uid (writePublicKeyToPem ks.2) = Ok id /\
     fp_profile p = {| profile_userId := uid; profile_id := id; profile_key := Some ks.1 |}).
Proof.
  unfold loadProfile. intros Hr E.
  destruct (tryFile env password uid file) as [[[q|] c]|] eqn:Et; [|done|]; cbn [outcome_bind] in E.
  - apply tryFile_ok in Et as (-> & Hl & Hk).
    apply (addCertificate_ok _ _ _ _ _ _ _ Hl) in E as [_ ->]. left. eauto 8.
  - destruct (generateProfile env password uid) as [[q c]|] eqn:Eg; [cbn [outcome_bind] in E|done].
    apply generateProfile_ok in Eg as (Hl & ks & id & ? & ? & Hq).
    apply (addCertificate_ok _ _ _ _ _ _ _ Hl) in E as [_ ->]. right. eauto 8.
Qed.
End ProfileFacts.

(** * A concrete key factory *)

(** A key's file form is its password, a bar and the key; a saved profile is its members. *)
Module PlainKeys.
Import Sealed.
Local Open Scope string_scope.

Fixpoint strip (prefix s : string) : option string :=
  match prefix, s with
  | "", _ => Some s
  | String a prefix, String b s => if Ascii.eqb a b then strip prefix s else None
  | _, "" => None
  end.

Lemma strip_app prefix s : strip prefix (prefix +:+ s) = Some s.
Proof.
  induction prefix as [|a prefix IH]; [by destruct s|].
  change (strip (String a prefix) (String a (prefix +:+ s)) = Some s).
  cbn [strip]. by rewrite Ascii.eqb_refl.
Qed.

Definition stored : Type := option Z * Z * string * option string.
Definition to_stored (sp : StoredProfile) : stored :=
  (sp_id sp, sp_userId sp, sp_privateKey sp, sp_certificate sp).
Definition of_stored (x : stored) : StoredProfile :=
  let '(i, u, k, c) := x in
  {| sp_id := i; sp_userId := u; sp_privateKey := k; sp_certificate := c |}.

Fixpoint bits (n : positive) : string :=
  match n with
  | xH => ""
  | xO n => String "0"%char (bits n)
  | xI n => String "1"%char (bits n)
  end.

Fixpoint of_bits (s : string) : positive :=
  match s with
  | "" => xH
  | String a s => if Ascii.eqb a "0"%char then xO (of_bits s) else xI (of_bits s)
  end.

Lemma of_to_bits n : of_bits (bits n) = n.
Proof. induction n as [n IH|n IH|]; cbn; by rewrite ?IH. Qed.

#[export] Instance plain_keys : KeyFactory string string string := {|
  writePrivateKeyToPem := fun k password => password +:+ "|" +:+ k;
  loadPrivateKeyFromPem := fun pem password =>
    match strip (password +:+ "|") pem with Some k => Ok k | None => Raise "bad password" end;
  writePublicKeyToPem := fun k => k;
  writeCertificateToPem := fun c => c;
  loadCertificateFromPem := fun s => Some s;
  json_write := fun sp => bits (encode (to_stored sp));
  json_read := fun s =>
    match decode (of_bits s) with
    | Some x => Ok (of_stored x)
    | None => Raise "bad json"
    end
|}.

#[export] Instance plain_laws : KeyFactoryLaws string string string.
Proof.
  split.
  - intros k password. cbn. rewrite <- string_app_assoc. by rewrite strip_app.
  - done.
  - intros [i u k c]. cbn. by rewrite of_to_bits, decode_encode.
Qed.

(** User 7 with key [k1] in the file; the cache knows the key [known]. *)
Definition env (known : option string) (removable : bool) : ProfileEnv string string := {|
  pv_publicKey := fun _ _ => known;
  pv_removable := removable;
  pv_createKeyPair := Ok ("k2", "k2");
  pv_register := fun _ _ => Ok 8%Z;
  pv_certificate := fun _ _ => Ok "cert";
  pv_write := fun _ => Ok tt
|}.

Definition on_disk : FullProfile string string := with_key 7 3 (Some "k1") (Some "old").
Definition file : string := Eval vm_compute in save "pw" "k1" on_disk.

(** The known key is another one: the profile is replaced, with a new certificate. *)
Definition replaced : FullProfile string string := with_key 7 8 (Some "k2") (Some "cert").
Definition replaced_file : string := Eval vm_compute in save "pw" "k2" replaced.

Lemma loadProfile_saved_witness :
  load "pw" replaced_file 7 = Ok replaced /\ profile_userId (fp_profile replaced) = 7%Z.
Proof.
  apply (loadProfile_saved (env (Some "k9") true) "pw" 7 (Some file)). vm_compute. reflexivity.
Defined.

Lemma loadProfile_keys_witness :
  (exists c q, Some file = Some c /\ load "pw" c 7 = Ok q /\
     checkKeys (env (Some "k1") true) q = true /\ fp_profile on_disk = fp_profile q) \/
  (exists ks id, pv_createKeyPair (env (Some "k1") true) = Ok ks /\
     pv_register (env (Some "k1") true) 7 (writePublicKeyToPem ks.2) = Ok id /\
     fp_profile on_disk = {| profile_userId := 7; profile_id := id; profile_key := Some ks.1 |}).
Proof.
  apply (loadProfile_keys (env (Some "k1") true) "pw" 7 (Some file) on_disk file);
    vm_compute; reflexivity.
Defined.

(** A profile whose keys failed the test is used all the same when its file cannot be removed. *)
Example loadProfile_bad_keys_kept :
  checkKeys (env (Some "k9") false) on_disk = false /\
  loadProfile (env (Some "k9") false) "pw" 7 (Some file) = Ok (on_disk, file).
Proof. vm_compute. done. Qed.
End PlainKeys.
