(* ===== verification/Logins.v ===== *)
(** The login manager ([cpp/node/LoginManager.cpp]).

    The users that are logged in, in the order they came, and those that are logging out.
    The login data of a user is shared by two maps and freed at the end of the logout, so it
    lives in a store.  A logout has two blocks and waits for the user's fibers between them.
    The login lock is reentrant, as its use requires: [logoutUser] and [loginUser] hold it while
    they call [logoutUserUnblocked], which takes it again.  Its release before the wait thus
    lets other threads in only when [logoutAllUsers] is the caller.  In [logoutUser] the lock on
    the login data is free during the wait, in [loginUser] it is held too.  The remote login, the
    virtual hosts and the fibers are inputs. *)
From S2P Require Import Prelude Signer.
From stdpp Require Import gmap relations.

Local Open Scope Z_scope.

Section Logins.
(** [Op] are operations; [prune] drops those that are done. *)
Context {PrivateKey Op : Type} (prune : list Op -> list Op).

Record LoginData := {
  ld_id : Z;
  ld_username : string;
  ld_profile : Profile PrivateKey;
  ld_ops : list Op
}.

(** [heap] holds the login data; [erased_end] is set when an element that is not there is
    erased from the logout list. *)
Record LoginManager := {
  heap : gmap nat LoginData;
  mUserIdMap : gmap Z nat;
  mUsernameMap : gmap string nat;
  mUserIdQueue : list Z;
  mLogoutList : list Z;
  mBlockLogins : bool;
  erased_end : bool
}.

Inductive LoginEffect :=
| AddVirtualHost (id : Z)
| RemoveVirtualHost (id : Z)
| InterruptUserFibers (id : Z)
| SaveUserConfig (id : Z)
| RemoveUserConfig (id : Z)
| LoadUserConfig (id : Z)
| TerminateOperations (ops : list Op)
| LoggedIn (id : Z) (username : string)
| LoggedOut (id : Z) (username : option string).

Implicit Types (st : LoginManager).

Definition newManager : LoginManager :=
  {| heap := ∅; mUserIdMap := ∅; mUsernameMap := ∅; mUserIdQueue := []; mLogoutList := [];
     mBlockLogins := false; erased_end := false |}.

(** User 0 stands for the first user that logged in. *)
Definition resolveId (id : Z) st : Z :=
  if id =? 0 then default 0 (head (mUserIdQueue st)) else id.

(** [getLoginDataUnlocked] by id: the id it stands for and the data. *)
Definition findById (id : Z) st : Z * option nat :=
  let id := resolveId id st in (id, if id =? 0 then None else mUserIdMap st !! id).

Definition findByName (username : string) st : option nat := mUsernameMap st !! username.

Definition deref st (p : nat) : option LoginData := heap st !! p.

(** [getLoginData] *)
Definition getLoginData (id : Z) st : Z * option LoginData :=
  let '(id, p) := findById id st in (id, p ≫= deref st).

Definition getLoginDataByName (username : string) st : option LoginData :=
  findByName username st ≫= deref st.

Definition set_ops (ops : list Op) (d : LoginData) : LoginData :=
  {| ld_id := ld_id d; ld_username := ld_username d; ld_profile := ld_profile d; ld_ops := ops |}.

(** [addUserOperation]: the id it stands for, and the user's profile. *)
Definition addUserOperation (id : Z) (op : Op) st
  : LoginManager * Z * outcome (Profile PrivateKey) :=
  let '(id, p) := findById id st in
  match p with
  | None => (st, id, Raise "bitmunk.node.UserNotLoggedIn")
  | Some p =>
      match deref st p with
      | None => (st, id, Raise "bitmunk.node.UserNotLoggedIn")
      | Some d =>
          ({| heap := <[p := set_ops (prune (ld_ops d ++ [op])) d]> (heap st);
              mUserIdMap := mUserIdMap st; mUsernameMap := mUsernameMap st;
              mUserIdQueue := mUserIdQueue st; mLogoutList := mLogoutList st;
              mBlockLogins := mBlockLogins st; erased_end := erased_end st |},
           id, Ok (ld_profile d))
      end
  end.

(** ** Logging out *)

(** The first element equal to [x] is erased. *)
Fixpoint erase (x : Z) (l : list Z) : list Z :=
  match l with [] => [] | y :: l => if x =? y then l else y :: erase x l end.

(** A logout between its blocks: the id it was called with, the user, the username for the event
    and the data to free. *)
Record Leaving := { lv_id : Z; lv_uid : Z; lv_username : string; lv_data : nat }.
Implicit Types x : Leaving.

(** The first block of [logoutUserUnblocked]: the user is taken out of the maps and the queue
    and put on the logout list. *)
Definition beginLogout (id : Z) st : LoginManager * option Leaving * list LoginEffect :=
  let '(uid, p) := findById id st in
  match p with
  | None => (st, None, [LoggedOut id None])
  | Some p =>
      match deref st p with
      | None => (st, None, [LoggedOut id None])
      | Some d =>
          ({| heap := heap st;
              mUserIdMap := delete uid (mUserIdMap st);
              mUsernameMap := delete (ld_username d) (mUsernameMap st);
              mUserIdQueue := erase uid (mUserIdQueue st);
              mLogoutList := mLogoutList st ++ [uid];
              mBlockLogins := mBlockLogins st; erased_end := erased_end st |},
           Some {| lv_id := id; lv_uid := uid; lv_username := ld_username d; lv_data := p |},
           [RemoveVirtualHost uid; InterruptUserFibers uid; SaveUserConfig uid; RemoveUserConfig uid])
      end
  end.

(** The second block, when the user's fibers are gone: the data is freed and the user taken
    off the logout list. *)
Definition endLogout x st : LoginManager * list LoginEffect :=
  ({| heap := delete (lv_data x) (heap st); mUserIdMap := mUserIdMap st;
      mUsernameMap := mUsernameMap st; mUserIdQueue := mUserIdQueue st;
      mLogoutList := erase (lv_uid x) (mLogoutList st); mBlockLogins := mBlockLogins st;
      erased_end := erased_end st || negb (bool_decide (lv_uid x ∈ mLogoutList st)) |},
   [TerminateOperations (default [] (ld_ops <$> deref st (lv_data x)));
    LoggedOut (lv_id x) (Some (lv_username x))]).

(** ** Logging in *)

(** [std::map::insert] keeps an element that is there. *)
Definition insert_new {K} `{Countable K} (k : K) (p : nat) (m : gmap K nat) : gmap K nat :=
  match m !! k with Some _ => m | None => <[k := p]> m end.

(** [loginUser] up to the login lock: the answer of the server to the password, the directory of
    profiles and the user's profile. *)
Definition prepareLogin (remote : outcome (option Z)) (path mkdirs : outcome unit)
  (load : Z -> outcome (Profile PrivateKey)) : outcome (Z * Profile PrivateKey) :=
  match remote with
  | Raise e => Raise e
  | Ok None => Raise "bitmunk.node.Login"
  | Ok (Some id) =>
      match path, mkdirs with
      | Raise e, _ => Raise e
      | _, Raise e => Raise e
      | Ok _, Ok _ => match load id with Ok profile => Ok (id, profile) | Raise e => Raise e end
      end
  end.

(** New login data at [p], once the virtual host has been added. *)
Definition addLogin (p : nat) (id : Z) (username : string) (profile : Profile PrivateKey) st
  : LoginManager :=
  {| heap := <[p := {| ld_id := id; ld_username := username; ld_profile := profile; ld_ops := [] |}]> (heap st);
     mUserIdMap := insert_new id p (mUserIdMap st);
     mUsernameMap := insert_new username p (mUsernameMap st);
     mUserIdQueue := mUserIdQueue st ++ [id]; mLogoutList := mLogoutList st;
     mBlockLogins := mBlockLogins st; erased_end := erased_end st |}.

(** The block of [loginUser] that changes the login data, with the user id it goes on with.  A
    profile with another id than that of the user that is logged in is taken for the same profile
    and dropped; with the same id the old login is ended first, within this block.  [vhost] is
    how adding the virtual host goes, [p] a fresh address. *)
Definition commitLogin (p : nat) (id : Z) (username : string) (profile : Profile PrivateKey)
  (vhost : outcome unit) st : LoginManager * Z * outcome unit * list LoginEffect :=
  let '(id, old) := getLoginData id st in
  let add st eff :=
    match vhost with
    | Ok _ => (addLogin p id username profile st, id, Ok tt, eff ++ [AddVirtualHost id])
    | Raise e => (st, id, Raise e, eff)
    end in
  match old with
  | None => add st []
  | Some old =>
      if negb (profile_id (ld_profile old) =? profile_id profile) then (st, id, Ok tt, [])
      else match beginLogout id st with
           | (st, Some x, eff) => let '(st, eff') := endLogout x st in add st (eff ++ eff')
           | (st, None, eff) => add st eff
           end
  end.

(** What [loginUser] does after that: the user's configuration and the event. *)
Definition finishLogin (id : Z) (username : string) (r config : outcome unit)
  : outcome Z * list LoginEffect :=
  match r, config with
  | Ok _, Ok _ => (Ok id, [LoadUserConfig id; LoggedIn id username])
  | Ok _, Raise _ => (Raise "bitmunk.node.Login", [LoadUserConfig id])
  | Raise _, _ => (Raise "bitmunk.node.Login", [])
  end.

(** ** All threads *)

(** A login that is past the users that log out and waits for logins not to be blocked. *)
Record LoginRequest := { lr_id : Z; lr_username : string; lr_profile : Profile PrivateKey }.

(** [logoutAllUsers] has blocked the logins, or has the users [tmp] left to log out. *)
Inductive AllPhase :=
| Blocked
| LoggingOut (tmp : list Z) (current : option Leaving).

(** The manager, the logins that wait, the [logoutUser] that waits for fibers with the login lock
    held, and the [logoutAllUsers] of the one thread that stops the node. *)
Record System := {
  manager : LoginManager;
  waiting : list LoginRequest;
  holding : option Leaving;
  all : option AllPhase
}.
Implicit Types s : System.

Definition newSystem : System :=
  {| manager := newManager; waiting := []; holding := None; all := None |}.

Definition block st : LoginManager :=
  {| heap := heap st; mUserIdMap := mUserIdMap st; mUsernameMap := mUsernameMap st;
     mUserIdQueue := mUserIdQueue st; mLogoutList := mLogoutList st; mBlockLogins := true;
     erased_end := erased_end st |}.

(** The last block of [logoutAllUsers]. *)
Definition endLogoutAll st : LoginManager :=
  {| heap := heap st; mUserIdMap := mUserIdMap st; mUsernameMap := mUsernameMap st;
     mUserIdQueue := []; mLogoutList := []; mBlockLogins := false; erased_end := erased_end st |}.

Definition commit (p : nat) (r : LoginRequest) (vhost : outcome unit) st : LoginManager :=
  (commitLogin p (lr_id r) (lr_username r) (lr_profile r) vhost st).1.1.1.

Inductive lstep : System -> System -> Prop :=
| LoginArrives s r :
    holding s = None -> lr_id r <> 0 -> lr_id r ∉ mLogoutList (manager s) ->
    lstep s {| manager := manager s; waiting := r :: waiting s; holding := None; all := all s |}
| LoginGivesUp s r l1 l2 :
    waiting s = l1 ++ r :: l2 -> holding s = None ->
    lstep s {| manager := manager s; waiting := l1 ++ l2; holding := None; all := all s |}
| LoginCommits s r l1 l2 p vhost :
    waiting s = l1 ++ r :: l2 -> holding s = None -> mBlockLogins (manager s) = false ->
    heap (manager s) !! p = None ->
    lstep s {| manager := commit p r vhost (manager s); waiting := l1 ++ l2; holding := None;
               all := all s |}
| LogoutBegins s id :
    holding s = None -> mBlockLogins (manager s) = false ->
    lstep s {| manager := (beginLogout id (manager s)).1.1; waiting := waiting s;
               holding := (beginLogout id (manager s)).1.2; all := all s |}
| LogoutEnds s x :
    holding s = Some x ->
    lstep s {| manager := (endLogout x (manager s)).1; waiting := waiting s; holding := None;
               all := all s |}
| AllBegins s :
    holding s = None -> all s = None ->
    lstep s {| manager := block (manager s); waiting := waiting s; holding := None;
               all := Some Blocked |}
| AllCopies s :
    all s = Some Blocked ->
    lstep s {| manager := manager s; waiting := waiting s; holding := holding s;
               all := Some (LoggingOut (mUserIdQueue (manager s)) None) |}
| AllNext s id tmp :
    holding s = None -> all s = Some (LoggingOut (id :: tmp) None) ->
    lstep s {| manager := (beginLogout id (manager s)).1.1; waiting := waiting s; holding := None;
               all := Some (LoggingOut tmp (beginLogout id (manager s)).1.2) |}
| AllNextEnds s x tmp :
    holding s = None -> all s = Some (LoggingOut tmp (Some x)) ->
    lstep s {| manager := (endLogout x (manager s)).1; waiting := waiting s; holding := None;
               all := Some (LoggingOut tmp None) |}
| AllEnds s :
    holding s = None -> all s = Some (LoggingOut [] None) ->
    lstep s {| manager := endLogoutAll (manager s); waiting := waiting s; holding := None;
               all := None |}
| OperationAdded s id op :
    lstep s {| manager := (addUserOperation id op (manager s)).1.1; waiting := waiting s;
               holding := holding s; all := all s |}.

(** The logout that is between its blocks, if any. *)
Definition departing s : option Leaving :=
  match all s with Some (LoggingOut _ (Some x)) => Some x | _ => holding s end.

(** ** The invariant *)

(** The maps agree and point to live data; the queue lists the users that are logged in; data is
    live only for them and for the user that departs, who alone is on the logout list. *)
Record minv st (dep : option Leaving) : Prop := {
  mi_ids : forall id p, mUserIdMap st !! id = Some p ->
    id <> 0 /\ exists d, heap st !! p = Some d /\ ld_id d = id;
  mi_names : forall u p, mUsernameMap st !! u = Some p ->
    exists d, heap st !! p = Some d /\ ld_username d = u /\ mUserIdMap st !! ld_id d = Some p;
  mi_nodup : NoDup (mUserIdQueue st);
  mi_queue : forall id, id ∈ mUserIdQueue st <-> is_Some (mUserIdMap st !! id);
  mi_heap : forall p d, heap st !! p = Some d ->
    mUserIdMap st !! ld_id d = Some p \/ lv_data <$> dep = Some p;
  mi_dep : forall x, dep = Some x ->
    is_Some (heap st !! lv_data x) /\ forall id, mUserIdMap st !! id <> Some (lv_data x);
  mi_list : mLogoutList st = option_list (lv_uid <$> dep);
  mi_end : erased_end st = false
}.

Definition phase_ok s : Prop :=
  match all s with
  | None => mBlockLogins (manager s) = false
  | Some Blocked => mBlockLogins (manager s) = true /\ holding s = None
  | Some (LoggingOut tmp _) =>
      mBlockLogins (manager s) = true /\ holding s = None /\
      forall id, id ∈ mUserIdQueue (manager s) -> id ∈ tmp
  end.

Record sinv s : Prop := {
  si_manager : minv (manager s) (departing s);
  si_waiting : Forall (fun r => lr_id r <> 0) (waiting s);
  si_phase : phase_ok s
}.

Lemma elem_of_erase (i y : Z) l : NoDup l -> i ∈ erase y l <-> i ∈ l /\ i <> y.
Proof.
  induction 1 as [|z l Hz _ IH]; cbn; [set_solver|].
  destruct (Z.eqb_spec y z) as [->|]; set_solver.
Qed.

Lemma erase_nodup y l : NoDup l -> NoDup (erase y l).
Proof.
  induction 1 as [|z l Hz Hl IH]; cbn; [constructor|].
  case_match; [done|]. constructor; [|done]. rewrite elem_of_erase by done. tauto.
Qed.

Lemma findById_some id st uid p dep :
  minv st dep -> findById id st = (uid, Some p) ->
  mUserIdMap st !! uid = Some p /\ (id <> 0 -> uid = id).
Proof.
  unfold findById, resolveId. intros I. destruct (Z.eqb_spec id 0) as [->|];
    case_match; intros [=]; subst; split; auto; lia.
Qed.

Lemma findById_none id st uid dep :
  minv st dep -> findById id st = (uid, None) -> mUserIdMap st !! id = None.
Proof.
  unfold findById, resolveId. intros I E. destruct (mUserIdMap st !! id) as [p|] eqn:Em; [|done].
  destruct (mi_ids _ _ I _ _ Em) as [Hz _]. apply Z.eqb_neq in Hz.
  rewrite Hz in E. rewrite Hz in E. congruence.
Qed.

(** What [beginLogout] does to a consistent manager. *)
Lemma beginLogout_cases id st :
  minv st None ->
  (exists eff, mUserIdMap st !! id = None /\ beginLogout id st = (st, None, eff)) \/
  (exists st' uid p d eff, mUserIdMap st !! uid = Some p /\ (id <> 0 -> uid = id) /\
     heap st !! p = Some d /\ ld_id d = uid /\
     beginLogout id st =
       (st', Some {| lv_id := id; lv_uid := uid; lv_username := ld_username d; lv_data := p |}, eff) /\
     heap st' = heap st /\ mUserIdMap st' = delete uid (mUserIdMap st) /\
     mUsernameMap st' = delete (ld_username d) (mUsernameMap st) /\
     mUserIdQueue st' = erase uid (mUserIdQueue st) /\ mLogoutList st' = mLogoutList st ++ [uid] /\
     mBlockLogins st' = mBlockLogins st /\ erased_end st' = erased_end st).
Proof.
  intros I. unfold beginLogout. destruct (findById id st) as [uid [p|]] eqn:E.
  - destruct (findById_some _ _ _ _ _ I E) as [Hm Hid].
    destruct (mi_ids _ _ I _ _ Hm) as (_ & d & Hd & Hu). unfold deref. rewrite Hd.
    right. do 5 eexists. repeat (split; [eassumption || reflexivity|]). done.
  - left. eexists. split; [by eapply findById_none|done].
Qed.

Lemma beginLogout_inv id st :
  minv st None ->
  minv (beginLogout id st).1.1 (beginLogout id st).1.2 /\
  mBlockLogins (beginLogout id st).1.1 = mBlockLogins st /\
  heap (beginLogout id st).1.1 = heap st /\
  forall i, i ∈ mUserIdQueue (beginLogout id st).1.1 -> i ∈ mUserIdQueue st /\ i <> id.
Proof.
  intros I. destruct (beginLogout_cases id st I) as
    [(eff & Hn & ->)|(st' & uid & p & d & eff & Hm & Hid & Hd & Hu & -> & Eh & Ei & En & Eq & El & Eb & Ee)];
    cbn [fst snd].
  { do 3 (split; [done|]). intros i Hi. split; [done|]. intros ->.
    apply (mi_queue _ _ I) in Hi as [? ?]. congruence. }
  assert (forall i q, mUserIdMap st !! i = Some q -> q = p -> i = uid) as Hinj.
  { intros i q Hi ->. destruct (mi_ids _ _ I _ _ Hi) as (_ & d' & ? & ?). congruence. }
  split; [|split; [done|split; [done|]]].
  - split; rewrite ?Eh, ?Ei, ?En, ?Eq, ?El, ?Ee.
    + intros i q [_ Hi]%lookup_delete_Some. by apply (mi_ids _ _ I).
    + intros u q [Hne Hq]%lookup_delete_Some.
      destruct (mi_names _ _ I _ _ Hq) as (d' & Hd' & Hu' & Hi'). exists d'.
      rewrite lookup_delete_ne; [done|]. intros E. rewrite <- E in Hi'. congruence.
    + apply erase_nodup, (mi_nodup _ _ I).
    + intros i. rewrite elem_of_erase by apply (mi_nodup _ _ I). rewrite (mi_queue _ _ I i).
      rewrite lookup_delete_is_Some. naive_solver.
    + intros q d' Hq. destruct (mi_heap _ _ I _ _ Hq) as [Hi|]; [|done].
      destruct (decide (q = p)) as [->|Hne]; [by right|left].
      rewrite lookup_delete_ne; [done|]. intros E. rewrite <- E in Hi. congruence.
    + intros x [= <-]. cbn. split; [by eexists|].
      intros i [Hne Hi]%lookup_delete_Some. by apply Hne; symmetry; eapply Hinj.
    + rewrite (mi_list _ _ I). done.
    + apply (mi_end _ _ I).
  - intros i. rewrite Eq, elem_of_erase by apply (mi_nodup _ _ I). intros [Hi Hne].
    split; [done|]. intros ->. destruct (decide (id = 0)) as [->|]; [|by rewrite Hid in Hne].
    apply (mi_queue _ _ I) in Hi as [q Hq]. by destruct (mi_ids _ _ I _ _ Hq).
Qed.

Lemma endLogout_inv x st : minv st (Some x) -> minv (endLogout x st).1 None.
Proof.
  intros I. destruct (mi_dep _ _ I x eq_refl) as [_ Hno].
  pose proof (mi_list _ _ I) as Hl. cbn in Hl.
  split; cbn.
  - intros id p Hp. destruct (mi_ids _ _ I _ _ Hp) as (? & d & Hd & ?). split; [done|].
    exists d. rewrite lookup_delete_ne by (intros <-; by eapply Hno). done.
  - intros u p Hp. destruct (mi_names _ _ I _ _ Hp) as (d & Hd & ? & Hi).
    exists d. rewrite lookup_delete_ne by (intros <-; by eapply Hno). done.
  - apply (mi_nodup _ _ I).
  - apply (mi_queue _ _ I).
  - intros p d [Hne Hp]%lookup_delete_Some. left.
    destruct (mi_heap _ _ I _ _ Hp) as [|[= ?]]; [done|congruence].
  - done.
  - rewrite Hl. cbn. by rewrite Z.eqb_refl.
  - rewrite (mi_end _ _ I), Hl, bool_decide_true by set_solver. done.
Qed.

Lemma addLogin_inv p id username profile st :
  minv st None -> id <> 0 -> mUserIdMap st !! id = None -> heap st !! p = None ->
  minv (addLogin p id username profile st) None.
Proof.
  intros I Hid Hn Hp.
  assert (forall q d, heap st !! q = Some d -> q <> p) as Hne by congruence.
  split; cbn; unfold insert_new; rewrite ?Hn.
  - intros i q [[<- <-]|[? Hq]]%lookup_insert_Some.
    { split; [done|]. eexists. by rewrite lookup_insert_eq. }
    destruct (mi_ids _ _ I _ _ Hq) as (? & d & Hd & ?). split; [done|]. exists d.
    rewrite lookup_insert_ne by (intros <-; by eapply Hne). done.
  - assert (forall u q, mUsernameMap st !! u = Some q -> exists d,
      <[p:={| ld_id := id; ld_username := username; ld_profile := profile; ld_ops := [] |}]>
        (heap st) !! q = Some d /\ ld_username d = u /\
      <[id:=p]> (mUserIdMap st) !! ld_id d = Some q) as Hold.
    { intros u q Hq. destruct (mi_names _ _ I _ _ Hq) as (d & Hd & ? & Hi). exists d.
      rewrite !lookup_insert_ne by (congruence || (intros <-; by eapply Hne)). done. }
    intros u q. case_match; [apply Hold|].
    intros [[<- <-]|[? Hq]]%lookup_insert_Some; [|by apply Hold].
    eexists. rewrite lookup_insert_eq. split; [done|]. cbn. by rewrite lookup_insert_eq.
  - apply NoDup_app. split; [apply (mi_nodup _ _ I)|]. split; [|apply NoDup_singleton].
    intros i Hi ->%list_elem_of_singleton. apply (mi_queue _ _ I) in Hi as [? ?]. congruence.
  - intros i. rewrite elem_of_app, list_elem_of_singleton, (mi_queue _ _ I i).
    rewrite lookup_insert_is_Some'. naive_solver.
  - intros q d [[<- <-]|[? Hq]]%lookup_insert_Some; left; [by rewrite lookup_insert_eq|].
    destruct (mi_heap _ _ I _ _ Hq) as [Hi|]; [|done]. rewrite lookup_insert_ne; congruence.
  - done.
  - apply (mi_list _ _ I).
  - apply (mi_end _ _ I).
Qed.

Lemma getLoginData_id id st : id <> 0 -> minv st None ->
  getLoginData id st = (id, mUserIdMap st !! id ≫= deref st).
Proof.
  intros Hz%Z.eqb_neq I. unfold getLoginData, findById, resolveId. by rewrite !Hz.
Qed.

(** Ending the old login of a user and adding the new one. *)
Lemma relogin_inv id st st' x eff :
  id <> 0 -> minv st None -> beginLogout id st = (st', Some x, eff) ->
  minv (endLogout x st').1 None /\ mUserIdMap (endLogout x st').1 !! id = None /\
  heap (endLogout x st').1 = delete (lv_data x) (heap st) /\
  mBlockLogins (endLogout x st').1 = mBlockLogins st.
Proof.
  intros Hz I E. destruct (beginLogout_inv id st I) as (I' & Hb & Hh & Hq). rewrite E in *.
  cbn [fst snd] in *. pose proof (endLogout_inv _ _ I') as I2.
  split; [done|]. split; [|cbn; by rewrite Hh].
  apply eq_None_not_Some. intros Hi. apply (mi_queue _ _ I2) in Hi. by apply Hq in Hi as [].
Qed.

Lemma commit_inv p r vhost st :
  lr_id r <> 0 -> minv st None -> heap st !! p = None ->
  minv (commit p r vhost st) None /\ mBlockLogins (commit p r vhost st) = mBlockLogins st.
Proof.
  intros Hz I Hp. unfold commit, commitLogin. rewrite getLoginData_id by done.
  destruct (mUserIdMap st !! lr_id r ≫= deref st) as [old|] eqn:Eo.
  - case_match; [done|].
    destruct (beginLogout (lr_id r) st) as [[st' [x|]] eff] eqn:Eb.
    + destruct (relogin_inv _ _ _ _ _ Hz I Eb) as (I' & Hn & Hh & Hb).
      destruct (endLogout x st') as [st2 eff']; cbn [fst] in *.
      destruct vhost; cbn [fst]; [|done]. split; [|done]. apply addLogin_inv; try done.
      rewrite Hh. by apply lookup_delete_None; right.
    + destruct (beginLogout_cases (lr_id r) st I) as [(e & Hn & _)|(?&?&?&?&?&?&?&?&?&E&_)];
        [by rewrite Hn in Eo|congruence].
  - destruct vhost; cbn [fst]; [|done]. split; [|done]. apply addLogin_inv; try done.
    destruct (mUserIdMap st !! lr_id r) as [q|] eqn:Eq; [|done].
    destruct (mi_ids _ _ I _ _ Eq) as (_ & d & Hd & _). cbn in Eo. unfold deref in Eo. congruence.
Qed.

Lemma addUserOperation_inv id op st dep :
  minv st dep -> minv (addUserOperation id op st).1.1 dep /\
  mBlockLogins (addUserOperation id op st).1.1 = mBlockLogins st /\
  mUserIdQueue (addUserOperation id op st).1.1 = mUserIdQueue st.
Proof.
  intros I. unfold addUserOperation. destruct (findById id st) as [uid [p|]]; [|done].
  destruct (deref st p) as [d|] eqn:Ed; [|done]. split; [|done]. unfold deref in Ed.
  assert (forall q e, heap st !! q = Some e -> exists e',
    <[p:=set_ops (prune (ld_ops d ++ [op])) d]> (heap st) !! q = Some e' /\
    ld_id e' = ld_id e /\ ld_username e' = ld_username e) as Hup.
  { intros q e Hq. destruct (decide (p = q)) as [<-|].
    - eexists. rewrite lookup_insert_eq. split; [done|]. by simplify_eq.
    - exists e. by rewrite lookup_insert_ne. }
  split; cbn; try by apply I.
  - intros i q Hq. destruct (mi_ids _ _ I _ _ Hq) as (? & e & He & <-). split; [done|].
    destruct (Hup _ _ He) as (e' & ? & ? & ?). eauto.
  - intros u q Hq. destruct (mi_names _ _ I _ _ Hq) as (e & He & <- & Hi).
    destruct (Hup _ _ He) as (e' & ? & Hid & ?). exists e'. by rewrite Hid.
  - intros q e [[<- <-]|[? Hq]]%lookup_insert_Some; cbn; by eapply (mi_heap _ _ I).
  - intros x Hx. destruct (mi_dep _ _ I x Hx) as [[e He] ?]. split; [|done].
    destruct (Hup _ _ He) as (e' & ? & _). eauto.
Qed.

Lemma queue_nil_empty st :
  minv st None -> mUserIdQueue st = [] -> mUserIdMap st = ∅ /\ mUsernameMap st = ∅ /\ heap st = ∅.
Proof.
  intros I Eq. assert (mUserIdMap st = ∅) as Em.
  { apply map_empty. intros i. apply eq_None_not_Some. intros Hi.
    apply (mi_queue _ _ I) in Hi. rewrite Eq in Hi. set_solver. }
  split; [done|]. split; apply map_empty; intros k; apply eq_None_not_Some; intros [v Hv].
  - destruct (mi_names _ _ I _ _ Hv) as (d & _ & _ & Hi). by rewrite Em in Hi.
  - destruct (mi_heap _ _ I _ _ Hv) as [Hi|]; [by rewrite Em in Hi|done].
Qed.

(** With nothing between blocks in [logoutAllUsers], no logout departs but one that holds the
    lock. *)
Lemma departing_holding s : holding s = None ->
  (forall tmp x, all s <> Some (LoggingOut tmp (Some x))) -> departing s = None.
Proof.
  unfold departing. intros Hh Ha. destruct (all s) as [[|tmp [x|]]|]; try done. by destruct (Ha tmp x).
Qed.

Lemma unblocked_idle s : sinv s -> mBlockLogins (manager s) = false -> all s = None.
Proof.
  intros [_ _ Ph] Hb. unfold phase_ok in Ph. destruct (all s) as [[|]|]; [destruct Ph; congruence|destruct Ph as (? & ? & _); congruence|done].
Qed.

Local Ltac phase_simpl := cbn [manager waiting holding all].

Lemma commits_inv s r l1 l2 p vhost :
  sinv s -> waiting s = l1 ++ r :: l2 -> holding s = None -> mBlockLogins (manager s) = false ->
  heap (manager s) !! p = None ->
  sinv {| manager := commit p r vhost (manager s); waiting := l1 ++ l2; holding := None;
          all := all s |}.
Proof.
  intros I Hw Hh Hb Hp. pose proof (unblocked_idle _ I Hb) as Ha. destruct I as [M W Ph].
  rewrite Hw in W. apply Forall_app in W as [? W]. inversion W; subst.
  rewrite departing_holding in M by (done || congruence).
  destruct (commit_inv p r vhost _ ltac:(done) M Hp) as [M' Hb'].
  split; [|by apply Forall_app|]; unfold departing, phase_ok; phase_simpl; rewrite Ha; [done|congruence].
Qed.

Lemma begins_inv s id :
  sinv s -> holding s = None -> mBlockLogins (manager s) = false ->
  sinv {| manager := (beginLogout id (manager s)).1.1; waiting := waiting s;
          holding := (beginLogout id (manager s)).1.2; all := all s |}.
Proof.
  intros I Hh Hb. pose proof (unblocked_idle _ I Hb) as Ha. destruct I as [M W Ph].
  rewrite departing_holding in M by (done || congruence).
  destruct (beginLogout_inv id _ M) as (M' & Hb' & _).
  split; unfold departing, phase_ok; phase_simpl; rewrite ?Ha; [done|done|congruence].
Qed.

Lemma next_inv s id tmp :
  sinv s -> holding s = None -> all s = Some (LoggingOut (id :: tmp) None) ->
  sinv {| manager := (beginLogout id (manager s)).1.1; waiting := waiting s; holding := None;
          all := Some (LoggingOut tmp (beginLogout id (manager s)).1.2) |}.
Proof.
  intros [M W Ph] Hh Ha. rewrite departing_holding in M by (done || congruence).
  unfold phase_ok in Ph. rewrite Ha in Ph. destruct Ph as (Hb & _ & Hq).
  destruct (beginLogout_inv id _ M) as (M' & Hb' & _ & Hq').
  split; unfold departing, phase_ok; phase_simpl; [by destruct (beginLogout _ _).1.2|done|].
  split; [congruence|]. split; [done|]. intros i Hi.
  destruct (Hq' i Hi) as [Hi' Hne]. apply Hq in Hi'. set_solver.
Qed.

(** When no user is left to log out, none is logged in and no data is live. *)
Lemma logged_out s :
  sinv s -> holding s = None -> all s = Some (LoggingOut [] None) ->
  minv (manager s) None /\ mUserIdQueue (manager s) = [].
Proof.
  intros [M _ Ph] Hh Ha. rewrite departing_holding in M by (done || congruence).
  unfold phase_ok in Ph. rewrite Ha in Ph. destruct Ph as (_ & _ & Hq). split; [done|].
  destruct (mUserIdQueue (manager s)) as [|i l]; [done|]. specialize (Hq i). set_solver.
Qed.

Lemma lstep_inv s s' : lstep s s' -> sinv s -> sinv s'.
Proof.
  intros Hs I. pose proof I as [M W Ph].
  destruct Hs as [s r Hh Hz Hn|s r l1 l2 Hw Hh|s r l1 l2 p vhost Hw Hh Hb Hp|s id Hh Hb|s x Hx
    |s Hh Ha|s Ha|s id tmp Hh Ha|s x tmp Hh Ha|s Hh Ha|s id op].
  - unfold departing, phase_ok in *. rewrite Hh in *. split; cbn; auto.
  - unfold departing, phase_ok in *. rewrite Hh, Hw in *. split; cbn; auto.
    apply Forall_app in W as [? W]. inversion W. by apply Forall_app.
  - by apply commits_inv.
  - by apply begins_inv.
  - assert (all s = None) as Ha.
    { unfold phase_ok in Ph. destruct (all s) as [[|]|];
        [destruct Ph; congruence|destruct Ph as (? & ? & _); congruence|done]. }
    unfold departing, phase_ok in *. rewrite Ha in *. rewrite Hx in M.
    split; unfold departing, phase_ok; phase_simpl; rewrite ?Ha; [by apply endLogout_inv|done..].
  - rewrite departing_holding in M by (done || congruence).
    split; [|done|done]. destruct M; by split.
  - unfold departing, phase_ok in *. rewrite Ha in *. destruct Ph as [? Hh].
    split; unfold departing, phase_ok; cbn; rewrite ?Hh in *; auto.
  - by apply next_inv.
  - unfold departing, phase_ok in *. rewrite Ha in *. destruct Ph as (Hb & _ & Hq).
    split; unfold departing, phase_ok; phase_simpl; [by apply endLogout_inv|done|done].
  - destruct (logged_out _ I Hh Ha) as [M' Eq]. split; [|done|done].
    unfold departing; cbn. destruct M'; split; cbn; rewrite <- ?Eq; auto.
  - destruct (addUserOperation_inv id op _ _ M) as (M' & Hb & Hq).
    split; [done|done|]. unfold phase_ok in *; phase_simpl. by rewrite Hb, Hq.
Qed.

Lemma newSystem_inv : sinv newSystem.
Proof.
  split; [split|..]; cbn; try done; try apply NoDup_nil_2; try constructor; intros Hx.
  - by apply elem_of_nil in Hx.
  - by destruct Hx.
Qed.

Lemma logins_reachable_inv s : rtc lstep newSystem s -> sinv s.
Proof.
  enough (forall s1 s2, rtc lstep s1 s2 -> sinv s1 -> sinv s2) as Hi
    by (intros Hr; eapply Hi; [done|apply newSystem_inv]).
  induction 1 as [|s1 s2 s3 Hs _ IH]; [done|]. intros I. by eapply IH, lstep_inv.
Qed.

(** C19: However logins, logouts, the stop of the node and new operations interleave, both maps
    point to live data of the user they name, the queue lists each user that is logged in once,
    data is live only for them and for the one user that is departing, and taking that user off
    the logout list finds it there. *)
Theorem logins_consistent s : rtc lstep newSystem s -> minv (manager s) (departing s).
Proof. intros Hr. apply (si_manager _ (logins_reachable_inv s Hr)). Qed.

(** When [logoutAllUsers] has no user left to log out, no user is in either map and all login
    data has been freed; its last block leaves a manager as it was when new. *)
Theorem logoutAll_clears s :
  rtc lstep newSystem s -> holding s = None -> all s = Some (LoggingOut [] None) ->
  endLogoutAll (manager s) = newManager.
Proof.
  intros Hr Hh Ha. destruct (logged_out s (logins_reachable_inv s Hr) Hh Ha) as [M Eq].
  destruct (queue_nil_empty _ M Eq) as (Hi & Hn & Hd). unfold endLogoutAll, newManager.
  by rewrite Hi, Hn, Hd, (mi_end _ _ M).
Qed.

(** A user who logs in again keeps the old login when the new profile has another id; when
    it has the same id the old data is freed and the new profile takes its place. *)
Theorem relogin_inverted s p id username profile q old :
  rtc lstep newSystem s -> departing s = None -> heap (manager s) !! p = None ->
  mUserIdMap (manager s) !! id = Some q -> heap (manager s) !! q = Some old ->
  let r := commitLogin p id username profile (Ok tt) (manager s) in
  (profile_id (ld_profile old) <> profile_id profile ->
   r = (manager s, id, Ok tt, [])) /\
  (profile_id (ld_profile old) = profile_id profile ->
   heap r.1.1.1 !! q = None /\ ld_profile <$> (getLoginData id r.1.1.1).2 = Some profile).
Proof.
  intros Hr Hd Hp Hq Ho r. pose proof (si_manager _ (logins_reachable_inv s Hr)) as M. rewrite Hd in M.
  destruct (mi_ids _ _ M _ _ Hq) as [Hz _]. subst r. unfold commitLogin.
  rewrite getLoginData_id, Hq by done. cbn [mbind option_bind].
  assert (deref (manager s) q = Some old) as Eo by done. rewrite !Eo.
  split; intros E.
  { apply Z.eqb_neq in E. by rewrite E. }
  apply Z.eqb_eq in E. rewrite E. cbn [negb].
  destruct (beginLogout_cases id _ M) as
    [(e & Hn & _)|(st' & uid & p' & d & eff & Hm & Hu & Hd' & _ & Eb & _)]; [congruence|].
  rewrite Hu in * by done. simplify_eq. rewrite Eb.
  destruct (relogin_inv _ _ _ _ _ Hz M Eb) as (I' & Hn & Hh & _).
  destruct (endLogout _ st') as [st2 eff']. cbn [fst snd] in *.
  assert (q <> p) as Hne by congruence. cbn [lv_data] in Hh. split.
  - cbn. by rewrite lookup_insert_ne, Hh, lookup_delete_eq by done.
  - rewrite getLoginData_id; [|done|].
    + cbn. unfold insert_new. rewrite Hn, lookup_insert_eq. cbn. unfold deref; cbn.
      by rewrite lookup_insert_eq.
    + apply addLogin_inv; try done. rewrite Hh. by rewrite lookup_delete_ne.
Qed.
End Logins.

(** * A node with one user *)

Module SampleLogins.
Notation Sys := (@System string nat).

Definition keep (ops : list nat) : list nat := ops.
Definition profile (id : Z) : Profile string :=
  {| profile_userId := 7; profile_id := id; profile_key := Some "k" |}.
Definition ann : LoginRequest := {| lr_id := 7; lr_username := "ann"; lr_profile := profile 1 |}.

Definition arrived : Sys :=
  {| manager := newManager; waiting := [ann]; holding := None; all := None |}.
Definition online : Sys :=
  {| manager := commit 0 ann (Ok tt) newManager; waiting := []; holding := None; all := None |}.
Definition working : Sys :=
  {| manager := (addUserOperation keep 0 5%nat (manager online)).1.1; waiting := []; holding := None;
     all := None |}.
Definition leaving : Sys :=
  {| manager := (beginLogout 7 (manager working)).1.1; waiting := [];
     holding := (beginLogout 7 (manager working)).1.2; all := None |}.

Lemma online_reachable : rtc (lstep keep) newSystem online.
Proof.
  eapply rtc_l; [apply (LoginArrives _ newSystem ann); [done|done|cbn; set_solver]|].
  apply rtc_once, (LoginCommits _ arrived ann [] [] 0 (Ok tt)); done.
Qed.

Lemma leaving_reachable : rtc (lstep keep) newSystem leaving.
Proof.
  etrans; [apply online_reachable|].
  eapply rtc_l; [apply (OperationAdded _ online 0 5%nat)|].
  apply rtc_once, (LogoutBegins _ working 7); done.
Qed.

(** The node stops while the user is logged in. *)
Definition blocked : Sys :=
  {| manager := block (manager online); waiting := []; holding := None; all := Some Blocked |}.
Definition copied : Sys :=
  {| manager := manager blocked; waiting := []; holding := None;
     all := Some (LoggingOut (mUserIdQueue (manager blocked)) None) |}.
Definition next : Sys :=
  {| manager := (beginLogout 7 (manager copied)).1.1; waiting := []; holding := None;
     all := Some (LoggingOut [] (beginLogout 7 (manager copied)).1.2) |}.
Definition gone : Leaving := {| lv_id := 7; lv_uid := 7; lv_username := "ann"; lv_data := 0 |}.
Definition done_all : Sys :=
  {| manager := (endLogout gone (manager next)).1; waiting := []; holding := None;
     all := Some (LoggingOut [] None) |}.

Lemma done_all_reachable : rtc (lstep keep) newSystem done_all.
Proof.
  etrans; [apply online_reachable|].
  eapply rtc_l; [by apply (AllBegins _ online)|].
  eapply rtc_l; [by apply (AllCopies _ blocked)|].
  eapply rtc_l; [apply (AllNext _ copied 7 []); [done|vm_compute; reflexivity]|].
  apply rtc_once, (AllNextEnds _ next gone []); [done|vm_compute; reflexivity].
Qed.

Lemma logins_consistent_witness :
  minv (manager leaving) (departing leaving) /\ lv_data <$> departing leaving = Some 0%nat.
Proof.
  split; [apply (logins_consistent keep), leaving_reachable|vm_compute; reflexivity].
Defined.

Lemma logoutAll_clears_witness : endLogoutAll (manager done_all) = newManager.
Proof. apply (logoutAll_clears keep); [apply done_all_reachable|done|done]. Defined.

Definition old_data : @LoginData string nat :=
  {| ld_id := 7; ld_username := "ann"; ld_profile := profile 1; ld_ops := [] |}.

Lemma relogin_inverted_witness :
  let r := commitLogin 1 7 "ann" (profile 2) (Ok tt) (manager online) in
  (1%Z <> 2%Z -> r = (manager online, 7, Ok tt, [])) /\
  (1%Z = 2%Z ->
   heap r.1.1.1 !! 0%nat = None /\ ld_profile <$> (getLoginData 7 r.1.1.1).2 = Some (profile 2)).
Proof.
  apply (relogin_inverted keep online 1 7 "ann" (profile 2) 0 old_data);
    [apply online_reachable|vm_compute; reflexivity..].
Defined.
End SampleLogins.
