(* ===== verification/Serve.v ===== *)
(** The server side of the protocol ([cpp/protocol/BtpAction.cpp],
    [cpp/protocol/BtpActionHandler.cpp], [cpp/protocol/BtpService.cpp],
    [cpp/node/BtpActionDelegate.h], [cpp/node/RestResourceHandler.cpp]).

    A service finds the handler of a resource, the handler checks the security of the request
    and the validity of its parameters and content, performs the action and sends the result.
    The login data, the public keys and what the connection receives are inputs; what a
    handler's own function does is a parameter. *)
From S2P Require Import Prelude DynMap Payees Signer Http Btp.
From Stdlib Require Import Ascii.

Local Open Scope Z_scope.
Local Open Scope bitmunk_scope.

Inductive BtpAuth := AuthOptional | AuthOptionalSslRequired | AuthRequired.

#[global] Instance BtpAuth_eq_dec : EqDecision BtpAuth.
Proof. solve_decision. Defined.

Definition btp_security : string := "bitmunk.btp.Security".

(** ** Resources *)

(** The resource one level up: the part before the last slash, or the root. *)
Definition parentResource (resource : string) : option string :=
  if Nat.ltb 1 (String.length resource) then
    match strrchr resource "/" with
    | Some EmptyString => Some "/"
    | r => r
    end
  else None.

(** The query is what follows the last question mark. *)
Definition stripQuery (resource : string) : string := default resource (strrchr resource "?").

Section Resources.
Context {A : Type}.

(** The handler of a resource or of the nearest resource above it, and where it is. *)
Fixpoint findFrom (fuel : nat) (handlers : dmap A) (resource : string) : option (A * string) :=
  match fuel with
  | O => None
  | S fuel =>
      match dm_get handlers resource with
      | Some h => Some (h, resource)
      | None => match parentResource resource with
                | Some r => findFrom fuel handlers r
                | None => None
                end
      end
  end.

Definition findHandler (handlers : dmap A) (resource : string) : option (A * string) :=
  let r := stripQuery resource in findFrom (S (String.length r)) handlers r.

(** [normalize] is [HttpRequestServicer::normalizePath]; a resource that is there already
    keeps its handler. *)
Definition addResource (normalize : string -> string) (path resource : string) (h : A)
  (handlers : dmap A) : dmap A :=
  let p := normalize (path +:+ resource) in
  if dm_has handlers p then handlers else dm_set handlers p h.

Definition removeResource (normalize : string -> string) (path resource : string)
  (handlers : dmap A) : option A * dmap A :=
  let p := normalize (path +:+ resource) in
  (dm_get handlers p, dm_remove handlers p).
End Resources.

Section Serve.
Context {PrivateKey PublicKey : Type} `{SignatureScheme PrivateKey PublicKey} `{HexCheck}.
Context {Hdr : Type} `{HttpHeader Hdr} `{Compression} {D : Type} `{ObjectCodec D}.
Abbreviation Message := (@BtpMessage PrivateKey PublicKey Hdr D).

(** [exceptionObject] is [Exception::convertToDynamicObject], [exceptionCode] the code an
    exception is made with; [Q] are query variables. *)
Context (exceptionObject : string -> D) (exceptionCode : string -> Z) {Q : Type}.

(** ** Actions *)

(** The parameters, the query, as arrays or not, and its user are parsed from the resource by
    the Monarch library.
    [ac_body] is what the connection receives if the content is read, [ac_io] how sending
    goes, [ac_sent] what has been sent. *)
Record Action := {
  ac_params : list string;
  ac_query : bool -> Q;
  ac_nodeuser : option Z;
  ac_inMessage : Message;
  ac_outMessage : Message;
  ac_request : Hdr;
  ac_secure : bool;
  ac_body : outcome Received;
  ac_response : Hdr;
  ac_io : SendIO;
  mContentReceived : bool;
  mContent : option D;
  mSelectContentEncoding : bool;
  ac_sent : option (Sent (Hdr := Hdr))
}.
Implicit Types a : Action.

Definition set_in (m : Message) a : Action :=
  {| ac_params := ac_params a; ac_query := ac_query a; ac_nodeuser := ac_nodeuser a; ac_inMessage := m;
     ac_outMessage := ac_outMessage a; ac_request := ac_request a; ac_secure := ac_secure a;
     ac_body := ac_body a; ac_response := ac_response a; ac_io := ac_io a;
     mContentReceived := mContentReceived a; mContent := mContent a;
     mSelectContentEncoding := mSelectContentEncoding a; ac_sent := ac_sent a |}.

Definition set_out (m : Message) a : Action :=
  {| ac_params := ac_params a; ac_query := ac_query a; ac_nodeuser := ac_nodeuser a; ac_inMessage := ac_inMessage a;
     ac_outMessage := m; ac_request := ac_request a; ac_secure := ac_secure a;
     ac_body := ac_body a; ac_response := ac_response a; ac_io := ac_io a;
     mContentReceived := mContentReceived a; mContent := mContent a;
     mSelectContentEncoding := mSelectContentEncoding a; ac_sent := ac_sent a |}.

Definition set_content (d : option D) a : Action :=
  {| ac_params := ac_params a; ac_query := ac_query a; ac_nodeuser := ac_nodeuser a; ac_inMessage := ac_inMessage a;
     ac_outMessage := ac_outMessage a; ac_request := ac_request a; ac_secure := ac_secure a;
     ac_body := ac_body a; ac_response := ac_response a; ac_io := ac_io a;
     mContentReceived := true; mContent := d;
     mSelectContentEncoding := mSelectContentEncoding a; ac_sent := ac_sent a |}.

Definition set_response (h : Hdr) a : Action :=
  {| ac_params := ac_params a; ac_query := ac_query a; ac_nodeuser := ac_nodeuser a; ac_inMessage := ac_inMessage a;
     ac_outMessage := ac_outMessage a; ac_request := ac_request a; ac_secure := ac_secure a;
     ac_body := ac_body a; ac_response := h; ac_io := ac_io a;
     mContentReceived := mContentReceived a; mContent := mContent a;
     mSelectContentEncoding := mSelectContentEncoding a; ac_sent := ac_sent a |}.

Definition set_sent (s : Sent (Hdr := Hdr)) a : Action :=
  {| ac_params := ac_params a; ac_query := ac_query a; ac_nodeuser := ac_nodeuser a; ac_inMessage := ac_inMessage a;
     ac_outMessage := ac_outMessage a; ac_request := ac_request a; ac_secure := ac_secure a;
     ac_body := ac_body a; ac_response := ac_response a; ac_io := ac_io a;
     mContentReceived := mContentReceived a; mContent := mContent a;
     mSelectContentEncoding := mSelectContentEncoding a; ac_sent := Some s |}.

Definition isResultSent a : bool := match ac_sent a with Some _ => true | None => false end.

(** [checkSecurity]: anything but a secure message is an exception. *)
Definition checkSecurity a : outcome unit :=
  match mSecurityStatus (ac_inMessage a) with
  | Unchecked => Raise btp_security
  | Breach => Raise btp_security
  | Secure => Ok tt
  end.

(** [receiveContent] as an object: the content is received once. *)
Definition receiveContent a : Action * outcome (option D) :=
  if mContentReceived a then (a, Ok (mContent a))
  else if hd_hasContent (ac_request a) then
    let m := setDynamicObject newObject None (ac_inMessage a) in
    let '(m, r, _) := receiveRequestContent (ac_request a) (ac_body a) m in
    let d := mDynamicObject m in
    (set_content d (set_in m a), match r with Ok _ => Ok d | Raise e => Raise e end)
  else (set_content None a, Ok None).

(** [receiveContent] into a stream. *)
Definition receiveContentTo (close : bool) a : Action * outcome unit * SinkData :=
  let m := setContentSink true close (ac_inMessage a) in
  let '(m, r, sink) := receiveRequestContent (ac_request a) (ac_body a) m in
  (set_in m a, r, sink).

(** [setContentEncoding]: some browsers only understand gzip. *)
Definition mustGzip (request : Hdr) : bool :=
  match hd_get request "User-Agent" with
  | None => true
  | Some ua => let ua := lower ua in
               strstr ua "msie" || strstr ua "webkit" || strstr ua "konqueror"
  end.

Definition setContentEncoding a : Action :=
  match hd_get (ac_request a) "Accept-Encoding" with
  | None => a
  | Some ae =>
      if negb (mustGzip (ac_request a)) && strstr ae "deflate"
      then set_response (hd_set (ac_response a) "Content-Encoding" "deflate") a
      else if strstr ae "gzip"
      then set_response (hd_set (ac_response a) "Content-Encoding" "gzip") a
      else a
  end.

Definition selectEncoding a : Action :=
  if mSelectContentEncoding a && negb (hd_has (ac_response a) "Content-Encoding")
  then setContentEncoding a else a.

Definition sendOut a : Action * outcome unit :=
  match sendResponse (ac_response a) (ac_outMessage a) (ac_io a) with
  | Ok (m, s) => (set_sent s (set_out m a), Ok tt)
  | Raise e => (a, Raise e)
  end.

(** [sendResult()]: a status without content. *)
Definition sendResult a : Action * outcome unit :=
  if isResultSent a then (a, Ok tt)
  else
    let h := if hd_status (ac_response a) =? 0 then hd_setStatus (ac_response a) 204 "No Content"
             else hd_set (ac_response a) "Content-Length" (print_u64 0) in
    sendOut (set_out (setContentSource None (ac_outMessage a)) (set_response h a)).

(** [sendResult] of a stream. *)
Definition sendResultStream (content : string) a : Action * outcome unit :=
  if isResultSent a then (a, Ok tt)
  else sendOut (selectEncoding (set_out (setContentSource (Some content) (ac_outMessage a)) a)).

(** The content type the client accepts. *)
Definition acceptedType (request : Hdr) : string :=
  match hd_get request "Accept" with
  | Some accept => if strstr accept "text/xml" then "text/xml" else "application/json"
  | None => "application/json"
  end.

Definition sendResultObject (d : D) a : Action * outcome unit :=
  if isResultSent a then (a, Ok tt)
  else
    let a := if hd_status (ac_response a) =? 0
             then set_response (hd_setStatus (ac_response a) 200 "OK") a else a in
    let ct := hd_string (ac_response a) "Content-Type" in
    let ct := if Nat.eqb (String.length ct) 0 then acceptedType (ac_request a) else ct in
    sendOut (selectEncoding (set_out (setDynamicObject d (Some ct) (ac_outMessage a)) a)).

Definition sendException (e : string) (client : bool) a : Action * outcome unit :=
  if isResultSent a then (a, Ok tt)
  else
    let a := if hd_status (ac_response a) =? 0
             then set_response (if client then hd_setStatus (ac_response a) 400 "Bad Request"
                                else hd_setStatus (ac_response a) 500 "Internal Server Error") a
             else a in
    sendOut (selectEncoding
      (set_out (setDynamicObject (exceptionObject e) (Some (acceptedType (ac_request a)))
                  (ac_outMessage a)) a)).

(** ** Handlers *)

(** A handler's function takes the action, or the content and gives a result. *)
Inductive HandlerFunction :=
| SimpleFunction (f : Action -> Action)
| DynoFunction (f : Action -> option D -> Action * outcome (option D)).

Record Delegate := {
  mAuthType : BtpAuth;
  mSameUser : bool;
  dl_function : HandlerFunction
}.
Implicit Types d : Delegate.

Definition secureConnectionRequired d : bool :=
  match mAuthType d with AuthOptional => false | _ => true end.

Definition securityCheckRequired d a : bool :=
  match mAuthType d with AuthRequired => true | _ => isHeaderSecurityPresent (ac_request a) end.

(** [login] gives the user an id stands for, 0 being the node's default user, and if that user
    is logged in the profile; [keys] is the node's public key cache. *)
Context (login : Z -> Z * option (option (Profile PrivateKey))) (keys : KeySource (PublicKey := PublicKey)).

(** The node user, for whom an operation is added, and the profile. *)
Definition addUserOperation (id : Z) : outcome (Z * option (Profile PrivateKey)) :=
  match login id with
  | (_, None) => Raise "bitmunk.protocol.ResourceNotFound"
  | (id, Some p) => Ok (id, p)
  end.

(** The security of the request's header, and that of the response. *)
Definition checkIncoming d (id : Z) (profile : option (Profile PrivateKey)) a : Action * outcome unit :=
  let m := checkHeaderSecurity (ac_request a) (setPublicKeySource keys (ac_inMessage a)) in
  let a := set_in m a in
  if mSameUser d && negb (id =? mUserId m) then (a, Raise "bitmunk.protocol.Unauthorized")
  else match profile with
       | Some p => (set_out (setAgentProfile p (setUserId (profile_userId p) (ac_outMessage a))) a, Ok tt)
       | None => (a, Raise "bitmunk.protocol.SecureResourceNotAvailable")
       end.

(** The content of a function that takes one, and the status the function sees: that of the
    header, unless the content's is worse. *)
Definition receiveChecked (checkSeq : bool) a : Action * outcome unit :=
  let hss := mSecurityStatus (ac_inMessage a) in
  match receiveContent a with
  | (a, Raise e) => (a, Raise e)
  | (a, Ok _) =>
      match (if checkSeq then checkSecurity a else Ok tt) with
      | Raise e => (a, Raise e)
      | Ok _ =>
          let m := ac_inMessage a in
          (match mSecurityStatus m, hss with
           | Secure, _ => set_in (setSecurityStatus hss m) a
           | Unchecked, Breach => set_in (setSecurityStatus hss m) a
           | _, _ => a
           end, Ok tt)
      end
  end.

Definition canPerformAction d a : Action * outcome unit :=
  let id := default 0 (ac_nodeuser a) in
  let hasUser := match ac_nodeuser a with Some _ => true | None => false end in
  let reqAuth := match mAuthType d with AuthRequired => true | _ => false end in
  if reqAuth && negb (isHeaderSecurityPresent (ac_request a)) then
    let a := set_in (setSecurityStatus Breach (ac_inMessage a)) a in (a, checkSecurity a)
  else
    let checkSeq := securityCheckRequired d a in
    match (if hasUser || checkSeq then addUserOperation id else Ok (id, None)) with
    | Raise e => (a, Raise e)
    | Ok (id, profile) =>
        match (if checkSeq then checkIncoming d id profile a else (a, Ok tt)) with
        | (a, Raise e) => (a, Raise e)
        | (a, Ok _) =>
            match (if checkSeq then checkSecurity a else Ok tt) with
            | Raise e => (a, Raise e)
            | Ok _ => match dl_function d with
                      | DynoFunction _ => receiveChecked checkSeq a
                      | SimpleFunction _ => (a, Ok tt)
                      end
            end
        end
    end.

(** An exception is sent unless a result has been. *)
Definition sendFailure (e : string) a : Action :=
  (sendException e (exceptionCode e <? 500) a).1.

Definition performAction d a : Action :=
  match dl_function d with
  | SimpleFunction f => f a
  | DynoFunction f =>
      match receiveContent a with
      | (a, Raise e) => sendFailure e a
      | (a, Ok content) =>
          match f a content with
          | (a, Ok (Some out)) => (sendResultObject out a).1
          | (a, Ok None) => (sendResult a).1
          | (a, Raise e) => sendFailure e a
          end
      end
  end.

(** What became of an action, and with what the handler's function was called, if it was. *)
Definition Handled : Type := Action * option Action.

(** [BtpActionHandler::operator()] *)
Definition callHandler d a : Handled :=
  if secureConnectionRequired d && negb (ac_secure a) then (a, None)
  else match canPerformAction d a with
       | (a, Ok _) => (performAction d a, Some a)
       | (a, Raise e) => (sendFailure e a, None)
       end.

(** ** REST resources *)

Record HandlerInfo := {
  hi_resource : option (list string -> outcome unit);
  hi_query : option (Q -> outcome unit);
  hi_content : option (option D -> outcome unit);
  hi_handler : Delegate;
  hi_arrayQuery : bool
}.

Definition MethodMap : Type := list (Type_ * HandlerInfo).
Definition HandlerMap : Type := list (Z * MethodMap).

Definition type_index (t : Type_) : Z :=
  match t with
  | Undefined => 0 | Get => 1 | Put => 2 | Post => 3 | Delete => 4 | Head => 5 | Options => 6
  | Trace => 7 | Connect => 8
  end.

(** Lookup and insertion in a [std::map] with this order of its keys. *)
Fixpoint om_get {K V} (index : K -> Z) (m : list (K * V)) (k : K) : option V :=
  match m with
  | [] => None
  | (k', v) :: m => if index k =? index k' then Some v else om_get index m k
  end.

Fixpoint om_set {K V} (index : K -> Z) (m : list (K * V)) (k : K) (v : V) : list (K * V) :=
  match m with
  | [] => [(k, v)]
  | (k', v') :: m' =>
      if index k =? index k' then (k, v) :: m'
      else if index k <? index k' then (k, v) :: m
      else (k', v') :: om_set index m' k v
  end.

Definition overriding {V} (new old : option V) : option V :=
  match new with Some _ => new | None => old end.

(** A validator that is not given leaves the one that was there. *)
Definition addHandler (h : Delegate) (type : Type_) (paramCount : Z)
  (rv : option (list string -> outcome unit)) (qv : option (Q -> outcome unit))
  (cv : option (option D -> outcome unit)) (arrayQuery : bool) (handlers : HandlerMap) : HandlerMap :=
  let methods := default [] (om_get id handlers paramCount) in
  let old := om_get type_index methods type in
  om_set id handlers paramCount (om_set type_index methods type
    {| hi_resource := overriding rv (old ≫= hi_resource);
       hi_query := overriding qv (old ≫= hi_query);
       hi_content := overriding cv (old ≫= hi_content);
       hi_handler := h; hi_arrayQuery := arrayQuery |}).

(** The methods for the number of parameters, or for any number. *)
Definition findMethods (handlers : HandlerMap) a : option (Z * MethodMap) :=
  let count := Z.of_nat (length (ac_params a)) in
  match om_get id handlers count with
  | Some mm => Some (count, mm)
  | None => option_map (pair (-1)) (om_get id handlers (-1))
  end.

(** The handler for the method, else that for any number of parameters, and the methods that
    were looked at last. *)
Definition findMethod (handlers : HandlerMap) (count : Z) (mm : MethodMap) (type : Type_)
  : option HandlerInfo * MethodMap :=
  match om_get type_index mm type with
  | Some info => (Some info, mm)
  | None =>
      if count =? -1 then (None, mm)
      else match om_get id handlers (-1) with
           | Some mm' => (om_get type_index mm' type, mm')
           | None => (None, mm)
           end
  end.

Definition validate {V} (validator : option (V -> outcome unit)) (v : V) : outcome unit :=
  match validator with Some f => f v | None => Ok tt end.

(** The content is received for its validator even if that fails. *)
Definition validateAll (info : HandlerInfo) a : Action * outcome unit :=
  match (let? _ := validate (hi_resource info) (ac_params a) in
         validate (hi_query info) (ac_query a (hi_arrayQuery info))) with
  | Raise e => (a, Raise e)
  | Ok _ =>
      match hi_content info with
      | None => (a, Ok tt)
      | Some f => let a := (receiveContent a).1 in (a, f (mContent a))
      end
  end.

Fixpoint join (sep : string) (l : list string) : string :=
  match l with
  | [] => ""
  | [s] => s
  | s :: l => s +:+ sep +:+ join sep l
  end.

Definition allowed (mm : MethodMap) : string :=
  join ", " (map (fun e => default "" (typeToString e.1)) mm).

(** [RestResourceHandler::operator()] *)
Definition handleAction (handlers : HandlerMap) a : Handled :=
  match findMethods handlers a with
  | None =>
      (sendFailure "bitmunk.node.ResourceNotFound"
         (set_response (hd_setStatus (ac_response a) 404 "Not Found") a), None)
  | Some (count, mm) =>
      match findMethod handlers count mm (mType (ac_inMessage a)) with
      | (Some info, _) =>
          let h := hi_handler info in
          if (secureConnectionRequired h || securityCheckRequired h a) && negb (ac_secure a)
          then (a, None)
          else match canPerformAction h a with
               | (a, Raise e) => (sendFailure e a, None)
               | (a, Ok _) =>
                   match validateAll info a with
                   | (a, Raise e) => (sendFailure e a, None)
                   | (a, Ok _) => (performAction h a, Some a)
                   end
               end
      | (None, mm) =>
          let h := hd_setStatus (ac_response a) 405 "Method Not Allowed" in
          (sendFailure "bitmunk.node.MethodNotAllowed"
             (set_response (hd_set h "Allow" (allowed mm)) a), None)
      end
  end.

(** ** The service *)

Inductive Handler := RestHandler (handlers : HandlerMap) | ActionHandler (d : Delegate).

Definition runHandler (h : Handler) a : Handled :=
  match h with
  | RestHandler handlers => handleAction handlers a
  | ActionHandler d => callHandler d a
  end.

(** [setRequest]: the type of the message is that of the request's method. *)
Definition setRequest a : Action :=
  match stringToType (hd_method (ac_request a)) with
  | Undefined => a
  | t => set_in (setType t (ac_inMessage a)) a
  end.

(** [BtpService::serviceRequest]; [resource] is the normalized path.  The action is made from
    the request before its handler is run. *)
Definition serviceRequest (http1Allowed : bool) (services : dmap Handler) (resource : string) a : Handled :=
  let h := hd_set (hd_set (ac_response a) "Server" "BtpServer/1.0") "Connection" "close" in
  let version := hd_version (ac_request a) in
  if String.eqb version "HTTP/1.1" || (http1Allowed && String.eqb version "HTTP/1.0") then
    let a := setRequest (set_response (hd_setVersion h version) a) in
    match findHandler services resource with
    | Some (handler, _) => runHandler handler a
    | None => ((sendResult (set_response (hd_setStatus (ac_response a) 404 "Not Found") a)).1, None)
    end
  else
    let h := hd_setStatus (hd_setVersion h "HTTP/1.1") 505 "HTTP Version Not Supported" in
    let h := hd_set h "Content-Length" (print_u64 0) in
    (set_sent {| sn_header := h; sn_body := None |} (set_response h a), None).

(** [setKeepAlive] *)
Definition setKeepAlive a : Action * bool :=
  let keepAlive := String.eqb (hd_version (ac_request a)) "HTTP/1.1" in
  let keepAlive := match hd_get (ac_request a) "Connection" with
                   | Some c => if strcase_eqb c "close" then false
                               else if strcase_eqb c "keep-alive" then true else keepAlive
                   | None => keepAlive
                   end in
  (if keepAlive then set_response (hd_set (ac_response a) "Connection" "keep-alive") a else a, keepAlive).

Definition setResourceCreated (location : string) a : Action :=
  set_response (hd_setStatus (hd_set (ac_response a) "Location" location) 201 "Created") a.
End Serve.

(** * Properties *)

(** ** Resources *)

Lemma strrchr_prefix s c p : strrchr s c = Some p -> exists q, s = p +:+ String c q.
Proof.
  revert p. induction s as [|a s IH]; intros p; simpl; [done|].
  destruct (strrchr s c) as [t|].
  - intros [= <-]. destruct (IH t eq_refl) as [q ->]. by exists q.
  - destruct (Ascii.eqb_spec a c) as [->|]; [|done]. intros [= <-]. by exists s.
Qed.

Lemma parentResource_shorter r p : parentResource r = Some p -> (String.length p < String.length r)%nat.
Proof.
  unfold parentResource. destruct (Nat.ltb_spec 1 (String.length r)) as [Hl|]; [|done].
  destruct (strrchr r "/") as [[|c t]|] eqn:E; [intros [= <-]; simpl; lia| |done].
  intros [= <-]. apply strrchr_prefix in E as [q ->]. rewrite string_length_app. simpl. lia.
Qed.

(** A resource is at or above another if it is the same or the other continues it with a
    slash. *)
Definition at_or_above (p r : string) : Prop := p = r \/ exists q, r = p +:+ "/" +:+ q.

Lemma strrchr_app p c q :
  strrchr (p +:+ String c q) c =
  Some (match strrchr q c with Some u => p +:+ String c u | None => p end).
Proof.
  induction p as [|a p IH].
  - change ("" +:+ String c q) with (String c q). simpl. destruct (strrchr q c); [done|].
    by rewrite Ascii.eqb_refl.
  - change (String a p +:+ String c q) with (String a (p +:+ String c q)). cbn [strrchr]. rewrite IH.
    by destruct (strrchr q c).
Qed.

(** What is above a resource is at or above its parent. *)
Lemma at_or_above_parent p r : p <> "" -> at_or_above p r ->
  p = r \/ exists r', parentResource r = Some r' /\ at_or_above p r'.
Proof.
  intros Hp [->|[q ->]]; [by left|right]. unfold parentResource. rewrite string_length_app.
  destruct (Nat.ltb_spec 1 (String.length p + String.length ("/" +:+ q))) as [_|Hl].
  2:{ destruct p; [done|]. simpl in Hl. lia. }
  change ("/" +:+ q) with (String "/" q). rewrite strrchr_app.
  destruct p as [|c p]; [done|]. destruct (strrchr q "/") as [u|]; eexists; split; try reflexivity.
  - right. by exists u.
  - by left.
Qed.

Lemma at_or_above_length p r : at_or_above p r -> (String.length p <= String.length r)%nat.
Proof. intros [->|[q ->]]; [done|]. rewrite string_length_app. lia. Qed.

Section ResourceTheorems.
Context {A : Type}.
Implicit Types handlers : dmap A.

(** The handler that is found is the nearest one. *)
Definition nearest handlers (r : string) (found : option (A * string)) : Prop :=
  match found with
  | Some (h, p) =>
      dm_get handlers p = Some h /\ (at_or_above p r \/ p = "/") /\
      forall p', p' <> "" -> at_or_above p' r -> (String.length p < String.length p')%nat ->
      dm_get handlers p' = None
  | None => forall p', p' <> "" -> at_or_above p' r -> dm_get handlers p' = None
  end.

Lemma nearest_parent handlers r r' found :
  dm_get handlers r = None -> parentResource r = Some r' -> nearest handlers r' found ->
  nearest handlers r found.
Proof.
  intros Hr Hp. assert (forall p', p' <> "" -> at_or_above p' r ->
    p' = r \/ at_or_above p' r') as Hup.
  { intros p' Hne Ha. destruct (at_or_above_parent _ _ Hne Ha) as [?|(r2 & E & ?)]; [by left|].
    right. congruence. }
  destruct found as [[h p]|]; simpl.
  - intros (Hg & Ha & Hn). split; [done|]. split.
    + destruct Ha as [[->|[q ->]]| ->]; [|left|by right].
      * unfold parentResource in Hp. case_match; [|done].
        destruct (strrchr r "/") as [[|c t]|] eqn:E; simplify_eq; [by right|left].
        apply strrchr_prefix in E as [q ->]. right. by exists q.
      * unfold parentResource in Hp. case_match; [|done].
        destruct (strrchr r "/") as [[|c t]|] eqn:E; [| |done]; injection Hp as Hp.
        -- destruct p as [|c p]; [|by destruct p]. apply strrchr_prefix in E as [q' ->]. right. by exists q'.
        -- apply strrchr_prefix in E as [q' ->]. right. exists (q +:+ "/" +:+ q').
           rewrite Hp. by rewrite !string_app_assoc.
    + intros p' Hne Hab Hl. destruct (Hup p' Hne Hab) as [->|?]; [done|by apply Hn].
  - intros Hn p' Hne Hab. destruct (Hup p' Hne Hab) as [->|?]; [done|by apply Hn].
Qed.

Lemma findFrom_nearest n handlers : forall r, (String.length r < n)%nat ->
  nearest handlers r (findFrom n handlers r).
Proof.
  induction n as [|n IH]; intros r Hn; [lia|]. cbn [findFrom].
  destruct (dm_get handlers r) as [h|] eqn:E.
  { split; [done|]. split; [by left; left|]. intros p' _ ?%at_or_above_length. lia. }
  destruct (parentResource r) as [r'|] eqn:Ep.
  - apply (nearest_parent _ _ r' _ E Ep), IH. apply parentResource_shorter in Ep. lia.
  - intros p' Hne Ha. destruct (at_or_above_parent _ _ Hne Ha) as [->|(? & ? & _)]; congruence.
Qed.

(** The search for the handler of a resource ends with the nearest one: the handler found
    belongs to the resource, to one above it or to the root, and no resource at or above it
    that is longer has one; if none is found, none at or above it has one. *)
Theorem findHandler_nearest handlers resource :
  nearest handlers (stripQuery resource) (findHandler handlers resource).
Proof. apply findFrom_nearest. lia. Qed.
End ResourceTheorems.

(** A question mark in a query hides the resource: the query is cut at the last one. *)
Example findHandler_second_question_mark :
  findHandler [("/api", 1); ("/api/files", 2)] "/api/files?from=/a?b" = Some (1, "/api") /\
  findHandler [("/api", 1); ("/api/files", 2)] "/api/files?from=b" = Some (2, "/api/files").
Proof. by split. Qed.

(** ** Security of requests *)

Section ServeTheorems.
Context {PrivateKey PublicKey : Type} `{SignatureScheme PrivateKey PublicKey} `{HexCheck}.
Context {Hdr : Type} `{HttpHeader Hdr} `{Compression} {D : Type} `{ObjectCodec D} {Q : Type}.
Context (exceptionObject : string -> D) (exceptionCode : string -> Z).
Context (login : Z -> Z * option (option (Profile PrivateKey))) (keys : KeySource (PublicKey := PublicKey)).
Abbreviation Act := (@Action PrivateKey PublicKey Hdr D Q).
Implicit Types a c : Act.

(** The content of a request that leaves its message secure is signed. *)
Definition content_checked a (m : @BtpMessage PrivateKey PublicKey Hdr D) : Prop :=
  hd_hasContent (ac_request a) = true -> content_expected (ac_request a) = true ->
  exists rc, ac_body a = Ok rc /\
  (0 < tr_length (rc_trailer rc) -> exists k dlg,
     keys (mAgentUserId m) (mAgentProfileId m) = Some (k, dlg) /\ content_signed k (ac_request a) rc).

(** What stays of an action while its content is received. *)
Lemma receiveContent_keeps a :
  same_sender (ac_inMessage a) (ac_inMessage (receiveContent a).1) /\
  mContentReceived (receiveContent a).1 = true.
Proof.
  unfold receiveContent. destruct (mContentReceived a) eqn:E; [done|].
  destruct (hd_hasContent (ac_request a)); [|done].
  pose proof (receiveRequestContent_sender (ac_request a) (ac_body a)
    (setDynamicObject newObject None (ac_inMessage a))) as Hs.
  by destruct (receiveRequestContent _ _ _) as [[m r] sk].
Qed.

Lemma receiveContent_checked a a' d :
  mContentReceived a = false -> mPublicKeySource (ac_inMessage a) = Some keys ->
  receiveContent a = (a', Ok d) -> mSecurityStatus (ac_inMessage a') = Secure ->
  content_checked a (ac_inMessage a).
Proof.
  intros Hr Hk. unfold receiveContent, content_checked. rewrite Hr.
  destruct (hd_hasContent (ac_request a)); [|done].
  unfold receiveRequestContent. intros E Hsec _ Hexp. rewrite Hexp in E. revert E Hsec.
  unfold receiveContentOf. cbn [mDynamicObject setDynamicObject setType].
  set (m := setType _ _). unfold receiveContentObject.
  destruct (checkContentType m (ac_request a) false) as [[h' t]|]; [|done].
  destruct t; match goal with |- context [receiveContentStream ?h ?rc ?s m] =>
    destruct (receiveContentStream h rc s m) as [m1 [x|]] eqn:Es; [|done] end;
    intros [= <- <-] Hsec; cbn in Hsec;
    destruct (receive_secure _ _ _ m _ _ keys Hk Es Hsec) as (rc & -> & Hs); by exists rc.
Qed.

Lemma checkSecurity_ok a : checkSecurity a = Ok tt -> mSecurityStatus (ac_inMessage a) = Secure.
Proof. unfold checkSecurity. by destruct (mSecurityStatus (ac_inMessage a)). Qed.

(** The message of the request after its header has been checked. *)
Definition checked a : @BtpMessage PrivateKey PublicKey Hdr D :=
  checkHeaderSecurity (ac_request a) (setPublicKeySource keys (ac_inMessage a)).

Lemma checkIncoming_ok d id profile a a' :
  checkIncoming keys d id profile a = (a', Ok tt) ->
  ac_inMessage a' = checked a /\ ac_request a' = ac_request a /\ ac_body a' = ac_body a /\
  mContentReceived a' = mContentReceived a /\ (exists p, profile = Some p) /\
  (mSameUser d = true -> id = mUserId (checked a)).
Proof.
  unfold checkIncoming. fold (checked a). destruct (mSameUser d && _) eqn:E; [done|].
  destruct profile as [p|]; [|done]. intros [= <-]. do 4 (split; [done|]). split; [by eexists|].
  intros Hs. rewrite Hs in E. apply negb_false_iff in E. by apply Z.eqb_eq.
Qed.

(** The content of a function that takes one has been received with a secure message. *)
Lemma receiveChecked_secure a a' :
  mContentReceived a = false -> mPublicKeySource (ac_inMessage a) = Some keys ->
  mSecurityStatus (ac_inMessage a) = Secure -> receiveChecked true a = (a', Ok tt) ->
  mSecurityStatus (ac_inMessage a') = Secure /\ same_sender (ac_inMessage a) (ac_inMessage a') /\
  mContentReceived a' = true /\ content_checked a (ac_inMessage a).
Proof.
  intros Hr Hk Hs. unfold receiveChecked. rewrite Hs. pose proof (receiveContent_keeps a) as [Hsame Hrec].
  destruct (receiveContent a) as [a1 [d|]] eqn:E; [|done].
  destruct (checkSecurity a1) as [[]|] eqn:Ec; [|done]. apply checkSecurity_ok in Ec. rewrite Ec.
  intros [= <-]. split; [done|]. split; [done|]. split; [done|].
  by eapply receiveContent_checked.
Qed.

(** What is known when a request with security headers may be performed. *)
Definition cleared (d : @Delegate PrivateKey PublicKey Hdr D Q) a a1 : Prop :=
  authentic keys (ac_request a) (checked a) /\
  (exists p, (login (default 0 (ac_nodeuser a))).2 = Some (Some p)) /\
  (mSameUser d = true -> (login (default 0 (ac_nodeuser a))).1 = mUserId (checked a)) /\
  same_sender (checked a) (ac_inMessage a1) /\
  forall f, dl_function d = DynoFunction f ->
    mSecurityStatus (ac_inMessage a1) = Secure /\ mContentReceived a1 = true /\
    content_checked a (checked a).

Lemma checked_source a : mPublicKeySource (checked a) = Some keys.
Proof.
  unfold checked. by destruct (checkHeaderSecurity_keeps (ac_request a)
    (setPublicKeySource keys (ac_inMessage a))) as (? & ? & ? & ? & ->).
Qed.

Lemma canPerformAction_cleared d a a1 :
  mContentReceived a = false -> isHeaderSecurityPresent (ac_request a) = true ->
  canPerformAction login keys d a = (a1, Ok tt) -> cleared d a a1.
Proof.
  intros Hr Hp. unfold canPerformAction. rewrite Hp, andb_false_r.
  assert (securityCheckRequired d a = true) as -> by (unfold securityCheckRequired; by destruct (mAuthType d)).
  rewrite orb_true_r. unfold addUserOperation.
  destruct (login _) as [uid [profile|]] eqn:El; [|done].
  destruct (checkIncoming keys d _ profile a) as [a2 [[]|]] eqn:Ei; [|done].
  apply checkIncoming_ok in Ei as (Hin & Hreq & Hbody & Hrec & [p ->] & Hsame).
  destruct (checkSecurity a2) as [[]|] eqn:Ec; [|done]. apply checkSecurity_ok in Ec.
  assert (authentic keys (ac_request a) (checked a)) as Ha.
  { rewrite Hin in Ec. apply checkHeaderSecurity_secure in Ec as (src & Hsrc & Ha).
    by injection Hsrc as <-. }
  intros E. unfold cleared. rewrite El. split; [done|]. split; [by eexists|]. split; [done|].
  destruct (dl_function d) eqn:Ef; [injection E as <-; rewrite Hin; by split|].
  apply receiveChecked_secure in E as (Hs & Hsnd & Hc & Hcont);
    [|congruence|rewrite Hin; apply checked_source|done].
  rewrite Hin in Hsnd. split; [done|]. intros f' _. split; [done|]. split; [done|].
  unfold content_checked in *. by rewrite Hreq, Hbody, Hin in Hcont.
Qed.

Lemma validateAll_keeps info a a' :
  validateAll info a = (a', Ok tt) ->
  same_sender (ac_inMessage a) (ac_inMessage a') /\ (mContentReceived a = true -> a' = a).
Proof.
  unfold validateAll. destruct (outcome_bind _ _); [|done].
  destruct (hi_content info); [|by intros [= <-]]. intros [= <- _].
  split; [apply receiveContent_keeps|]. unfold receiveContent. by intros ->.
Qed.

(** C5: what has to hold for a function of the node to be called for a request.  If its
    handler requires authentication, the request has security headers.  A request with
    security headers is only performed over a secure connection, for a node user that is
    logged in and, if the handler wants it so, is the user of the request; its start line and
    host are signed by an agent that the node's keys know and that may act for the user.  A
    function that takes content sees a secure message, whose content, if there is any, the
    same agent has signed. *)
Theorem request_authenticated handlers a a' c :
  mContentReceived a = false ->
  handleAction exceptionObject exceptionCode login keys handlers a = (a', Some c) ->
  exists count mm info,
  findMethods handlers a = Some (count, mm) /\
  (findMethod handlers count mm (mType (ac_inMessage a))).1 = Some info /\
  let d := hi_handler info in
  (mAuthType d = AuthRequired -> isHeaderSecurityPresent (ac_request a) = true) /\
  (isHeaderSecurityPresent (ac_request a) = true -> ac_secure a = true /\ cleared d a c).
Proof.
  intros Hr. unfold handleAction. destruct (findMethods handlers a) as [[count mm]|] eqn:Em; [|done].
  destruct (findMethod handlers count mm _) as [[info|] mm'] eqn:Ei; [|done].
  destruct ((_ || _) && negb (ac_secure a)) eqn:Esec; [done|].
  destruct (canPerformAction login keys (hi_handler info) a) as [a1 [[]|]] eqn:Ec; [|done].
  destruct (validateAll info a1) as [a2 [[]|]] eqn:Ev; [|done]. intros [= _ <-].
  exists count, mm, info. split; [done|]. split; [by rewrite Ei|]. split.
  - intros Hauth. unfold canPerformAction in Ec. rewrite Hauth in Ec.
    destruct (isHeaderSecurityPresent (ac_request a)); [done|]. by cbn in Ec.
  - intros Hp. split.
    + assert (securityCheckRequired (hi_handler info) a = true) as Hs
        by (unfold securityCheckRequired; by destruct (mAuthType _)).
      rewrite Hs, orb_true_r in Esec. by destruct (ac_secure a).
    + apply (canPerformAction_cleared _ _ _ Hr Hp) in Ec as (Ha & Hl & Hsame & Hsnd & Hd).
      apply validateAll_keeps in Ev as [Hk Hid]. split; [done|]. split; [done|]. split; [done|]. split.
      * destruct Hsnd as (? & ? & ? & ?), Hk as (? & ? & ? & ?). repeat split; congruence.
      * intros f Hf. destruct (Hd f Hf) as (? & Hrec & ?). by rewrite Hid.
Qed.
End ServeTheorems.

(** ** From the client to the function *)

Section EndToEnd.
Context {PrivateKey PublicKey : Type} `{SignatureLaws PrivateKey PublicKey}.
Context `{HexCheck} `{!HexCheckLaws}.
Context {Hdr : Type} `{HttpHeader Hdr} `{!HttpHeaderLaws Hdr} `{Compression} `{!CompressionLaws}.
Context {D : Type} `{ObjectCodec D} `{!ObjectCodecLaws D} {Q : Type}.
Context (login : Z -> Z * option (option (Profile PrivateKey))) (keys : KeySource (PublicKey := PublicKey)).

(** C7: a secure request gets through.  An object sent by an agent as a secure request that
    arrives as it was sent, over any connection, may be performed: for a node user that is
    logged in with a profile and is the user of the request where that is wanted, if the
    node's keys know the agent.  The function is given the object that was sent. *)
Theorem secure_request_performed path auth h m io m' sent p k d ct dlg body trailer
  (a : @Action PrivateKey PublicKey Hdr D Q) dg f pr uid :
  sendRequest path auth h m io = Ok (m', sent) -> hd_type h = RequestHeader ->
  mAgentProfile m = Some p -> profile_key p = Some k -> mDynamicObject m = Some d ->
  mContentType m = Some ct -> content_type ct = Json \/ content_type ct = Xml ->
  untouched "Content-Type" m ->
  0 < mUserId m < 2 ^ 64 -> 0 < profile_userId p < 2 ^ 64 -> 0 < profile_id p < 2 ^ 32 ->
  hd_get (sn_header sent) "X-Forwarded-Host" = None ->
  hd_has (sn_header sent) "Content-Length" = false ->
  keys (profile_userId p) (profile_id p) = Some (public_key k, dlg) ->
  profile_userId p = mUserId m \/ dlg = true ->
  sn_body sent = Some (body, trailer) -> ac_request a = sn_header sent ->
  ac_body a = Ok {| rc_bytes := body; rc_trailer := trailer |} -> mContentReceived a = false ->
  hd_hasContent (sn_header sent) = true ->
  login (default 0 (ac_nodeuser a)) = (uid, Some (Some pr)) ->
  (mSameUser dg = true -> uid = mUserId m) -> dl_function dg = DynoFunction f ->
  exists a1, canPerformAction login keys dg a = (a1, Ok tt) /\ mContent a1 = Some d /\
  mSecurityStatus (ac_inMessage a1) = Secure /\ mUserId (ac_inMessage a1) = mUserId m.
Proof.
  intros Hs Ht Hp Hk Hd Hct Htype Hun Ru Ra Rp Hx Hcl Hkey Hdlg Hb Hreq Hbody Hrec Hhas Hl Hsame Hf.
  destruct (sendRequest_sent _ _ _ _ _ _ _ _ _ _ _ Hs Ht Hp Hk Hd Hct Htype Hun Hcl)
    as (Hh & Hc & Hch & c & Hb' & Hread).
  assert (isHeaderSecurityPresent (ac_request a) = true) as Hpres.
  { unfold isHeaderSecurityPresent, hd_has. rewrite Hreq. by destruct Hh as (_ & -> & _). }
  unfold canPerformAction. rewrite Hpres, andb_false_r.
  assert (securityCheckRequired dg a = true) as -> by (unfold securityCheckRequired; by destruct (mAuthType dg)).
  rewrite orb_true_r. unfold addUserOperation. rewrite Hl. unfold checkIncoming. rewrite Hreq.
  rewrite (header_signed_secure _ _ _ _ k (setPublicKeySource keys (ac_inMessage a)) keys dlg) by done.
  cbn [mUserId setSecurityStatus set_ids].
  replace (mSameUser dg && _) with false.
  2:{ destruct (mSameUser dg); [|done]. rewrite Hsame by done. by rewrite Z.eqb_refl. }
  cbn [checkSecurity ac_inMessage set_out set_in mSecurityStatus setSecurityStatus]. rewrite Hf.
  unfold receiveChecked, receiveContent. cbn [ac_inMessage set_out set_in mContentReceived ac_request ac_body].
  rewrite Hrec, Hreq, Hhas, Hbody.
  match goal with |- context [receiveRequestContent ?h0 ?rc0 ?r0] =>
    destruct (receiveRequestContent_sent h0 k c ct d r0 keys dlg newObject)
      as (r2 & Hrc & Hs2 & Hd2); [done..|] end.
  assert (sendBody (sn_header sent) (Some k) c = (body, trailer)) as Eb by congruence.
  cbv zeta in Hrc. rewrite Eb in Hrc. cbn [fst snd] in Hrc.
  pose proof (receiveRequestContent_sender (sn_header sent)
    (Ok {| rc_bytes := body; rc_trailer := trailer |})
    (setDynamicObject newObject None (setSecurityStatus Secure
      (set_ids (mUserId m) (profile_userId p) (profile_id p)
         (setPublicKeySource keys (ac_inMessage a)))))) as [Hu _].
  rewrite Hrc in Hu |- *. unfold checkSecurity. cbn [ac_inMessage set_content set_in]. rewrite Hs2.
  eexists. split; [reflexivity|]. by cbn.
Qed.
End EndToEnd.

(** * A request *)

Module SampleRequest.
Import PlainText.

Abbreviation Act := (@Action string string PlainHeader.t string unit).

(** Echoes its content. *)
Definition echo : @Delegate string string PlainHeader.t string unit :=
  {| mAuthType := AuthRequired; mSameUser := true; dl_function := DynoFunction (fun a d => (a, Ok d)) |}.

Definition handlers : HandlerMap := addHandler echo Post 0 None None None false [].

Definition login (id : Z) : Z * option (option (Profile string)) :=
  (id, if id =? 900 then Some (Some (Sealed.profile 900 "k")) else None).

Definition body : string * Trailer := Eval vm_compute in
  default ("", {| tr_length := 0; tr_signature := None |}) (sn_body sent).

Definition action : Act :=
  {| ac_params := []; ac_query := fun _ => tt; ac_nodeuser := Some 900;
     ac_inMessage := setType Post newMessage; ac_outMessage := newMessage;
     ac_request := sn_header sent; ac_secure := true;
     ac_body := Ok {| rc_bytes := body.1; rc_trailer := body.2 |};
     ac_response := PlainHeader.response; ac_io := io_ok; mContentReceived := false; mContent := None;
     mSelectContentEncoding := false; ac_sent := None |}.
End SampleRequest.

Lemma secure_request_performed_witness :
  exists a1, canPerformAction SampleRequest.login PlainText.keys SampleRequest.echo SampleRequest.action =
    (a1, Ok tt) /\ mContent a1 = Some "{}".
Proof.
  destruct (secure_request_performed SampleRequest.login PlainText.keys "/api?nodeuser=900" "localhost"
    PlainText.header PlainText.outgoing
    PlainText.io_ok PlainText.sent_pair.1 PlainText.sent (Sealed.profile 900 "k") "k" "{}"
    "application/json" false SampleRequest.body.1 SampleRequest.body.2 SampleRequest.action
    SampleRequest.echo (fun a d => (a, Ok d)) (Sealed.profile 900 "k") 900) as (a1 & E & Hc & _);
    [first [simpl; lia|by left|constructor|vm_compute; reflexivity]..|].
  by exists a1.
Defined.

Lemma request_authenticated_witness :
  exists a' c, handleAction id (fun _ => 0) SampleRequest.login PlainText.keys SampleRequest.handlers
    SampleRequest.action = (a', Some c) /\
  cleared SampleRequest.login PlainText.keys SampleRequest.echo SampleRequest.action c.
Proof.
  destruct (handleAction id (fun _ => 0) SampleRequest.login PlainText.keys SampleRequest.handlers
    SampleRequest.action) as [a' [c|]] eqn:E; [|vm_compute in E; discriminate].
  exists a', c. split; [reflexivity|].
  destruct (request_authenticated id (fun _ => 0) SampleRequest.login PlainText.keys
    SampleRequest.handlers SampleRequest.action a' c eq_refl E) as (n & mm & info & Hm & Hi & _ & Hc).
  injection Hm as <- <-. injection Hi as <-.
  destruct Hc as [_ Hc]; [vm_compute; reflexivity|exact Hc].
Defined.
