(* ===== verification/NodeUsers.v ===== *)
(** The users of a node ([cpp/node/Node.cpp]).

    What the node asks of its login manager, and the fibers it keeps for each user so that a
    logout can end them and wait until they are gone.  The blocks under the fiber lock are steps. *)
From S2P Require Import Prelude Signer Http Btp Logins Serve.
From stdpp Require Import gmap.

Local Open Scope Z_scope.

(** * Users *)

Section Users.
Context {PrivateKey Op : Type}.
Implicit Types st : @LoginManager PrivateKey Op.

(** The logins as the handlers of requests see them. *)
Definition node_login st (id : Z) : Z * option (option (Profile PrivateKey)) :=
  let '(uid, d) := getLoginData id st in (uid, Some ∘ ld_profile <$> d).

(** It is what adding a user operation answers. *)
Lemma node_login_operation (prune : list Op -> list Op) st id op :
  (Logins.addUserOperation prune id op st).1.2 = (node_login st id).1 /\
  (Logins.addUserOperation prune id op st).2 =
    match (node_login st id).2 with
    | Some (Some p) => Ok p
    | _ => Raise "bitmunk.node.UserNotLoggedIn"
    end.
Proof.
  unfold Logins.addUserOperation, node_login, getLoginData.
  destruct (findById id st) as [uid [q|]]; [|done]. cbn. by destruct (deref st q).
Qed.

(** [checkLogin] for the user of a message. *)
Definition checkLogin st (uid : Z) : Z * outcome (@LoginData PrivateKey Op) :=
  match getLoginData uid st with
  | (uid, Some d) => (uid, Ok d)
  | (uid, None) => (uid, Raise "bitmunk.node.Node.UserNotAuthorized.")
  end.

Definition getDefaultUserId st : Z := (getLoginData 0 st).1.

Lemma getLoginData_logged_in st dep id uid d :
  minv st dep -> getLoginData id st = (uid, Some d) ->
  uid ∈ mUserIdQueue st /\ ld_id d = uid /\ (id = 0 -> head (mUserIdQueue st) = Some uid) /\
  (id <> 0 -> uid = id).
Proof.
  intros I. unfold getLoginData. destruct (findById id st) as [u [q|]] eqn:E; [|done].
  cbn. intros [= -> Hd]. destruct (findById_some _ _ _ _ _ I E) as [Hm Hne].
  split; [apply (mi_queue _ _ I); eauto|].
  split; [destruct (mi_ids _ _ I _ _ Hm) as (? & d' & Hd' & ?); unfold deref in Hd; congruence|].
  split; [|done]. intros ->. destruct (mi_ids _ _ I _ _ Hm) as [Hz _].
  unfold findById, resolveId in E. cbn in E. injection E as E _.
  destruct (mUserIdQueue st) as [|h l]; cbn in *; congruence.
Qed.

(** The default user of a node is the one that has been logged in the longest, and there is
    one exactly when someone is logged in. *)
Theorem default_user (prune : list Op -> list Op) (s : System) :
  rtc (lstep prune) newSystem s ->
  match mUserIdQueue (manager s) with
  | [] => getDefaultUserId (manager s) = 0 /\ (checkLogin (manager s) 0).2 =
            Raise "bitmunk.node.Node.UserNotAuthorized."
  | u :: _ => getDefaultUserId (manager s) = u /\
      exists d, checkLogin (manager s) 0 = (u, Ok d) /\ ld_id d = u
  end.
Proof.
  intros Hr. pose proof (si_manager _ (logins_reachable_inv prune s Hr)) as I.
  unfold getDefaultUserId, checkLogin, getLoginData, findById, resolveId. cbn [Z.eqb].
  destruct (mUserIdQueue (manager s)) as [|u l] eqn:Eq; [done|]. cbn [head default].
  assert (u ∈ mUserIdQueue (manager s)) as [q Hq]%(mi_queue _ _ I) by (rewrite Eq; set_solver).
  destruct (mi_ids _ _ I _ _ Hq) as (Hz & d & Hd & Hid). apply Z.eqb_neq in Hz. cbn.
  rewrite Hz, Hq. cbn. unfold deref. rewrite Hd. eauto.
Qed.
End Users.

(** * Requests and logins *)

Section Requests.
Context {PrivateKey PublicKey Op : Type} `{SignatureScheme PrivateKey PublicKey} `{HexCheck}.
Context {Hdr : Type} `{HttpHeader Hdr} `{Compression} {D : Type} `{ObjectCodec D} {Q : Type}.
Context (keys : KeySource (PublicKey := PublicKey)) (prune : list Op -> list Op).

(** C21: A request with security headers that may be performed is served by a user that is logged
    in at that time: the one it names or, if it names none, the one that has been logged in the
    longest.  Where the handler wants it so, that user is the user of the request. *)
Theorem request_served_by (s : @System PrivateKey Op) (d : @Delegate PrivateKey PublicKey Hdr D Q) a a1 :
  rtc (lstep prune) newSystem s ->
  mContentReceived a = false -> isHeaderSecurityPresent (ac_request a) = true ->
  canPerformAction (node_login (manager s)) keys d a = (a1, Ok tt) ->
  exists uid, uid ∈ mUserIdQueue (manager s) /\
  match default 0 (ac_nodeuser a) with
  | 0 => head (mUserIdQueue (manager s)) = Some uid
  | id => uid = id
  end /\
  (mSameUser d = true -> uid = mUserId (ac_inMessage a1)).
Proof.
  intros Hr Hc Hp E. pose proof (si_manager _ (logins_reachable_inv prune s Hr)) as I.
  apply canPerformAction_cleared in E as (_ & [p Hl] & Hsame & (Hu & _) & _); [|done..].
  unfold node_login in *.
  destruct (getLoginData _ (manager s)) as [uid [data|]] eqn:Eg; [|done]. cbn [fst] in Hsame.
  destruct (getLoginData_logged_in _ _ _ _ _ I Eg) as (Hq & _ & Hzero & Hn).
  exists uid. split; [done|]. split.
  - destruct (default 0 (ac_nodeuser a)); [by apply Hzero|by apply Hn..].
  - intros Hs. by rewrite Hsame.
Qed.
End Requests.

(** * Fibers of users *)

Section Fibers.
(** Fibers by user, and what happens at them. *)
Abbreviation Fibers := (gmap Z (list Z)).
Implicit Types fs : Fibers.

Inductive FiberEffect :=
| InterruptFiber (fiber : Z)
| UserFibersExited (uid : Z).

(** [addUserFiber]: the user that [uid] stands for, and whether that user is logged in, come from
    the login manager. *)
Definition addUserFiber (fiber uid : Z) (logged_in : bool) fs : Fibers * list FiberEffect :=
  (<[uid := default [] (fs !! uid) ++ [fiber]]> fs,
   if logged_in then [] else [InterruptFiber fiber]).

Definition removeUserFiber (fiber uid : Z) fs : Fibers * list FiberEffect :=
  match fs !! uid with
  | None => (fs, [])
  | Some l =>
      match erase fiber l with
      | [] => (delete uid fs, [UserFibersExited uid])
      | l => (<[uid := l]> fs, [])
      end
  end.

Definition interruptUserFibers (uid : Z) fs : list FiberEffect :=
  match fs !! uid with
  | Some l => InterruptFiber <$> l
  | None => [UserFibersExited uid]
  end.

(** The fibers leave one after the other. *)
Fixpoint removeAll (uid : Z) (fibers : list Z) fs : Fibers * list FiberEffect :=
  match fibers with
  | [] => (fs, [])
  | f :: fibers =>
      let '(fs, e) := removeUserFiber f uid fs in
      let '(fs, es) := removeAll uid fibers fs in (fs, e ++ es)
  end.

Lemma erase_perm x l l' : l ≡ₚ x :: l' -> erase x l ≡ₚ l'.
Proof.
  revert l'. induction l as [|y l IH]; intros l' E; [by apply Permutation_nil_cons in E|].
  cbn. destruct (Z.eqb_spec x y) as [->|Hne]; [by apply Permutation_cons_inv in E|].
  assert (y ∈ l') as Hy.
  { assert (y ∈ x :: l') as Hy by (rewrite <- E; set_solver). set_solver. }
  apply elem_of_Permutation in Hy as [k Hk]. rewrite Hk in E |- *. constructor. apply IH.
  apply (Permutation_cons_inv (a := y)). rewrite E. apply perm_swap.
Qed.

Lemma removeAll_last uid fibers fs l :
  fs !! uid = Some l -> l ≡ₚ fibers -> fibers <> [] ->
  removeAll uid fibers fs = (delete uid fs, [UserFibersExited uid]).
Proof.
  revert fs l. induction fibers as [|f fibers IH]; intros fs l Hl Hp Hne; [done|].
  cbn. unfold removeUserFiber. rewrite Hl. pose proof (erase_perm _ _ _ Hp) as He.
  destruct (erase f l) as [|g l'] eqn:El.
  - apply Permutation_nil_l in He as <-. done.
  - rewrite (IH _ (g :: l')); [by rewrite delete_insert_eq|by rewrite lookup_insert_eq|done|].
    intros ->. by apply Permutation_nil_r in He.
Qed.

(** No list of fibers is kept empty. *)
Lemma fibers_nonempty fiber uid b fs :
  (forall u, fs !! u <> Some []) ->
  (forall u, (addUserFiber fiber uid b fs).1 !! u <> Some []) /\
  (forall u, (removeUserFiber fiber uid fs).1 !! u <> Some []).
Proof.
  intros Hf. split; intros u; cbn.
  - intros [[_ E]|[_ E]]%lookup_insert_Some; [by apply app_nil in E as []|by apply (Hf u)].
  - unfold removeUserFiber. destruct (fs !! uid) as [l|]; [|done].
    destruct (erase fiber l) as [|g l'] eqn:El; cbn.
    + intros [_ E]%lookup_delete_Some. by apply (Hf u).
    + intros [[_ E]|[_ E]]%lookup_insert_Some; [done|by apply (Hf u)].
Qed.

(** A logout does not wait forever for fibers that end.  Interrupting the fibers of a user
    reports at once that they are gone when there are none; otherwise it interrupts each, and as
    they leave, in whatever order, the report comes exactly once, with the last of them. *)
Theorem logout_wait_ends uid fs fibers :
  fs !! uid <> Some [] -> default [] (fs !! uid) ≡ₚ fibers ->
  match fibers with
  | [] => interruptUserFibers uid fs = [UserFibersExited uid]
  | _ => (forall f, f ∈ fibers -> InterruptFiber f ∈ interruptUserFibers uid fs) /\
         removeAll uid fibers fs = (delete uid fs, [UserFibersExited uid])
  end.
Proof.
  unfold interruptUserFibers. destruct (fs !! uid) as [l|] eqn:E; cbn; intros Hne Hp.
  - destruct fibers as [|f fibers]; [by apply Permutation_nil_r in Hp; subst|].
    split; [|by eapply removeAll_last].
    intros g Hg. rewrite <- Hp in Hg. by apply list_elem_of_fmap_2.
  - by apply Permutation_nil_l in Hp as <-.
Qed.
End Fibers.

(** * Instances *)

Lemma logout_wait_ends_witness :
  (forall f, f ∈ [2; 1] -> InterruptFiber f ∈ interruptUserFibers 7 {[7 := [1; 2]]}) /\
  removeAll 7 [2; 1] {[7 := [1; 2]]} = (delete 7 {[7 := [1; 2]]}, [UserFibersExited 7]).
Proof.
  apply (logout_wait_ends 7 {[7 := [1; 2]]} [2; 1]); [by vm_compute|].
  rewrite lookup_singleton_eq. apply perm_swap.
Defined.

(** User 900 is logged in and is sent a request that names no user. *)
Module SampleService.
Definition owner : LoginRequest :=
  {| lr_id := 900; lr_username := "owner"; lr_profile := Sealed.profile 900 "k" |}.
Definition online : @System string nat :=
  {| manager := commit 0 owner (Ok tt) newManager; waiting := []; holding := None; all := None |}.

Lemma owner_reachable : rtc (lstep SampleLogins.keep) newSystem online.
Proof.
  eapply rtc_l; [apply (LoginArrives _ newSystem owner); [done|done|cbn; set_solver]|].
  by apply rtc_once, (LoginCommits _ {| manager := newManager; waiting := [owner]; holding := None;
    all := None |} owner [] [] 0 (Ok tt)).
Qed.

Definition action : SampleRequest.Act :=
  {| ac_params := []; ac_query := fun _ => tt; ac_nodeuser := None;
     ac_inMessage := ac_inMessage SampleRequest.action;
     ac_outMessage := ac_outMessage SampleRequest.action;
     ac_request := ac_request SampleRequest.action; ac_secure := true;
     ac_body := ac_body SampleRequest.action; ac_response := ac_response SampleRequest.action;
     ac_io := ac_io SampleRequest.action; mContentReceived := false; mContent := None;
     mSelectContentEncoding := false; ac_sent := None |}.

Lemma action_signed : isHeaderSecurityPresent (ac_request action) = true.
Proof. vm_compute. reflexivity. Qed.
End SampleService.

Lemma request_served_by_witness :
  exists a1 uid, canPerformAction (node_login (manager SampleService.online)) PlainText.keys
    SampleRequest.echo SampleService.action = (a1, Ok tt) /\
  head (mUserIdQueue (manager SampleService.online)) = Some uid /\ uid = mUserId (ac_inMessage a1).
Proof.
  destruct (canPerformAction (node_login (manager SampleService.online)) PlainText.keys
    SampleRequest.echo SampleService.action) as [a1 [[]|]] eqn:E; [|vm_compute in E; discriminate].
  destruct (request_served_by PlainText.keys SampleLogins.keep SampleService.online
    SampleRequest.echo SampleService.action a1 SampleService.owner_reachable eq_refl
    SampleService.action_signed E) as (uid & _ & Hh & Hs).
  exists a1, uid. split; [reflexivity|]. split; [exact Hh|]. by apply Hs.
Defined.
