(* ===== verification/PerUser.v ===== *)
(** What modules keep for each user: database connections ([cpp/peruserdb/DatabaseHub.cpp]),
    observers ([cpp/eventreactor/DefaultObserverContainer.cpp]) and bandwidth throttlers
    ([cpp/purchase/DownloadThrottlerMap.cpp]).

    All three forget a user when the event of the logout comes.  Blocks under the lock of a
    component are its operations; databases, reactors, throttlers and the configuration are
    inputs. *)
From S2P Require Import Prelude.
From stdpp Require Import gmap.

Local Open Scope Z_scope.
Local Open Scope bitmunk_scope.

(** * Databases *)

Module Hub.
Section Hub.
(** [DB] are the clients that own a connection group. *)
Context {DB : Type}.

(** A pool of connections with its database client. *)
Record UserEntry := { ue_url : string; ue_maxCount : Z }.

Record ConnectionGroupEntry := { userMap : gmap Z UserEntry; db : DB }.

Record DatabaseHub := {
  mConnectionMap : gmap Z ConnectionGroupEntry;
  mLastAssignedId : Z
}.
Implicit Types h : DatabaseHub.

Definition newHub : DatabaseHub := {| mConnectionMap := ∅; mLastAssignedId := 0 |}.

Definition invalid_group : string := "bitmunk.peruserdb.InvalidConnectionGroupId".

(** [std::map::insert] keeps an element that is there. *)
Definition addConnectionGroup (d : DB) h : DatabaseHub * Z :=
  let id := u32 (mLastAssignedId h + 1) in
  ({| mConnectionMap :=
        match mConnectionMap h !! id with
        | Some _ => mConnectionMap h
        | None => <[id := {| userMap := ∅; db := d |}]> (mConnectionMap h)
        end;
      mLastAssignedId := id |}, id).

Definition removeConnectionGroup (id : Z) h : DatabaseHub * outcome unit :=
  match mConnectionMap h !! id with
  | Some _ => ({| mConnectionMap := delete id (mConnectionMap h);
                  mLastAssignedId := mLastAssignedId h |}, Ok tt)
  | None => (h, Raise invalid_group)
  end.

(** The parameters the owner gives, whether they are a url, the file it stands for, a first
    connection and the initialization by the owner. *)
Record EntryEnv := {
  ee_params : outcome (string * Z);
  ee_valid : bool;
  ee_path : outcome string;
  ee_connection : outcome unit;
  ee_initialize : outcome unit
}.
Implicit Types env : EntryEnv.

Definition createEntry env : outcome UserEntry :=
  let? params := ee_params env in
  if negb (ee_valid env) then Raise "bitmunk.peruserdb.BadUrl"
  else
    let? path := ee_path env in
    match ee_connection env with
    | Raise _ => Raise "bitmunk.peruserdb.InitializeError"
    | Ok _ => let? _ := ee_initialize env in
              Ok {| ue_url := "sqlite3://" +:+ path; ue_maxCount := params.2 |}
    end.

Definition addUserEntry (id userId : Z) env h : DatabaseHub * outcome UserEntry :=
  match mConnectionMap h !! id with
  | None => (h, Raise invalid_group)
  | Some g =>
      match userMap g !! userId with
      | Some e => (h, Ok e)
      | None =>
          match createEntry env with
          | Raise x => (h, Raise x)
          | Ok e =>
              ({| mConnectionMap :=
                    <[id := {| userMap := <[userId := e]> (userMap g); db := db g |}]>
                      (mConnectionMap h);
                  mLastAssignedId := mLastAssignedId h |}, Ok e)
          end
      end
  end.

(** [getDatabaseClient]: the lock is released between the search in [seen] and the addition to
    [h]. *)
Definition getDatabaseClient (id userId : Z) env (seen : DatabaseHub) h
  : DatabaseHub * outcome UserEntry :=
  match mConnectionMap seen !! id with
  | None => (h, Raise invalid_group)
  | Some g => match userMap g !! userId with
              | Some e => (h, Ok e)
              | None => addUserEntry id userId env h
              end
  end.

(** [getConnection]: as before, then a connection of the pool. *)
Definition getConnection {C} (connect : UserEntry -> outcome C) (id userId : Z) env
  (seen : DatabaseHub) h : DatabaseHub * outcome C :=
  match getDatabaseClient id userId env seen h with
  | (h, Ok e) => (h, connect e)
  | (h, Raise x) => (h, Raise x)
  end.

(** [userLoggedOut]: the groups whose owner cleans up, in the order of their ids. *)
Definition forget (userId : Z) (g : ConnectionGroupEntry) : ConnectionGroupEntry :=
  {| userMap := delete userId (userMap g); db := db g |}.

Definition userLoggedOut (userId : Z) h : DatabaseHub * list Z :=
  ({| mConnectionMap := forget userId <$> mConnectionMap h; mLastAssignedId := mLastAssignedId h |},
   filter (fun id => is_Some (mConnectionMap h !! id ≫= fun g => userMap g !! userId))
     (merge_sort Z.le (map_to_list (mConnectionMap h)).*1)).

(** ** What happens to a hub *)

Inductive HubOp :=
| AddGroup (d : DB)
| RemoveGroup (id : Z)
| AddEntry (id userId : Z) (env : EntryEnv)
| LogOut (userId : Z).

Definition perform h (op : HubOp) : DatabaseHub :=
  match op with
  | AddGroup d => (addConnectionGroup d h).1
  | RemoveGroup id => (removeConnectionGroup id h).1
  | AddEntry id userId env => (addUserEntry id userId env h).1
  | LogOut userId => (userLoggedOut userId h).1
  end.

Definition entry h (id userId : Z) : option UserEntry :=
  mConnectionMap h !! id ≫= fun g => userMap g !! userId.

(** How many groups are added. *)
Definition added (op : HubOp) : Z := match op with AddGroup _ => 1 | _ => 0 end.

Fixpoint adds (ops : list HubOp) : Z :=
  match ops with [] => 0 | op :: ops => added op + adds ops end.

Lemma adds_nonneg ops : 0 <= adds ops.
Proof. induction ops as [|[] ops IH]; cbn; lia. Qed.

(** The ids that have been given are those from 1 to the last. *)
Definition bounded (n : Z) h : Prop :=
  mLastAssignedId h = n /\ forall id, is_Some (mConnectionMap h !! id) -> 1 <= id <= n.

Lemma perform_bounded n h op :
  0 <= n -> n + added op < 2 ^ 32 -> bounded n h ->
  bounded (n + added op) (perform h op).
Proof.
  intros Hn0 Hn [Hl Hb].
  destruct op as [d|id|id u env|u]; cbn [added perform] in *; rewrite ?Z.add_0_r.
  - unfold bounded; cbn. rewrite Hl, u32_small by lia. split; [done|]. intros id.
    case_match; [intros Hi%Hb; lia|]. rewrite lookup_insert_is_Some'.
    intros [<-|Hi%Hb]; lia.
  - unfold removeConnectionGroup. case_match; [|done]. split; [done|]. cbn.
    intros i [? Hi]%lookup_delete_is_Some. by apply Hb.
  - unfold addUserEntry. case_match eqn:Eg; [|done]. case_match; [done|].
    destruct (createEntry env); [|done]. split; [done|]. cbn. intros i.
    rewrite lookup_insert_is_Some'. intros [<-|Hi]; apply Hb; eauto.
  - split; [done|]. cbn. intros i. rewrite lookup_fmap, fmap_is_Some. apply Hb.
Qed.

Lemma perform_all_bounded ops n h :
  0 <= n -> bounded n h -> n + adds ops < 2 ^ 32 ->
  bounded (n + adds ops) (foldl perform h ops).
Proof.
  revert n h. induction ops as [|op ops IH]; intros n h Hn Hb Ha.
  { cbn. by rewrite Z.add_0_r. }
  cbn [adds foldl] in *. pose proof (adds_nonneg ops). rewrite Z.add_assoc in *.
  assert (0 <= added op <= 1) by (destruct op; cbn; lia).
  apply IH; [lia|apply perform_bounded; (done || lia)|lia].
Qed.

Lemma entry_logged_out u h id v :
  entry (userLoggedOut u h).1 id v = if decide (v = u) then None else entry h id v.
Proof.
  unfold entry; cbn. rewrite lookup_fmap. destruct (mConnectionMap h !! id) as [g|]; cbn.
  - case_decide as E; [subst; apply lookup_delete_eq|by apply lookup_delete_ne].
  - by case_decide.
Qed.

(** Ids of groups are used once, as long as the counter does not wrap: whatever has been done with
    the hub, removals included, a group that is added gets an id no group had before, and an entry
    of a user exists in no group after the user's logout and until it is created again. *)
Theorem hub_groups ops d u :
  adds ops + 1 < 2 ^ 32 ->
  let h := foldl perform newHub ops in
  (addConnectionGroup d h).2 = adds ops + 1 /\ mConnectionMap h !! (adds ops + 1) = None /\
  (forall v, entry (addConnectionGroup d h).1 (adds ops + 1) v = None) /\
  forall id v, entry (userLoggedOut u h).1 id v = if decide (v = u) then None else entry h id v.
Proof.
  intros Ha h. pose proof (adds_nonneg ops).
  assert (bounded (0 + adds ops) h) as [Hl Hb].
  { apply perform_all_bounded; [lia| |lia]. split; [done|]. intros id [g Hg]. done. }
  assert (mConnectionMap h !! (adds ops + 1) = None) as Hn.
  { apply eq_None_not_Some. intros Hi%Hb. lia. }
  unfold entry at 1, addConnectionGroup. cbn. rewrite Hl, Z.add_0_l, u32_small, Hn by lia.
  split; [done|]. split; [done|]. split; [by rewrite lookup_insert_eq|].
  intros id v. apply entry_logged_out.
Qed.
End Hub.
Arguments DatabaseHub : clear implicits.
End Hub.

(** * Observers *)

Module Observers.
Section Observers.
Context {Observer : Type}.

(** [null_used] is set when the observer of logouts is used and is not there. *)
Record Container := {
  mUserObserverMap : gmap Z (list Observer);
  mLogoutObserver : bool;
  null_used : bool
}.
Implicit Types c : Container.

Definition newContainer : Container :=
  {| mUserObserverMap := ∅; mLogoutObserver := false; null_used := false |}.

Definition no_users c : bool := bool_decide (mUserObserverMap c = ∅).

Definition with_map (m : gmap Z (list Observer)) c : Container :=
  {| mUserObserverMap := m; mLogoutObserver := mLogoutObserver c; null_used := null_used c |}.

Definition addObserver (userId : Z) (ob : Observer) c : Container :=
  match mUserObserverMap c !! userId with
  | Some l => with_map (<[userId := l ++ [ob]]> (mUserObserverMap c)) c
  | None => c
  end.

(** [registerUser]; [obs] are the observers that the reactor adds for the user. *)
Definition registerUser (userId : Z) (obs : list Observer) c : Container :=
  let c := if no_users c
           then {| mUserObserverMap := mUserObserverMap c; mLogoutObserver := true;
                   null_used := null_used c |}
           else c in
  match mUserObserverMap c !! userId with
  | Some _ => c
  | None => foldl (fun c ob => addObserver userId ob c)
              (with_map (<[userId := []]> (mUserObserverMap c)) c) obs
  end.

(** [removeObservers]: whether the user had any, and those that are unregistered. *)
Definition removeObservers (userId : Z) (unregister : bool) c : Container * bool * list Observer :=
  match mUserObserverMap c !! userId with
  | None => (c, false, [])
  | Some l =>
      (with_map (if unregister then delete userId (mUserObserverMap c)
                 else <[userId := []]> (mUserObserverMap c)) c, true, l)
  end.

Definition unregisterUser (userId : Z) c : Container * bool * list Observer :=
  let '(c, r, obs) := removeObservers userId true c in
  (if no_users c
   then {| mUserObserverMap := mUserObserverMap c; mLogoutObserver := false;
           null_used := null_used c || negb (mLogoutObserver c) |}
   else c, r, obs).

(** Logouts are observed exactly while there are users. *)
Definition observing c : Prop := mLogoutObserver c = negb (no_users c).

Lemma addObservers_map userId obs c l :
  mUserObserverMap c !! userId = Some l ->
  foldl (fun c ob => addObserver userId ob c) c obs =
    with_map (<[userId := l ++ obs]> (mUserObserverMap c)) c.
Proof.
  revert c l. induction obs as [|ob obs IH]; intros c l Hl; cbn.
  { rewrite app_nil_r, insert_id by done. by destruct c. }
  unfold addObserver at 2. rewrite Hl.
  rewrite (IH _ (l ++ [ob])) by (cbn; by rewrite lookup_insert_eq).
  unfold with_map; cbn. by rewrite insert_insert_eq, <- app_assoc.
Qed.

Lemma registerUser_spec userId obs c :
  observing c -> observing (registerUser userId obs c) /\
  mUserObserverMap (registerUser userId obs c) =
    match mUserObserverMap c !! userId with
    | Some _ => mUserObserverMap c
    | None => <[userId := obs]> (mUserObserverMap c)
    end.
Proof.
  unfold observing, registerUser, no_users. intros Ho.
  case_bool_decide as E; cbn; rewrite ?E.
  - rewrite lookup_empty, (addObservers_map _ _ _ []) by (cbn; by rewrite lookup_insert_eq).
    cbn. rewrite insert_insert_eq, bool_decide_false by apply insert_non_empty. done.
  - destruct (mUserObserverMap c !! userId) eqn:Em; [by rewrite bool_decide_false|].
    rewrite (addObservers_map _ _ _ []) by (cbn; by rewrite lookup_insert_eq).
    cbn. rewrite insert_insert_eq, bool_decide_false by apply insert_non_empty. done.
Qed.

(** A user is unregistered exactly if it was registered.  The observer of logouts is used when it
    is not there exactly if no user was registered at all. *)
Lemma unregisterUser_spec userId c :
  observing c -> null_used c = false ->
  let '(c', r, obs) := unregisterUser userId c in
  observing c' /\ mUserObserverMap c' = delete userId (mUserObserverMap c) /\
  r = bool_decide (is_Some (mUserObserverMap c !! userId)) /\
  obs = default [] (mUserObserverMap c !! userId) /\ null_used c' = no_users c.
Proof.
  unfold observing, unregisterUser, removeObservers. intros Ho Hn.
  destruct (mUserObserverMap c !! userId) as [l|] eqn:Em; cbn.
  - assert (no_users c = false) as Hc.
    { unfold no_users. apply bool_decide_false. intros E. by rewrite E in Em. }
    rewrite Hc in *. cbn in Ho.
    destruct (no_users (with_map _ c)) eqn:Ed; unfold no_users in *; cbn in *;
      rewrite ?Ed, ?Ho, ?Hn; repeat split; done.
  - rewrite delete_id by done.
    destruct (no_users c) eqn:Ec; unfold no_users in *; cbn in *; rewrite ?Ec, ?Ho, ?Hn; done.
Qed.
End Observers.
Arguments Container : clear implicits.

(** The same user is unregistered twice. *)
Example unregister_twice :
  let c := registerUser 7 [tt] newContainer in
  let c1 := (unregisterUser 7 c).1.1 in
  null_used c1 = false /\ null_used (unregisterUser 7 c1).1.1 = true.
Proof. vm_compute. done. Qed.
End Observers.

(** * Throttlers *)

Module Throttlers.
Section Throttlers.
(** A chain holds the throttler of a user and refers to the global one.  [newChain] makes it with
    the user's rate, [setChain] sets the limit of a chain, given and giving the global rate too. *)
Context {Chain : Type} (newChain : Z -> Chain) (setChain : Z -> Z * Chain -> Z * Chain).

Record ThrottlerMap := { mGlobalThrottler : Z; mThrottlerMap : gmap Z Chain }.
Implicit Types t : ThrottlerMap.

Definition newThrottlers : ThrottlerMap := {| mGlobalThrottler := 0; mThrottlerMap := ∅ |}.

(** [initialize] with the rate of the module's configuration, if there is one. *)
Definition initialize (rate : option Z) t : ThrottlerMap * bool :=
  match rate with
  | Some r => ({| mGlobalThrottler := r; mThrottlerMap := mThrottlerMap t |}, true)
  | None => (t, false)
  end.

(** [userLoggedOut] *)
Definition throttlerLoggedOut (userId : Z) t : ThrottlerMap :=
  {| mGlobalThrottler := mGlobalThrottler t; mThrottlerMap := delete userId (mThrottlerMap t) |}.

(** [configChanged]: the rate, if it is part of the change, and the user of the event. *)
Definition configChanged (rate : option Z) (user : option Z) t : ThrottlerMap :=
  match rate with
  | None => t
  | Some r =>
      let r := u32 r in
      let userId := default 0 user in
      if userId =? 0 then {| mGlobalThrottler := r; mThrottlerMap := mThrottlerMap t |}
      else match mThrottlerMap t !! userId with
           | None => t
           | Some ch =>
               let '(global, ch) := setChain r (mGlobalThrottler t, ch) in
               {| mGlobalThrottler := global; mThrottlerMap := <[userId := ch]> (mThrottlerMap t) |}
           end
  end.

(** [getUserThrottler] with the rates of the module's and of the user's configuration. *)
Definition getUserThrottler (userId : Z) (globalCfg userCfg : option Z) t : ThrottlerMap * Chain :=
  match mThrottlerMap t !! userId with
  | Some ch => (t, ch)
  | None =>
      let globalRate := default 0 globalCfg in
      let ch := newChain (default globalRate userCfg) in
      ({| mGlobalThrottler := default (mGlobalThrottler t) globalCfg;
          mThrottlerMap := <[userId := ch]> (mThrottlerMap t) |}, ch)
  end.

(** A user keeps one throttler until the logout; the next one is made from the configuration of
    that time, the user's rate or else the global one. *)
Lemma throttler_lifetime userId g1 u1 g2 u2 t :
  let '(t1, ch) := getUserThrottler userId g1 u1 t in
  getUserThrottler userId g2 u2 t1 = (t1, ch) /\
  (getUserThrottler userId g2 u2 (throttlerLoggedOut userId t1)).2 =
    newChain (default (default 0 g2) u2).
Proof.
  unfold getUserThrottler, throttlerLoggedOut.
  destruct (mThrottlerMap t !! userId) as [ch|] eqn:E; cbn.
  - by rewrite E, lookup_delete_eq.
  - by rewrite lookup_insert_eq, lookup_delete_eq.
Qed.
End Throttlers.
End Throttlers.

(** * An instance *)

(** A group is added and removed and its id is not given again; user 7 has an entry in the second
    group. *)
Lemma hub_groups_witness :
  let env := {| Hub.ee_params := Ok ("file.db", 4); Hub.ee_valid := true; Hub.ee_path := Ok "/db";
                Hub.ee_connection := Ok tt; Hub.ee_initialize := Ok tt |} in
  let h := foldl Hub.perform Hub.newHub
    [Hub.AddGroup tt; Hub.RemoveGroup 1; Hub.AddGroup tt; Hub.AddEntry 2 7 env] in
  is_Some (Hub.entry h 2 7) /\ (Hub.addConnectionGroup tt h).2 = 3 /\
  Hub.entry (Hub.userLoggedOut 7 h).1 2 7 = None.
Proof.
  intros env h. split; [vm_compute; eauto|].
  destruct (Hub.hub_groups
    [Hub.AddGroup tt; Hub.RemoveGroup 1; Hub.AddGroup tt; Hub.AddEntry 2 7 env] tt 7)
    as (Hid & _ & _ & Hl); [by vm_compute|].
  split; [exact Hid|apply (Hl 2 7)].
Defined.
