(* ===== verification/Sql.v ===== *)
(** Statements and transactions on a database.

    The databases of the node are SQLite files.  The statements of the sources are functions on
    tables, which are lists of rows in the order of their row ids; a row that is inserted comes
    last.  A connection holds the tables and, in a transaction, the tables a rollback restores.
    Any step on a connection can fail: [cn_faults] says for each of them whether it does, and with
    which exception, so that a theorem about all connections covers every failure. *)
From S2P Require Import Prelude.
From Stdlib Require Import Ascii.
From stdpp Require Import countable.

(** * JSON columns *)

(** [JsonWriter::writeToString] and [JsonReader]. *)
Class Json (A : Type) := {
  to_json : A -> string;
  from_json : string -> outcome A
}.

(** What was written is read back. *)
Class JsonLaws (A : Type) `{Json A} := {
  json_back : forall a, from_json (to_json a) = Ok a
}.

(** * Connections *)

Section Sql.
Context {X : Type}.

Record Conn := {
  cn_data : X;
  cn_saved : option X;
  cn_faults : list (option string)
}.
Implicit Types c : Conn.

(** What is on disk: inside a transaction, the tables before it. *)
Definition durable c : X := default (cn_data c) (cn_saved c).

Definition sql (A : Type) : Type := Conn -> outcome A * Conn.

Definition sret {A} (a : A) : sql A := fun c => (Ok a, c).

Definition sraise {A} (e : string) : sql A := fun c => (Raise e, c).

Definition sbind {A B} (m : sql A) (k : A -> sql B) : sql B := fun c =>
  match m c with
  | (Ok a, c) => k a c
  | (Raise e, c) => (Raise e, c)
  end.

(** The next step, which may be one that fails. *)
Definition step_fault c : option string * Conn :=
  match cn_faults c with
  | [] => (None, c)
  | f :: fs => (f, {| cn_data := cn_data c; cn_saved := cn_saved c; cn_faults := fs |})
  end.

Definition set_data (x : X) c : Conn :=
  {| cn_data := x; cn_saved := cn_saved c; cn_faults := cn_faults c |}.

Definition set_saved (s : option X) c : Conn :=
  {| cn_data := cn_data c; cn_saved := s; cn_faults := cn_faults c |}.

Definition faulty {A} (f : sql A) : sql A := fun c =>
  match step_fault c with
  | (Some e, c) => (Raise e, c)
  | (None, c) => f c
  end.

(** A statement is prepared, its parameters are set and it is executed; it changes nothing if it
    violates a constraint. *)
Definition execute {A} (f : X -> outcome (X * A)) : sql A := faulty (fun c =>
  match f (cn_data c) with
  | Ok (x, a) => (Ok a, set_data x c)
  | Raise e => (Raise e, c)
  end).

Definition update {A} (f : X -> X * A) : sql A := execute (fun x => Ok (f x)).

Definition select {A} (f : X -> A) : sql A := update (fun x => (x, f x)).

(** [getConnection] *)
Definition open_connection : sql unit := faulty (sret tt).

Definition begin_ : sql unit := faulty (fun c => (Ok tt, set_saved (Some (cn_data c)) c)).

Definition commit_ : sql unit := faulty (fun c => (Ok tt, set_saved None c)).

Definition rollback_ : sql unit :=
  faulty (fun c => (Ok tt, set_saved None (set_data (durable c) c))).

(** [rval = rval ? c->commit() : c->rollback() && false] after [body]. *)
Definition finish {A} (r : outcome A) : sql A := fun c =>
  match r with
  | Ok a => sbind commit_ (fun _ => sret a) c
  | Raise e => (Raise e, (rollback_ c).2)
  end.

Definition transaction {A} (body : sql A) : sql A :=
  sbind begin_ (fun _ c => let '(r, c) := body c in finish r c).

(** [Exception::push] of an exception of type [e] on failure. *)
Definition push {A} (e : string) (m : sql A) : sql A := fun c =>
  match m c with
  | (Ok a, c) => (Ok a, c)
  | (Raise _, c) => (Raise e, c)
  end.

(** A step whose failure is looked at. *)
Definition tried {A} (m : sql A) : sql (outcome A) := fun c => let '(r, c) := m c in (Ok r, c).

(** A loop over a list that ends with the first failure. *)
Fixpoint smap {A B} (f : A -> sql B) (l : list A) : sql (list B) :=
  match l with
  | [] => sret []
  | a :: l => sbind (f a) (fun b => sbind (smap f l) (fun bs => sret (b :: bs)))
  end.

Definition seach {A B} (f : A -> sql B) (l : list A) : sql unit :=
  sbind (smap f l) (fun _ => sret tt).

(** A failure unless rows were changed. *)
Definition expect_rows (e : string) (n : nat) : sql unit :=
  match n with O => sraise e | S _ => sret tt end.

Definition lift_outcome {A} (o : outcome A) : sql A :=
  match o with Ok a => sret a | Raise e => sraise e end.

(** ** Calls of the database *)

(** A run that goes on whether or not its calls of the database fail. *)
Definition io (A : Type) : Type := Conn -> A * Conn.

Definition iret {A} (a : A) : io A := fun c => (a, c).

Definition ibind {A B} (m : io A) (k : A -> io B) : io B := fun c => let '(a, c) := m c in k a c.

(** Each call has a connection of its own: it starts from what is on disk. *)
Definition reconnect (c : Conn) : Conn :=
  {| cn_data := durable c; cn_saved := None; cn_faults := cn_faults c |}.

Definition attempt {A} (m : sql A) : io (outcome A) := fun c =>
  let '(r, c) := m c in (r, reconnect c).

Definition worked {A} (m : sql A) : io bool := fun c =>
  let '(r, c) := attempt m c in (succeeded r, c).
End Sql.
Arguments Conn : clear implicits.
Arguments sql : clear implicits.
Arguments io : clear implicits.

Declare Scope sql_scope.
Delimit Scope sql_scope with sql.
Notation "'let!' x ':=' c 'in' k" := (sbind c (fun x => k))
  (at level 10, x pattern, c at level 100, k at level 200) : sql_scope.

Declare Scope io_scope.
Delimit Scope io_scope with io.
Notation "'do!' x ':=' c 'in' k" := (ibind c (fun x => k))
  (at level 10, x pattern, c at level 100, k at level 200) : io_scope.

(** * Rows *)

(** [UPDATE]: the rows that satisfy [p] are changed, the result is how many there are. *)
Definition update_rows {R} (p : R -> bool) (f : R -> R) (l : list R) : list R :=
  map (fun r => if p r then f r else r) l.

Definition rows_changed {R} (p : R -> bool) (l : list R) : nat :=
  length (List.filter p l).

(** [DELETE] *)
Definition delete_rows {R} (p : R -> bool) (l : list R) : list R :=
  List.filter (fun r => negb (p r)) l.

Lemma update_rows_none {R} (q : R -> bool) (f : R -> R) l :
  rows_changed q l = 0%nat -> update_rows q f l = l.
Proof.
  unfold rows_changed, update_rows. induction l as [|r l IH]; [done|]. cbn.
  destruct (q r); [done|]. intros ?. by rewrite IH.
Qed.

(** * Atomicity *)

Section Facts.
Context {X : Type}.
Implicit Types c : Conn X.

(** Inside a transaction, what is on disk stays. *)
Definition inside {A} (m : sql X A) : Prop :=
  forall c, is_Some (cn_saved c) -> is_Some (cn_saved (m c).2) /\ cn_saved (m c).2 = cn_saved c.

(** Outside one, a failure leaves what is on disk as it was. *)
Definition atomic {A} (m : sql X A) : Prop :=
  forall c e c', cn_saved c = None -> m c = (Raise e, c') -> durable c' = cn_data c.

Lemma step_fault_same c :
  cn_data (step_fault c).2 = cn_data c /\ cn_saved (step_fault c).2 = cn_saved c.
Proof. unfold step_fault. by destruct (cn_faults c). Qed.

Lemma faulty_cases {A} (f : sql X A) c :
  (exists e c', faulty f c = (Raise e, c') /\ cn_data c' = cn_data c /\ cn_saved c' = cn_saved c) \/
  (exists c', faulty f c = f c' /\ cn_data c' = cn_data c /\ cn_saved c' = cn_saved c).
Proof.
  unfold faulty. pose proof (step_fault_same c) as [Hd Hs].
  destruct (step_fault c) as [[e|] c']; [left; by exists e, c'|right; by exists c'].
Qed.

Lemma inside_ret {A} (a : A) : inside (sret a).
Proof. by intros c. Qed.

Lemma inside_raise {A} e : inside (sraise (A:=A) e).
Proof. by intros c. Qed.

Lemma inside_execute {A} (f : X -> outcome (X * A)) : inside (execute f).
Proof.
  intros c Hs. unfold execute.
  destruct (faulty_cases (fun c => match f (cn_data c) with
    | Ok (x, a) => (Ok a, set_data x c) | Raise e => (Raise e, c) end) c)
    as [(e & c' & -> & _ & Hc)|(c' & -> & _ & Hc)]; [cbn; by rewrite Hc|].
  destruct (f (cn_data c')) as [[x a]|]; cbn; by rewrite Hc.
Qed.

Lemma inside_bind {A B} (m : sql X A) (k : A -> sql X B) :
  inside m -> (forall a, inside (k a)) -> inside (sbind m k).
Proof.
  intros Hm Hk c Hs. unfold sbind. destruct (Hm c Hs) as [H1 H2].
  destruct (m c) as [[a|e] c']; cbn in *; [|done].
  destruct (Hk a c' H1) as [H3 H4]. split; [done|congruence].
Qed.

Lemma inside_push {A} e (m : sql X A) : inside m -> inside (push e m).
Proof.
  intros Hm c Hs. unfold push. specialize (Hm c Hs). by destruct (m c) as [[a|?] c'].
Qed.

Lemma inside_smap {A B} (f : A -> sql X B) l : (forall a, inside (f a)) -> inside (smap f l).
Proof.
  intros Hf. induction l as [|a l IH]; cbn; [apply inside_ret|].
  apply inside_bind; [done|]. intros b. apply inside_bind; [done|]. intros bs. apply inside_ret.
Qed.

Lemma inside_seach {A B} (f : A -> sql X B) l : (forall a, inside (f a)) -> inside (seach f l).
Proof. intros Hf. apply inside_bind; [by apply inside_smap|]. intros ?. apply inside_ret. Qed.

Lemma inside_expect e n : inside (expect_rows (X:=X) e n).
Proof. destruct n; [apply inside_raise|apply inside_ret]. Qed.

(** A failed transaction leaves no trace, whichever step failed. *)
Lemma atomic_transaction {A} (body : sql X A) : inside body -> atomic (transaction body).
Proof.
  intros Hb c e c' Hs. unfold transaction, sbind.
  destruct (faulty_cases (fun c => (Ok tt, set_saved (Some (cn_data c)) c)) c)
    as [(e1 & c1 & E & Hd & H1)|(c1 & E & Hd & H1)]; unfold begin_; rewrite E; cbn.
  { intros [= <- <-]. unfold durable. by rewrite H1, Hs. }
  set (c2 := set_saved _ c1). destruct (Hb c2) as [_ Hsv]; [by eexists|].
  destruct (body c2) as [[a|e2] c3]; cbn in *.
  - unfold sbind. destruct (faulty_cases (fun c => (Ok tt, set_saved None c)) c3)
      as [(e3 & c4 & E3 & _ & H4)|(c4 & E3 & _ & _)]; unfold commit_; rewrite E3; cbn; [|done].
    intros [= <- <-]. unfold durable. by rewrite H4, Hsv.
  - destruct (faulty_cases (fun c => (Ok tt, set_saved None (set_data (durable c) c))) c3)
      as [(e3 & c4 & E3 & _ & H4)|(c4 & E3 & _ & H4)]; unfold rollback_; rewrite E3; cbn;
      intros [= <- <-]; unfold durable; cbn; by rewrite H4, Hsv.
Qed.

Lemma atomic_execute {A} (f : X -> outcome (X * A)) : atomic (execute f).
Proof.
  intros c e c' Hs. unfold execute.
  destruct (faulty_cases (fun c => match f (cn_data c) with
    | Ok (x, a) => (Ok a, set_data x c) | Raise e => (Raise e, c) end) c)
    as [(e1 & c1 & -> & Hd & H1)|(c1 & -> & Hd & H1)].
  - intros [= <- <-]. unfold durable. by rewrite H1, Hs.
  - destruct (f (cn_data c1)) as [[x a]|]; [done|]. intros [= <- <-].
    unfold durable. by rewrite H1, Hs.
Qed.

Lemma atomic_push {A} e (m : sql X A) : atomic m -> atomic (push e m).
Proof.
  intros Hm c e' c' Hs. unfold push. specialize (Hm c). destruct (m c) as [[a|x] c1]; [done|].
  intros [= _ <-]. by eapply Hm.
Qed.

(** A connection is opened before anything is done. *)
Lemma atomic_open {A} (m : sql X A) : atomic m -> atomic (sbind open_connection (fun _ => m)).
Proof.
  intros Hm c e c' Hs. unfold sbind, open_connection.
  destruct (faulty_cases (sret tt) c) as [(e1 & c1 & -> & Hd & H1)|(c1 & -> & Hd & H1)]; cbn.
  - intros [= <- <-]. unfold durable. by rewrite H1, Hs.
  - intros E. rewrite <- Hd. eapply Hm; [congruence|done].
Qed.

(** A statement whose result is looked at afterwards, without a further one. *)
Lemma atomic_then {A B} (m : sql X A) (k : A -> sql X B) :
  (forall c a c' , cn_saved c = None -> m c = (Ok a, c') -> forall e c'', k a c' = (Raise e, c'') ->
     durable c'' = cn_data c) ->
  atomic m -> atomic (sbind m k).
Proof.
  intros Hk Hm c e c' Hs. unfold sbind. specialize (Hk c). specialize (Hm c).
  destruct (m c) as [[a|x] c1]; [|intros [= <- <-]; by eapply Hm].
  intros E. by eapply Hk.
Qed.
(** ** Successful runs *)

Lemma push_ok {A} e (m : sql X A) c a c' : push e m c = (Ok a, c') -> m c = (Ok a, c').
Proof. unfold push. destruct (m c) as [[b|x] c1]; [|done]. by intros [= <- <-]. Qed.

Lemma bind_ok {A B} (m : sql X A) (k : A -> sql X B) c b c' :
  sbind m k c = (Ok b, c') -> exists a c1, m c = (Ok a, c1) /\ k a c1 = (Ok b, c').
Proof. unfold sbind. destruct (m c) as [[a|x] c1]; [|done]. intros E. by exists a, c1. Qed.

Lemma faulty_ok {A} (f : sql X A) c a c' :
  faulty f c = (Ok a, c') ->
  exists c1, f c1 = (Ok a, c') /\ cn_data c1 = cn_data c /\ cn_saved c1 = cn_saved c.
Proof.
  destruct (faulty_cases f c) as [(e & c1 & -> & _)|(c1 & -> & Hd & Hs)]; [done|].
  intros E. by exists c1.
Qed.

Lemma update_ok {A} (f : X -> X * A) c a c' :
  update f c = (Ok a, c') -> f (cn_data c) = (cn_data c', a) /\ cn_saved c' = cn_saved c.
Proof.
  intros (c1 & E & Hd & Hs)%faulty_ok. cbn in E. rewrite <- Hd, <- Hs.
  destruct (f (cn_data c1)) as [x b]. by injection E as <- <-.
Qed.

Lemma expect_ok e n (c c' : Conn X) (u : unit) : expect_rows e n c = (Ok u, c') -> n <> 0%nat /\ c' = c.
Proof. destruct n; [done|]. by intros [= _ ->]. Qed.

Lemma lift_ok {A} (o : outcome A) (c : Conn X) a c' : lift_outcome o c = (Ok a, c') -> o = Ok a.
Proof. destruct o; [|done]. by intros [= <- _]. Qed.

Lemma bind_update_ok {B} (g : X -> X) (k : unit -> sql X B) c b c' :
  sbind (update (fun x => (g x, tt))) k c = (Ok b, c') ->
  exists c1, cn_data c1 = g (cn_data c) /\ k tt c1 = (Ok b, c').
Proof. intros ([] & c1 & [E _]%update_ok & Hk)%bind_ok. exists c1. by injection E as <-. Qed.

Lemma open_ok {A} (m : sql X A) c a c' :
  sbind open_connection (fun _ => m) c = (Ok a, c') ->
  exists c1, m c1 = (Ok a, c') /\ cn_data c1 = cn_data c /\ cn_saved c1 = cn_saved c.
Proof.
  intros ([] & c1 & (c2 & E & Hd & Hs)%faulty_ok & Hm)%bind_ok. injection E as <-. by exists c2.
Qed.

Lemma transaction_ok {A} (body : sql X A) c a c' :
  transaction body c = (Ok a, c') ->
  exists c1 c2, cn_data c1 = cn_data c /\ body c1 = (Ok a, c2) /\ cn_data c' = cn_data c2 /\
    cn_saved c' = None.
Proof.
  intros ([] & c1 & (c2 & E & Hd & Hs)%faulty_ok & Hm)%bind_ok. injection E as <-.
  destruct (body (set_saved (Some (cn_data c2)) c2)) as [[b|e] c3] eqn:Eb; [|done]. cbn in Hm.
  apply bind_ok in Hm as ([] & c4 & (c5 & E5 & Hd5 & Hs5)%faulty_ok & E4).
  injection E5 as <-. injection E4 as <- <-. eexists _, c3. split; [|split; [exact Eb|]]; [done|].
  by rewrite <- Hd5.
Qed.

(** ** Without faults *)

Definition calm c : Conn X := {| cn_data := cn_data c; cn_saved := cn_saved c; cn_faults := [] |}.

(** What succeeds in spite of possible faults does the same without them. *)
Definition steady {A} (m : sql X A) : Prop :=
  forall c a c', m c = (Ok a, c') -> m (calm c) = (Ok a, calm c').

Lemma steady_ret {A} (a : A) : steady (sret a).
Proof. by intros c b c' [= <- <-]. Qed.

Lemma steady_raise {A} e : steady (sraise (A:=A) e).
Proof. done. Qed.

Lemma steady_bind {A B} (m : sql X A) (k : A -> sql X B) :
  steady m -> (forall a, steady (k a)) -> steady (sbind m k).
Proof.
  intros Hm Hk c b c' (a & c1 & E1 & E2)%bind_ok. unfold sbind. rewrite (Hm c a c1 E1). by apply Hk.
Qed.

Lemma steady_push {A} e (m : sql X A) : steady m -> steady (push e m).
Proof. intros Hm c a c' E%push_ok. unfold push. by rewrite (Hm c a c' E). Qed.

Lemma steady_execute {A} (f : X -> outcome (X * A)) : steady (execute f).
Proof.
  intros c a c' (c1 & E & Hd & Hs)%faulty_ok. cbn in E. unfold execute, faulty. cbn. rewrite <- Hd.
  destruct (f (cn_data c1)) as [[x b]|]; [|done]. injection E as <- <-. unfold calm. cbn. by rewrite Hs.
Qed.

Lemma steady_transaction {A} (body : sql X A) : steady body -> steady (transaction body).
Proof.
  intros Hb c a c' E. apply bind_ok in E as ([] & c1 & (c2 & E2 & Hd & Hs)%faulty_ok & Hm).
  injection E2 as <-. destruct (body (set_saved (Some (cn_data c2)) c2)) as [[b|e] c3] eqn:Eb; [|done].
  cbn in Hm. apply bind_ok in Hm as ([] & c4 & (c5 & E5 & Hd5 & Hs5)%faulty_ok & E4).
  injection E5 as <-. injection E4 as <- <-. apply Hb in Eb.
  assert (calm (set_saved (Some (cn_data c2)) c2) =
    {| cn_data := cn_data c; cn_saved := Some (cn_data c); cn_faults := [] |}) as Ec
    by (unfold calm; cbn; by rewrite Hd).
  rewrite Ec in Eb. unfold transaction, sbind at 1. cbn -[set_saved]. unfold set_saved at 1.
  cbn [cn_data cn_saved cn_faults calm]. rewrite Eb. cbn. unfold calm, set_saved. cbn. by rewrite Hd5.
Qed.

(** A connection on which nothing fails. *)
Definition quiet (x : X) : Conn X := {| cn_data := x; cn_saved := None; cn_faults := [] |}.

Lemma transaction_quiet {A} (body : sql X A) x x' a :
  body {| cn_data := x; cn_saved := Some x; cn_faults := [] |} =
    (Ok a, {| cn_data := x'; cn_saved := Some x; cn_faults := [] |}) ->
  transaction body (quiet x) = (Ok a, quiet x').
Proof.
  intros E. unfold transaction, sbind at 1. cbn -[set_saved]. unfold set_saved at 1. cbn [cn_data cn_saved cn_faults quiet].
  rewrite E. done.
Qed.

Lemma push_quiet {A} e (m : sql X A) c a c' : m c = (Ok a, c') -> push e m c = (Ok a, c').
Proof. unfold push. by intros ->. Qed.

Lemma open_quiet {A} (m : sql X A) x :
  sbind open_connection (fun _ => m) (quiet x) = m (quiet x).
Proof. done. Qed.

Lemma bind_quiet {A B} (m : sql X A) (k : A -> sql X B) c a c' :
  m c = (Ok a, c') -> sbind m k c = k a c'.
Proof. unfold sbind. by intros ->. Qed.

Lemma execute_quiet {A} (f : X -> outcome (X * A)) x s x' a :
  f x = Ok (x', a) ->
  execute f {| cn_data := x; cn_saved := s; cn_faults := [] |} =
  (Ok a, {| cn_data := x'; cn_saved := s; cn_faults := [] |}).
Proof. intros E. unfold execute, faulty. cbn. by rewrite E. Qed.

Lemma select_quiet {A} (f : X -> A) x : select f (quiet x) = (Ok (f x), quiet x).
Proof. done. Qed.

Lemma update_quiet (g : X -> X) x s :
  update (fun x => (g x, tt)) {| cn_data := x; cn_saved := s; cn_faults := [] |} =
  (Ok tt, {| cn_data := g x; cn_saved := s; cn_faults := [] |}).
Proof. done. Qed.

Lemma seach_update {A} (f : A -> X -> X) l x s :
  seach (fun a => update (fun x => (f a x, tt))) l {| cn_data := x; cn_saved := s; cn_faults := [] |} =
  (Ok tt, {| cn_data := foldl (fun x a => f a x) x l; cn_saved := s; cn_faults := [] |}).
Proof.
  unfold seach, sbind at 1. enough (exists us, smap (fun a => update (fun x => (f a x, tt))) l
    {| cn_data := x; cn_saved := s; cn_faults := [] |} =
    (Ok us, {| cn_data := foldl (fun x a => f a x) x l; cn_saved := s; cn_faults := [] |}))
    as [us ->] by done.
  revert x. induction l as [|a l IH]; intros x; [by exists []|].
  cbn [smap foldl]. unfold sbind at 1. rewrite (update_quiet (f a)). unfold sbind.
  destruct (IH (f a x)) as [us E]. rewrite E. by exists (tt :: us).
Qed.
End Facts.

Create HintDb sql discriminated.
#[export] Hint Resolve inside_ret inside_raise inside_execute inside_bind inside_push inside_smap
  inside_seach atomic_transaction atomic_execute atomic_push atomic_open : sql.

Ltac inside_steps :=
  repeat match goal with
  | |- inside (sbind _ _) => apply inside_bind; [|intros ?]
  | |- inside (push _ _) => apply inside_push
  | |- inside (seach _ _) => apply inside_seach; intros ?
  | |- inside (expect_rows _ _) => apply inside_expect
  | |- inside (sret _) => apply inside_ret
  | |- inside _ => apply inside_execute
  end.

(** * Invariants of the tables *)

Section Preserve.
Context {X : Type} (I : X -> Prop).

(** The tables and those a rollback restores satisfy the invariant. *)
Definition holds (c : Conn X) : Prop := I (cn_data c) /\ forall x, cn_saved c = Some x -> I x.

Definition preserves {A} (m : sql X A) : Prop := forall c, holds c -> holds (m c).2.

Lemma holds_fault c : holds c -> holds (step_fault c).2.
Proof. unfold step_fault. by destruct (cn_faults c). Qed.

Lemma preserves_faulty {A} (f : sql X A) : preserves f -> preserves (faulty f).
Proof.
  intros Hf c Hc%holds_fault. unfold faulty. destruct (step_fault c) as [[e|] c']; [done|by apply Hf].
Qed.

Lemma preserves_ret {A} (a : A) : preserves (sret a).
Proof. by intros c. Qed.

Lemma preserves_raise {A} e : preserves (sraise (A:=A) e).
Proof. by intros c. Qed.

Lemma preserves_bind {A B} (m : sql X A) (k : A -> sql X B) :
  preserves m -> (forall a, preserves (k a)) -> preserves (sbind m k).
Proof.
  intros Hm Hk c Hc%Hm. unfold sbind. destruct (m c) as [[a|e] c']; [by apply Hk|done].
Qed.

Lemma preserves_push {A} e (m : sql X A) : preserves m -> preserves (push e m).
Proof. intros Hm c Hc%Hm. unfold push. by destruct (m c) as [[a|x] c']. Qed.

Lemma preserves_execute {A} (f : X -> outcome (X * A)) :
  (forall t t' a, f t = Ok (t', a) -> I t -> I t') -> preserves (execute f).
Proof.
  intros Hf. apply preserves_faulty. intros c [Hd Hs].
  destruct (f (cn_data c)) as [[t a]|] eqn:E; [|done]. split; [|done]. by eapply Hf.
Qed.

Lemma preserves_update {A} (f : X -> X * A) :
  (forall t, I t -> I (f t).1) -> preserves (update f).
Proof.
  intros Hf. apply preserves_execute. intros t t' a [= E] Ht. specialize (Hf t Ht). by rewrite E in Hf.
Qed.

Lemma preserves_open : preserves open_connection.
Proof. apply preserves_faulty, preserves_ret. Qed.

Lemma preserves_transaction {A} (body : sql X A) : preserves body -> preserves (transaction body).
Proof.
  intros Hb. apply preserves_bind.
  { apply preserves_faulty. intros c [Hd _]. split; [done|]. by intros x [= <-]. }
  intros _ c Hc%Hb. destruct (body c) as [[a|e] c'].
  - apply preserves_bind; [|intros ?; apply preserves_ret|done].
    apply preserves_faulty. intros c1 [Hd _]. by split.
  - unfold finish. apply (preserves_faulty (fun c => (Ok tt, set_saved None (set_data (durable c) c))));
      [|done].
    intros c1 [Hd Hs]. split; [|done]. cbn. unfold durable.
    destruct (cn_saved c1) eqn:E; [by apply Hs|done].
Qed.

Lemma preserves_smap {A B} (f : A -> sql X B) l : (forall a, preserves (f a)) -> preserves (smap f l).
Proof.
  intros Hf. induction l as [|a l IH]; cbn; [apply preserves_ret|].
  apply preserves_bind; [done|]. intros b. apply preserves_bind; [done|]. intros bs. apply preserves_ret.
Qed.

Lemma preserves_seach {A B} (f : A -> sql X B) l : (forall a, preserves (f a)) -> preserves (seach f l).
Proof. intros Hf. apply preserves_bind; [by apply preserves_smap|]. intros ?. apply preserves_ret. Qed.

Lemma preserves_expect e n : preserves (expect_rows e n).
Proof. destruct n; [apply preserves_raise|apply preserves_ret]. Qed.

Lemma preserves_lift {A} (o : outcome A) : preserves (lift_outcome o).
Proof. destruct o; [apply preserves_ret|apply preserves_raise]. Qed.

(** ** Runs *)

Definition at_rest (c : Conn X) : Prop := cn_saved c = None /\ I (cn_data c).

Definition keeps {A} (m : io X A) : Prop := forall c, at_rest c -> at_rest (m c).2.

Lemma keeps_ret {A} (a : A) : keeps (iret a).
Proof. by intros c. Qed.

Lemma keeps_bind {A B} (m : io X A) (k : A -> io X B) : keeps m -> (forall a, keeps (k a)) -> keeps (ibind m k).
Proof. intros Hm Hk c Hc%Hm. unfold ibind. destruct (m c) as [a c']. by apply Hk. Qed.

Lemma keeps_attempt {A} (m : sql X A) : preserves m -> keeps (attempt m).
Proof.
  intros Hm c [Hs Hd]. unfold attempt. assert (holds c) as Hc by (split; [done|]; by rewrite Hs).
  specialize (Hm c Hc). destruct (m c) as [r c']. split; [done|]. cbn. destruct Hm as [Hd' Hs'].
  unfold durable. destruct (cn_saved c') eqn:E; [by apply Hs'|done].
Qed.

Lemma keeps_worked {A} (m : sql X A) : preserves m -> keeps (worked m).
Proof.
  intros Hm c Hc. pose proof (keeps_attempt m Hm c Hc) as Hk. unfold worked.
  by destruct (attempt m c) as [r c'].
Qed.
Lemma at_rest_reconnect c : holds c -> at_rest (reconnect c).
Proof.
  intros [Hd Hs]. split; [done|]. cbn. unfold durable. destruct (cn_saved c) eqn:E; [by apply Hs|done].
Qed.

Lemma at_rest_holds c : at_rest c -> holds c.
Proof. intros [Hs Hd]. split; [done|]. by rewrite Hs. Qed.

Lemma preserves_finish {A} (r : outcome A) : preserves (finish r).
Proof.
  destruct r as [a|e].
  - apply preserves_bind; [|intros ?; apply preserves_ret].
    apply preserves_faulty. intros c [Hd _]. by split.
  - intros c Hc. apply (preserves_faulty (fun c => (Ok tt, set_saved None (set_data (durable c) c)))); [|done].
    intros c1 [Hd Hs]. split; [|done]. cbn. unfold durable. destruct (cn_saved c1) eqn:E; [by apply Hs|done].
Qed.

Lemma preserves_begin : preserves begin_.
Proof. apply preserves_faulty. intros c [Hd _]. split; [done|]. by intros x [= <-]. Qed.

Lemma preserves_tried {A} (m : sql X A) : preserves m -> preserves (tried m).
Proof. intros Hm c Hc%Hm. unfold tried. by destruct (m c). Qed.
End Preserve.

(** Through the steps of an operation, leaving those that write. *)
Ltac preserve :=
  repeat match goal with
  | |- preserves _ (sbind _ _) => apply preserves_bind; [|intros ?]
  | |- preserves _ (push _ _) => apply preserves_push
  | |- preserves _ (tried _) => apply preserves_tried
  | |- preserves _ (transaction _) => apply preserves_transaction
  | |- preserves _ (seach _ _) => apply preserves_seach; intros ?
  | |- preserves _ open_connection => apply preserves_open
  | |- preserves _ (sret _) => apply preserves_ret
  | |- preserves _ (sraise _) => apply preserves_raise
  | |- preserves _ (expect_rows _ _) => apply preserves_expect
  | |- preserves _ (lift_outcome _) => apply preserves_lift
  | |- preserves _ (select _) => apply preserves_update; intros ??
  | |- preserves _ (update _) => apply preserves_update; intros ??
  end.

(** * Triples *)

(** A program that finds [P] leaves [Q] if it succeeds and the invariant if it does not, whichever
    step fails. *)
Section Triples.
Context {X : Type} (I : X -> Prop).

Definition saved_ok (c : Conn X) : Prop := forall x, cn_saved c = Some x -> I x.

Definition triple {A} (P : X -> Prop) (m : sql X A) (Q : A -> X -> Prop) : Prop :=
  forall c, P (cn_data c) -> saved_ok c ->
    saved_ok (m c).2 /\
    match m c with (Ok a, c') => Q a (cn_data c') | (Raise _, c') => I (cn_data c') end.

Lemma triple_conseq {A} (P P' : X -> Prop) (m : sql X A) (Q Q' : A -> X -> Prop) :
  triple P' m Q' -> (forall x, P x -> P' x) -> (forall a x, Q' a x -> Q a x) -> triple P m Q.
Proof.
  intros Hm HP HQ c Hc Hs. destruct (Hm c (HP _ Hc) Hs) as [Hs' Hr]. split; [done|].
  destruct (m c) as [[a|e] c']; auto.
Qed.

Lemma triple_pre {A} (P P' : X -> Prop) (m : sql X A) Q :
  (forall x, P x -> P' x) -> triple P' m Q -> triple P m Q.
Proof. intros HP Hm. by eapply triple_conseq. Qed.

Lemma triple_ret {A} (a : A) (P : X -> Prop) (Q : A -> X -> Prop) :
  (forall x, P x -> Q a x) -> triple P (sret a) Q.
Proof. intros HQ c Hc Hs. split; [done|]. by apply HQ. Qed.

Lemma triple_raise {A} e (P : X -> Prop) (Q : A -> X -> Prop) :
  (forall x, P x -> I x) -> triple P (sraise e) Q.
Proof. intros HI c Hc Hs. split; [done|]. by apply HI. Qed.

Lemma triple_bind {A B} P (m : sql X A) Q (k : A -> sql X B) R :
  triple P m Q -> (forall a, triple (Q a) (k a) R) -> triple P (sbind m k) R.
Proof.
  intros Hm Hk c Hc Hs. unfold sbind. destruct (Hm c Hc Hs) as [Hs' Hr].
  destruct (m c) as [[a|e] c']; [by apply Hk|done].
Qed.

Lemma triple_push {A} P e (m : sql X A) Q : triple P m Q -> triple P (push e m) Q.
Proof.
  intros Hm c Hc Hs. specialize (Hm c Hc Hs). unfold push. by destruct (m c) as [[a|x] c'].
Qed.

Lemma triple_execute {A} (P : X -> Prop) (f : X -> outcome (X * A)) Q :
  (forall x, P x -> I x) ->
  (forall x x' a, P x -> f x = Ok (x', a) -> Q a x') -> triple P (execute f) Q.
Proof.
  intros HI Hf c Hc Hs. unfold execute, faulty. pose proof (step_fault_same c) as [Hd Hsv].
  destruct (step_fault c) as [[e|] c']; cbn in Hd, Hsv; cbn.
  - split; [|rewrite Hd; by apply HI]. intros x. rewrite Hsv. apply Hs.
  - destruct (f (cn_data c')) as [[x a]|e] eqn:E; cbn.
    + split; [intros y; cbn; rewrite Hsv; apply Hs|]. eapply Hf; [|exact E]. by rewrite Hd.
    + split; [intros y; rewrite Hsv; apply Hs|]. rewrite Hd. by apply HI.
Qed.

Lemma triple_update {A} (P : X -> Prop) (f : X -> X * A) (Q : A -> X -> Prop) :
  (forall x, P x -> I x) -> (forall x, P x -> Q (f x).2 (f x).1) -> triple P (update f) Q.
Proof.
  intros HI Hf. apply triple_execute; [done|]. intros x x' a Hx [= E]. specialize (Hf x Hx).
  by rewrite E in Hf.
Qed.

Lemma triple_select {A} (P : X -> Prop) (f : X -> A) :
  (forall x, P x -> I x) -> triple P (select f) (fun a x => P x /\ a = f x).
Proof. intros HI. by apply triple_update. Qed.

Lemma triple_open (P : X -> Prop) : (forall x, P x -> I x) -> triple P open_connection (fun _ => P).
Proof.
  intros HI c Hc Hs. unfold open_connection, faulty. pose proof (step_fault_same c) as [Hd Hsv].
  destruct (step_fault c) as [[e|] c']; cbn in *; unfold saved_ok; rewrite Hd, Hsv; auto.
Qed.

Lemma triple_tried {A} P (m : sql X A) Q :
  triple P m Q -> triple P (tried m) (fun r x => match r with Ok a => Q a x | Raise _ => I x end).
Proof.
  intros Hm c Hc Hs. specialize (Hm c Hc Hs). unfold tried. by destruct (m c) as [[a|e] c'].
Qed.

Lemma triple_smap {A B} (P : X -> Prop) (f : A -> sql X B) l :
  (forall a, triple P (f a) (fun _ => P)) -> triple P (smap f l) (fun _ => P).
Proof.
  intros Hf. induction l as [|a l IH]; cbn; [by apply triple_ret|].
  eapply triple_bind; [apply Hf|]. intros b. eapply triple_bind; [apply IH|]. intros bs.
  by apply triple_ret.
Qed.

Lemma triple_seach {A B} (P : X -> Prop) (f : A -> sql X B) l :
  (forall a, triple P (f a) (fun _ => P)) -> triple P (seach f l) (fun _ => P).
Proof.
  intros Hf. eapply triple_bind; [by apply triple_smap|]. intros bs. by apply triple_ret.
Qed.

Lemma triple_preserves {A} (m : sql X A) : triple I m (fun _ => I) -> preserves I m.
Proof.
  intros Hm c [Hd Hs]. destruct (Hm c Hd Hs) as [Hs' Hr]. destruct (m c) as [[a|e] c']; by split.
Qed.

Lemma preserves_triple {A} (m : sql X A) : preserves I m -> triple I m (fun _ => I).
Proof.
  intros Hm c Hd Hs. destruct (Hm c (conj Hd Hs)) as [Hd' Hs']. split; [done|].
  by destruct (m c) as [[a|e] c'].
Qed.
End Triples.

(** * Runs without faults *)

Section Runs.
Context {X : Type}.

(** Without faults [m] makes [x'] of [x], in and outside of a transaction. *)
Definition runs {A} (m : sql X A) (x : X) (a : A) (x' : X) : Prop :=
  forall s, m {| cn_data := x; cn_saved := s; cn_faults := [] |} =
    (Ok a, {| cn_data := x'; cn_saved := s; cn_faults := [] |}).

Lemma runs_ret {A} (a : A) x : runs (sret a) x a x.
Proof. done. Qed.

Lemma runs_bind {A B} (m : sql X A) (k : A -> sql X B) x a x1 b x2 :
  runs m x a x1 -> runs (k a) x1 b x2 -> runs (sbind m k) x b x2.
Proof. intros Hm Hk s. unfold sbind. by rewrite Hm. Qed.

Lemma runs_push {A} e (m : sql X A) x a x' : runs m x a x' -> runs (push e m) x a x'.
Proof. intros Hm s. unfold push. by rewrite Hm. Qed.

Lemma runs_tried {A} (m : sql X A) x a x' : runs m x a x' -> runs (tried m) x (Ok a) x'.
Proof. intros Hm s. unfold tried. by rewrite Hm. Qed.

Lemma runs_select {A} (f : X -> A) x : runs (select f) x (f x) x.
Proof. done. Qed.

Lemma runs_update {A} (f : X -> X * A) x : runs (update f) x (f x).2 (f x).1.
Proof. intros s. unfold update, execute, faulty. cbn. by destruct (f x). Qed.

Lemma runs_open x : runs open_connection x tt x.
Proof. done. Qed.

Lemma runs_transaction {A} (m : sql X A) x a x' :
  runs m x a x' -> transaction m (quiet x) = (Ok a, quiet x').
Proof. intros Hm. by apply transaction_quiet. Qed.
End Runs.

(** * A format *)

(** Values of a countable type written as the bits of their number, an instance of [Json]. *)
Module BitText.
Fixpoint bits (n : positive) : string :=
  match n with
  | xH => ""
  | xO n => String "0" (bits n)
  | xI n => String "1" (bits n)
  end.

Fixpoint unbits (s : string) : positive :=
  match s with
  | "" => xH
  | String c s => if Ascii.eqb c "1" then xI (unbits s) else xO (unbits s)
  end%string.

Lemma unbits_bits n : unbits (bits n) = n.
Proof. induction n as [n IH|n IH|]; cbn; congruence. Qed.

Section Format.
Context {A : Type} `{Countable A}.

#[export] Instance json_bits : Json A := {|
  to_json a := bits (encode a);
  from_json s := match decode (unbits s) with Some a => Ok a | None => Raise "" end
|}.

#[export] Instance json_bits_laws : JsonLaws A.
Proof. split. intros a. cbn. by rewrite unbits_bits, decode_encode. Qed.
End Format.
End BitText.
