(* ===== verification/PurchaseDb.v ===== *)
(** The database of purchases ([cpp/purchase/PurchaseDatabase.cpp]).

    A download state is spread over six tables: its flags, its contract, a seller pool for each
    file, the sections negotiated with sellers, the pieces and the assembled files.  The statements
    are those of the source; a [SELECT] without an order visits rows as they were inserted.  The
    table of favorite sellers is created and never used.  Wares, preferences, contracts and
    contract sections are stored as JSON and are opaque but for the members the code reads. *)
From S2P Require Import Prelude DynMap Sql SellerPicker DownloadState.

Local Open Scope Z_scope.
Local Open Scope sql_scope.

(** * Tables *)

Record StateRow := {
  sr_id : Z; sr_userId : Z; sr_version : string; sr_processing : Z; sr_processorId : Z;
  sr_ware : string; sr_totalMinPrice : string; sr_totalMedPrice : string; sr_totalMaxPrice : string;
  sr_totalPieceCount : Z; sr_totalMicroPaymentCost : string; sr_preferences : string;
  sr_startDate : string; sr_remainingPieces : Z; sr_initialized : Z; sr_licenseAcquired : Z;
  sr_downloadStarted : Z; sr_downloadPaused : Z; sr_licensePurchased : Z; sr_dataPurchased : Z;
  sr_filesAssembled : Z
}.

(** The column for the id of a contract is written by no statement. *)
Record ContractRow := { cr_dsId : Z; cr_userId : Z; cr_mediaId : Z; cr_contract : string }.

Record SellerRow := {
  sl_dsId : Z; sl_userId : Z; sl_fileId : string; sl_price : string; sl_section : string
}.

Record PoolRow := {
  pl_dsId : Z; pl_userId : Z; pl_fileId : string; pl_pool : string; pl_microPaymentCost : string;
  pl_budget : string
}.

Record PieceRow := {
  pr_dsId : Z; pr_userId : Z; pr_fileId : string; pr_index : Z; pr_valid : Z; pr_hash : string;
  pr_status : string; pr_piece : string
}.

Record FileRow := { fr_dsId : Z; fr_userId : Z; fr_fileId : string; fr_path : string }.

(** [ds_sequence] is the last id that was given to a download state. *)
Record Tables := {
  download_states : list StateRow;
  ds_sequence : Z;
  contracts : list ContractRow;
  seller_data : list SellerRow;
  seller_pools : list PoolRow;
  file_pieces : list PieceRow;
  assembled_files : list FileRow
}.

Definition no_tables : Tables :=
  {| download_states := []; ds_sequence := 0; contracts := []; seller_data := [];
     seller_pools := []; file_pieces := []; assembled_files := [] |}.

Definition set_states (v : list StateRow) (t : Tables) : Tables :=
  {| download_states := v; ds_sequence := ds_sequence t; contracts := contracts t;
     seller_data := seller_data t; seller_pools := seller_pools t; file_pieces := file_pieces t;
     assembled_files := assembled_files t |}.

Definition set_contracts (v : list ContractRow) (t : Tables) : Tables :=
  {| download_states := download_states t; ds_sequence := ds_sequence t; contracts := v;
     seller_data := seller_data t; seller_pools := seller_pools t; file_pieces := file_pieces t;
     assembled_files := assembled_files t |}.

Definition set_sellers (v : list SellerRow) (t : Tables) : Tables :=
  {| download_states := download_states t; ds_sequence := ds_sequence t; contracts := contracts t;
     seller_data := v; seller_pools := seller_pools t; file_pieces := file_pieces t;
     assembled_files := assembled_files t |}.

Definition set_pools (v : list PoolRow) (t : Tables) : Tables :=
  {| download_states := download_states t; ds_sequence := ds_sequence t; contracts := contracts t;
     seller_data := seller_data t; seller_pools := v; file_pieces := file_pieces t;
     assembled_files := assembled_files t |}.

Definition set_pieces (v : list PieceRow) (t : Tables) : Tables :=
  {| download_states := download_states t; ds_sequence := ds_sequence t; contracts := contracts t;
     seller_data := seller_data t; seller_pools := seller_pools t; file_pieces := v;
     assembled_files := assembled_files t |}.

Definition set_files (v : list FileRow) (t : Tables) : Tables :=
  {| download_states := download_states t; ds_sequence := ds_sequence t; contracts := contracts t;
     seller_data := seller_data t; seller_pools := seller_pools t; file_pieces := file_pieces t;
     assembled_files := v |}.

(** * Download states *)

(** The file infos of a ware. *)
Record WareFile := { wf_id : string; wf_mediaId : Z; wf_contentSize : Z; wf_extension : string }.

(** What a contract section says of its seller and its one file, and its hash. *)
Record SectionInfo := { si_hash : string; si_userId : Z; si_serverId : Z; si_fileId : string }.

Definition db_exception : string := "bitmunk.purchase.PurchaseDatabase".
Definition db_failure : string := "bitmunk.purchase.PurchaseDatabase.Exception".
Definition db_not_found : string := "bitmunk.purchase.PurchaseDatabase.NotFound".

(** The file progress of [DownloadState] with the sections of its sellers by hash, the pieces that
    are paid for by index, and the place of the assembled file. *)
Record Progress (T C : Type) := {
  pg_file : FileProgress T;
  pg_sections : list (string * C);
  pg_paid : list (option Piece);
  pg_path : string;
  pg_directory : string
}.
Arguments pg_file {T C} _.
Arguments pg_sections {T C} _.
Arguments pg_paid {T C} _.
Arguments pg_path {T C} _.
Arguments pg_directory {T C} _.

Definition new_progress {T C} : Progress T C :=
  {| pg_file := no_progress; pg_sections := []; pg_paid := []; pg_path := ""; pg_directory := "" |}.

Definition set_pg_file {T C} (f : FileProgress T) (g : Progress T C) : Progress T C :=
  {| pg_file := f; pg_sections := pg_sections g; pg_paid := pg_paid g; pg_path := pg_path g;
     pg_directory := pg_directory g |}.

Definition set_pg_section {T C} (h : string) (c : C) (g : Progress T C) : Progress T C :=
  {| pg_file := pg_file g; pg_sections := dm_set (pg_sections g) h c; pg_paid := pg_paid g;
     pg_path := pg_path g; pg_directory := pg_directory g |}.

Definition set_pg_paid {T C} (l : list (option Piece)) (g : Progress T C) : Progress T C :=
  {| pg_file := pg_file g; pg_sections := pg_sections g; pg_paid := l; pg_path := pg_path g;
     pg_directory := pg_directory g |}.

Definition set_pg_path {T C} (path dir : string) (g : Progress T C) : Progress T C :=
  {| pg_file := pg_file g; pg_sections := pg_sections g; pg_paid := pg_paid g; pg_path := path;
     pg_directory := dir |}.

(** An array that is assigned to beyond its end is filled up with [d]. *)
Fixpoint array_set {A} (d : A) (n : nat) (a : A) (l : list A) : list A :=
  match n, l with
  | O, [] => [a]
  | O, _ :: l => a :: l
  | S n, [] => d :: array_set d n a []
  | S n, x :: l => x :: array_set d n a l
  end.

Section PurchaseDb.
Context {Ware Prefs Contract CSection T : Type}.
Context `{Json Ware} `{Json Prefs} `{Json Contract} `{Json CSection}.
Context `{Json (SellerPool T)} `{Json Piece}.
Context (ware_files : Ware -> list WareFile) (contract_mediaId : Contract -> Z)
  (section_info : CSection -> SectionInfo).
(** The exception of a violated constraint, and [File::dirname]. *)
Context (constraint_error : string) (dirname : string -> string).

(** A download state in memory. *)
Record Purchase := {
  ps_id : Z;
  ps_userId : Z;
  ps_version : string;
  ps_ware : Ware;
  ps_preferences : Prefs;
  ps_contract : Contract;
  ps_totalMinPrice : string;
  ps_totalMedPrice : string;
  ps_totalMaxPrice : string;
  ps_totalPieceCount : Z;
  ps_totalMicroPaymentCost : string;
  ps_startDate : string;
  ps_remainingPieces : Z;
  ps_initialized : bool;
  ps_licenseAcquired : bool;
  ps_downloadStarted : bool;
  ps_downloadPaused : bool;
  ps_licensePurchased : bool;
  ps_dataPurchased : bool;
  ps_filesAssembled : bool;
  ps_processing : bool;
  ps_processorId : Z;
  ps_progress : list (string * Progress T CSection)
}.
Implicit Types (p : Purchase) (t : Tables).

Definition set_ps_id (v : Z) p : Purchase :=
  {| ps_id := v; ps_userId := ps_userId p; ps_version := ps_version p; ps_ware := ps_ware p;
     ps_preferences := ps_preferences p; ps_contract := ps_contract p;
     ps_totalMinPrice := ps_totalMinPrice p; ps_totalMedPrice := ps_totalMedPrice p;
     ps_totalMaxPrice := ps_totalMaxPrice p; ps_totalPieceCount := ps_totalPieceCount p;
     ps_totalMicroPaymentCost := ps_totalMicroPaymentCost p; ps_startDate := ps_startDate p;
     ps_remainingPieces := ps_remainingPieces p; ps_initialized := ps_initialized p;
     ps_licenseAcquired := ps_licenseAcquired p; ps_downloadStarted := ps_downloadStarted p;
     ps_downloadPaused := ps_downloadPaused p; ps_licensePurchased := ps_licensePurchased p;
     ps_dataPurchased := ps_dataPurchased p; ps_filesAssembled := ps_filesAssembled p;
     ps_processing := ps_processing p; ps_processorId := ps_processorId p;
     ps_progress := ps_progress p |}.

Definition set_ps_progress (v : list (string * Progress T CSection)) p : Purchase :=
  {| ps_id := ps_id p; ps_userId := ps_userId p; ps_version := ps_version p;
     ps_ware := ps_ware p; ps_preferences := ps_preferences p; ps_contract := ps_contract p;
     ps_totalMinPrice := ps_totalMinPrice p; ps_totalMedPrice := ps_totalMedPrice p;
     ps_totalMaxPrice := ps_totalMaxPrice p; ps_totalPieceCount := ps_totalPieceCount p;
     ps_totalMicroPaymentCost := ps_totalMicroPaymentCost p; ps_startDate := ps_startDate p;
     ps_remainingPieces := ps_remainingPieces p; ps_initialized := ps_initialized p;
     ps_licenseAcquired := ps_licenseAcquired p; ps_downloadStarted := ps_downloadStarted p;
     ps_downloadPaused := ps_downloadPaused p; ps_licensePurchased := ps_licensePurchased p;
     ps_dataPurchased := ps_dataPurchased p; ps_filesAssembled := ps_filesAssembled p;
     ps_processing := ps_processing p; ps_processorId := ps_processorId p; ps_progress := v |}.

Definition set_ps_contract (v : Contract) p : Purchase :=
  {| ps_id := ps_id p; ps_userId := ps_userId p; ps_version := ps_version p;
     ps_ware := ps_ware p; ps_preferences := ps_preferences p; ps_contract := v;
     ps_totalMinPrice := ps_totalMinPrice p; ps_totalMedPrice := ps_totalMedPrice p;
     ps_totalMaxPrice := ps_totalMaxPrice p; ps_totalPieceCount := ps_totalPieceCount p;
     ps_totalMicroPaymentCost := ps_totalMicroPaymentCost p; ps_startDate := ps_startDate p;
     ps_remainingPieces := ps_remainingPieces p; ps_initialized := ps_initialized p;
     ps_licenseAcquired := ps_licenseAcquired p; ps_downloadStarted := ps_downloadStarted p;
     ps_downloadPaused := ps_downloadPaused p; ps_licensePurchased := ps_licensePurchased p;
     ps_dataPurchased := ps_dataPurchased p; ps_filesAssembled := ps_filesAssembled p;
     ps_processing := ps_processing p; ps_processorId := ps_processorId p;
     ps_progress := ps_progress p |}.

Definition set_ps_preferences (v : Prefs) p : Purchase :=
  {| ps_id := ps_id p; ps_userId := ps_userId p; ps_version := ps_version p;
     ps_ware := ps_ware p; ps_preferences := v; ps_contract := ps_contract p;
     ps_totalMinPrice := ps_totalMinPrice p; ps_totalMedPrice := ps_totalMedPrice p;
     ps_totalMaxPrice := ps_totalMaxPrice p; ps_totalPieceCount := ps_totalPieceCount p;
     ps_totalMicroPaymentCost := ps_totalMicroPaymentCost p; ps_startDate := ps_startDate p;
     ps_remainingPieces := ps_remainingPieces p; ps_initialized := ps_initialized p;
     ps_licenseAcquired := ps_licenseAcquired p; ps_downloadStarted := ps_downloadStarted p;
     ps_downloadPaused := ps_downloadPaused p; ps_licensePurchased := ps_licensePurchased p;
     ps_dataPurchased := ps_dataPurchased p; ps_filesAssembled := ps_filesAssembled p;
     ps_processing := ps_processing p; ps_processorId := ps_processorId p;
     ps_progress := ps_progress p |}.

Definition set_ps_processing (b : bool) (n : Z) p : Purchase :=
  {| ps_id := ps_id p; ps_userId := ps_userId p; ps_version := ps_version p;
     ps_ware := ps_ware p; ps_preferences := ps_preferences p; ps_contract := ps_contract p;
     ps_totalMinPrice := ps_totalMinPrice p; ps_totalMedPrice := ps_totalMedPrice p;
     ps_totalMaxPrice := ps_totalMaxPrice p; ps_totalPieceCount := ps_totalPieceCount p;
     ps_totalMicroPaymentCost := ps_totalMicroPaymentCost p; ps_startDate := ps_startDate p;
     ps_remainingPieces := ps_remainingPieces p; ps_initialized := ps_initialized p;
     ps_licenseAcquired := ps_licenseAcquired p; ps_downloadStarted := ps_downloadStarted p;
     ps_downloadPaused := ps_downloadPaused p; ps_licensePurchased := ps_licensePurchased p;
     ps_dataPurchased := ps_dataPurchased p; ps_filesAssembled := ps_filesAssembled p;
     ps_processing := b; ps_processorId := n; ps_progress := ps_progress p |}.

Definition set_ps_initialized (b : bool) p : Purchase :=
  {| ps_id := ps_id p; ps_userId := ps_userId p; ps_version := ps_version p;
     ps_ware := ps_ware p; ps_preferences := ps_preferences p; ps_contract := ps_contract p;
     ps_totalMinPrice := ps_totalMinPrice p; ps_totalMedPrice := ps_totalMedPrice p;
     ps_totalMaxPrice := ps_totalMaxPrice p; ps_totalPieceCount := ps_totalPieceCount p;
     ps_totalMicroPaymentCost := ps_totalMicroPaymentCost p; ps_startDate := ps_startDate p;
     ps_remainingPieces := ps_remainingPieces p; ps_initialized := b;
     ps_licenseAcquired := ps_licenseAcquired p; ps_downloadStarted := ps_downloadStarted p;
     ps_downloadPaused := ps_downloadPaused p; ps_licensePurchased := ps_licensePurchased p;
     ps_dataPurchased := ps_dataPurchased p; ps_filesAssembled := ps_filesAssembled p;
     ps_processing := ps_processing p; ps_processorId := ps_processorId p;
     ps_progress := ps_progress p |}.

Definition set_ps_licenseAcquired (b : bool) p : Purchase :=
  {| ps_id := ps_id p; ps_userId := ps_userId p; ps_version := ps_version p;
     ps_ware := ps_ware p; ps_preferences := ps_preferences p; ps_contract := ps_contract p;
     ps_totalMinPrice := ps_totalMinPrice p; ps_totalMedPrice := ps_totalMedPrice p;
     ps_totalMaxPrice := ps_totalMaxPrice p; ps_totalPieceCount := ps_totalPieceCount p;
     ps_totalMicroPaymentCost := ps_totalMicroPaymentCost p; ps_startDate := ps_startDate p;
     ps_remainingPieces := ps_remainingPieces p; ps_initialized := ps_initialized p;
     ps_licenseAcquired := b; ps_downloadStarted := ps_downloadStarted p;
     ps_downloadPaused := ps_downloadPaused p; ps_licensePurchased := ps_licensePurchased p;
     ps_dataPurchased := ps_dataPurchased p; ps_filesAssembled := ps_filesAssembled p;
     ps_processing := ps_processing p; ps_processorId := ps_processorId p;
     ps_progress := ps_progress p |}.

Definition set_ps_started (b paused : bool) p : Purchase :=
  {| ps_id := ps_id p; ps_userId := ps_userId p; ps_version := ps_version p;
     ps_ware := ps_ware p; ps_preferences := ps_preferences p; ps_contract := ps_contract p;
     ps_totalMinPrice := ps_totalMinPrice p; ps_totalMedPrice := ps_totalMedPrice p;
     ps_totalMaxPrice := ps_totalMaxPrice p; ps_totalPieceCount := ps_totalPieceCount p;
     ps_totalMicroPaymentCost := ps_totalMicroPaymentCost p; ps_startDate := ps_startDate p;
     ps_remainingPieces := ps_remainingPieces p; ps_initialized := ps_initialized p;
     ps_licenseAcquired := ps_licenseAcquired p; ps_downloadStarted := b;
     ps_downloadPaused := paused; ps_licensePurchased := ps_licensePurchased p;
     ps_dataPurchased := ps_dataPurchased p; ps_filesAssembled := ps_filesAssembled p;
     ps_processing := ps_processing p; ps_processorId := ps_processorId p;
     ps_progress := ps_progress p |}.

Definition set_ps_licensePurchased (b : bool) p : Purchase :=
  {| ps_id := ps_id p; ps_userId := ps_userId p; ps_version := ps_version p;
     ps_ware := ps_ware p; ps_preferences := ps_preferences p; ps_contract := ps_contract p;
     ps_totalMinPrice := ps_totalMinPrice p; ps_totalMedPrice := ps_totalMedPrice p;
     ps_totalMaxPrice := ps_totalMaxPrice p; ps_totalPieceCount := ps_totalPieceCount p;
     ps_totalMicroPaymentCost := ps_totalMicroPaymentCost p; ps_startDate := ps_startDate p;
     ps_remainingPieces := ps_remainingPieces p; ps_initialized := ps_initialized p;
     ps_licenseAcquired := ps_licenseAcquired p; ps_downloadStarted := ps_downloadStarted p;
     ps_downloadPaused := ps_downloadPaused p; ps_licensePurchased := b;
     ps_dataPurchased := ps_dataPurchased p; ps_filesAssembled := ps_filesAssembled p;
     ps_processing := ps_processing p; ps_processorId := ps_processorId p;
     ps_progress := ps_progress p |}.

Definition set_ps_dataPurchased (b : bool) p : Purchase :=
  {| ps_id := ps_id p; ps_userId := ps_userId p; ps_version := ps_version p;
     ps_ware := ps_ware p; ps_preferences := ps_preferences p; ps_contract := ps_contract p;
     ps_totalMinPrice := ps_totalMinPrice p; ps_totalMedPrice := ps_totalMedPrice p;
     ps_totalMaxPrice := ps_totalMaxPrice p; ps_totalPieceCount := ps_totalPieceCount p;
     ps_totalMicroPaymentCost := ps_totalMicroPaymentCost p; ps_startDate := ps_startDate p;
     ps_remainingPieces := ps_remainingPieces p; ps_initialized := ps_initialized p;
     ps_licenseAcquired := ps_licenseAcquired p; ps_downloadStarted := ps_downloadStarted p;
     ps_downloadPaused := ps_downloadPaused p; ps_licensePurchased := ps_licensePurchased p;
     ps_dataPurchased := b; ps_filesAssembled := ps_filesAssembled p;
     ps_processing := ps_processing p; ps_processorId := ps_processorId p;
     ps_progress := ps_progress p |}.

Definition set_ps_filesAssembled (b : bool) p : Purchase :=
  {| ps_id := ps_id p; ps_userId := ps_userId p; ps_version := ps_version p;
     ps_ware := ps_ware p; ps_preferences := ps_preferences p; ps_contract := ps_contract p;
     ps_totalMinPrice := ps_totalMinPrice p; ps_totalMedPrice := ps_totalMedPrice p;
     ps_totalMaxPrice := ps_totalMaxPrice p; ps_totalPieceCount := ps_totalPieceCount p;
     ps_totalMicroPaymentCost := ps_totalMicroPaymentCost p; ps_startDate := ps_startDate p;
     ps_remainingPieces := ps_remainingPieces p; ps_initialized := ps_initialized p;
     ps_licenseAcquired := ps_licenseAcquired p; ps_downloadStarted := ps_downloadStarted p;
     ps_downloadPaused := ps_downloadPaused p; ps_licensePurchased := ps_licensePurchased p;
     ps_dataPurchased := ps_dataPurchased p; ps_filesAssembled := b;
     ps_processing := ps_processing p; ps_processorId := ps_processorId p;
     ps_progress := ps_progress p |}.

(** [ds["progress"][f]], which is created if it is not there. *)
Definition progress_at p (f : string) : Progress T CSection :=
  dm_get_or (ps_progress p) f new_progress.

Definition put_progress_at (f : string) (g : Progress T CSection) p : Purchase :=
  set_ps_progress (dm_set (ps_progress p) f g) p.

Definition flag (b : bool) : Z := if b then 1 else 0.

Definition is_flag (n : Z) : bool := n =? 1.

(** The rows of a download state. *)
Definition own_state p (r : StateRow) : bool := (sr_userId r =? ps_userId p) && (sr_id r =? ps_id p).

Definition own_contract p (r : ContractRow) : bool :=
  (cr_userId r =? ps_userId p) && (cr_dsId r =? ps_id p).

Definition own_pool p (r : PoolRow) : bool := (pl_userId r =? ps_userId p) && (pl_dsId r =? ps_id p).

Definition own_seller p (r : SellerRow) : bool :=
  (sl_userId r =? ps_userId p) && (sl_dsId r =? ps_id p).

Definition own_piece p (r : PieceRow) : bool := (pr_userId r =? ps_userId p) && (pr_dsId r =? ps_id p).

Definition own_file p (r : FileRow) : bool := (fr_userId r =? ps_userId p) && (fr_dsId r =? ps_id p).

(** An update of the states that satisfy [q]: how many there were. *)
Definition update_states (q : StateRow -> bool) (f : StateRow -> StateRow) : sql Tables nat :=
  Sql.update (fun t => (set_states (update_rows q f (download_states t)) t,
                        rows_changed q (download_states t))).

(** ** Creation and deletion *)

(** [insertContract] on an open connection. *)
Definition insertContract p : sql Tables unit :=
  push db_failure (execute (fun t =>
    if existsb (fun r => cr_dsId r =? ps_id p) (contracts t) then Raise constraint_error
    else Ok (set_contracts (contracts t ++
      [{| cr_dsId := ps_id p; cr_userId := ps_userId p;
          cr_mediaId := contract_mediaId (ps_contract p);
          cr_contract := to_json (ps_contract p) |}]) t, tt))).

Definition insert_state p t : Tables * Z :=
  let id := ds_sequence t + 1 in
  ({| download_states := download_states t ++
        [{| sr_id := id; sr_userId := ps_userId p; sr_version := "3.0"; sr_processing := 0;
            sr_processorId := 0; sr_ware := to_json (ps_ware p); sr_totalMinPrice := "0.00";
            sr_totalMedPrice := "0.00"; sr_totalMaxPrice := "0.00"; sr_totalPieceCount := 0;
            sr_totalMicroPaymentCost := "0.00"; sr_preferences := to_json (ps_preferences p);
            sr_startDate := ps_startDate p; sr_remainingPieces := 0; sr_initialized := 0;
            sr_licenseAcquired := 0; sr_downloadStarted := 0; sr_downloadPaused := 0;
            sr_licensePurchased := 0; sr_dataPurchased := 0; sr_filesAssembled := 0 |}];
      ds_sequence := id; contracts := contracts t; seller_data := seller_data t;
      seller_pools := seller_pools t; file_pieces := file_pieces t;
      assembled_files := assembled_files t |}, id).

(** The state is returned with its new id. *)
Definition insertDownloadState p : sql Tables Purchase :=
  push db_failure (
    let! _ := open_connection in
    transaction (
      let! id := Sql.update (insert_state p) in
      let p := set_ps_id id p in
      let! _ := insertContract p in
      sret p)).

Definition deleteDownloadState p : sql Tables unit :=
  let mine {R} (id : R -> Z) (r : R) := id r =? ps_id p in
  push db_failure (
    let! _ := open_connection in
    transaction (
      let! _ := Sql.update (fun t => (set_pieces (delete_rows (mine pr_dsId) (file_pieces t)) t, tt)) in
      let! _ := Sql.update (fun t => (set_sellers (delete_rows (mine sl_dsId) (seller_data t)) t, tt)) in
      let! _ := Sql.update (fun t => (set_contracts (delete_rows (mine cr_dsId) (contracts t)) t, tt)) in
      let! _ := Sql.update (fun t => (set_states (delete_rows (mine sr_id) (download_states t)) t, tt)) in
      let! _ := Sql.update (fun t => (set_pools (delete_rows (mine pl_dsId) (seller_pools t)) t, tt)) in
      Sql.update (fun t => (set_files (delete_rows (mine fr_dsId) (assembled_files t)) t, tt)))).

(** ** Processing *)

Definition set_processing (b n : Z) (r : StateRow) : StateRow :=
  {| sr_id := sr_id r; sr_userId := sr_userId r; sr_version := sr_version r; sr_processing := b;
     sr_processorId := n; sr_ware := sr_ware r; sr_totalMinPrice := sr_totalMinPrice r;
     sr_totalMedPrice := sr_totalMedPrice r; sr_totalMaxPrice := sr_totalMaxPrice r;
     sr_totalPieceCount := sr_totalPieceCount r;
     sr_totalMicroPaymentCost := sr_totalMicroPaymentCost r; sr_preferences := sr_preferences r;
     sr_startDate := sr_startDate r; sr_remainingPieces := sr_remainingPieces r;
     sr_initialized := sr_initialized r; sr_licenseAcquired := sr_licenseAcquired r;
     sr_downloadStarted := sr_downloadStarted r; sr_downloadPaused := sr_downloadPaused r;
     sr_licensePurchased := sr_licensePurchased r; sr_dataPurchased := sr_dataPurchased r;
     sr_filesAssembled := sr_filesAssembled r |}.

(** A download state that is not there is an exception. *)
Definition ensure_state p : sql Tables unit :=
  let! n := select (fun t => rows_changed (own_state p) (download_states t)) in
  expect_rows db_not_found n.

Definition startProcessingDownloadState p (processorId : Z) : sql Tables unit :=
  push db_failure (
    let! _ := open_connection in
    transaction (
      let! _ := ensure_state p in
      let! n := update_states (fun r => own_state p r && (sr_processing r =? 0))
                  (set_processing 1 processorId) in
      expect_rows "bitmunk.purchase.PurchaseDatabase.AlreadyProcessing" n)).

Definition setDownloadStateProcessorId p (oldId newId : Z) : sql Tables unit :=
  push db_failure (
    let! _ := open_connection in
    transaction (
      let! _ := ensure_state p in
      let! n := update_states (fun r => own_state p r && (sr_processorId r =? oldId))
                  (set_processing 1 newId) in
      expect_rows "bitmunk.purchase.PurchaseDatabase.InvalidProcessorId" n)).

Definition stopProcessingDownloadState p (processorId : Z) : sql Tables unit :=
  push db_failure (
    let! _ := open_connection in
    let! _ := update_states (fun r => own_state p r && (sr_processorId r =? processorId))
                (set_processing 0 0) in
    sret tt).

Definition populateProcessingInfo p : sql Tables Purchase :=
  push db_exception (
    let! _ := open_connection in
    let! row := select (fun t => head (List.filter (own_state p) (download_states t))) in
    match row with
    | None => sraise db_not_found
    | Some r => sret (set_ps_processing (is_flag (sr_processing r)) (sr_processorId r) p)
    end).

(** On an open connection. *)
Definition clearProcessingDownloadStates (userId : Z) : sql Tables unit :=
  push db_failure (
    let! _ := update_states (fun r => sr_userId r =? userId) (set_processing 0 0) in sret tt).

(** ** Preferences, flags and contract *)

Definition set_sr_preferences (v : string) (r : StateRow) : StateRow :=
  {| sr_id := sr_id r; sr_userId := sr_userId r; sr_version := sr_version r;
     sr_processing := sr_processing r; sr_processorId := sr_processorId r; sr_ware := sr_ware r;
     sr_totalMinPrice := sr_totalMinPrice r; sr_totalMedPrice := sr_totalMedPrice r;
     sr_totalMaxPrice := sr_totalMaxPrice r; sr_totalPieceCount := sr_totalPieceCount r;
     sr_totalMicroPaymentCost := sr_totalMicroPaymentCost r; sr_preferences := v;
     sr_startDate := sr_startDate r; sr_remainingPieces := sr_remainingPieces r;
     sr_initialized := sr_initialized r; sr_licenseAcquired := sr_licenseAcquired r;
     sr_downloadStarted := sr_downloadStarted r; sr_downloadPaused := sr_downloadPaused r;
     sr_licensePurchased := sr_licensePurchased r; sr_dataPurchased := sr_dataPurchased r;
     sr_filesAssembled := sr_filesAssembled r |}.

Definition updatePreferences p : sql Tables unit :=
  push db_failure (
    let! _ := open_connection in
    let! n := update_states (own_state p) (set_sr_preferences (to_json (ps_preferences p))) in
    expect_rows db_not_found n).

Definition set_sr_flags p (r : StateRow) : StateRow :=
  {| sr_id := sr_id r; sr_userId := sr_userId r; sr_version := sr_version r;
     sr_processing := sr_processing r; sr_processorId := sr_processorId r; sr_ware := sr_ware r;
     sr_totalMinPrice := ps_totalMinPrice p; sr_totalMedPrice := ps_totalMedPrice p;
     sr_totalMaxPrice := ps_totalMaxPrice p; sr_totalPieceCount := ps_totalPieceCount p;
     sr_totalMicroPaymentCost := ps_totalMicroPaymentCost p; sr_preferences := sr_preferences r;
     sr_startDate := ps_startDate p; sr_remainingPieces := ps_remainingPieces p;
     sr_initialized := flag (ps_initialized p); sr_licenseAcquired := flag (ps_licenseAcquired p);
     sr_downloadStarted := flag (ps_downloadStarted p);
     sr_downloadPaused := flag (ps_downloadPaused p);
     sr_licensePurchased := flag (ps_licensePurchased p);
     sr_dataPurchased := flag (ps_dataPurchased p);
     sr_filesAssembled := flag (ps_filesAssembled p) |}.

Definition updateDownloadStateFlags p : sql Tables unit :=
  push db_failure (
    let! _ := open_connection in
    let! n := update_states (own_state p) (set_sr_flags p) in
    expect_rows db_not_found n).

Definition updateContract p : sql Tables unit :=
  push db_failure (
    let! _ := open_connection in
    let! n := Sql.update (fun t =>
      (set_contracts (update_rows (own_contract p) (fun r =>
         {| cr_dsId := cr_dsId r; cr_userId := cr_userId r; cr_mediaId := cr_mediaId r;
            cr_contract := to_json (ps_contract p) |}) (contracts t)) t,
       rows_changed (own_contract p) (contracts t))) in
    expect_rows db_not_found n).

(** On an open connection; without a row the contract stays. *)
Definition populateContract p : sql Tables Purchase :=
  push db_exception (
    let! row := select (fun t => head (List.filter (own_contract p) (contracts t))) in
    match row with
    | None => sret p
    | Some r => let! k := lift_outcome (from_json (cr_contract r)) in sret (set_ps_contract k p)
    end).

(** ** Seller pools *)

(** [fp["fileInfo"] = fi]; a file info that comes from a ware or a pool has no pieces. *)
Definition put_file_info (id : string) (mediaId size : Z) (ext : string) (g : Progress T CSection)
    : Progress T CSection :=
  let f := pg_file g in
  set_pg_paid [] (set_pg_file
    {| fp_fileId := id; fp_mediaId := mediaId; fp_contentSize := size; fp_extension := ext;
       fp_bytesDownloaded := fp_bytesDownloaded f; fp_budget := fp_budget f; fp_pool := fp_pool f;
       fp_sellerData := fp_sellerData f; fp_sellers := fp_sellers f;
       fp_unassigned := fp_unassigned f; fp_assigned := fp_assigned f;
       fp_downloaded := fp_downloaded f; fp_microPaymentCost := fp_microPaymentCost f |} g).

Definition reset_pool (w : WareFile) (sp : SellerPool T) : SellerPool T :=
  {| sp_fileId := wf_id w; sp_mediaId := wf_mediaId w; sp_contentSize := wf_contentSize w;
     sp_extension := wf_extension w; sp_pieceSize := 0; sp_pieceCount := 0; sp_bfpId := 0;
     sp_minPrice := sp_minPrice sp; sp_medPrice := sp_medPrice sp; sp_maxPrice := sp_maxPrice sp;
     sp_sellers := sp_sellers sp |}.

Definition same_pool (a b : PoolRow) : bool :=
  (pl_dsId a =? pl_dsId b) && (pl_userId a =? pl_userId b) && String.eqb (pl_fileId a) (pl_fileId b).

(** [REPLACE]: the row with the same key goes, the new one is inserted. *)
Definition replace_pool (r : PoolRow) t : Tables :=
  set_pools (delete_rows (same_pool r) (seller_pools t) ++ [r]) t.

Definition insert_pool (w : WareFile) p : sql Tables Purchase :=
  let g := put_file_info (wf_id w) (wf_mediaId w) (wf_contentSize w) (wf_extension w)
             (progress_at p (wf_id w)) in
  let sp := reset_pool w (fp_pool (pg_file g)) in
  let! _ := Sql.update (fun t => (replace_pool
    {| pl_dsId := ps_id p; pl_userId := ps_userId p; pl_fileId := wf_id w; pl_pool := to_json sp;
       pl_microPaymentCost := "0.00"; pl_budget := "0.00" |} t, tt)) in
  sret (put_progress_at (wf_id w) (set_pg_file (set_fp_pool sp (pg_file g)) g) p).

Fixpoint insert_pools (ws : list WareFile) p : sql Tables Purchase :=
  match ws with
  | [] => sret p
  | w :: ws => let! p := insert_pool w p in insert_pools ws p
  end.

(** There is no transaction around the loop. *)
Definition insertSellerPools p : sql Tables Purchase :=
  push db_exception (let! _ := open_connection in insert_pools (ware_files (ps_ware p)) p).

Definition updateSellerPool p (sp : SellerPool T) : sql Tables unit :=
  let fp := pg_file (progress_at p (sp_fileId sp)) in
  let own r := own_pool p r && String.eqb (pl_fileId r) (sp_fileId sp) in
  push db_exception (
    let! _ := open_connection in
    let! n := Sql.update (fun t =>
      (set_pools (update_rows own (fun r =>
         {| pl_dsId := pl_dsId r; pl_userId := pl_userId r; pl_fileId := pl_fileId r;
            pl_pool := to_json sp; pl_microPaymentCost := fp_microPaymentCost fp;
            pl_budget := fp_budget fp |}) (seller_pools t)) t,
       rows_changed own (seller_pools t))) in
    expect_rows db_not_found n).

(** A loop over the rows of a result that ends with the first failure. *)
Fixpoint each_row {R} (f : R -> Purchase -> outcome Purchase) (l : list R) p : outcome Purchase :=
  match l with
  | [] => Ok p
  | r :: l => outcome_bind (f r p) (each_row f l)
  end.

(** [setType] keeps the members of a map or array that is one already. *)
Definition pool_row (r : PoolRow) p : outcome Purchase :=
  outcome_bind (from_json (pl_pool r)) (fun sp : SellerPool T =>
    let g := put_file_info (sp_fileId sp) (sp_mediaId sp) (sp_contentSize sp) (sp_extension sp)
               (progress_at p (pl_fileId r)) in
    let f := set_fp_budget (pl_budget r) (set_fp_microPaymentCost (pl_microPaymentCost r)
               (set_fp_bytesDownloaded 0 (set_fp_pool sp (pg_file g)))) in
    Ok (put_progress_at (pl_fileId r) (set_pg_file f g) p)).

(** On an open connection. *)
Definition populateSellerPools p : sql Tables Purchase :=
  push db_failure (
    let! rows := select (fun t => List.filter (own_pool p) (seller_pools t)) in
    lift_outcome (each_row pool_row rows p)).

(** ** Pieces *)

Record PieceEntry := {
  pe_fileId : string; pe_hash : string; pe_status : string; pe_piece : Piece
}.

Definition piece_row p (e : PieceEntry) : PieceRow :=
  {| pr_dsId := ps_id p; pr_userId := ps_userId p; pr_fileId := pe_fileId e;
     pr_index := pc_index (pe_piece e);
     pr_valid := if String.eqb (pe_status e) "unassigned" then 0 else 1;
     pr_hash := pe_hash e; pr_status := pe_status e; pr_piece := to_json (pe_piece e) |}.

(** The rows an entry takes the place of: those of its piece and section that are not paid for. *)
Definition replaced_by p (e : PieceEntry) (r : PieceRow) : bool :=
  own_piece p r && String.eqb (pr_fileId r) (pe_fileId e) &&
  (pr_index r =? pc_index (pe_piece e)) && String.eqb (pr_hash r) (pe_hash e) &&
  negb (String.eqb (pr_status r) "paid").

(** Every entry is a step that may fail, also where the statement is used again without being
    reset, as the inserting one is. *)
Definition updateFileProgress p (entries : list PieceEntry) : sql Tables unit :=
  push db_exception (
    let! _ := open_connection in
    transaction (
      let! _ := seach (fun e => Sql.update (fun t =>
        (set_pieces (delete_rows (replaced_by p e) (file_pieces t)) t, tt))) entries in
      seach (fun e => Sql.update (fun t =>
        (set_pieces (file_pieces t ++ [piece_row p e]) t, tt))) entries)).

(** What [populateFileProgress] keeps of a piece it has found: whether it has an index, and its
    path.  The object is shared with the lists of the progress, and only a piece that is in none of
    them loses its index. *)
Record Found := { fd_index : bool; fd_path : string }.

Definition not_found : Found := {| fd_index := false; fd_path := "" |}.

Definition append_at (h : string) (x : Piece) (m : dmap (list Piece)) : dmap (list Piece) :=
  dm_set m h (dm_get_or m h [] ++ [x]).

(** The piece in the list of its status. *)
Definition place_piece (status hash : string) (index : Z) (x : Piece) (g : Progress T CSection)
    : outcome (Progress T CSection) :=
  let f := pg_file g in
  if String.eqb status "paid" then
    Ok (set_pg_paid (array_set None (Z.to_nat index) (Some x) (pg_paid g)) g)
  else if String.eqb status "assigned" then
    Ok (set_pg_file (set_fp_assigned (append_at hash x (fp_assigned f)) f) g)
  else if String.eqb status "downloaded" then
    Ok (set_pg_file (set_fp_bytesDownloaded (u64 (fp_bytesDownloaded f + pc_size x))
          (set_fp_downloaded (append_at hash x (fp_downloaded f)) f)) g)
  else if String.eqb status "unassigned" then Ok g
  else Raise "bitmunk.purchase.PurchaseDatabase.InvalidStatus".

Definition found_row (status : string) (x : Piece) : Found :=
  {| fd_index := negb (String.eqb status "unassigned"); fd_path := pc_path x |}.

Fixpoint each_piece (l : list PieceRow) (found : dmap (list Found)) p
    : outcome (dmap (list Found) * Purchase) :=
  match l with
  | [] => Ok (found, p)
  | r :: l =>
      outcome_bind (from_json (pr_piece r)) (fun x : Piece =>
      outcome_bind (place_piece (pr_status r) (pr_hash r) (pr_index r) x (progress_at p (pr_fileId r)))
        (fun g =>
      each_piece l
        (dm_set found (pr_fileId r) (array_set not_found (Z.to_nat (pr_index r))
           (found_row (pr_status r) x) (dm_get_or found (pr_fileId r) [])))
        (put_progress_at (pr_fileId r) g p)))
  end.

(** The array is filled up to the number of pieces. *)
Definition fill_found (n : Z) (l : list Found) : list Found :=
  l ++ repeat not_found (Z.to_nat n - length l).

(** The unassigned pieces from index [i] on; the size of the last one is a remainder; the
    program is stopped by the division if [pieceSize] is 0 there. *)
Fixpoint new_pieces (sp : SellerPool T) (contentSize : Z) (i : Z) (l : list Found) : list Piece :=
  match l with
  | [] => []
  | d :: l =>
      let size := match l with [] => contentSize mod sp_pieceSize sp | _ :: _ => sp_pieceSize sp end in
      let rest := new_pieces sp contentSize (i + 1) l in
      if fd_index d then rest
      else {| pc_index := i; pc_size := size; pc_bfpId := sp_bfpId sp; pc_path := fd_path d |} :: rest
  end.

(** The found pieces are looked up by the id in the file info. *)
Definition append_unassigned (found : dmap (list Found)) (g : Progress T CSection)
    : Progress T CSection :=
  let f := pg_file g in
  let l := fill_found (i32 (sp_pieceCount (fp_pool f))) (dm_get_or found (fp_fileId f) []) in
  set_pg_file (set_fp_unassigned
    (fp_unassigned f ++ new_pieces (fp_pool f) (fp_contentSize f) 0 l) f) g.

(** On an open connection. *)
Definition populateFileProgress p : sql Tables Purchase :=
  push db_failure (
    let! p := populateSellerPools (set_ps_progress [] p) in
    let! rows := select (fun t => List.filter (own_piece p) (file_pieces t)) in
    let! (found, p) := lift_outcome (each_piece rows [] p) in
    sret (set_ps_progress
      (map (fun kg => (kg.1, append_unassigned found kg.2)) (ps_progress p)) p)).

(** ** Files, sellers and whole states *)

(** A file without progress is skipped. *)
Definition file_row (r : FileRow) p : outcome Purchase :=
  Ok (match dm_get (ps_progress p) (fr_fileId r) with
      | None => p
      | Some g => put_progress_at (fr_fileId r) (set_pg_path (fr_path r) (dirname (fr_path r)) g) p
      end).

(** On an open connection. *)
Definition populateFilePaths p : sql Tables Purchase :=
  push db_failure (
    let! rows := select (fun t => List.filter (own_file p) (assembled_files t)) in
    lift_outcome (each_row file_row rows p)).

Definition insertSellerData p (fileId price : string) (cs : CSection) : sql Tables unit :=
  push db_failure (
    let! _ := open_connection in
    Sql.update (fun t => (set_sellers (seller_data t ++
      [{| sl_dsId := ps_id p; sl_userId := ps_userId p; sl_fileId := fileId; sl_price := price;
          sl_section := to_json cs |}]) t, tt))).

Definition section_seller (cs : CSection) (price : string) (old : option (SellerData T))
    : SellerData T :=
  let i := section_info cs in
  {| sd_userId := si_userId i; sd_serverId := si_serverId i; sd_price := price;
     sd_downloadRate := old ≫= sd_downloadRate; sd_hash := si_hash i; sd_fileId := si_fileId i;
     sd_sectionSeller := (si_userId i, si_serverId i) |}.

Definition seller_row (r : SellerRow) p : outcome Purchase :=
  outcome_bind (from_json (sl_section r)) (fun cs : CSection =>
    let i := section_info cs in
    let g := progress_at p (sl_fileId r) in
    let f := pg_file g in
    let sd := section_seller cs (sl_price r) (dm_get (fp_sellerData f) (si_hash i)) in
    let f := set_fp_sellers (dm_set (fp_sellers f) (createSellerServerKey (si_userId i) (si_serverId i))
               (si_userId i, si_serverId i))
               (set_fp_sellerData (dm_set (fp_sellerData f) (si_hash i) sd) f) in
    Ok (put_progress_at (sl_fileId r) (set_pg_section (si_hash i) cs (set_pg_file f g)) p)).

(** On an open connection. *)
Definition populateSellerData p : sql Tables Purchase :=
  push db_exception (
    let! rows := select (fun t => List.filter (own_seller p) (seller_data t)) in
    lift_outcome (each_row seller_row rows p)).

Definition load_row (r : StateRow) p : outcome Purchase :=
  outcome_bind (from_json (sr_ware r)) (fun w : Ware =>
  outcome_bind (from_json (sr_preferences r)) (fun prefs : Prefs =>
  Ok {| ps_id := ps_id p; ps_userId := ps_userId p; ps_version := sr_version r; ps_ware := w;
        ps_preferences := prefs; ps_contract := ps_contract p;
        ps_totalMinPrice := sr_totalMinPrice r; ps_totalMedPrice := sr_totalMedPrice r;
        ps_totalMaxPrice := sr_totalMaxPrice r; ps_totalPieceCount := sr_totalPieceCount r;
        ps_totalMicroPaymentCost := sr_totalMicroPaymentCost r; ps_startDate := sr_startDate r;
        ps_remainingPieces := sr_remainingPieces r; ps_initialized := is_flag (sr_initialized r);
        ps_licenseAcquired := is_flag (sr_licenseAcquired r);
        ps_downloadStarted := is_flag (sr_downloadStarted r);
        ps_downloadPaused := is_flag (sr_downloadPaused r);
        ps_licensePurchased := is_flag (sr_licensePurchased r);
        ps_dataPurchased := is_flag (sr_dataPurchased r);
        ps_filesAssembled := is_flag (sr_filesAssembled r);
        ps_processing := is_flag (sr_processing r); ps_processorId := sr_processorId r;
        ps_progress := ps_progress p |})).

(** [populateDownloadState] on an open connection. *)
Definition populate_state p : sql Tables Purchase :=
  push db_exception (
    let! row := select (fun t => head (List.filter (own_state p) (download_states t))) in
    match row with
    | None => sraise db_not_found
    | Some r =>
        let! p := lift_outcome (load_row r p) in
        let! p := populateContract p in
        let! p := populateFileProgress p in
        let! p := populateFilePaths p in
        populateSellerData p
    end).

Definition populateDownloadState p : sql Tables Purchase :=
  push db_exception (let! _ := open_connection in populate_state p).

(** [populateDownloadStates] on an open connection: an empty list is a failure without an exception
    of its own. *)
Definition populateDownloadStates (ps : list Purchase) : sql Tables (list Purchase) :=
  push db_exception (
    match ps with
    | [] => sraise db_exception
    | _ :: _ => smap populate_state ps
    end).

(** The states of a user whose rows satisfy [q]; [blank] is the new state that is filled. *)
Definition get_states (blank : Z -> Z -> Purchase) (userId : Z) (q : StateRow -> bool)
    : sql Tables (list Purchase) :=
  push db_failure (
    let! _ := open_connection in
    let! ids := select (fun t => map sr_id
      (List.filter (fun r => (sr_userId r =? userId) && q r) (download_states t))) in
    match ids with
    | [] => sret []
    | _ :: _ => populateDownloadStates (map (blank userId) ids)
    end).

Definition getIncompleteDownloadStates blank userId : sql Tables (list Purchase) :=
  get_states blank userId (fun r => sr_filesAssembled r =? 0).

Definition getUnpurchasedDownloadStates blank userId : sql Tables (list Purchase) :=
  get_states blank userId (fun r => sr_dataPurchased r =? 0).

Definition insertAssembledFile p (fileId path : string) : sql Tables unit :=
  push db_exception (
    let! _ := open_connection in
    execute (fun t =>
      if existsb (fun r => own_file p r && String.eqb (fr_fileId r) fileId) (assembled_files t)
      then Raise constraint_error
      else Ok (set_files (assembled_files t ++
        [{| fr_dsId := ps_id p; fr_userId := ps_userId p; fr_fileId := fileId; fr_path := path |}]) t,
        tt))).

End PurchaseDb.
Arguments Purchase : clear implicits.
