(* ===== verification/PurchaseDbFacts.v ===== *)
(** What the database of purchases guarantees: a failed operation leaves no trace, and the pieces of
    a download are loaded as they were last written. *)
From stdpp Require Import countable relations.
From S2P Require Import Prelude DynMap Sql SellerPicker DownloadState Download PurchaseDb.

Local Open Scope Z_scope.
Local Open Scope sql_scope.

(** * Rows of a piece *)

Section Pieces.
Context {Ware Prefs Contract CSection T : Type} `{Json Piece}.
Implicit Types (p : Purchase Ware Prefs Contract CSection T) (l : list PieceRow) (e : PieceEntry).

(** What [updateFileProgress] makes of the table of pieces. *)
Definition apply_entries p (es : list PieceEntry) l : list PieceRow :=
  foldl (fun l e => delete_rows (replaced_by p e) l) l es ++ map (piece_row p) es.

Definition at_piece p (f : string) (i : Z) (r : PieceRow) : bool :=
  own_piece p r && String.eqb (pr_fileId r) f && (pr_index r =? i).

Definition rows_at p f i l : list PieceRow := List.filter (at_piece p f i) l.

Definition entry_at (f : string) (i : Z) e : bool :=
  String.eqb (pe_fileId e) f && (pc_index (pe_piece e) =? i).

(** The entry of a piece that was written last. *)
Definition current (f : string) (i : Z) (es : list PieceEntry) : option PieceEntry :=
  last (List.filter (entry_at f i) es).

(** A piece is assigned when no seller has it, arrives or is given back by the section it is
    assigned to, and is paid for under the section it arrived from. *)
Definition allowed (cur : option PieceEntry) e : bool :=
  let has s := match cur with
    | Some c => String.eqb (pe_status c) s && String.eqb (pe_hash c) (pe_hash e)
    | None => false end in
  if String.eqb (pe_status e) "assigned" then
    match cur with None => true | Some c => String.eqb (pe_status c) "unassigned" end
  else if String.eqb (pe_status e) "downloaded" || String.eqb (pe_status e) "unassigned"
  then has "assigned"
  else String.eqb (pe_status e) "paid" && has "downloaded".

(** The rows of a piece: what is left of sellers that gave it back, then the current one. *)
Definition settled p (cur : option PieceEntry) l : Prop :=
  match cur with
  | None => l = []
  | Some c => exists us, l = us ++ [piece_row p c] /\
      Forall (fun r => pr_status r = "unassigned") us
  end.

Lemma filter_filter {A} (f g : A -> bool) (l : list A) :
  List.filter f (List.filter g l) = List.filter (fun a => g a && f a) l.
Proof.
  induction l as [|a l IH]; [done|]. cbn. destruct (g a); cbn; [|done]. destruct (f a); congruence.
Qed.

Lemma filter_comm {A} (f g : A -> bool) (l : list A) :
  List.filter f (List.filter g l) = List.filter g (List.filter f l).
Proof. rewrite !filter_filter. apply filter_ext. intros a. apply andb_comm. Qed.

Lemma filter_none {A} (f : A -> bool) (l : list A) :
  Forall (fun a => f a = false) l -> List.filter f l = [].
Proof. induction 1 as [|a l Ha _ IH]; [done|]. cbn. by rewrite Ha. Qed.

Lemma filter_every {A} (f : A -> bool) (l : list A) :
  Forall (fun a => f a = true) l -> List.filter f l = l.
Proof. induction 1 as [|a l Ha _ IH]; [done|]. cbn. by rewrite Ha, IH. Qed.

(** An entry only takes rows of its own piece. *)
Lemma replaced_elsewhere p e f i r :
  entry_at f i e = false -> at_piece p f i r = true -> replaced_by p e r = false.
Proof.
  unfold entry_at, at_piece, replaced_by. intros He Hr.
  apply andb_prop in Hr as [[_ Hf%String.eqb_eq]%andb_prop Hi%Z.eqb_eq]. rewrite Hf, Hi.
  rewrite String.eqb_sym, (Z.eqb_sym i). destruct (own_piece p r); cbn; [|done]. by rewrite He.
Qed.

Lemma rows_at_delete p e f i l :
  rows_at p f i (delete_rows (replaced_by p e) l) =
  if entry_at f i e then List.filter (fun r => negb (replaced_by p e r)) (rows_at p f i l)
  else rows_at p f i l.
Proof.
  unfold rows_at, delete_rows. rewrite filter_comm. destruct (entry_at f i e) eqn:He; [done|].
  apply filter_every, List.Forall_forall. intros r [_ Hr]%filter_In.
  by rewrite (replaced_elsewhere p e f i r He Hr).
Qed.

Lemma at_piece_row p e f i : at_piece p f i (piece_row p e) = entry_at f i e.
Proof. unfold at_piece, own_piece, entry_at. cbn. by rewrite !Z.eqb_refl. Qed.

Lemma rows_at_deletes p es f i l :
  rows_at p f i (foldl (fun l e => delete_rows (replaced_by p e) l) l es) =
  foldl (fun l e => delete_rows (replaced_by p e) l) (rows_at p f i l) (List.filter (entry_at f i) es).
Proof.
  revert l. induction es as [|e es IH]; intros l; [done|]. cbn [foldl List.filter].
  rewrite IH, rows_at_delete. by destruct (entry_at f i e).
Qed.

Lemma rows_at_rows p es f i :
  rows_at p f i (map (piece_row p) es) = map (piece_row p) (List.filter (entry_at f i) es).
Proof.
  induction es as [|e es IH]; [done|]. cbn. rewrite at_piece_row.
  destruct (entry_at f i e); cbn; unfold rows_at in IH; by rewrite IH.
Qed.

Lemma rows_at_apply p es f i l :
  rows_at p f i (apply_entries p es l) =
  foldl (fun l e => delete_rows (replaced_by p e) l) (rows_at p f i l) (List.filter (entry_at f i) es) ++
  map (piece_row p) (List.filter (entry_at f i) es).
Proof.
  unfold apply_entries, rows_at at 1. rewrite List.filter_app.
  fold (rows_at p f i (map (piece_row p) es)). rewrite rows_at_rows. f_equal. apply rows_at_deletes.
Qed.

(** No two entries of a batch are about one piece. *)
Definition distinct (es : list PieceEntry) : Prop :=
  forall f i, (length (List.filter (entry_at f i) es) <= 1)%nat.

(** The batches a run of the download writes. *)
Inductive legal : list (list PieceEntry) -> Prop :=
| legal_none : legal []
| legal_batch hist es : legal hist -> distinct es ->
    (forall e, In e es ->
       allowed (current (pe_fileId e) (pc_index (pe_piece e)) (concat hist)) e = true) ->
    legal (hist ++ [es]).

Definition rows_after p (hist : list (list PieceEntry)) l : list PieceRow :=
  foldl (fun l es => apply_entries p es l) l hist.

Lemma entry_at_eq f i e : entry_at f i e = true -> pe_fileId e = f /\ pc_index (pe_piece e) = i.
Proof. unfold entry_at. by intros [?%String.eqb_eq ?%Z.eqb_eq]%andb_prop. Qed.

Lemma replaced_hash p e r :
  at_piece p (pe_fileId e) (pc_index (pe_piece e)) r = true ->
  replaced_by p e r = String.eqb (pr_hash r) (pe_hash e) && negb (String.eqb (pr_status r) "paid").
Proof. unfold at_piece, replaced_by. by intros ->. Qed.

Lemma delete_unassigned p e l :
  Forall (fun r => pr_status r = "unassigned") l ->
  Forall (fun r => pr_status r = "unassigned") (delete_rows (replaced_by p e) l).
Proof.
  rewrite !List.Forall_forall. intros Hl r [Hr _]%filter_In. by apply Hl.
Qed.

(** An allowed entry leaves rows of sellers that gave the piece back, and its own. *)
Lemma allowed_settled p cur e l :
  allowed cur e = true -> settled p cur l ->
  Forall (fun r => at_piece p (pe_fileId e) (pc_index (pe_piece e)) r = true) l ->
  settled p (Some e) (delete_rows (replaced_by p e) l ++ [piece_row p e]).
Proof.
  intros Ha Hs Hl. exists (delete_rows (replaced_by p e) l). split; [done|].
  destruct cur as [c|]; [|by rewrite Hs]. destruct Hs as (us & -> & Hu).
  unfold allowed in Ha. destruct (String.eqb (pe_status e) "assigned").
  { apply delete_unassigned, Forall_app. split; [done|]. apply Forall_singleton.
    cbn. by apply String.eqb_eq. }
  apply Forall_app in Hl as [_ Hc]. apply Forall_cons_1 in Hc as [Hc _].
  assert (replaced_by p e (piece_row p c) = true) as Hr.
  { rewrite (replaced_hash p e (piece_row p c) Hc). cbn.
    destruct (String.eqb (pe_status e) "downloaded" || String.eqb (pe_status e) "unassigned");
      [|apply andb_prop in Ha as [_ Ha]];
      apply andb_prop in Ha as [->%String.eqb_eq ->]; done. }
  unfold delete_rows. rewrite List.filter_app. cbn. rewrite Hr. cbn. rewrite app_nil_r.
  by apply delete_unassigned.
Qed.

Lemma current_app f i es es' :
  current f i (es ++ es') = match current f i es' with Some e => Some e | None => current f i es end.
Proof.
  unfold current. rewrite List.filter_app, last_app.
  by destruct (last (List.filter (entry_at f i) es')).
Qed.

Lemma rows_at_all p f i l : Forall (fun r => at_piece p f i r = true) (rows_at p f i l).
Proof. apply List.Forall_forall. by intros r [_ Hr]%filter_In. Qed.

Lemma rows_at_own p f i l : List.filter (own_piece p) l = [] -> rows_at p f i l = [].
Proof.
  intros E. unfold rows_at. rewrite (filter_ext (at_piece p f i)
    (fun r => own_piece p r && (String.eqb (pr_fileId r) f && (pr_index r =? i)))).
  - by rewrite <- filter_filter, E.
  - intros r. unfold at_piece. by rewrite andb_assoc.
Qed.

(** After a legal history the rows of every piece are settled. *)
Lemma legal_settled p hist f i l0 :
  legal hist -> List.filter (own_piece p) l0 = [] ->
  settled p (current f i (concat hist)) (rows_at p f i (rows_after p hist l0)).
Proof.
  intros Hl H0. induction Hl as [|hist es Hl IH Hd Ha]; [by apply rows_at_own|].
  unfold rows_after. rewrite foldl_app. cbn [foldl]. fold (rows_after p hist l0).
  rewrite concat_app. cbn [concat]. rewrite app_nil_r, current_app, rows_at_apply.
  specialize (Hd f i). unfold current at 1. pose proof (rows_at_all p f i (rows_after p hist l0)) as Hr.
  destruct (List.filter (entry_at f i) es) as [|e [|e' rest]] eqn:E; cbn in *; [|
    |exfalso; lia].
  - by rewrite app_nil_r.
  - assert (In e (List.filter (entry_at f i) es)) as [Hin Hk]%filter_In by (rewrite E; by left).
    destruct (entry_at_eq f i e Hk) as [<- <-]. eapply allowed_settled; [by apply Ha|done|done].
Qed.

Lemma set_pieces_set l l' t : set_pieces l (set_pieces l' t) = set_pieces l t.
Proof. done. Qed.

Lemma foldl_set_pieces {A} (f : A -> list PieceRow -> list PieceRow) (as_ : list A) t :
  foldl (fun t a => set_pieces (f a (file_pieces t)) t) t as_ =
  set_pieces (foldl (fun l a => f a l) (file_pieces t) as_) t.
Proof.
  revert t. induction as_ as [|a as_ IH]; intros t; [by destruct t|]. cbn [foldl]. rewrite IH. done.
Qed.

Lemma foldl_snoc_map {A B} (g : A -> B) (as_ : list A) (k : list B) :
  foldl (fun k a => k ++ [g a]) k as_ = k ++ map g as_.
Proof.
  revert k. induction as_ as [|a as_ IH]; intros k; cbn; [by rewrite app_nil_r|].
  rewrite IH. by rewrite <- app_assoc.
Qed.

(** Without a fault, the entries are written. *)
Lemma updateFileProgress_ok p es t :
  updateFileProgress p es (quiet t) =
  (Ok tt, quiet (set_pieces (apply_entries p es (file_pieces t)) t)).
Proof.
  apply push_quiet. rewrite open_quiet. apply transaction_quiet. erewrite bind_quiet;
    [|apply (seach_update (fun e t => set_pieces (delete_rows (replaced_by p e) (file_pieces t)) t))].
  rewrite (seach_update (fun e t => set_pieces (file_pieces t ++ [piece_row p e]) t)).
  rewrite (foldl_set_pieces (fun e l => delete_rows (replaced_by p e) l)).
  rewrite (foldl_set_pieces (fun e l => l ++ [piece_row p e])).
  rewrite foldl_snoc_map. by rewrite set_pieces_set.
Qed.

(** Every row of the download was written by an entry. *)
Lemma rows_after_own p hist l0 :
  List.filter (own_piece p) l0 = [] ->
  forall r, In r (rows_after p hist l0) -> own_piece p r = true ->
  exists e, In e (concat hist) /\ r = piece_row p e.
Proof.
  intros H0. induction hist as [|es hist IH] using rev_ind.
  { intros r Hr Ho. assert (In r (List.filter (own_piece p) l0)) as Hf by (by apply filter_In).
    by rewrite H0 in Hf. }
  unfold rows_after. rewrite foldl_app. cbn [foldl]. fold (rows_after p hist l0). intros r Hr Ho.
  rewrite concat_app. apply in_app_or in Hr as [Hr|Hr].
  - assert (In r (rows_after p hist l0)) as Hr'.
    { clear - Hr. revert Hr. generalize (rows_after p hist l0). induction es as [|e es IHe]; [done|].
      intros l Hr%IHe. by apply filter_In in Hr as [Hr _]. }
    destruct (IH r Hr' Ho) as (e & He & ->). exists e. split; [|done]. apply in_or_app. by left.
  - apply in_map_iff in Hr as (e & <- & He). exists e. split; [|done]. apply in_or_app. right.
    cbn. by rewrite app_nil_r.
Qed.

(** The current entry of a piece is one of the history. *)
Lemma current_in f i es e : current f i es = Some e -> In e es /\ entry_at f i e = true.
Proof.
  unfold current. intros [l E]%last_Some. apply filter_In. rewrite E. apply in_or_app. right. by left.
Qed.

(** A row with another status than unassigned is the row of the current entry. *)
Lemma held_row p hist l0 r :
  legal hist -> List.filter (own_piece p) l0 = [] ->
  In r (rows_after p hist l0) -> own_piece p r = true -> pr_status r <> "unassigned" ->
  exists e, current (pr_fileId r) (pr_index r) (concat hist) = Some e /\ r = piece_row p e.
Proof.
  intros Hl H0 Hr Ho Hs. pose proof (legal_settled p hist (pr_fileId r) (pr_index r) l0 Hl H0) as Hst.
  assert (In r (rows_at p (pr_fileId r) (pr_index r) (rows_after p hist l0))) as Hin.
  { apply filter_In. split; [done|]. unfold at_piece. by rewrite Ho, String.eqb_refl, Z.eqb_refl. }
  destruct (current _ _ _) as [c|]; cbn in Hst; [|by rewrite Hst in Hin].
  destruct Hst as (us & E & Hu). rewrite E in Hin. exists c. split; [done|].
  apply in_app_or in Hin as [Hin|[<-|[]]]; [|done].
  rewrite List.Forall_forall in Hu. by specialize (Hu r Hin).
Qed.
End Pieces.

(** * Arrays and maps *)

Lemma array_set_default {A} (d : A) n a l m :
  default d (array_set d n a l !! m) = if Nat.eqb m n then a else default d (l !! m).
Proof.
  revert l m. induction n as [|n IH]; intros [|x l] [|m]; cbn; try done; by rewrite IH.
Qed.

Lemma array_set_length {A} (d : A) n a l : length (array_set d n a l) = Nat.max (S n) (length l).
Proof. revert l. induction n as [|n IH]; intros [|x l]; cbn; [done|done| |]; rewrite IH; cbn; lia. Qed.

Lemma repeat_lookup {A} (a : A) n i : (i < n)%nat -> repeat a n !! i = Some a.
Proof. revert i. induction n as [|n IH]; intros [|i] Hi; [lia|lia|done|]. apply IH. lia. Qed.

Lemma dm_get_map {A B} (F : A -> B) (m : dmap A) k :
  dm_get (map (fun kg => (kg.1, F kg.2)) m) k = F <$> dm_get m k.
Proof. induction m as [|[k' a] m IH]; cbn; [done|]. by destruct (String.eqb _ _). Qed.

Lemma dm_get_or_set {A} (m : dmap A) k k' v d :
  dm_get_or (dm_set m k v) k' d = if String.eqb k' k then v else dm_get_or m k' d.
Proof.
  unfold dm_get_or. destruct (String.eqb_spec k' k) as [->|Hk]; [by rewrite dm_get_set_eq|].
  by rewrite dm_get_set_ne.
Qed.

(** * Loading the pieces *)

Section Load.
Context {Ware Prefs Contract CSection T : Type} `{Json Piece}.
Implicit Types (p : Purchase Ware Prefs Contract CSection T) (r : PieceRow).

(** A row that can be loaded. *)
Definition good r : Prop :=
  (exists x : Piece, from_json (pr_piece r) = Ok x) /\ 0 <= pr_index r /\
  (pr_status r = "paid" \/ pr_status r = "assigned" \/ pr_status r = "downloaded" \/
   pr_status r = "unassigned").

Definition row_piece r : option Piece :=
  match from_json (pr_piece r) with Ok x => Some x | Raise _ => None end.

(** The pieces of the rows of file [f] that have status [s] under section [h]. *)
Definition listed (s f h : string) (l : list PieceRow) : list Piece :=
  omap (fun r => if String.eqb (pr_status r) s && String.eqb (pr_fileId r) f && String.eqb (pr_hash r) h
                 then row_piece r else None) l.

(** The last row of a piece that satisfies [q]. *)
Definition last_at (q : PieceRow -> bool) (f : string) (i : nat) (l : list PieceRow) : option PieceRow :=
  last (List.filter (fun r => q r && String.eqb (pr_fileId r) f && Nat.eqb i (Z.to_nat (pr_index r))) l).

Definition assigned_of p f h : list Piece := dm_get_or (fp_assigned (pg_file (progress_at p f))) h [].

Definition downloaded_of p f h : list Piece :=
  dm_get_or (fp_downloaded (pg_file (progress_at p f))) h [].

Definition paid_of p f (i : nat) : option Piece := default None (pg_paid (progress_at p f) !! i).

Definition found_of (found : dmap (list Found)) f (i : nat) : Found :=
  default not_found (dm_get_or found f [] !! i).

Definition is_paid r : bool := String.eqb (pr_status r) "paid".

Lemma progress_at_put p f f' g :
  progress_at (put_progress_at f' g p) f = if String.eqb f f' then g else progress_at p f.
Proof. unfold progress_at, put_progress_at. cbn. apply dm_get_or_set. Qed.

(** What stays as it is while rows are loaded. *)
Definition frame (g : Progress T CSection) :=
  (fp_fileId (pg_file g), fp_contentSize (pg_file g), fp_pool (pg_file g), fp_unassigned (pg_file g)).

(** What the rows of a list add to the views. *)
Record loaded (l : list PieceRow) p p' (found found' : dmap (list Found)) : Prop := {
  ld_assigned f h : assigned_of p' f h = assigned_of p f h ++ listed "assigned" f h l;
  ld_downloaded f h : downloaded_of p' f h = downloaded_of p f h ++ listed "downloaded" f h l;
  ld_paid f i : paid_of p' f i =
    match last_at is_paid f i l with Some r => row_piece r | None => paid_of p f i end;
  ld_found f i : fd_index (found_of found' f i) =
    match last_at (fun _ => true) f i l with
    | Some r => negb (String.eqb (pr_status r) "unassigned")
    | None => fd_index (found_of found f i) end;
  ld_frame f : frame (progress_at p' f) = frame (progress_at p f);
  ld_keys f : dm_has (ps_progress p) f = true -> dm_has (ps_progress p') f = true;
  ld_length f n : (forall r, In r l -> pr_fileId r = f -> pr_index r < Z.of_nat n) ->
    (length (dm_get_or found f []) <= n)%nat -> (length (dm_get_or found' f []) <= n)%nat
}.

Lemma found_step found r x f i :
  fd_index (found_of (dm_set found (pr_fileId r) (array_set not_found (Z.to_nat (pr_index r))
    (found_row (pr_status r) x) (dm_get_or found (pr_fileId r) []))) f i) =
  match last_at (fun _ => true) f i [r] with
  | Some r => negb (String.eqb (pr_status r) "unassigned")
  | None => fd_index (found_of found f i) end.
Proof.
  unfold found_of, last_at. rewrite dm_get_or_set. cbn.
  rewrite (String.eqb_sym (pr_fileId r)). destruct (String.eqb_spec f (pr_fileId r)) as [->|]; [|done].
  rewrite array_set_default. cbn. by destruct (Nat.eqb i _).
Qed.

Lemma found_length found r x f n :
  0 <= pr_index r -> (pr_fileId r = f -> pr_index r < Z.of_nat n) ->
  (length (dm_get_or found f []) <= n)%nat ->
  (length (dm_get_or (dm_set found (pr_fileId r) (array_set not_found (Z.to_nat (pr_index r)) x
     (dm_get_or found (pr_fileId r) []))) f []) <= n)%nat.
Proof.
  intros Hi Hn Hl. rewrite dm_get_or_set.
  destruct (String.eqb_spec f (pr_fileId r)) as [->|]; [|done].
  rewrite array_set_length. specialize (Hn eq_refl). lia.
Qed.

Ltac row_view :=
  unfold assigned_of, downloaded_of, paid_of, frame, listed, last_at, is_paid, row_piece; intros;
  rewrite ?progress_at_put; cbn.

(** A row that can be loaded is. *)
Lemma each_piece_cons r l found p :
  good r -> exists found' p', each_piece (r :: l) found p = each_piece l found' p' /\
    loaded [r] p p' found found'.
Proof.
  intros ((x & Ex) & Hi & Hs). cbn [each_piece]. rewrite Ex. cbn [outcome_bind].
  assert (exists g, place_piece (pr_status r) (pr_hash r) (pr_index r) x (progress_at p (pr_fileId r))
    = Ok g) as [g Eg].
  { unfold place_piece. by destruct Hs as [-> | [-> | [-> | ->]]]; eexists. }
  rewrite Eg. cbn [outcome_bind]. do 2 eexists. split; [reflexivity|].
  split; [| | |intros; apply found_step| | |intros f n Hn; apply found_length; [done|]; apply Hn; by left].
  all: unfold place_piece in Eg.
  all: destruct Hs as [Hs | [Hs | [Hs | Hs]]]; rewrite Hs in Eg; cbn in Eg; injection Eg as <-.
  all: try (intros f; unfold put_progress_at; cbn; rewrite dm_has_set; by intros ->; apply orb_true_r).
  all: row_view; rewrite ?Hs, ?Ex; cbn; rewrite ?(String.eqb_sym (pr_fileId r)).
  all: destruct (String.eqb_spec f (pr_fileId r)) as [->|]; cbn; rewrite ?app_nil_r; try done.
  all: try match goal with |- default [] (dm_get ?m ?k) = _ =>
    change (default [] (dm_get m k)) with (dm_get_or m k []) end.
  all: unfold append_at; rewrite ?dm_get_or_set, ?array_set_default, ?(String.eqb_sym (pr_hash r)).
  all: try (destruct (String.eqb_spec h (pr_hash r)) as [->|]; cbn; by rewrite ?app_nil_r).
  by destruct (Nat.eqb i _); cbn; rewrite ?Ex.
Qed.

Lemma last_at_cons q f i r l :
  last_at q f i (r :: l) = match last_at q f i l with Some r => Some r | None => last_at q f i [r] end.
Proof.
  unfold last_at. change (r :: l) with ([r] ++ l). rewrite List.filter_app, last_app.
  by destruct (last (List.filter _ l)).
Qed.

Lemma listed_cons s f h r l : listed s f h (r :: l) = listed s f h [r] ++ listed s f h l.
Proof. unfold listed. cbn. by repeat case_match. Qed.

Lemma each_piece_loaded l found p :
  Forall good l -> exists found' p', each_piece l found p = Ok (found', p') /\ loaded l p p' found found'.
Proof.
  intros Hl. revert found p. induction Hl as [|r l Hr Hl IH]; intros found p.
  { exists found, p. split; [done|]. split; intros; cbn; rewrite ?app_nil_r; done. }
  destruct (each_piece_cons r l found p Hr) as (found1 & p1 & -> & H1).
  destruct (IH found1 p1) as (found2 & p2 & -> & H2). exists found2, p2. split; [done|].
  split; intros.
  - rewrite (ld_assigned _ _ _ _ _ H2), (ld_assigned _ _ _ _ _ H1), (listed_cons _ _ _ r l).
    by rewrite app_assoc.
  - rewrite (ld_downloaded _ _ _ _ _ H2), (ld_downloaded _ _ _ _ _ H1), (listed_cons _ _ _ r l).
    by rewrite app_assoc.
  - rewrite (ld_paid _ _ _ _ _ H2), (ld_paid _ _ _ _ _ H1), (last_at_cons _ f i r l).
    by destruct (last_at _ f i l).
  - rewrite (ld_found _ _ _ _ _ H2), (ld_found _ _ _ _ _ H1), (last_at_cons _ f i r l).
    by destruct (last_at _ f i l).
  - by rewrite (ld_frame _ _ _ _ _ H2), (ld_frame _ _ _ _ _ H1).
  - apply (ld_keys _ _ _ _ _ H2), (ld_keys _ _ _ _ _ H1). done.
  - apply (ld_length _ _ _ _ _ H2); [intros; eapply H0; [by right|done]|].
    apply (ld_length _ _ _ _ _ H1); [|done]. intros r' [<-|[]]. apply H0. by left.
Qed.

(** ** Unassigned pieces *)

Lemma new_pieces_index (sp : SellerPool T) size i0 ds x :
  In x (new_pieces sp size i0 ds) ->
  exists n d, ds !! n = Some d /\ fd_index d = false /\ pc_index x = i0 + Z.of_nat n /\
    pc_bfpId x = sp_bfpId sp /\ pc_path x = fd_path d.
Proof.
  revert i0. induction ds as [|d ds IH]; intros i0; cbn; [done|].
  destruct (fd_index d) eqn:Ed.
  - intros (n & d' & ? & ? & Hx & ?)%IH. exists (S n), d'. split; [done|]. split; [done|].
    split; [lia|done].
  - intros [<-|(n & d' & ? & ? & Hx & ?)%IH]; [exists 0%nat, d; cbn; split_and!; try done; lia|].
    exists (S n), d'. split; [done|]. split; [done|]. split; [lia|done].
Qed.

Lemma new_pieces_every (sp : SellerPool T) size i0 ds n d :
  ds !! n = Some d -> fd_index d = false ->
  exists x, In x (new_pieces sp size i0 ds) /\ pc_index x = i0 + Z.of_nat n.
Proof.
  revert i0 n. induction ds as [|d' ds IH]; intros i0 [|n]; cbn; try done.
  - intros [= ->] ->. eexists. split; [by left|]. cbn. lia.
  - intros Hn Hd. destruct (IH (i0 + 1) n Hn Hd) as (x & Hx & Ei). exists x. split; [|lia].
    destruct (fd_index d'); [done|by right].
Qed.

Lemma fill_found_lookup n ds i :
  (length ds <= Z.to_nat n)%nat -> (i < Z.to_nat n)%nat ->
  fill_found n ds !! i = Some (default not_found (ds !! i)).
Proof.
  intros Hl Hi. unfold fill_found. destruct (decide (i < length ds)%nat) as [Hd|Hd].
  - rewrite lookup_app_l by done. by destruct (lookup_lt_is_Some_2 ds i Hd) as [d ->].
  - rewrite lookup_app_r by lia. rewrite (lookup_ge_None_2 ds i) by lia. cbn.
    apply repeat_lookup. lia.
Qed.

(** ** Pools *)

Context `{Json (SellerPool T)}.

(** The row of a pool, with what the cost and the budget of its file are. *)
Definition pool_row_of p (cost budget : string -> string) (sp : SellerPool T) : PoolRow :=
  {| pl_dsId := ps_id p; pl_userId := ps_userId p; pl_fileId := sp_fileId sp; pl_pool := to_json sp;
     pl_microPaymentCost := cost (sp_fileId sp); pl_budget := budget (sp_fileId sp) |}.

(** What loading pools leaves alone, and what it says of the files of the pools. *)
Record pooled (sps : list (SellerPool T)) p p' : Prop := {
  po_assigned f h : assigned_of p' f h = assigned_of p f h;
  po_downloaded f h : downloaded_of p' f h = downloaded_of p f h;
  po_paid f i : paid_of p f i = None -> paid_of p' f i = None;
  po_frame f : f ∉ map sp_fileId sps -> frame (progress_at p' f) = frame (progress_at p f);
  po_keys f : dm_has (ps_progress p) f = true -> dm_has (ps_progress p') f = true;
  po_pool sp : In sp sps -> dm_has (ps_progress p') (sp_fileId sp) = true /\
    frame (progress_at p' (sp_fileId sp)) =
      (sp_fileId sp, sp_contentSize sp, sp, fp_unassigned (pg_file (progress_at p (sp_fileId sp))));
  po_own : ps_id p' = ps_id p /\ ps_userId p' = ps_userId p
}.

Lemma pool_row_pooled p q cost budget sp `{!JsonLaws (SellerPool T)} :
  exists p', pool_row (pool_row_of q cost budget sp) p = Ok p' /\ pooled [sp] p p'.
Proof.
  unfold pool_row. cbn [pl_pool pool_row_of]. rewrite json_back. cbn [outcome_bind].
  eexists. split; [reflexivity|]. split; try done.
  1-3: row_view; destruct (String.eqb_spec f (sp_fileId sp)) as [->|]; done.
  - intros f Hf. rewrite progress_at_put. cbn [pl_fileId pool_row_of].
    destruct (String.eqb_spec f (sp_fileId sp)) as [->|]; [|done]. destruct Hf. left.
  - intros f Hf. unfold put_progress_at. cbn. rewrite dm_has_set, Hf. apply orb_true_r.
  - intros sp' [<-|[]]. unfold put_progress_at at 1. cbn [ps_progress set_ps_progress].
    rewrite dm_has_set, progress_at_put. cbn [pl_fileId pool_row_of]. by rewrite String.eqb_refl.
Qed.

Lemma pools_pooled q cost budget sps p `{!JsonLaws (SellerPool T)} :
  NoDup (map sp_fileId sps) ->
  exists p', each_row pool_row (map (pool_row_of q cost budget) sps) p = Ok p' /\ pooled sps p p'.
Proof.
  revert p. induction sps as [|sp sps IH]; intros p.
  { exists p. split; [done|]. split; done. }
  cbn [map]. intros [Hn Hd]%NoDup_cons. cbn [each_row].
  destruct (pool_row_pooled p q cost budget sp) as (p1 & -> & P1). cbn [outcome_bind].
  destruct (IH p1 Hd) as (p2 & -> & P2). exists p2. split; [done|]. split.
  - intros f h. by rewrite (po_assigned _ _ _ P2), (po_assigned _ _ _ P1).
  - intros f h. by rewrite (po_downloaded _ _ _ P2), (po_downloaded _ _ _ P1).
  - intros f i Hp. by apply (po_paid _ _ _ P2), (po_paid _ _ _ P1).
  - intros f [Hf Hs]%not_elem_of_cons. rewrite (po_frame _ _ _ P2) by done.
    apply (po_frame _ _ _ P1). cbn. by intros ?%list_elem_of_singleton.
  - intros f Hf. by apply (po_keys _ _ _ P2), (po_keys _ _ _ P1).
  - intros sp' [<-|Hin].
    + destruct (po_pool _ _ _ P1 sp) as [Hk Hf]; [by left|].
      split; [by apply (po_keys _ _ _ P2)|]. by rewrite (po_frame _ _ _ P2).
    + destruct (po_pool _ _ _ P2 sp' Hin) as [Hk Hf]. split; [done|]. rewrite Hf.
      assert (sp_fileId sp' <> sp_fileId sp) as Hne.
      { intros E. apply Hn. rewrite <- E. apply list_elem_of_In, in_map. done. }
      assert (frame (progress_at p1 (sp_fileId sp')) = frame (progress_at p (sp_fileId sp'))) as Ef.
      { apply (po_frame _ _ _ P1). cbn. by intros ?%list_elem_of_singleton. }
      by injection Ef as _ _ _ ->.
  - destruct (po_own _ _ _ P2) as [-> ->]. apply (po_own _ _ _ P1).
Qed.

(** ** The whole progress *)

Definition with_unassigned (found : dmap (list Found)) p : Purchase Ware Prefs Contract CSection T :=
  set_ps_progress (map (fun kg => (kg.1, append_unassigned found kg.2)) (ps_progress p)) p.

Lemma progress_at_unassigned found p f :
  progress_at (with_unassigned found p) f =
  if dm_has (ps_progress p) f then append_unassigned found (progress_at p f) else progress_at p f.
Proof.
  unfold progress_at, with_unassigned, dm_get_or, dm_has. cbn [ps_progress set_ps_progress].
  rewrite dm_get_map. by destruct (dm_get (ps_progress p) f).
Qed.

Lemma views_unassigned found p f :
  (forall h, assigned_of (with_unassigned found p) f h = assigned_of p f h) /\
  (forall h, downloaded_of (with_unassigned found p) f h = downloaded_of p f h) /\
  (forall i, paid_of (with_unassigned found p) f i = paid_of p f i).
Proof.
  unfold assigned_of, downloaded_of, paid_of. rewrite progress_at_unassigned.
  by destruct (dm_has (ps_progress p) f).
Qed.

(** The unassigned pieces of a file. *)
Definition unassigned_of p f : list Piece := fp_unassigned (pg_file (progress_at p f)).

(** What is loaded from pools [sps] and rows [l]. *)
Record restored (sps : list (SellerPool T)) (l : list PieceRow) p : Prop := {
  rs_assigned f h : assigned_of p f h = listed "assigned" f h l;
  rs_downloaded f h : downloaded_of p f h = listed "downloaded" f h l;
  rs_paid f i : paid_of p f i = last_at is_paid f i l ≫= row_piece;
  rs_unassigned sp i : In sp sps -> 0 <= sp_pieceCount sp < 2 ^ 31 ->
    (forall r, In r l -> pr_fileId r = sp_fileId sp -> pr_index r < sp_pieceCount sp) ->
    (exists x, In x (unassigned_of p (sp_fileId sp)) /\ pc_index x = i) <->
    0 <= i < sp_pieceCount sp /\
    match last_at (fun _ => true) (sp_fileId sp) (Z.to_nat i) l with
    | Some r => pr_status r = "unassigned" | None => True end
}.

(** The indices of new pieces are those of the found pieces without one. *)
Lemma new_pieces_indices (sp : SellerPool T) size n found i :
  0 <= n -> (length found <= Z.to_nat n)%nat ->
  (exists x, In x (new_pieces sp size 0 (fill_found n found)) /\ pc_index x = i) <->
  0 <= i < n /\ fd_index (default not_found (found !! Z.to_nat i)) = false.
Proof.
  intros Hn Hl. split.
  - intros (x & Hx & <-). apply new_pieces_index in Hx as (k & d & Hd & Hi & Hx & _).
    assert (k < Z.to_nat n)%nat as Hlt.
    { apply lookup_lt_Some in Hd. unfold fill_found in Hd. rewrite length_app, repeat_length in Hd. lia. }
    rewrite fill_found_lookup in Hd by done. injection Hd as <-. rewrite Hx. split; [lia|].
    by replace (Z.to_nat (0 + Z.of_nat k)) with k by lia.
  - intros [Hi Hm]. destruct (new_pieces_every sp size 0 (fill_found n found) (Z.to_nat i)
      (default not_found (found !! Z.to_nat i))) as (x & Hx & Ei);
      [apply fill_found_lookup; lia|done|]. exists x. split; [done|lia].
Qed.

Lemma unassigned_restored sps l p0 p1 p2 found :
  pooled sps p0 p1 -> loaded l p1 p2 [] found -> ps_progress p0 = [] ->
  restored sps l (with_unassigned found p2).
Proof.
  intros Po Ld Hnew.
  assert (forall f, progress_at p0 f = new_progress) as Hn
    by (intros f; unfold progress_at; by rewrite Hnew).
  split.
  - intros f h. destruct (views_unassigned found p2 f) as (-> & _ & _).
    rewrite (ld_assigned _ _ _ _ _ Ld), (po_assigned _ _ _ Po). unfold assigned_of. by rewrite Hn.
  - intros f h. destruct (views_unassigned found p2 f) as (_ & -> & _).
    rewrite (ld_downloaded _ _ _ _ _ Ld), (po_downloaded _ _ _ Po). unfold downloaded_of. by rewrite Hn.
  - intros f i. destruct (views_unassigned found p2 f) as (_ & _ & ->).
    rewrite (ld_paid _ _ _ _ _ Ld). destruct (last_at is_paid f i l); [done|].
    apply (po_paid _ _ _ Po). unfold paid_of. by rewrite Hn.
  - intros sp i Hin Hc Hr. destruct (po_pool _ _ _ Po sp Hin) as [Hk Hf].
    pose proof (ld_frame _ _ _ _ _ Ld (sp_fileId sp)) as Hg. rewrite Hf, Hn in Hg. cbn in Hg.
    unfold unassigned_of. rewrite progress_at_unassigned, (ld_keys _ _ _ _ _ Ld _ Hk).
    injection Hg as E1 E2 E3 E4. unfold append_unassigned.
    cbn [pg_file set_pg_file fp_unassigned set_fp_unassigned].
    rewrite E1, E2, E3, E4. cbn [app]. rewrite i32_small by lia. rewrite new_pieces_indices; [|lia|].
    + fold (found_of found (sp_fileId sp) (Z.to_nat i)). rewrite (ld_found _ _ _ _ _ Ld).
      destruct (last_at _ _ _ l); [by rewrite negb_false_iff, String.eqb_eq|].
      unfold found_of. cbn [dm_get_or dm_get default]. rewrite lookup_nil. cbn. tauto.
    + apply (ld_length _ _ _ _ _ Ld); [|cbn; lia]. intros r Hi Ef. specialize (Hr r Hi Ef). lia.
Qed.

Lemma populateFileProgress_restored p t cost budget sps `{!JsonLaws (SellerPool T)} :
  List.filter (own_pool p) (seller_pools t) = map (pool_row_of p cost budget) sps ->
  NoDup (map sp_fileId sps) -> Forall good (List.filter (own_piece p) (file_pieces t)) ->
  exists p', populateFileProgress p (quiet t) = (Ok p', quiet t) /\
    restored sps (List.filter (own_piece p) (file_pieces t)) p'.
Proof.
  intros Ep Hd Hg. destruct (pools_pooled p cost budget sps (set_ps_progress [] p) Hd) as (p1 & E1 & Po).
  destruct (each_piece_loaded (List.filter (own_piece p) (file_pieces t)) [] p1 Hg)
    as (found & p2 & E2 & Ld).
  exists (with_unassigned found p2). split; [|exact (unassigned_restored _ _ _ _ _ _ Po Ld eq_refl)].
  apply push_quiet. destruct (po_own _ _ _ Po) as [Ei Eu]. cbn in Ei, Eu.
  assert (populateSellerPools (set_ps_progress [] p) (quiet t) = (Ok p1, quiet t)) as E0.
  { apply push_quiet. rewrite (bind_quiet _ _ _ _ _ (select_quiet _ t)).
    change (List.filter (own_pool _) (seller_pools t)) with (List.filter (own_pool p) (seller_pools t)).
    by rewrite Ep, E1. }
  rewrite (bind_quiet _ _ _ _ _ E0), (bind_quiet _ _ _ _ _ (select_quiet _ t)).
  rewrite (filter_ext (own_piece p1) (own_piece p)) by (intros r; unfold own_piece; by rewrite Ei, Eu).
  by rewrite E2.
Qed.
End Load.

(** * Loading what was written *)

Section Restore.
Context {Ware Prefs Contract CSection T : Type} `{JsonLaws Piece} `{JsonLaws (SellerPool T)}.
Implicit Types (p : Purchase Ware Prefs Contract CSection T) (e : PieceEntry).

(** The entries are about pieces of the pools. *)
Definition within (sps : list (SellerPool T)) (es : list PieceEntry) : Prop :=
  forall e, In e es -> exists sp, In sp sps /\ sp_fileId sp = pe_fileId e /\
    0 <= pc_index (pe_piece e) < sp_pieceCount sp.

Lemma last_at_rows p q f i (l : list PieceRow) :
  0 <= i -> (forall r, In r l -> own_piece p r = true -> 0 <= pr_index r) ->
  last_at q f (Z.to_nat i) (List.filter (own_piece p) l) = last (List.filter q (rows_at p f i l)).
Proof.
  intros Hi Hl. unfold last_at, rows_at. f_equal. rewrite !filter_filter.
  apply List.filter_ext_in. intros r Hr. unfold at_piece.
  destruct (own_piece p r) eqn:Ho; [|done]. cbn. specialize (Hl r Hr Ho).
  replace (Nat.eqb (Z.to_nat i) (Z.to_nat (pr_index r))) with (pr_index r =? i).
  - destruct (q r), (String.eqb (pr_fileId r) f), (pr_index r =? i); done.
  - destruct (Z.eqb_spec (pr_index r) i) as [->|Hne]; symmetry; [apply Nat.eqb_refl|].
    apply Nat.eqb_neq. lia.
Qed.

Section History.
Context p (hist : list (list PieceEntry)) (l0 : list PieceRow).
Context (Hlegal : legal hist) (Hfresh : List.filter (own_piece p) l0 = []).
Context (Hindex : forall e, In e (concat hist) -> 0 <= pc_index (pe_piece e)).

Let rows : list PieceRow := List.filter (own_piece p) (rows_after p hist l0).

Lemma rows_index r : In r (rows_after p hist l0) -> own_piece p r = true -> 0 <= pr_index r.
Proof. intros Hr Ho. destruct (rows_after_own p hist l0 Hfresh r Hr Ho) as (e & He & ->). by apply Hindex. Qed.

Lemma row_piece_entry e : row_piece (piece_row p e) = Some (pe_piece e).
Proof. unfold row_piece. cbn. by rewrite json_back. Qed.

(** The row a piece was written with last. *)
Lemma last_row f i :
  0 <= i -> last_at (fun _ => true) f (Z.to_nat i) rows = piece_row p <$> current f i (concat hist).
Proof.
  intros Hi. unfold rows. rewrite last_at_rows by (done || apply rows_index).
  rewrite filter_every by (by apply List.Forall_forall).
  pose proof (legal_settled p hist f i l0 Hlegal Hfresh) as Hs.
  destruct (current f i (concat hist)) as [c|]; cbn in Hs; [|by rewrite Hs].
  destruct Hs as (us & -> & _). by rewrite last_snoc.
Qed.

Lemma last_paid f i x :
  0 <= i -> last_at is_paid f (Z.to_nat i) rows ≫= row_piece = Some x <->
  exists e, current f i (concat hist) = Some e /\ pe_status e = "paid" /\ pe_piece e = x.
Proof.
  intros Hi. unfold rows. rewrite last_at_rows by (done || apply rows_index).
  pose proof (legal_settled p hist f i l0 Hlegal Hfresh) as Hs.
  destruct (current f i (concat hist)) as [c|]; cbn in Hs.
  - destruct Hs as (us & -> & Hu). rewrite List.filter_app, (filter_none is_paid us).
    + cbn. unfold is_paid. cbn. destruct (String.eqb_spec (pe_status c) "paid"); cbn.
      * rewrite row_piece_entry. naive_solver.
      * naive_solver.
    + eapply Forall_impl; [exact Hu|]. intros r Er. unfold is_paid. by rewrite Er.
  - rewrite Hs. cbn. naive_solver.
Qed.

(** The pieces with a status other than unassigned. *)
Lemma listed_current st f h x :
  st <> "unassigned" ->
  In x (listed st f h rows) <->
  exists e, current f (pc_index x) (concat hist) = Some e /\ pe_status e = st /\ pe_hash e = h /\
    pe_piece e = x.
Proof.
  intros Hst. unfold listed. rewrite <- list_elem_of_In, list_elem_of_omap. split.
  - intros (r & [Hr Ho]%list_elem_of_In%filter_In & E). case_match eqn:Em; [|done].
    apply andb_prop in Em as [[<-%String.eqb_eq <-%String.eqb_eq]%andb_prop <-%String.eqb_eq].
    destruct (held_row p hist l0 r Hlegal Hfresh Hr Ho Hst) as (e & He & ->).
    rewrite row_piece_entry in E. injection E as <-. by exists e.
  - intros (e & He & <- & <- & <-). exists (piece_row p e).
    pose proof (current_in _ _ _ _ He) as [_ Hk]. destruct (entry_at_eq _ _ _ Hk) as [<- _].
    cbn. rewrite !String.eqb_refl. cbn. rewrite row_piece_entry. split; [|done].
    apply list_elem_of_In. unfold rows. 
    pose proof (legal_settled p hist (pe_fileId e) (pc_index (pe_piece e)) l0 Hlegal Hfresh) as Hs.
    rewrite He in Hs. destruct Hs as (us & E & _).
    assert (In (piece_row p e) (rows_at p (pe_fileId e) (pc_index (pe_piece e)) (rows_after p hist l0)))
      as Hin by (rewrite E; apply in_or_app; right; by left).
    apply filter_In in Hin as [Hin _]. apply filter_In. split; [done|].
    unfold own_piece. cbn. by rewrite !Z.eqb_refl.
Qed.
End History.

Lemma allowed_status cur e :
  allowed cur e = true ->
  pe_status e = "paid" \/ pe_status e = "assigned" \/ pe_status e = "downloaded" \/
  pe_status e = "unassigned".
Proof.
  unfold allowed. destruct (String.eqb_spec (pe_status e) "assigned"); [by auto|].
  destruct (String.eqb_spec (pe_status e) "downloaded"); [by auto|].
  destruct (String.eqb_spec (pe_status e) "unassigned"); [by auto|]. cbn.
  intros [?%String.eqb_eq _]%andb_prop. by auto.
Qed.

Lemma legal_status hist e :
  legal hist -> In e (concat hist) ->
  pe_status e = "paid" \/ pe_status e = "assigned" \/ pe_status e = "downloaded" \/
  pe_status e = "unassigned".
Proof.
  induction 1 as [|hist es Hl IH Hd Ha]; [done|]. rewrite concat_app.
  intros [Hi|Hi]%in_app_or; [by apply IH|]. cbn in Hi. rewrite app_nil_r in Hi.
  eapply allowed_status. by apply Ha.
Qed.

Lemma rows_good p hist l0 :
  legal hist -> List.filter (own_piece p) l0 = [] ->
  (forall e, In e (concat hist) -> 0 <= pc_index (pe_piece e)) ->
  Forall good (List.filter (own_piece p) (rows_after p hist l0)).
Proof.
  intros Hl Hf Hi. apply List.Forall_forall. intros r [Hr Ho]%filter_In.
  destruct (rows_after_own p hist l0 Hf r Hr Ho) as (e & He & ->).
  split; [exists (pe_piece e); cbn; apply json_back|]. split; [by apply Hi|].
  by apply (legal_status hist).
Qed.

(** Rows of a file are about pieces of its pool. *)
Lemma row_in_range p hist l0 sps sp r :
  within sps (concat hist) -> NoDup (map sp_fileId sps) -> List.filter (own_piece p) l0 = [] ->
  In sp sps -> In r (rows_after p hist l0) -> own_piece p r = true -> pr_fileId r = sp_fileId sp ->
  pr_index r < sp_pieceCount sp.
Proof.
  intros Hw Hd Hf Hsp Hr Ho Ef. destruct (rows_after_own p hist l0 Hf r Hr Ho) as (e & He & ->).
  destruct (Hw e He) as (sp' & Hsp' & E' & Hlt). cbn in *.
  assert (sp' = sp) as ->; [|lia].
  apply list_elem_of_In, list_elem_of_lookup in Hsp as [n Hn].
  apply list_elem_of_In, list_elem_of_lookup in Hsp' as [m Hm].
  assert (m = n) as ->; [|congruence].
  apply (NoDup_lookup (map sp_fileId sps) m n (sp_fileId sp)); [done| |].
  - rewrite list_lookup_fmap, Hm. cbn. congruence.
  - by rewrite list_lookup_fmap, Hn.
Qed.

Lemma write_batches p hist t :
  seach (updateFileProgress p) hist (quiet t) =
  (Ok tt, quiet (set_pieces (rows_after p hist (file_pieces t)) t)).
Proof.
  unfold seach. enough (exists us, smap (updateFileProgress p) hist (quiet t) =
    (Ok us, quiet (set_pieces (rows_after p hist (file_pieces t)) t))) as [us E]
    by (by rewrite (bind_quiet _ _ _ _ _ E)).
  revert t. induction hist as [|es hist IH]; intros t; [exists []; by destruct t|].
  cbn [smap]. rewrite (bind_quiet _ _ _ _ _ (updateFileProgress_ok p es t)).
  destruct (IH (set_pieces (apply_entries p es (file_pieces t)) t)) as [us E].
  rewrite (bind_quiet _ _ _ _ _ E). by exists (tt :: us).
Qed.

(** C16: the pieces a download has written are loaded into the lists of their last status.  After any
    batches of entries that one run of a download writes, each piece of a file is unassigned exactly
    if it was never written or was given back last, is assigned or downloaded under exactly the
    section it was last written with, and is paid for exactly if it was written so. *)
Theorem pieces_restored p t hist sps cost budget :
  legal hist -> within sps (concat hist) -> NoDup (map sp_fileId sps) ->
  (forall sp, In sp sps -> sp_pieceCount sp < 2 ^ 31) ->
  List.filter (own_pool p) (seller_pools t) = map (pool_row_of p cost budget) sps ->
  List.filter (own_piece p) (file_pieces t) = [] ->
  exists t' p', seach (updateFileProgress p) hist (quiet t) = (Ok tt, quiet t') /\
    populateFileProgress p (quiet t') = (Ok p', quiet t') /\
    forall sp i, In sp sps -> 0 <= i < sp_pieceCount sp ->
      let f := sp_fileId sp in
      let cur := current f i (concat hist) in
      ((exists x, In x (unassigned_of p' f) /\ pc_index x = i) <->
         cur = None \/ exists e, cur = Some e /\ pe_status e = "unassigned") /\
      (forall h x, pc_index x = i -> In x (assigned_of p' f h) <->
         exists e, cur = Some e /\ pe_status e = "assigned" /\ pe_hash e = h /\ pe_piece e = x) /\
      (forall h x, pc_index x = i -> In x (downloaded_of p' f h) <->
         exists e, cur = Some e /\ pe_status e = "downloaded" /\ pe_hash e = h /\ pe_piece e = x) /\
      (forall x, paid_of p' f (Z.to_nat i) = Some x <->
         exists e, cur = Some e /\ pe_status e = "paid" /\ pe_piece e = x).
Proof.
  intros Hl Hw Hd Hc Hp Hf.
  assert (forall e, In e (concat hist) -> 0 <= pc_index (pe_piece e)) as Hi
    by (intros e (sp & _ & _ & ?)%Hw; lia).
  set (t' := set_pieces (rows_after p hist (file_pieces t)) t).
  destruct (populateFileProgress_restored p t' cost budget sps Hp Hd) as (p' & E & R);
    [by apply rows_good|].
  exists t', p'. split; [apply write_batches|]. split; [done|]. intros sp i Hsp Hr. cbn zeta.
  split; [|split; [|split]].
  - rewrite (rs_unassigned _ _ _ R sp i Hsp); [|specialize (Hc sp Hsp); lia|].
    + unfold t'. cbn [file_pieces set_pieces]. rewrite last_row by (done || lia).
      destruct (current _ _ _); cbn; naive_solver.
    + intros r [Hin Ho]%filter_In Ef. by apply (row_in_range p hist (file_pieces t) sps sp r).
  - intros h x <-. rewrite (rs_assigned _ _ _ R). by apply listed_current.
  - intros h x <-. rewrite (rs_downloaded _ _ _ R). by apply listed_current.
  - intros x. rewrite (rs_paid _ _ _ R). apply last_paid; [done|done|done|lia].
Qed.
End Restore.

(** * Failures *)

Section Atomic.
Context {Ware Prefs Contract CSection T : Type}.
Context `{Json Ware} `{Json Prefs} `{Json Contract} `{Json CSection}.
Context `{Json (SellerPool T)} `{Json Piece}.
Context (contract_mediaId : Contract -> Z) (constraint_error : string).
Context (ware_files : Ware -> list WareFile).
Implicit Types p : Purchase Ware Prefs Contract CSection T.

(** An update that fails for want of rows has changed none. *)
Lemma atomic_expect (g : Tables -> Tables * nat) e :
  (forall t, (g t).2 = 0%nat -> (g t).1 = t) ->
  atomic (let! n := Sql.update g in expect_rows e n).
Proof.
  intros Hg. apply atomic_then; [|apply atomic_execute]. intros c n c' Hs E e' c''.
  unfold Sql.update, execute in E.
  destruct (faulty_cases (fun c => match Ok (g (cn_data c)) with
    | Ok (x, a) => (Ok a, set_data x c) | Raise e => (Raise e, c) end) c)
    as [(e1 & c1 & E1 & _)|(c1 & E1 & Hd & Hv)]; rewrite E1 in E; [done|].
  specialize (Hg (cn_data c1)). destruct (g (cn_data c1)) as [t m]. injection E as <- <-.
  destruct m; [|done]. intros [= <- <-]. unfold durable. cbn. rewrite Hv, Hs. cbn.
  rewrite <- Hd. by apply Hg.
Qed.

Lemma atomic_states (q : StateRow -> bool) f e :
  atomic (let! n := update_states q f in expect_rows e n).
Proof.
  apply atomic_expect. intros t. cbn. intros En. rewrite update_rows_none by done. by destruct t.
Qed.

(** A failure after the first of two seller pools leaves it on disk. *)
Lemma pools_not_atomic p w1 w2 ws :
  ware_files (ps_ware p) = w1 :: w2 :: ws -> ~ atomic (insertSellerPools ware_files p).
Proof.
  intros Hw Ha. unfold atomic in Ha.
  set (c := {| cn_data := no_tables; cn_saved := None; cn_faults := [None; None; Some "full"] |}).
  destruct (insertSellerPools ware_files p c) as [r c'] eqn:E.
  specialize (Ha c). rewrite E in Ha. unfold insertSellerPools in E. rewrite Hw in E.
  vm_compute in E. injection E as <- <-. by specialize (Ha _ _ eq_refl eq_refl).
Qed.

(** C20: the operations of the purchase database that write, but for [insertSellerPools], leave what is
    on disk as it was when they fail, whichever of their steps fails and whatever the exception:
    inserting and deleting a download and writing its progress, which take several statements; the
    updates that also fail if no row or not all rows match; and the single statements that insert the
    data of a seller or a file.  [insertSellerPools] writes the pools one by one outside of a
    transaction and is not atomic for a ware of two files or more. *)
Theorem operations_atomic p n m es (sp : SellerPool T) fileId price path (cs : CSection) :
  atomic (insertDownloadState contract_mediaId constraint_error p) /\
  atomic (deleteDownloadState p) /\
  atomic (startProcessingDownloadState p n) /\
  atomic (setDownloadStateProcessorId p n m) /\
  atomic (updatePreferences p) /\ atomic (updateDownloadStateFlags p) /\ atomic (updateContract p) /\
  atomic (updateSellerPool p sp) /\ atomic (updateFileProgress p es) /\
  atomic (insertSellerData p fileId price cs) /\
  atomic (insertAssembledFile constraint_error p fileId path) /\
  (forall w1 w2 ws, ware_files (ps_ware p) = w1 :: w2 :: ws -> ~ atomic (insertSellerPools ware_files p)).
Proof.
  split_and!; [..|apply pools_not_atomic]; apply atomic_push, atomic_open; try apply atomic_transaction;
    try apply atomic_states; try apply atomic_execute.
  all: unfold ensure_state, update_states, select, Sql.update, insertContract.
  all: try solve [inside_steps].
  all: apply atomic_expect; intros t; cbn; intros En; rewrite update_rows_none by done; by destruct t.
Qed.
End Atomic.

(** * Processing *)

Section Processing.
Context {Ware Prefs Contract CSection T : Type}.
Context `{Json Ware} `{Json Prefs} `{Json Contract} `{Json CSection}.
Context `{Json (SellerPool T)} `{Json Piece}.
Context (p : Purchase Ware Prefs Contract CSection T).

(** Who processes the download: a service or a fiber that has not taken over yet, with id 0, or a
    fiber.  Any step may fail on the way; fibers ignore whether taking over and stopping worked, and
    some stop once more after they have stopped.  A service deletes a download it processes. *)
Inductive pstep : Tables * list Z -> Tables * list Z -> Prop :=
| step_start c c' r hs :
    cn_saved c = None -> startProcessingDownloadState p 0 c = (r, c') ->
    pstep (cn_data c, hs) (durable c', if succeeded r then 0 :: hs else hs)
| step_take c c' r hs id :
    cn_saved c = None -> setDownloadStateProcessorId p 0 id c = (r, c') -> In 0 hs ->
    id <> 0 -> ~ In id hs ->
    pstep (cn_data c, hs) (durable c', id :: remove_first (Z.eqb 0) hs)
| step_stop c c' r hs id :
    cn_saved c = None -> stopProcessingDownloadState p id c = (r, c') -> In id hs ->
    pstep (cn_data c, hs) (durable c', remove_first (Z.eqb id) hs)
| step_late_stop c c' r hs id :
    cn_saved c = None -> stopProcessingDownloadState p id c = (r, c') -> ~ In id hs -> id <> 0 ->
    pstep (cn_data c, hs) (durable c', hs)
| step_delete c c' r hs :
    cn_saved c = None -> deleteDownloadState p c = (r, c') -> In 0 hs ->
    pstep (cn_data c, hs) (durable c', if succeeded r then remove_first (Z.eqb 0) hs else hs)
| step_flags c c' r hs (q : Purchase Ware Prefs Contract CSection T) :
    cn_saved c = None -> updateDownloadStateFlags q c = (r, c') ->
    pstep (cn_data c, hs) (durable c', hs).

(** The rows of the download say that it is processed, by [h] or by one yet to take over. *)
Definition marked (h : Z) (t : Tables) : Prop :=
  forall r, In r (download_states t) -> own_state p r = true ->
    sr_processing r = 1 /\ (sr_processorId r = h \/ sr_processorId r = 0).

Definition exclusive (s : Tables * list Z) : Prop :=
  match s.2 with [] => True | [h] => marked h s.1 | _ => False end.

Lemma update_states_ok q f c n c' :
  update_states q f c = (Ok n, c') ->
  cn_data c' = set_states (update_rows q f (download_states (cn_data c))) (cn_data c) /\
  n = rows_changed q (download_states (cn_data c)) /\ cn_saved c' = cn_saved c.
Proof. by intros [[= <- <-] Hs]%update_ok. Qed.

Lemma ensure_ok c c' u : ensure_state p c = (Ok u, c') -> cn_data c' = cn_data c.
Proof. intros (n & c1 & [[= Hd _] _]%update_ok & [_ ->]%expect_ok)%bind_ok. done. Qed.

(** Starting and taking over: the rows that satisfy the condition are marked. *)
Lemma marking_ok q f e c c' u :
  push db_failure (let! _ := open_connection in transaction (
    let! _ := ensure_state p in let! n := update_states q f in expect_rows e n)) c = (Ok u, c') ->
  durable c' = set_states (update_rows q f (download_states (cn_data c))) (cn_data c) /\
  rows_changed q (download_states (cn_data c)) <> 0%nat.
Proof.
  intros (c1 & (c2 & c3 & Hd2 & Hb & Hd3 & Hs)%transaction_ok & Hd1 & _)%push_ok%open_ok.
  apply bind_ok in Hb as (u1 & c4 & He%ensure_ok & Hb).
  apply bind_ok in Hb as (n & c5 & (Hu & -> & _)%update_states_ok & [Hn ->]%expect_ok).
  unfold durable. rewrite Hs. cbn. rewrite Hd3, Hu. rewrite He, Hd2, Hd1 in *. done.
Qed.

Lemma in_update_rows {R} (q : R -> bool) f l (r : R) :
  In r (update_rows q f l) -> exists r0, In r0 l /\ r = if q r0 then f r0 else r0.
Proof. intros (r0 & <- & Hr)%in_map_iff. by exists r0. Qed.

Lemma marked_none h t :
  marked h t ->
  rows_changed (fun r => own_state p r && (sr_processing r =? 0)) (download_states t) = 0%nat.
Proof.
  intros Hm. unfold rows_changed. rewrite filter_none; [done|]. apply List.Forall_forall. intros r Hr.
  destruct (own_state p r) eqn:Ho; [|done]. cbn. by destruct (Hm r Hr Ho) as [-> _].
Qed.

(** An update of the states that keeps rows marked. *)
Lemma marked_update h h' (q : StateRow -> bool) f t :
  (forall r, own_state p (f r) = own_state p r) ->
  (forall r, In r (download_states t) -> own_state p r = true -> q r = true ->
     sr_processing (f r) = 1 /\ (sr_processorId (f r) = h' \/ sr_processorId (f r) = 0)) ->
  (forall r, In r (download_states t) -> own_state p r = true -> q r = false ->
     sr_processing r = 1 /\ (sr_processorId r = h' \/ sr_processorId r = 0)) ->
  h = h' -> marked h (set_states (update_rows q f (download_states t)) t).
Proof.
  intros Ho Hq Hn -> r (r0 & Hr & ->)%in_update_rows. destruct (q r0) eqn:E; [rewrite Ho|]; auto.
Qed.

Lemma start_marks c c' u :
  startProcessingDownloadState p 0 c = (Ok u, c') ->
  (forall h, ~ marked h (cn_data c)) /\
  ((forall r r', In r (download_states (cn_data c)) -> In r' (download_states (cn_data c)) ->
     own_state p r = true -> own_state p r' = true -> r = r') -> marked 0 (durable c')).
Proof.
  intros [-> Hn]%marking_ok. split; [by intros h Hm%marked_none|]. intros Hu.
  apply (marked_update 0 0); [done|by auto| |done].
  intros r Hr Ho Hq. exfalso. apply Hn. unfold rows_changed. rewrite filter_none; [done|].
  apply List.Forall_forall. intros r' Hr'. destruct (own_state p r') eqn:Ho'; [|done].
  by rewrite (Hu r' r Hr' Hr Ho' Ho), <- Ho', (Hu r' r Hr' Hr Ho' Ho).
Qed.

Lemma atomic_marking q f e :
  atomic (push db_failure (let! _ := open_connection in transaction (
    let! _ := ensure_state p in let! n := update_states q f in expect_rows e n))).
Proof.
  apply atomic_push, atomic_open, atomic_transaction.
  unfold ensure_state, update_states, select, Sql.update. inside_steps.
Qed.

Lemma atomic_stop id : atomic (stopProcessingDownloadState p id).
Proof.
  apply atomic_push, atomic_open, atomic_then; [|apply atomic_execute]. by intros.
Qed.

Lemma atomic_flags (q : Purchase Ware Prefs Contract CSection T) : atomic (updateDownloadStateFlags q).
Proof. apply atomic_push, atomic_open, atomic_states. Qed.

(** There is one row of the download, its id being the primary key. *)
Definition one_row (t : Tables) : Prop :=
  forall r r', In r (download_states t) -> In r' (download_states t) ->
    own_state p r = true -> own_state p r' = true -> r = r'.

Lemma one_row_update (q : StateRow -> bool) f t :
  (forall r, own_state p (f r) = own_state p r) ->
  one_row t -> one_row (set_states (update_rows q f (download_states t)) t).
Proof.
  intros Hf Hu r r' (r0 & Hr & ->)%in_update_rows (r1 & Hr' & ->)%in_update_rows Ho Ho'.
  assert (r0 = r1) as ->; [|done].
  apply Hu; [done|done| |]; [destruct (q r0)|destruct (q r1)]; by rewrite ?Hf in *.
Qed.

Definition states_kept (t t' : Tables) : Prop :=
  t' = t \/ exists q f, (forall r, own_state p (f r) = own_state p r) /\
    t' = set_states (update_rows q f (download_states t)) t.

Lemma one_row_kept t t' : states_kept t t' -> one_row t -> one_row t'.
Proof. intros [->|(q & f & Hf & ->)] Hu; [done|]. by apply one_row_update. Qed.

Lemma start_kept c c' r :
  cn_saved c = None -> startProcessingDownloadState p 0 c = (r, c') -> states_kept (cn_data c) (durable c').
Proof.
  intros Hs E. destruct r as [u|e]; [|left; exact (atomic_marking _ _ _ c e c' Hs E)].
  apply marking_ok in E as [-> _]. right. eexists _, _. split; [|reflexivity]. done.
Qed.

Lemma take_kept c c' r id :
  cn_saved c = None -> setDownloadStateProcessorId p 0 id c = (r, c') ->
  durable c' = cn_data c \/
  durable c' = set_states (update_rows (fun r => own_state p r && (sr_processorId r =? 0))
    (set_processing 1 id) (download_states (cn_data c))) (cn_data c).
Proof.
  intros Hs E. destruct r as [u|e]; [|left; exact (atomic_marking _ _ _ c e c' Hs E)].
  apply marking_ok in E as [-> _]. by right.
Qed.

Lemma stop_effect c c' r id :
  cn_saved c = None -> stopProcessingDownloadState p id c = (r, c') ->
  durable c' = cn_data c \/
  durable c' = set_states (update_rows (fun r => own_state p r && (sr_processorId r =? id))
    (set_processing 0 0) (download_states (cn_data c))) (cn_data c).
Proof.
  intros Hs E. destruct r as [u|e]; [|left; exact (atomic_stop id c e c' Hs E)].
  apply push_ok, open_ok in E as (c1 & (n & c2 & (Hu & _ & Hv)%update_states_ok & [= <- <-])%bind_ok & Hd & Hc).
  right. unfold durable. by rewrite Hv, Hc, Hs, Hu, Hd.
Qed.

Lemma stop_kept c c' r id :
  cn_saved c = None -> stopProcessingDownloadState p id c = (r, c') -> states_kept (cn_data c) (durable c').
Proof.
  intros Hs E. destruct (stop_effect c c' r id Hs E) as [->| ->]; [by left|right].
  eexists _, _. split; [|reflexivity]. done.
Qed.

Lemma atomic_delete : atomic (deleteDownloadState p).
Proof. apply atomic_push, atomic_open, atomic_transaction. unfold Sql.update. inside_steps. Qed.

(** Deleting only takes rows away. *)
Lemma delete_subset c c' r row :
  cn_saved c = None -> deleteDownloadState p c = (r, c') -> In row (download_states (durable c')) ->
  In row (download_states (cn_data c)).
Proof.
  intros Hs E. destruct r as [u|e]; [|by rewrite (atomic_delete c e c' Hs E)].
  apply push_ok, open_ok in E as (c1 & (c2 & c3 & Hd2 & Hb & Hd3 & Hs3)%transaction_ok & Hd1 & _).
  unfold durable. rewrite Hs3. cbn. rewrite Hd3, <- Hd1, <- Hd2.
  apply bind_update_ok in Hb as (x1 & E1 & Hb). apply bind_update_ok in Hb as (x2 & E2 & Hb).
  apply bind_update_ok in Hb as (x3 & E3 & Hb). apply bind_update_ok in Hb as (x4 & E4 & Hb).
  apply bind_update_ok in Hb as (x5 & E5 & Hb). apply update_ok in Hb as [E6 _].
  injection E6 as <-. rewrite E5, E4, E3, E2, E1. cbn. unfold delete_rows. by intros [Hr _]%filter_In.
Qed.

Lemma flags_kept c c' r (q : Purchase Ware Prefs Contract CSection T) :
  cn_saved c = None -> updateDownloadStateFlags q c = (r, c') ->
  durable c' = cn_data c \/
  durable c' = set_states (update_rows (own_state q) (set_sr_flags q)
    (download_states (cn_data c))) (cn_data c).
Proof.
  intros Hs E. destruct r as [u|e]; [|left; exact (atomic_flags q c e c' Hs E)].
  apply push_ok, open_ok in E as (c1 & (n & c2 & (Hu & _ & Hv)%update_states_ok & [_ ->]%expect_ok)%bind_ok
    & Hd & Hc).
  right. unfold durable. by rewrite Hv, Hc, Hs, Hu, Hd.
Qed.

Lemma pstep_exclusive s s' :
  pstep s s' -> one_row s.1 /\ exclusive s -> one_row s'.1 /\ exclusive s'.
Proof.
  intros Hst [Hu He]. destruct Hst as [c c' r hs Hs E|c c' r hs id Hs E Hin Hid Hni
    |c c' r hs id Hs E Hin|c c' r hs id Hs E Hni Hid|c c' r hs Hs E Hin
    |c c' r hs q Hs E]; cbn [fst snd] in *.
  - split; [by eapply one_row_kept; [eapply start_kept|]|]. destruct r as [u|e]; cbn.
    + destruct (start_marks c c' u E) as [Hn Hm]. destruct hs as [|h [|]]; cbn in *; [by apply Hm| |done].
      by destruct (Hn h).
    + unfold exclusive in *. cbn in *. by rewrite (atomic_marking _ _ _ c e c' Hs E).
  - destruct hs as [|h [|]]; cbn in *; [done| |done]. destruct Hin as [->|[]]. cbn.
    destruct (take_kept c c' r id Hs E) as [->| ->].
    + split; [done|]. intros r0 Hr Ho. destruct (He r0 Hr Ho) as [? [?|?]]; auto.
    + split; [by apply one_row_update|]. apply (marked_update id id); [done|by auto| |done].
      intros r0 Hr Ho Hq. destruct (He r0 Hr Ho) as [? Hz]. rewrite Ho in Hq. cbn in Hq.
      apply Z.eqb_neq in Hq. by destruct Hz.
  - split; [by eapply one_row_kept; [eapply stop_kept|]|].
    destruct hs as [|h [|]]; cbn in *; [done| |done]. destruct Hin as [->|[]]. by rewrite Z.eqb_refl.
  - split; [by eapply one_row_kept; [eapply stop_kept|]|].
    destruct hs as [|h [|]]; cbn in *; [done| |done].
    destruct (stop_effect c c' r id Hs E) as [->| ->]; [done|].
    apply (marked_update h h); [done| | |done]; [|intros r0 Hr Ho _; exact (He r0 Hr Ho)].
    intros r0 Hr Ho [_ Hq%Z.eqb_eq]%andb_prop. destruct (He r0 Hr Ho) as [_ [Hz|Hz]]; exfalso; [|lia].
    apply Hni. left. congruence.
  - split; [intros r0 r1 Hr Hr'; apply Hu; by eapply delete_subset|].
    destruct hs as [|h [|]]; cbn in *; [done| |done]. destruct Hin as [->|[]].
    destruct r as [u|e]; cbn; [done|]. by rewrite (atomic_delete c e c' Hs E).
  - destruct (flags_kept c c' r q Hs E) as [->| ->]; [done|]. split; [by apply one_row_update|].
    destruct hs as [|h [|]]; cbn in *; [done| |done]. apply (marked_update h h); [done| | |done].
    + intros r0 Hr Ho _. exact (He r0 Hr Ho).
    + intros r0 Hr Ho _. exact (He r0 Hr Ho).
Qed.

(** C18: a download is processed by at most one service or fiber at a time.  Whatever starts, takes
    over, stops and updates of flags happen, and whichever of their steps fail, no second one is told
    that it may process the download before the first has stopped. *)
Theorem processing_exclusive t t' hs :
  one_row t -> rtc pstep (t, []) (t', hs) -> (length hs <= 1)%nat.
Proof.
  intros Hu Hr. assert (one_row (t', hs).1 /\ exclusive (t', hs)) as [_ He].
  { revert Hr. generalize (t', hs). assert (one_row (t, @nil Z).1 /\ exclusive (t, [])) as Hi by done.
    revert Hi. generalize (t, @nil Z). intros s Hi s' Hr. induction Hr as [|x y z Hxy _ IH]; [done|].
    apply IH. by apply (pstep_exclusive x). }
  destruct hs as [|h [|]]; cbn in *; [lia|lia|done].
Qed.
End Processing.

(** * A download *)

Module Sample.
Export BitText.

#[export] Instance piece_eq : EqDecision Piece.
Proof. solve_decision. Defined.

#[export] Instance piece_countable : Countable Piece.
Proof.
  refine (inj_countable' (fun x => (pc_index x, pc_size x, pc_bfpId x, pc_path x))
    (fun '(i, s, b, q) => {| pc_index := i; pc_size := s; pc_bfpId := b; pc_path := q |}) _).
  by intros [].
Defined.

#[export] Instance seller_eq : EqDecision (SellerData Z).
Proof. solve_decision. Defined.

#[export] Instance seller_countable : Countable (SellerData Z).
Proof.
  refine (inj_countable' (fun x => (sd_userId x, sd_serverId x, sd_price x, sd_downloadRate x,
      sd_hash x, sd_fileId x, sd_sectionSeller x))
    (fun '(u, v, q, d, h, f, g) => {| sd_userId := u; sd_serverId := v; sd_price := q;
      sd_downloadRate := d; sd_hash := h; sd_fileId := f; sd_sectionSeller := g |}) _).
  by intros [].
Defined.

#[export] Instance pool_eq : EqDecision (SellerPool Z).
Proof. solve_decision. Defined.

#[export] Instance pool_countable : Countable (SellerPool Z).
Proof.
  refine (inj_countable' (fun x => (sp_fileId x, sp_mediaId x, sp_contentSize x, sp_extension x,
      sp_pieceSize x, sp_pieceCount x, sp_bfpId x, (sp_minPrice x, sp_medPrice x, sp_maxPrice x),
      sp_sellers x))
    (fun '(f, m, c, e, z, n, b, (p1, p2, p3), l) => {| sp_fileId := f; sp_mediaId := m;
      sp_contentSize := c; sp_extension := e; sp_pieceSize := z; sp_pieceCount := n; sp_bfpId := b;
      sp_minPrice := p1; sp_medPrice := p2; sp_maxPrice := p3; sp_sellers := l |}) _).
  by intros [].
Defined.

Definition purchase : Purchase unit unit unit unit Z :=
  {| ps_id := 1; ps_userId := 900; ps_version := "3.0"; ps_ware := tt; ps_preferences := tt;
     ps_contract := tt; ps_totalMinPrice := "0.00"; ps_totalMedPrice := "0.00";
     ps_totalMaxPrice := "0.00"; ps_totalPieceCount := 2; ps_totalMicroPaymentCost := "0.00";
     ps_startDate := ""; ps_remainingPieces := 2; ps_initialized := true; ps_licenseAcquired := true;
     ps_downloadStarted := true; ps_downloadPaused := false; ps_licensePurchased := false;
     ps_dataPurchased := false; ps_filesAssembled := false; ps_processing := true;
     ps_processorId := 7; ps_progress := [] |}.

(** A file of two pieces. *)
Definition pool : SellerPool Z :=
  {| sp_fileId := "f"; sp_mediaId := 2; sp_contentSize := 15; sp_extension := "mp3";
     sp_pieceSize := 10; sp_pieceCount := 2; sp_bfpId := 1; sp_minPrice := ""; sp_medPrice := "";
     sp_maxPrice := ""; sp_sellers := [] |}.

Definition tables : Tables :=
  set_pools [pool_row_of purchase (fun _ => "0.00") (fun _ => "1.00") pool] no_tables.

Definition piece0 : Piece := {| pc_index := 0; pc_size := 10; pc_bfpId := 1; pc_path := "0.fp" |}.

Definition entry (h status : string) : PieceEntry :=
  {| pe_fileId := "f"; pe_hash := h; pe_status := status; pe_piece := piece0 |}.

(** The piece is given back by one seller and arrives from another. *)
Definition history : list (list PieceEntry) :=
  [[entry "a" "assigned"]; [entry "a" "unassigned"]; [entry "b" "assigned"]; [entry "b" "downloaded"]].

Lemma distinct_one e : distinct [e].
Proof. intros f i. cbn. destruct (entry_at f i e); cbn; lia. Qed.

Lemma legal_one hist e :
  legal hist -> allowed (current (pe_fileId e) (pc_index (pe_piece e)) (concat hist)) e = true ->
  legal (hist ++ [[e]]).
Proof. intros Hl Ha. apply legal_batch; [done|apply distinct_one|]. by intros e' [<-|[]]. Qed.

Lemma history_legal : legal history.
Proof.
  change history with (((([] ++ [[entry "a" "assigned"]]) ++ [[entry "a" "unassigned"]]) ++
    [[entry "b" "assigned"]]) ++ [[entry "b" "downloaded"]]).
  repeat apply legal_one; [apply legal_none|..]; vm_compute; reflexivity.
Qed.

Lemma history_within : within [pool] (concat history).
Proof. intros e He. exists pool. split; [by left|]. cbn in He. naive_solver lia. Qed.

Lemma pieces_restored_witness :
  legal history /\
  exists t' p', seach (updateFileProgress purchase) history (quiet tables) = (Ok tt, quiet t') /\
    populateFileProgress purchase (quiet t') = (Ok p', quiet t') /\
    In piece0 (downloaded_of p' "f" "b").
Proof.
  split; [exact history_legal|].
  destruct (pieces_restored purchase tables history [pool] (fun _ => "0.00") (fun _ => "1.00"))
    as (t' & p' & Hw & Hp & Hall).
  - exact history_legal.
  - exact history_within.
  - apply NoDup_singleton.
  - intros sp [<-|[]]. reflexivity.
  - vm_compute. reflexivity.
  - reflexivity.
  - exists t', p'. split; [exact Hw|]. split; [exact Hp|].
    destruct (Hall pool 0) as (_ & _ & Hd & _); [by left|cbn; lia|].
    apply (Hd "b" piece0); [reflexivity|]. exists (entry "b" "downloaded").
    split; [vm_compute; reflexivity|]. by split.
Defined.

(** The node stops after the piece was assigned; when it starts again the piece is unassigned in
    memory only, and is then assigned to another seller. *)
Definition restarted : list (list PieceEntry) :=
  [[entry "a" "assigned"]; [entry "b" "assigned"]; [entry "b" "downloaded"]].

(** A piece that is assigned again after a restart is loaded twice.  Taking assigned pieces back
    when a download starts writes nothing, so the row of the first section stays: once the piece has
    arrived from a second one it is loaded as downloaded and as still assigned, and the next start
    makes it an unassigned piece to be downloaded again. *)
Theorem restart_duplicates_piece :
  exists t' p', seach (updateFileProgress purchase) restarted (quiet tables) = (Ok tt, quiet t') /\
    populateFileProgress purchase (quiet t') = (Ok p', quiet t') /\
    downloaded_of p' "f" "b" = [piece0] /\ assigned_of p' "f" "a" = [piece0] /\
    In piece0 (fp_unassigned (unassignFile (pg_file (progress_at p' "f")))).
Proof.
  eexists _, _. split; [rewrite write_batches; reflexivity|].
  split; [vm_compute; reflexivity|]. split; [vm_compute; reflexivity|].
  split; [vm_compute; reflexivity|]. vm_compute. by auto.
Qed.

(** A table with the row of the download, which nobody processes. *)
Definition idle : Tables := (insert_state purchase no_tables).1.

Definition started : Tables := Eval vm_compute in
  durable (startProcessingDownloadState purchase 0 (quiet idle)).2.

Definition taken_over : Tables := Eval vm_compute in
  durable (setDownloadStateProcessorId purchase 0 7 (quiet started)).2.

Lemma idle_one_row : one_row purchase idle.
Proof. intros r r' [<-|[]] [<-|[]] _ _. reflexivity. Qed.

(** A start, a fiber that takes over, and a second start that is refused. *)
Lemma processing_runs : rtc (pstep purchase) (idle, []) (taken_over, [7]).
Proof.
  eapply rtc_l; [exact (step_start purchase (quiet idle) _ _ [] eq_refl eq_refl)|].
  eapply rtc_l; [refine (step_take purchase (quiet started) _ _ [0] 7 eq_refl eq_refl _ _ _);
    [by left|done|by intros [|[]]]|].
  eapply rtc_l; [exact (step_start purchase (quiet taken_over) _ _ [7] eq_refl eq_refl)|].
  apply rtc_refl.
Qed.

Lemma processing_exclusive_witness :
  rtc (pstep purchase) (idle, []) (taken_over, [7]) /\ (length [7%Z] <= 1)%nat.
Proof.
  split; [exact processing_runs|].
  exact (processing_exclusive purchase idle taken_over [7] idle_one_row processing_runs).
Defined.

(** A ware of two files. *)
Definition two_files (_ : unit) : list WareFile :=
  [{| wf_id := "f"; wf_mediaId := 2; wf_contentSize := 15; wf_extension := "mp3" |};
   {| wf_id := "g"; wf_mediaId := 3; wf_contentSize := 20; wf_extension := "mp3" |}].

(** The disk is full before the entry has been written. *)
Definition full : Conn Tables :=
  {| cn_data := tables; cn_saved := None; cn_faults := replicate 3 None ++ [Some "full"] |}.

Lemma operations_atomic_witness :
  let '(r, c) := updateFileProgress purchase [entry "a" "assigned"] full in
  succeeded r = false /\ durable c = tables /\ ~ atomic (insertSellerPools two_files purchase).
Proof.
  destruct (operations_atomic (fun _ => 0) "" two_files purchase 0 0 [entry "a" "assigned"] pool "" "" "" tt)
    as (_ & _ & _ & _ & _ & _ & _ & _ & Hup & _ & _ & Hpools).
  destruct (updateFileProgress purchase [entry "a" "assigned"] full) as [[[]|e] c] eqn:E;
    [vm_compute in E; discriminate E|].
  split; [reflexivity|]. split; [exact (Hup full e c eq_refl E)|exact (Hpools _ _ _ eq_refl)].
Defined.
End Sample.
