(* ===== verification/PurchaseSchema.v ===== *)
(** The schema of the database of purchases ([cpp/purchase/PurchaseDatabase.cpp]).

    When the database of a user is first used its tables are created, or brought to version 3.2 if
    they are older.  A table that may be missing is an option; the columns of the older tables are
    those the migration reads.  The index and the table of favorite sellers hold nothing the program
    reads, creating them is a step that can fail. *)
From stdpp Require Import relations.
From S2P Require Import Prelude Sql PurchaseDb.

Local Open Scope Z_scope.
Local Open Scope sql_scope.

Record OldStateRow := {
  os_id : Z; os_userId : Z; os_version : string; os_ware : string; os_totalMedPrice : string;
  os_preferences : string; os_startDate : string; os_remainingPieces : Z; os_initialized : Z;
  os_licenseAcquired : Z; os_downloadStarted : Z; os_downloadPaused : Z; os_licensePurchased : Z;
  os_dataPurchased : Z; os_filesAssembled : Z
}.

Record OldPoolRow := { op_dsId : Z; op_userId : Z; op_fileId : string; op_pool : string }.

(** A table with the older or the newer columns; [sequence] is the last id that was given. *)
Inductive StateTable :=
| OldStates (rows : list OldStateRow)
| NewStates (rows : list StateRow) (sequence : Z).

Inductive PoolTable :=
| OldPools (rows : list OldPoolRow)
| NewPools (rows : list PoolRow).

(** [sc_meta] is the version the table of meta data holds, if there is such a table. *)
Record Schema := {
  sc_meta : option (option string);
  sc_states : option StateTable;
  sc_contracts : option (list ContractRow);
  sc_sellers : option (list SellerRow);
  sc_pools : option PoolTable;
  sc_pieces : option (list PieceRow);
  sc_files : option (list FileRow);
  sc_states_v3_1 : option StateTable;
  sc_sellers_v3_1 : option (list SellerRow);
  sc_pools_v3_1 : option PoolTable
}.
Implicit Types d : Schema.

Definition set_meta (v : option (option string)) d : Schema :=
  {| sc_meta := v; sc_states := sc_states d; sc_contracts := sc_contracts d;
     sc_sellers := sc_sellers d; sc_pools := sc_pools d; sc_pieces := sc_pieces d;
     sc_files := sc_files d; sc_states_v3_1 := sc_states_v3_1 d;
     sc_sellers_v3_1 := sc_sellers_v3_1 d; sc_pools_v3_1 := sc_pools_v3_1 d |}.

(** The tables of states, of sellers and of pools, each with the one it is renamed to. *)
Definition put_states (v old : option StateTable) d : Schema :=
  {| sc_meta := sc_meta d; sc_states := v; sc_contracts := sc_contracts d;
     sc_sellers := sc_sellers d; sc_pools := sc_pools d; sc_pieces := sc_pieces d;
     sc_files := sc_files d; sc_states_v3_1 := old; sc_sellers_v3_1 := sc_sellers_v3_1 d;
     sc_pools_v3_1 := sc_pools_v3_1 d |}.

Definition put_sellers (v old : option (list SellerRow)) d : Schema :=
  {| sc_meta := sc_meta d; sc_states := sc_states d; sc_contracts := sc_contracts d;
     sc_sellers := v; sc_pools := sc_pools d; sc_pieces := sc_pieces d; sc_files := sc_files d;
     sc_states_v3_1 := sc_states_v3_1 d; sc_sellers_v3_1 := old; sc_pools_v3_1 := sc_pools_v3_1 d |}.

Definition put_pools (v old : option PoolTable) d : Schema :=
  {| sc_meta := sc_meta d; sc_states := sc_states d; sc_contracts := sc_contracts d;
     sc_sellers := sc_sellers d; sc_pools := v; sc_pieces := sc_pieces d; sc_files := sc_files d;
     sc_states_v3_1 := sc_states_v3_1 d; sc_sellers_v3_1 := sc_sellers_v3_1 d; sc_pools_v3_1 := old |}.

Definition put_others (cs : option (list ContractRow)) (ps : option (list PieceRow))
    (fs : option (list FileRow)) d : Schema :=
  {| sc_meta := sc_meta d; sc_states := sc_states d; sc_contracts := cs; sc_sellers := sc_sellers d;
     sc_pools := sc_pools d; sc_pieces := ps; sc_files := fs; sc_states_v3_1 := sc_states_v3_1 d;
     sc_sellers_v3_1 := sc_sellers_v3_1 d; sc_pools_v3_1 := sc_pools_v3_1 d |}.

Section Schema.
(** The exception of a statement that SQLite rejects. *)
Context (sql_error : string).

Definition to_version : string := "3.2".

(** A statement that changes no table of the model. *)
Definition other_statement : sql Schema unit := select (fun _ => tt).

Definition create_if_missing {A} (v : A) (t : option A) : option A := Some (default v t).

Definition createMetaTable : sql Schema unit :=
  Sql.update (fun d => (set_meta (create_if_missing None (sc_meta d)) d, tt)).

Definition present {A} (t : option A) : bool := match t with Some _ => true | None => false end.

(** Whether there is a table besides the one of meta data. *)
Definition any_table d : bool :=
  present (sc_states d) || present (sc_contracts d) || present (sc_sellers d) ||
  present (sc_pools d) || present (sc_pieces d) || present (sc_files d) ||
  present (sc_states_v3_1 d) || present (sc_sellers_v3_1 d) || present (sc_pools_v3_1 d).

Definition getSchemaVersion : sql Schema string :=
  push db_not_found (
    let! tables := select any_table in
    if tables : bool then
      execute (fun d => match sc_meta d with
        | None => Raise sql_error
        | Some v => Ok (d, default "< 3.2" v)
        end)
    else sret "empty").

Definition setSchemaVersion (v : string) : sql Schema unit :=
  push db_failure (execute (fun d => match sc_meta d with
    | None => Raise sql_error
    | Some _ => Ok (set_meta (Some (Some v)) d, tt)
    end)).

Definition createTables : sql Schema unit :=
  let! _ := Sql.update (fun d =>
    (put_states (create_if_missing (NewStates [] 0) (sc_states d)) (sc_states_v3_1 d) d, tt)) in
  let! _ := Sql.update (fun d =>
    (put_others (create_if_missing [] (sc_contracts d)) (sc_pieces d) (sc_files d) d, tt)) in
  let! _ := Sql.update (fun d =>
    (put_sellers (create_if_missing [] (sc_sellers d)) (sc_sellers_v3_1 d) d, tt)) in
  let! _ := other_statement in
  let! _ := Sql.update (fun d =>
    (put_pools (create_if_missing (NewPools []) (sc_pools d)) (sc_pools_v3_1 d) d, tt)) in
  let! _ := Sql.update (fun d =>
    (put_others (sc_contracts d) (create_if_missing [] (sc_pieces d)) (sc_files d) d, tt)) in
  let! _ := other_statement in
  Sql.update (fun d =>
    (put_others (sc_contracts d) (sc_pieces d) (create_if_missing [] (sc_files d)) d, tt)).

(** [DROP TABLE IF EXISTS].  According to a comment of the code the statements succeed after a
    migration while the tables stay; [effective] says whether they take effect. *)
Definition dropMigrationTables (effective : bool) : sql Schema unit :=
  let! _ := push db_failure (Sql.update (fun d =>
    (put_states (sc_states d) (if effective then None else sc_states_v3_1 d) d, tt))) in
  let! _ := push db_failure (Sql.update (fun d =>
    (put_sellers (sc_sellers d) (if effective then None else sc_sellers_v3_1 d) d, tt))) in
  push db_failure (Sql.update (fun d =>
    (put_pools (sc_pools d) (if effective then None else sc_pools_v3_1 d) d, tt))).

(** [ALTER TABLE]: the table must be there and the new name must be free. *)
Definition renamed {A} (v old : option A) : outcome (option A * option A) :=
  match v, old with
  | Some t, None => Ok (None, Some t)
  | _, _ => Raise sql_error
  end.

Definition renameStates : sql Schema unit := execute (fun d =>
  outcome_bind (renamed (sc_states d) (sc_states_v3_1 d)) (fun '(v, old) => Ok (put_states v old d, tt))).

Definition renameSellers : sql Schema unit := execute (fun d =>
  outcome_bind (renamed (sc_sellers d) (sc_sellers_v3_1 d)) (fun '(v, old) => Ok (put_sellers v old d, tt))).

Definition renamePools : sql Schema unit := execute (fun d =>
  outcome_bind (renamed (sc_pools d) (sc_pools_v3_1 d)) (fun '(v, old) => Ok (put_pools v old d, tt))).

(** ** Migration *)

(** The columns the migration reads, which the newer table has too. *)
Definition old_state (r : StateRow) : OldStateRow :=
  {| os_id := sr_id r; os_userId := sr_userId r; os_version := sr_version r; os_ware := sr_ware r;
     os_totalMedPrice := sr_totalMedPrice r; os_preferences := sr_preferences r;
     os_startDate := sr_startDate r; os_remainingPieces := sr_remainingPieces r;
     os_initialized := sr_initialized r; os_licenseAcquired := sr_licenseAcquired r;
     os_downloadStarted := sr_downloadStarted r; os_downloadPaused := sr_downloadPaused r;
     os_licensePurchased := sr_licensePurchased r; os_dataPurchased := sr_dataPurchased r;
     os_filesAssembled := sr_filesAssembled r |}.

Definition old_states (t : StateTable) : list OldStateRow :=
  match t with OldStates l => l | NewStates l _ => map old_state l end.

Definition old_pools (t : PoolTable) : list OldPoolRow :=
  match t with
  | OldPools l => l
  | NewPools l => map (fun r => {| op_dsId := pl_dsId r; op_userId := pl_userId r;
      op_fileId := pl_fileId r; op_pool := pl_pool r |}) l
  end.

Definition migrated_state (r : OldStateRow) : StateRow :=
  {| sr_id := os_id r; sr_userId := os_userId r; sr_version := os_version r; sr_processing := 0;
     sr_processorId := 0; sr_ware := os_ware r; sr_totalMinPrice := os_totalMedPrice r;
     sr_totalMedPrice := os_totalMedPrice r; sr_totalMaxPrice := os_totalMedPrice r;
     sr_totalPieceCount := 0; sr_totalMicroPaymentCost := "0.00";
     sr_preferences := os_preferences r; sr_startDate := os_startDate r;
     sr_remainingPieces := os_remainingPieces r; sr_initialized := os_initialized r;
     sr_licenseAcquired := os_licenseAcquired r; sr_downloadStarted := os_downloadStarted r;
     sr_downloadPaused := os_downloadPaused r; sr_licensePurchased := os_licensePurchased r;
     sr_dataPurchased := os_dataPurchased r; sr_filesAssembled := os_filesAssembled r |}.

Definition migrated_pool (r : OldPoolRow) : PoolRow :=
  {| pl_dsId := op_dsId r; pl_userId := op_userId r; pl_fileId := op_fileId r; pl_pool := op_pool r;
     pl_microPaymentCost := "0.00"; pl_budget := "0.00" |}.

Fixpoint distinct_keys {A} (same : A -> A -> bool) (l : list A) : bool :=
  match l with [] => true | a :: l => negb (existsb (same a) l) && distinct_keys same l end.

Definition max_id (l : list StateRow) : Z := foldr (fun r n => Z.max (sr_id r) n) 0 l.

(** [INSERT ... SELECT] fails on a key that is there twice. *)
Definition copyStates : sql Schema unit := execute (fun d =>
  match sc_states d, sc_states_v3_1 d with
  | Some (NewStates l n), Some old =>
      let l := l ++ map migrated_state (old_states old) in
      if distinct_keys (fun a b => sr_id a =? sr_id b) l
      then Ok (put_states (Some (NewStates l (Z.max n (max_id l)))) (Some old) d, tt)
      else Raise sql_error
  | _, _ => Raise sql_error
  end).

Definition copySellers : sql Schema unit := execute (fun d =>
  match sc_sellers d, sc_sellers_v3_1 d with
  | Some l, Some old => Ok (put_sellers (Some (l ++ old)) (Some old) d, tt)
  | _, _ => Raise sql_error
  end).

Definition copyPools : sql Schema unit := execute (fun d =>
  match sc_pools d, sc_pools_v3_1 d with
  | Some (NewPools l), Some old =>
      let l := l ++ map migrated_pool (old_pools old) in
      if distinct_keys same_pool l
      then Ok (put_pools (Some (NewPools l)) (Some old) d, tt)
      else Raise sql_error
  | _, _ => Raise sql_error
  end).

Definition migrate : sql Schema unit :=
  let! _ := renameStates in
  let! _ := renameSellers in
  let! _ := renamePools in
  let! _ := createTables in
  let! _ := copyStates in
  let! _ := copySellers in
  copyPools.

(** A version that is neither current nor known is only overwritten. *)
Definition upgrade : sql Schema unit :=
  let! _ := createMetaTable in
  let! from := getSchemaVersion in
  if String.eqb from to_version then sret tt
  else
    let! _ := if String.eqb from "empty" then createTables
              else if String.eqb from "< 3.2" then migrate else sret tt in
    setSchemaVersion to_version.

(** [clearProcessingDownloadStates], which needs the newer columns. *)
Definition clear_processing (userId : Z) : sql Schema unit :=
  push db_failure (execute (fun d =>
    match sc_states d with
    | Some (NewStates l n) =>
        Ok (put_states (Some (NewStates (update_rows (fun r => sr_userId r =? userId)
          (set_processing 0 0) l) n)) (sc_states_v3_1 d) d, tt)
    | _ => Raise sql_error
    end)).

(** Tables that are left over are dropped before the transaction. *)
Definition initializePerUserDatabase (effective : bool) (userId : Z) : sql Schema unit :=
  let! _ := dropMigrationTables true in
  let! _ := transaction upgrade in
  let! _ := dropMigrationTables effective in
  clear_processing userId.

(** ** Facts *)

(** A database from before version 3.2. *)
Record old_database d (l : list OldStateRow) (ps : list OldPoolRow) (ss : list SellerRow) : Prop := {
  od_meta : sc_meta d = None \/ sc_meta d = Some None;
  od_states : sc_states d = Some (OldStates l);
  od_pools : sc_pools d = Some (OldPools ps);
  od_sellers : sc_sellers d = Some ss;
  od_ids : distinct_keys (fun a b => sr_id a =? sr_id b) (map migrated_state l) = true;
  od_keys : distinct_keys same_pool (map migrated_pool ps) = true
}.

(** What is to become of it. *)
Definition migrated d l ps ss : Schema :=
  {| sc_meta := Some (Some to_version);
     sc_states := Some (NewStates (map migrated_state l) (Z.max 0 (max_id (map migrated_state l))));
     sc_contracts := Some (default [] (sc_contracts d)); sc_sellers := Some ss;
     sc_pools := Some (NewPools (map migrated_pool ps));
     sc_pieces := Some (default [] (sc_pieces d)); sc_files := Some (default [] (sc_files d));
     sc_states_v3_1 := None; sc_sellers_v3_1 := None; sc_pools_v3_1 := None |}.

(** A database but for tables left over from a migration. *)
Definition leftovers_dropped d : Schema :=
  put_states (sc_states d) None (put_sellers (sc_sellers d) None (put_pools (sc_pools d) None d)).

Lemma steady_upgrade : steady upgrade.
Proof.
  unfold upgrade, migrate, createTables, getSchemaVersion, setSchemaVersion, createMetaTable,
    other_statement, select, Sql.update.
  repeat first [apply steady_bind; [|intros ?] | apply steady_push | apply steady_execute
    | apply steady_ret | case_match].
Qed.

(** The result of the transaction, with the older tables. *)
Definition copied d l ps ss : Schema :=
  let d := migrated d l ps ss in
  put_states (sc_states d) (Some (OldStates l)) (put_sellers (Some ss) (Some ss)
    (put_pools (sc_pools d) (Some (OldPools ps)) d)).

Ltac run_step := erewrite bind_quiet; [|first [apply execute_quiet; reflexivity | reflexivity]].

Ltac simpl_conn :=
  lazymatch goal with |- ?m ?c = _ => let c' := eval cbn in c in change (m c) with (m c') end.

Ltac to_migration :=
  lazymatch goal with |- ?m ?c = ?r =>
    change ((sbind migrate (fun _ => setSchemaVersion to_version)) c = r) end.

Lemma migrate_runs d l ps ss s :
  sc_states d = Some (OldStates l) -> sc_pools d = Some (OldPools ps) -> sc_sellers d = Some ss ->
  sc_states_v3_1 d = None -> sc_sellers_v3_1 d = None -> sc_pools_v3_1 d = None ->
  distinct_keys (fun a b => sr_id a =? sr_id b) (map migrated_state l) = true ->
  distinct_keys same_pool (map migrated_pool ps) = true ->
  migrate {| cn_data := d; cn_saved := s; cn_faults := [] |} =
  (Ok tt, {| cn_data := set_meta (sc_meta d) (copied d l ps ss); cn_saved := s; cn_faults := [] |}).
Proof.
  intros Hs Hp Hse E1 E2 E3 Hi Hk. destruct d. cbn in *. subst. unfold migrate.
  do 3 run_step. erewrite bind_quiet; [|unfold createTables; do 7 run_step; apply execute_quiet; reflexivity].
  erewrite bind_quiet; [|apply execute_quiet; cbn; by rewrite Hi].
  run_step. apply execute_quiet. cbn. by rewrite Hk.
Qed.

Lemma upgrade_migrates d l ps ss :
  old_database d l ps ss -> leftovers_dropped d = d ->
  transaction upgrade (quiet d) = (Ok tt, quiet (copied d l ps ss)).
Proof.
  intros [Hm Hs Hp Hse Hi Hk] Hl. apply transaction_quiet. destruct d. cbn in *.
  injection Hl as <- <- <-. subst. unfold upgrade.
  destruct Hm as [-> | ->]; run_step; simpl_conn; to_migration;
    (erewrite bind_quiet; [|by apply migrate_runs]); apply push_quiet, execute_quiet; reflexivity.
Qed.

Lemma core_idem d : leftovers_dropped (leftovers_dropped d) = leftovers_dropped d.
Proof. done. Qed.

Lemma core_migrated d l ps ss : leftovers_dropped (copied d l ps ss) = migrated d l ps ss.
Proof. done. Qed.

Lemma update_cases {A} (f : Schema -> Schema * A) c r c' :
  push db_failure (Sql.update f) c = (r, c') ->
  cn_saved c' = cn_saved c /\
  (cn_data c' = cn_data c /\ succeeded r = false \/
   cn_data c' = (f (cn_data c)).1 /\ r = Ok (f (cn_data c)).2).
Proof.
  unfold push, Sql.update, execute.
  destruct (faulty_cases (fun c => match Ok (f (cn_data c)) with
    | Ok (x, a) => (Ok a, set_data x c) | Raise e => (Raise e, c) end) c)
    as [(e & c1 & -> & Hd & Hs)|(c1 & -> & Hd & Hs)].
  - intros [= <- <-]. auto.
  - rewrite Hd. destruct (f (cn_data c)) as [x a]. intros [= <- <-]. auto.
Qed.

(** Dropping tables that are left over touches nothing else, as far as it gets. *)
Lemma drop_keeps effective c r c' :
  dropMigrationTables effective c = (r, c') ->
  leftovers_dropped (cn_data c') = leftovers_dropped (cn_data c) /\ cn_saved c' = cn_saved c /\
  (effective = true -> r = Ok tt -> cn_data c' = leftovers_dropped (cn_data c)).
Proof.
  unfold dropMigrationTables, sbind. intros E.
  destruct (push db_failure (Sql.update (fun d =>
    (put_states (sc_states d) (if effective then None else sc_states_v3_1 d) d, tt))) c)
    as [r1 c1] eqn:E1. apply update_cases in E1 as [Hs1 [[Hd1 Hr1]|[Hd1 Hr1]]].
  { destruct r1; [done|]. injection E as <- <-. by rewrite Hd1. }
  subst r1. cbn in E.
  destruct (push db_failure (Sql.update (fun d =>
    (put_sellers (sc_sellers d) (if effective then None else sc_sellers_v3_1 d) d, tt))) c1)
    as [r2 c2] eqn:E2. apply update_cases in E2 as [Hs2 [[Hd2 Hr2]|[Hd2 Hr2]]].
  { destruct r2; [done|]. injection E as <- <-. rewrite Hd2, Hd1. split; [done|]. split; [congruence|done]. }
  subst r2. cbn in E. apply update_cases in E as [Hs3 [[Hd3 Hr3]|[Hd3 Hr3]]];
    rewrite Hd3, Hd2, Hd1; (split; [done|]; split; [congruence|]); intros -> E; [by rewrite E in Hr3|done].
Qed.

Lemma old_core d d' l ps ss :
  leftovers_dropped d' = leftovers_dropped d -> old_database d l ps ss ->
  old_database d' l ps ss /\ migrated d' l ps ss = migrated d l ps ss.
Proof.
  intros E [Hm Hs Hp Hse Hi Hk]. unfold leftovers_dropped in E. cbn in E.
  injection E as E1 E2 E3 E4 E5 E6 E7. split; [split; congruence|].
  unfold migrated. by rewrite E3, E6, E7.
Qed.

Lemma clear_migrated userId l :
  update_rows (fun r => sr_userId r =? userId) (set_processing 0 0) (map migrated_state l) =
  map migrated_state l.
Proof.
  unfold update_rows. rewrite List.map_map. apply map_ext. intros r.
  by destruct (sr_userId (migrated_state r) =? userId).
Qed.

Lemma clear_cases userId d l ps ss c r c' :
  leftovers_dropped (cn_data c) = migrated d l ps ss -> clear_processing userId c = (r, c') ->
  cn_saved c' = cn_saved c /\ leftovers_dropped (cn_data c') = migrated d l ps ss.
Proof.
  intros Hc. unfold clear_processing, push, execute.
  match goal with |- context[faulty ?f c] => destruct (faulty_cases f c)
    as [(e & c1 & -> & Hd & Hs)|(c1 & -> & Hd & Hs)] end.
  { intros [= <- <-]. by rewrite Hd. }
  rewrite Hd. pose proof Hc as Ht. apply (f_equal sc_states) in Ht. cbn in Ht. rewrite Ht.
  rewrite clear_migrated. intros [= <- <-]. cbn. split; [done|]. rewrite <- Hc, <- Ht. done.
Qed.

Lemma inside_upgrade : inside upgrade.
Proof.
  unfold upgrade, migrate, createTables, getSchemaVersion, setSchemaVersion, createMetaTable,
    other_statement, select, Sql.update.
  repeat first [apply inside_bind; [|intros ?] | apply inside_push | apply inside_execute
    | apply inside_ret | case_match].
Qed.

(** The transaction migrates or leaves the database as it is. *)
Lemma upgrade_cases c r c' l ps ss :
  old_database (cn_data c) l ps ss -> leftovers_dropped (cn_data c) = cn_data c ->
  cn_saved c = None -> transaction upgrade c = (r, c') ->
  (succeeded r = false /\ durable c' = cn_data c) \/
  (r = Ok tt /\ cn_saved c' = None /\ cn_data c' = copied (cn_data c) l ps ss).
Proof.
  intros Ho Hl Hs E. destruct r as [[]|e].
  - right. pose proof (transaction_ok _ _ _ _ E) as (_ & _ & _ & _ & _ & Hs').
    apply (steady_transaction _ steady_upgrade) in E. unfold calm in E. rewrite Hs in E.
    fold (quiet (cn_data c)) in E. rewrite (upgrade_migrates _ _ _ _ Ho Hl) in E.
    injection E as -> _. done.
  - left. split; [done|]. exact (atomic_transaction _ inside_upgrade c e c' Hs E).
Qed.

Lemma initialize_cases effective userId c r c' l ps ss :
  old_database (cn_data c) l ps ss -> cn_saved c = None ->
  initializePerUserDatabase effective userId c = (r, c') ->
  leftovers_dropped (durable c') = leftovers_dropped (cn_data c) \/
  leftovers_dropped (durable c') = migrated (cn_data c) l ps ss.
Proof.
  intros Ho Hs H. unfold initializePerUserDatabase, sbind in H.
  destruct (dropMigrationTables true c) as [r1 c1] eqn:E1. apply drop_keeps in E1 as (Hd1 & Hs1 & Hok1).
  destruct r1 as [[]|e]; [|injection H as _ <-; left; unfold durable; by rewrite Hs1, Hs].
  destruct (transaction upgrade c1) as [r2 c2] eqn:E2.
  destruct (old_core (cn_data c) (cn_data c1) l ps ss Hd1 Ho) as [Ho1 Hm1].
  apply (upgrade_cases c1 r2 c2 l ps ss) in E2; [|done|by rewrite Hok1|congruence].
  destruct E2 as [[Hr2 Hd2]|(-> & Hs2 & Hd2)].
  { destruct r2; [done|]. injection H as _ <-. left. by rewrite Hd2, Hd1. }
  destruct (dropMigrationTables effective c2) as [r3 c3] eqn:E3. apply drop_keeps in E3 as (Hd3 & Hs3 & _).
  rewrite Hd2, core_migrated, Hm1 in Hd3. right.
  destruct r3 as [[]|e].
  - apply (clear_cases userId (cn_data c) l ps ss) in H as [Hs4 Hd4]; [|done].
    unfold durable. by rewrite Hs4, Hs3, Hs2.
  - injection H as _ <-. unfold durable. by rewrite Hs3, Hs2.
Qed.

(** Without a fault, older tables are migrated and newer ones left alone. *)
Lemma drop_quiet effective d :
  dropMigrationTables effective (quiet d) = (Ok tt, quiet (if effective then leftovers_dropped d else d)).
Proof. by destruct effective, d. Qed.

Lemma clear_quiet userId d0 d l ps ss :
  leftovers_dropped d0 = migrated d l ps ss ->
  clear_processing userId (quiet d0) = (Ok tt, quiet d0).
Proof.
  intros Hc. apply push_quiet, execute_quiet. apply (f_equal sc_states) in Hc. cbn in Hc. rewrite Hc.
  cbn. rewrite clear_migrated. destruct d0. cbn in *. by subst.
Qed.

(** The second time tables are dropped. *)
Lemma drop_and_clear effective userId d0 d l ps ss :
  leftovers_dropped d0 = migrated d l ps ss ->
  exists d', (let! _ := dropMigrationTables effective in clear_processing userId) (quiet d0) =
      (Ok tt, quiet d') /\
    leftovers_dropped d' = migrated d l ps ss /\ (effective = true -> d' = migrated d l ps ss).
Proof.
  intros Hc. eexists. split; [rewrite (bind_quiet _ _ _ _ _ (drop_quiet effective d0))|].
  - apply (clear_quiet userId _ d l ps ss). by destruct effective.
  - destruct effective; [|done]. by rewrite Hc.
Qed.

Lemma initialize_old effective userId d l ps ss :
  old_database d l ps ss ->
  exists d', initializePerUserDatabase effective userId (quiet d) = (Ok tt, quiet d') /\
    leftovers_dropped d' = migrated d l ps ss /\ (effective = true -> d' = migrated d l ps ss).
Proof.
  intros Ho. destruct (old_core d (leftovers_dropped d) l ps ss eq_refl Ho) as [Ho1 Hm].
  unfold initializePerUserDatabase. rewrite (bind_quiet _ _ _ _ _ (drop_quiet true d)).
  rewrite (bind_quiet _ _ _ _ _ (upgrade_migrates _ _ _ _ Ho1 eq_refl)).
  rewrite <- Hm. apply drop_and_clear, core_migrated.
Qed.

Lemma initialize_new effective userId d d0 l ps ss :
  leftovers_dropped d0 = migrated d l ps ss ->
  exists d', initializePerUserDatabase effective userId (quiet d0) = (Ok tt, quiet d') /\
    leftovers_dropped d' = migrated d l ps ss /\ (effective = true -> d' = migrated d l ps ss).
Proof.
  intros Hc. unfold initializePerUserDatabase. rewrite (bind_quiet _ _ _ _ _ (drop_quiet true d0)), Hc.
  erewrite bind_quiet; [|apply transaction_quiet; reflexivity]. by apply drop_and_clear.
Qed.

(** C22: an older database is migrated as a whole or not at all, and initializing it again brings it
    there.  Wherever the initialization fails, the tables are, but for leftovers of the migration, the
    older ones or those of version 3.2 with every download, seller and pool of the older ones, and a
    further initialization without failure succeeds and ends with these: exactly with them if
    dropping the leftovers after the transaction takes effect, and but for leftovers if it does not,
    as a comment of the code has it. *)
Theorem migration_safe effective userId c r c' l ps ss :
  old_database (cn_data c) l ps ss -> cn_saved c = None ->
  initializePerUserDatabase effective userId c = (r, c') ->
  (leftovers_dropped (durable c') = leftovers_dropped (cn_data c) \/
   leftovers_dropped (durable c') = migrated (cn_data c) l ps ss) /\
  exists d', initializePerUserDatabase effective userId (quiet (durable c')) = (Ok tt, quiet d') /\
    leftovers_dropped d' = migrated (cn_data c) l ps ss /\
    (effective = true -> d' = migrated (cn_data c) l ps ss).
Proof.
  intros Ho Hs E. pose proof (initialize_cases effective userId c r c' l ps ss Ho Hs E) as Hc. split; [done|].
  destruct Hc as [Hc|Hc].
  - destruct (old_core (cn_data c) (durable c') l ps ss Hc Ho) as [Ho' <-]. by apply initialize_old.
  - by apply initialize_new.
Qed.
End Schema.

(** * An older database *)

Module OldSample.
Definition row : OldStateRow :=
  {| os_id := 4; os_userId := 900; os_version := "3.0"; os_ware := "w"; os_totalMedPrice := "1.50";
     os_preferences := "p"; os_startDate := ""; os_remainingPieces := 2; os_initialized := 1;
     os_licenseAcquired := 1; os_downloadStarted := 1; os_downloadPaused := 1;
     os_licensePurchased := 0; os_dataPurchased := 0; os_filesAssembled := 0 |}.

Definition pool : OldPoolRow := {| op_dsId := 4; op_userId := 900; op_fileId := "f"; op_pool := "s" |}.

Definition database : Schema :=
  {| sc_meta := None; sc_states := Some (OldStates [row]); sc_contracts := Some [];
     sc_sellers := Some []; sc_pools := Some (OldPools [pool]); sc_pieces := Some []; sc_files := None;
     sc_states_v3_1 := None; sc_sellers_v3_1 := None; sc_pools_v3_1 := None |}.

Lemma database_old : old_database database [row] [pool] [].
Proof. split; try reflexivity. by left. Qed.

(** The disk is full when the states are copied. *)
Definition failing : Conn Schema :=
  {| cn_data := database; cn_saved := None; cn_faults := replicate 17 None ++ [Some "full"] |}.

Lemma failing_fails : succeeded (initializePerUserDatabase "e" true 900 failing).1 = false.
Proof. vm_compute. reflexivity. Qed.

Lemma migration_safe_witness :
  old_database database [row] [pool] [] /\
  initializePerUserDatabase "e" true 900 (quiet (durable (initializePerUserDatabase "e" true 900 failing).2)) =
  (Ok tt, quiet (migrated database [row] [pool] [])).
Proof.
  split; [exact database_old|].
  destruct (migration_safe "e" true 900 failing _ _ [row] [pool] [] database_old eq_refl
    (surjective_pairing (initializePerUserDatabase "e" true 900 failing))) as (_ & d' & E & _ & Hd).
  rewrite E, (Hd eq_refl). reflexivity.
Defined.

(** A database of a later version is taken for one of version 3.2. *)
Lemma later_version_overwritten :
  let d := set_meta (Some (Some "3.3")) (migrated database [row] [pool] []) in
  exists d', initializePerUserDatabase "e" true 900 (quiet d) = (Ok tt, quiet d') /\
    sc_meta d' = Some (Some "3.2").
Proof. eexists. split; [vm_compute; reflexivity|]. reflexivity. Qed.
End OldSample.
