(* ===== verification/Lifecycle.v ===== *)
(** The life of a purchase ([cpp/purchase/ContractService.cpp] and the fibers it starts).

    A request of the service marks a download as processed, loads it and starts a fiber, which takes
    over, works on the download in memory and in the database, and stops processing.  Every call of
    the database may fail; the answers of the Bitmunk servers are inputs.  Events are named by their
    types. *)
From stdpp Require Import pretty.
From S2P Require Import Prelude DynMap Sql Money Payees SellerPicker DownloadState FileCost PurchaseDb.

Local Open Scope Z_scope.

Local Notation io := (Sql.io Tables).
Local Open Scope io_scope.

Section Lifecycle.
Context {Ware Prefs Contract CSection T : Type}.
Context `{Json Ware} `{Json Prefs} `{Json Contract} `{Json CSection}.
Context `{Json (SellerPool T)} `{Json Piece}.
Notation Purchase := (Purchase Ware Prefs Contract CSection T).
Implicit Types p : Purchase.

(** ** Purchaser *)

(** The section the servers return for a payment: its file, its hash and its pieces with keys. *)
Record PaidSection := { pd_fileId : string; pd_hash : string; pd_pieces : list Piece }.

(** The profile of the user and the Bitmunk servers: the contract signed, if it is not yet, with the
    account of the buyer in it, the purchased license, and the payment for the pieces of a seller. *)
Record Market := {
  mk_sign : Contract -> option Contract;
  mk_account : Prefs -> Contract -> Contract;
  mk_buyLicense : Contract -> option Contract;
  mk_pay : SellerData T -> list Piece -> option PaidSection
}.

(** A piece that is paid for keeps the path it was downloaded to. *)
Definition paid_piece (s : PaidSection) (downloaded : list Piece)
    (acc : list PieceEntry * list (option Piece)) (x : Piece) : list PieceEntry * list (option Piece) :=
  match List.find (fun y => pc_index y =? pc_index x) downloaded with
  | None => acc
  | Some y =>
      let x := set_pc_path (pc_path y) x in
      (acc.1 ++ [{| pe_fileId := pd_fileId s; pe_hash := pd_hash s; pe_status := "paid"; pe_piece := x |}],
       array_set None (Z.to_nat (pc_index x)) (Some x) acc.2)
  end.

(** The result so far, the entries and the progress of the file. *)
Definition pay_seller (mk : Market) (st : bool * list PieceEntry * Progress T CSection)
    (sd : SellerData T) : bool * list PieceEntry * Progress T CSection :=
  let '(success, es, g) := st in
  match dm_get (fp_downloaded (pg_file g)) (sd_hash sd) with
  | None => st
  | Some downloaded =>
      match mk_pay mk sd downloaded with
      | None => (false, es, g)
      | Some s =>
          let '(es, paid) := foldl (paid_piece s downloaded) (es, pg_paid g) (pd_pieces s) in
          (true, es, set_pg_paid paid g)
      end
  end.

Fixpoint pay_files (mk : Market) (success : bool) (es : list PieceEntry)
    (l : list (string * Progress T CSection))
    : bool * list PieceEntry * list (string * Progress T CSection) :=
  match l with
  | [] => (success, es, [])
  | (f, g) :: l =>
      let '(success, es, g) :=
        foldl (pay_seller mk) (success, es, g) (dm_values (fp_sellerData (pg_file g))) in
      let '(success, es, l) := pay_files mk success es l in
      (success, es, (f, g) :: l)
  end.

(** What is reported is the result of the last payment. *)
Definition runPurchaseDataOp (mk : Market) p : bool * list PieceEntry * Purchase :=
  let '(success, es, l) := pay_files mk true [] (ps_progress p) in
  (success, es, set_ps_progress l p).

Definition purchaseLicense (mk : Market) p : io (bool * Purchase) :=
  let p := set_ps_licensePurchased false p in
  match mk_sign mk (ps_contract p) with
  | None => iret (false, p)
  | Some k =>
      let p := set_ps_contract (mk_account mk (ps_preferences p) k) p in
      match mk_buyLicense mk (ps_contract p) with
      | None => iret (false, p)
      | Some k =>
          let p := set_ps_contract k p in
          do! ok := worked (updateContract p) in
          if ok then
            let p := set_ps_licensePurchased true p in
            do! _ := worked (updateDownloadStateFlags p) in
            iret (true, p)
          else iret (false, p)
      end
  end.

Definition purchaseData (mk : Market) p : io (bool * Purchase) :=
  let '(success, es, p) := runPurchaseDataOp mk (set_ps_dataPurchased false p) in
  if success then
    do! ok := worked (updateFileProgress p es) in
    if ok then
      let p := set_ps_dataPurchased true p in
      do! _ := worked (updateDownloadStateFlags p) in
      iret (true, p)
    else iret (false, p)
  else iret (false, p).

Definition ds_event (s : string) : string := "bitmunk.purchase.DownloadState" +:+ s.

Definition purchaser (mk : Market) (id : Z) p : io (Purchase * list string) :=
  do! _ := worked (setDownloadStateProcessorId p 0 id) in
  do! (e1, p) :=
    if negb (ps_remainingPieces p =? 0) then iret ([], p)
    else if ps_licensePurchased p then iret ([], p)
    else
      do! (ok, p) := purchaseLicense mk p in
      iret (if ok : bool then [ds_event ".licensePurchased"] else [], p) in
  do! (e2, p) :=
    if ps_licensePurchased p && negb (ps_dataPurchased p) then
      do! (ok, p) := purchaseData mk p in
      iret (if ok : bool then [ds_event ".dataPurchased"] else [], p)
    else iret ([], p) in
  do! _ := worked (stopProcessingDownloadState p id) in
  iret (p, ds_event ".purchaseStarted" :: e1 ++ e2 ++
    [if ps_licensePurchased p && ps_dataPurchased p then ds_event ".purchaseCompleted"
     else ds_event ".exception"]).

(** ** LicenseAcquirer *)

(** What the cost calculation reads of preferences and contract. *)
Record Readers := {
  rd_maxPrice : Prefs -> string;
  rd_fast : Prefs -> bool;
  rd_sellerLimit : Prefs -> Z;
  rd_licenseAmount : Contract -> string;
  rd_piecePayees : Contract -> option (list Payee)
}.

Definition to_download (rd : Readers) p : DownloadState T :=
  {| ds_id := ps_id p; ds_userId := ps_userId p; ds_maxPrice := rd_maxPrice rd (ps_preferences p);
     ds_fast := rd_fast rd (ps_preferences p); ds_sellerLimit := rd_sellerLimit rd (ps_preferences p);
     ds_licenseAmount := rd_licenseAmount rd (ps_contract p);
     ds_piecePayees := rd_piecePayees rd (ps_contract p);
     ds_progress := map (fun e => (e.1, pg_file e.2)) (ps_progress p);
     ds_remainingPieces := ps_remainingPieces p; ds_totalPieceCount := ps_totalPieceCount p;
     ds_totalMicroPaymentCost := ps_totalMicroPaymentCost p; ds_totalMinPrice := ps_totalMinPrice p;
     ds_totalMedPrice := ps_totalMedPrice p; ds_totalMaxPrice := ps_totalMaxPrice p;
     ds_initialized := ps_initialized p; ds_licenseAcquired := ps_licenseAcquired p;
     ds_downloadPaused := ps_downloadPaused p; ds_deleting := false; ds_startDate := ps_startDate p;
     ds_activeSellers := []; ds_blacklist := [] |}.

(** The totals and the files the calculation has changed. *)
Definition with_costs (ds : DownloadState T) p : Purchase :=
  {| ps_id := ps_id p; ps_userId := ps_userId p; ps_version := ps_version p; ps_ware := ps_ware p;
     ps_preferences := ps_preferences p; ps_contract := ps_contract p;
     ps_totalMinPrice := ds_totalMinPrice ds; ps_totalMedPrice := ds_totalMedPrice ds;
     ps_totalMaxPrice := ds_totalMaxPrice ds; ps_totalPieceCount := ds_totalPieceCount ds;
     ps_totalMicroPaymentCost := ds_totalMicroPaymentCost ds; ps_startDate := ps_startDate p;
     ps_remainingPieces := ps_remainingPieces p; ps_initialized := ps_initialized p;
     ps_licenseAcquired := ps_licenseAcquired p; ps_downloadStarted := ps_downloadStarted p;
     ps_downloadPaused := ps_downloadPaused p; ps_licensePurchased := ps_licensePurchased p;
     ps_dataPurchased := ps_dataPurchased p; ps_filesAssembled := ps_filesAssembled p;
     ps_processing := ps_processing p; ps_processorId := ps_processorId p;
     ps_progress := map (fun e =>
       (e.1, set_pg_file (dm_get_or (ds_progress ds) e.1 (pg_file e.2)) e.2)) (ps_progress p) |}.

Definition calculate_costs (D : Type) `{BigDecimal D} (rd : Readers) p : Purchase :=
  with_costs (calculate (D:=D) (to_download rd p)).2 p.

(** Failures to write a pool are ignored. *)
Fixpoint update_pools p (l : list (string * Progress T CSection)) : io unit :=
  match l with
  | [] => iret tt
  | (_, g) :: l =>
      do! _ := worked (updateSellerPool p (fp_pool (pg_file g))) in update_pools p l
  end.

(** [sign_media] is the contract with the media the server has signed. *)
Definition licenseAcquirer (D : Type) `{BigDecimal D} (rd : Readers)
    (sign_media : Contract -> option Contract) (id : Z) p : io (Purchase * list string) :=
  do! _ := worked (setDownloadStateProcessorId p 0 id) in
  do! (acquired, p) :=
    if ps_licenseAcquired p then iret (true, p)
    else match sign_media (ps_contract p) with
      | None => iret (false, p)
      | Some k =>
          let p := calculate_costs D rd (set_ps_licenseAcquired true (set_ps_contract k p)) in
          do! contract := worked (updateContract p) in
          do! flags := if contract : bool then worked (updateDownloadStateFlags p) else iret false in
          do! _ := update_pools p (ps_progress p) in
          iret (flags : bool, p)
      end in
  do! _ := worked (stopProcessingDownloadState p id) in
  iret (p, [ds_event ".licenseAcquisitionStarted";
            if acquired : bool then ds_event ".licenseAcquired" else ds_event ".exception"]).

(** ** DownloadStateInitializer *)

(** The members of a message it looks at. *)
Record PoolsMsg := { pm_interrupt : bool; pm_complete : bool; pm_failed : bool }.

(** Whether to go on sleeping, and the events. *)
Definition pools_message (id : Z) p (m : PoolsMsg) (st : bool * list string) : io (bool * list string) :=
  let '(sleeping, es) := st in
  let '(sleeping, es) := if pm_interrupt m
    then (false, es ++ [ds_event ".initializationInterrupted"]) else (sleeping, es) in
  if pm_complete m then
    do! _ := worked (stopProcessingDownloadState p id) in
    iret (false, es ++ [ds_event ".initialized"])
  else if pm_failed m then iret (false, es ++ [ds_event ".exception"])
  else iret (sleeping, es).

Fixpoint pools_messages (id : Z) p (ms : list PoolsMsg) (st : bool * list string)
    : io (bool * list string) :=
  match ms with
  | [] => iret st
  | m :: ms => do! st := pools_message id p m st in pools_messages id p ms st
  end.

(** The messages of each time it wakes up; [None] while it sleeps. *)
Fixpoint await_pools (id : Z) p (wakes : list (list PoolsMsg)) (es : list string)
    : io (option (list string)) :=
  match wakes with
  | [] => iret None
  | ms :: wakes =>
      do! (sleeping, es) := pools_messages id p ms (true, es) in
      if sleeping : bool then await_pools id p wakes es else iret (Some es)
  end.

Definition initializer (ware_files : Ware -> list WareFile) (wakes : list (list PoolsMsg)) (id : Z) p
    : io (option (list string)) :=
  do! _ := worked (setDownloadStateProcessorId p 0 id) in
  do! r :=
    if ps_id p =? 0 then iret (Some [ds_event ".exception"])
    else if ps_initialized p then
      do! _ := worked (stopProcessingDownloadState p id) in iret (Some [ds_event ".initialized"])
    else
      do! r := attempt (insertSellerPools ware_files p) in
      match r with
      | Raise _ => iret (Some [ds_event ".exception"])
      | Ok p => await_pools id p wakes []
      end in
  match r with
  | None => iret None
  | Some es => do! _ := worked (stopProcessingDownloadState p id) in iret (Some es)
  end.

(** ** ContractService *)

(** A new object with the ids of a download; [no_ware], [no_prefs] and [no_contract] are members that
    are not set. *)
Context (no_ware : Ware) (no_prefs : Prefs) (no_contract : Contract).
Context (dirname : string -> string) (section_info : CSection -> SectionInfo).

Definition blank (userId id : Z) : Purchase :=
  {| ps_id := id; ps_userId := userId; ps_version := ""; ps_ware := no_ware;
     ps_preferences := no_prefs; ps_contract := no_contract; ps_totalMinPrice := "";
     ps_totalMedPrice := ""; ps_totalMaxPrice := ""; ps_totalPieceCount := 0;
     ps_totalMicroPaymentCost := ""; ps_startDate := ""; ps_remainingPieces := 0;
     ps_initialized := false; ps_licenseAcquired := false; ps_downloadStarted := false;
     ps_downloadPaused := false; ps_licensePurchased := false; ps_dataPurchased := false;
     ps_filesAssembled := false; ps_processing := false; ps_processorId := 0; ps_progress := [] |}.

(** The fiber a request starts, with the download it works on. *)
Inductive Fiber :=
| Initializer (p : Purchase)
| Acquirer (p : Purchase)
| Manager (p : Purchase)
| Purchaser (p : Purchase)
| Assembler (p : Purchase).

(** The download is marked and loaded, and [k] says which fiber is started; if that fails after the
    download was marked, processing is stopped again. *)
Definition processing (userId id : Z) (k : Purchase -> io (outcome Fiber)) : io (outcome Fiber) :=
  let p := blank userId id in
  do! r := attempt (startProcessingDownloadState p 0) in
  match r with
  | Raise e => iret (Raise e)
  | Ok _ =>
      do! r := attempt (populateDownloadState section_info dirname p) in
      do! r := match r with Raise e => iret (Raise e) | Ok p => k p end in
      match r with
      | Ok f => iret (Ok f)
      | Raise e => do! _ := worked (stopProcessingDownloadState p 0) in iret (Raise e)
      end
  end.

Definition initializeDownloadState (userId id : Z) : io (outcome Fiber) :=
  processing userId id (fun p => iret (Ok (Initializer (set_ps_initialized false p)))).

Definition acquireLicense (userId id : Z) : io (outcome Fiber) :=
  processing userId id (fun p => iret (Ok (Acquirer (set_ps_licenseAcquired false p)))).

Definition purchaseContractData (userId id : Z) : io (outcome Fiber) :=
  processing userId id (fun p => iret (Ok (Purchaser p))).

Definition assembleContractData (userId id : Z) : io (outcome Fiber) :=
  processing userId id (fun p => iret (Ok (Assembler p))).

(** [valid] is the validator of preferences; the exception for invalid ones is created without a type,
    which is part of its message. *)
Definition downloadContractData (untyped : string) (valid : Prefs -> bool) (userId id : Z) (prefs : option Prefs)
    : io (outcome Fiber) :=
  processing userId id (fun p =>
    let checked := match prefs with
      | None => if valid (ps_preferences p) then Ok p else Raise untyped
      | Some v => Ok (set_ps_preferences v p)
      end in
    match checked with
    | Raise e => iret (Raise e)
    | Ok p =>
        let p := set_ps_started true false p in
        do! r := attempt (updatePreferences p) in
        match r with
        | Raise e => iret (Raise e)
        | Ok _ =>
            do! r := attempt (updateDownloadStateFlags p) in
            iret (match r with Raise e => Raise e | Ok _ => Ok (Manager p) end)
        end
    end).

(** [deliver] is whether the message reaches the fiber. *)
Definition pauseDownload (deliver : Z -> bool) (userId id : Z) : io (outcome (option Z)) :=
  do! r := attempt (populateProcessingInfo (blank userId id)) in
  iret (match r with
    | Ok p =>
        if ps_processing p && negb (ps_processorId p =? 0) then
          if deliver (ps_processorId p) then Ok (Some (ps_processorId p))
          else Raise "bitmunk.purchase.ContractService.DownloadNotInProgress"
        else Ok None
    | Raise _ => Raise "bitmunk.purchase.ContractService.DownloadNotInProgress"
    end).

Definition getDownloadState (userId id : Z) : io (outcome Purchase) :=
  attempt (populateDownloadState section_info dirname (blank userId id)).

(** [started], [acquired] and [busy] are the filters of the query, if they are given. *)
Definition matches (started acquired busy : option bool) p : bool :=
  let same (q : option bool) (b : bool) := match q with None => true | Some v => Bool.eqb v b end in
  same started (ps_downloadStarted p) && same acquired (ps_licenseAcquired p) &&
  same busy (ps_processing p).

Definition getDownloadStates (userId : Z) (started acquired busy : option bool)
    : io (outcome (list Purchase)) :=
  do! r := attempt (getIncompleteDownloadStates section_info dirname blank userId) in
  iret (match r with
    | Ok l => Ok (List.filter (matches started acquired busy) l)
    | Raise _ => Raise "bitmunk.purchase.ContractService.DownloadStateRetrievalError"
    end).

(** [contract] is the new contract for the logged in buyer, if there is one. *)
Definition createDownloadState (contract_mediaId : Contract -> Z) (constraint_error : string)
    (userId : Z) (ware : Ware) (prefs : Prefs) (contract : option Contract) : io (outcome Z) :=
  match contract with
  | None => iret (Raise "bitmunk.purchase.ContractService.InvalidUser")
  | Some k =>
      let p : Purchase := {| ps_id := 0; ps_userId := userId; ps_version := ""; ps_ware := ware;
        ps_preferences := prefs; ps_contract := k; ps_totalMinPrice := "";
        ps_totalMedPrice := "0.00"; ps_totalMaxPrice := ""; ps_totalPieceCount := 0;
        ps_totalMicroPaymentCost := ""; ps_startDate := ""; ps_remainingPieces := 0;
        ps_initialized := false; ps_licenseAcquired := false; ps_downloadStarted := false;
        ps_downloadPaused := false; ps_licensePurchased := false; ps_dataPurchased := false;
        ps_filesAssembled := false; ps_processing := false; ps_processorId := 0;
        ps_progress := [] |} in
      do! r := attempt (insertDownloadState contract_mediaId constraint_error p) in
      iret (match r with Ok p => Ok (ps_id p) | Raise e => Raise e end)
  end.

(** The files of pieces that are removed; an unassigned piece may have none. *)
Definition piece_files p : list string :=
  concat (map (fun e =>
    let f := pg_file e.2 in
    List.filter (fun s => negb (String.eqb s "")) (map pc_path (fp_unassigned f)) ++
    map pc_path (concat (dm_values (fp_assigned f))) ++
    map pc_path (concat (dm_values (fp_downloaded f)))) (ps_progress p)).

(** [while_paused] is what the fiber that processes the download does while the request waits for it
    to stop.  The result has the files that are removed. *)
Definition deleteDownloadState (while_paused : io unit) (userId id : Z)
    : io (outcome unit * list string) :=
  let active : outcome unit := Raise "bitmunk.purchase.ContractService.DownloadStateActive" in
  let p := blank userId id in
  do! r := attempt (populateDownloadState section_info dirname p) in
  match r with
  | Raise e => iret (Raise e, [])
  | Ok p =>
      if (ps_remainingPieces p =? 0) && negb (ps_filesAssembled p) then iret (active, [])
      else
        do! _ := if ps_processing p then while_paused else iret tt in
        do! r := attempt (startProcessingDownloadState p 0) in
        match r with
        | Raise _ => iret (active, [])
        | Ok _ =>
            do! r := attempt (populateDownloadState section_info dirname p) in
            match r with
            | Raise e =>
                do! _ := worked (stopProcessingDownloadState p 0) in iret (Raise e, [])
            | Ok p =>
                let files := piece_files p in
                do! r := attempt (PurchaseDb.deleteDownloadState p) in
                match r with
                | Ok _ => iret (Ok tt, files)
                | Raise e =>
                    do! _ := worked (stopProcessingDownloadState p 0) in iret (Raise e, files)
                end
            end
        end
  end.

(** ** FileAssembler *)

(** [Conn Tables] with the paths of the files there are. *)
Definition fio (A : Type) : Type := list string * Conn Tables -> A * (list string * Conn Tables).

Definition fret {A} (a : A) : fio A := fun s => (a, s).

Definition fbind {A B} (m : fio A) (k : A -> fio B) : fio B := fun s => let '(a, s) := m s in k a s.

Definition on_db {A} (m : io A) : fio A := fun '(fs, c) => let '(a, c) := m c in (a, (fs, c)).

Definition exists_file (fs : list string) (path : string) : bool := existsb (String.eqb path) fs.

(** What the assembler needs of others: the expanded download path, whether a file processor is
    loaded, the name of the file in that directory if its title is known, creating directories,
    splitting off the extension, preparing a file, reading a piece to its end, and whether the file
    has the right id. *)
Record Assembly := {
  as_downloadPath : option string;
  as_loadBfp : FileProgress T -> bool;
  as_filename : Contract -> FileProgress T -> option string;
  as_mkdirs : string -> bool;
  as_splitext : string -> string * string;
  as_prepare : FileProgress T -> bool;
  as_read : option Piece -> bool;
  as_verify : FileProgress T -> string -> bool
}.

(** ["%s (%u)%s"] *)
Definition numbered (root ext : string) (n : N) : string :=
  root +:+ " (" +:+ pretty n +:+ ")" +:+ ext.

(** The loop of [getUniqueFilename]; the number of files bounds how often a name is taken. *)
Fixpoint next_free (fuel : nat) (fs : list string) (root ext : string) (n : N) : option string :=
  match fuel with
  | O => None
  | S fuel =>
      let path := numbered root ext (n + 1) in
      if exists_file fs path then next_free fuel fs root ext (n + 1) else Some path
  end.

Definition getUniqueFilename (split : string -> string * string) (fs : list string) (path : string)
    : option string :=
  if exists_file fs path then
    let '(root, ext) := split path in next_free (S (length fs)) fs root ext 0
  else Some path.

(** A piece is read from its file; an index that was not paid for has none. *)
Definition read_piece (a : Assembly) (fs : list string) (x : option Piece) : bool :=
  match x with Some y => exists_file fs (pc_path y) | None => false end && as_read a x.

(** Whether it worked, and the path of the file, which is created. *)
Definition assemblePieces (a : Assembly) (g : Progress T CSection) (path : string)
    : fio (bool * string) := fun '(fs, c) =>
  if negb (as_mkdirs a path) then ((false, path), (fs, c))
  else match getUniqueFilename (as_splitext a) fs path with
    | None => ((false, path), (fs, c))
    | Some path =>
        ((as_prepare a (pg_file g) && forallb (read_piece a fs) (pg_paid g), path), (path :: fs, c))
    end.

Definition remove_files (paths : list string) (fs : list string) : list string :=
  List.filter (fun s => negb (exists_file paths s)) fs.

Definition cleanupFilePieces (g : Progress T CSection) : fio unit := fun '(fs, c) =>
  (tt, (remove_files (map pc_path (omap id (pg_paid g))) fs, c)).

(** One file: whether it worked. *)
Definition assemble_file (a : Assembly) (constraint_error dir : string) p (g : Progress T CSection)
    : fio bool :=
  let f := pg_file g in
  if negb (as_loadBfp a f) then fret false
  else match as_filename a (ps_contract p) f with
    | None => fret false
    | Some name =>
        fbind (assemblePieces a g (dir +:+ "/" +:+ name)) (fun '(ok, path) =>
        if negb (ok && as_verify a f path) then fret false
        else fbind (on_db (worked (insertAssembledFile constraint_error p (fp_fileId f) path)))
          (fun ok => if ok : bool then fbind (cleanupFilePieces g) (fun _ => fret true) else fret false))
    end.

Fixpoint assemble_files (a : Assembly) (constraint_error dir : string) p
    (l : list (string * Progress T CSection)) : fio bool :=
  match l with
  | [] => fret true
  | (_, g) :: l =>
      fbind (assemble_file a constraint_error dir p g) (fun ok =>
      if ok : bool then assemble_files a constraint_error dir p l else fret false)
  end.

Definition checkPurchase p : bool := ps_licensePurchased p && ps_dataPurchased p.

(** The result has the event the assembly ends with; those on the way, and the scan of the media
    library, change nothing here. *)
Definition assembler (a : Assembly) (constraint_error : string) (id : Z) p
    : fio (Purchase * string) :=
  fbind (on_db (worked (setDownloadStateProcessorId p 0 id))) (fun _ =>
  fbind (if checkPurchase p then
           match as_downloadPath a with
           | None => fret false
           | Some dir => assemble_files a constraint_error dir p (ps_progress p)
           end
         else fret false) (fun ok =>
  let p := if ok : bool then set_ps_filesAssembled true p else p in
  fbind (if ok then on_db (worked (updateDownloadStateFlags p)) else fret true) (fun _ =>
  fbind (on_db (worked (stopProcessingDownloadState p id))) (fun _ =>
  fret (p, if ok then ds_event ".assemblyCompleted" else ds_event ".exception"))))).
End Lifecycle.
