(* ===== verification/LifecycleFacts.v ===== *)
(** What holds of the life of a purchase: the order of its phases, payments, and the assembly of
    files. *)
From stdpp Require Import pretty relations.
From S2P Require Import Prelude DynMap Sql Money SellerPicker DownloadState FileCost.
From S2P Require Import PurchaseDb PurchaseDbFacts Lifecycle.

Local Open Scope Z_scope.

Local Notation io := (Sql.io Tables).

(** * Phases *)

Section Phases.
Context {Ware Prefs Contract CSection T : Type}.
Context `{Json Ware} `{Json Prefs} `{Json Contract} `{Json CSection}.
Context `{Json (SellerPool T)} `{Json Piece}.
Notation Purchase := (Purchase Ware Prefs Contract CSection T).
Implicit Types p : Purchase.

(** Files are assembled after the data was purchased, and that after the license. *)
Definition phases p : Prop :=
  (ps_dataPurchased p = true -> ps_licensePurchased p = true) /\
  (ps_filesAssembled p = true -> ps_dataPurchased p = true).

Definition row_phases (r : StateRow) : Prop :=
  (is_flag (sr_dataPurchased r) = true -> is_flag (sr_licensePurchased r) = true) /\
  (is_flag (sr_filesAssembled r) = true -> is_flag (sr_dataPurchased r) = true).

Definition ordered (t : Tables) : Prop := forall r, In r (download_states t) -> row_phases r.

Lemma is_flag_flag b : is_flag (flag b) = b.
Proof. by destruct b. Qed.

Lemma ordered_same t t' : download_states t' = download_states t -> ordered t -> ordered t'.
Proof. unfold ordered. by intros ->. Qed.

Lemma ordered_update q f t :
  (forall r, q r = true -> row_phases r -> row_phases (f r)) -> ordered t ->
  ordered (set_states (update_rows q f (download_states t)) t).
Proof.
  intros Hf Ho r (r0 & Hr & ->)%in_update_rows. destruct (q r0) eqn:E; [apply Hf|]; auto.
Qed.

Lemma preserves_states q f :
  (forall r, q r = true -> row_phases r -> row_phases (f r)) -> preserves ordered (update_states q f).
Proof. intros Hf. apply preserves_update. intros t Ht. by apply ordered_update. Qed.

Lemma take_ordered p n m : preserves ordered (setDownloadStateProcessorId p n m).
Proof.
  unfold setDownloadStateProcessorId, ensure_state. preserve; try done; by apply preserves_states.
Qed.

Lemma start_ordered p n : preserves ordered (startProcessingDownloadState p n).
Proof.
  unfold startProcessingDownloadState, ensure_state. preserve; try done; by apply preserves_states.
Qed.

Lemma stop_ordered p n : preserves ordered (stopProcessingDownloadState p n).
Proof. unfold stopProcessingDownloadState. preserve. by apply preserves_states. Qed.

Lemma flags_ordered p : phases p -> preserves ordered (updateDownloadStateFlags p).
Proof.
  intros [Hd Hf]. unfold updateDownloadStateFlags. preserve. apply preserves_states.
  intros r _ _. unfold row_phases. cbn. by rewrite !is_flag_flag.
Qed.

Lemma preferences_ordered p : preserves ordered (updatePreferences p).
Proof. unfold updatePreferences. preserve. by apply preserves_states. Qed.

Lemma contract_ordered p : preserves ordered (updateContract p).
Proof. unfold updateContract. preserve; done. Qed.

Lemma pool_ordered p sp : preserves ordered (updateSellerPool p sp).
Proof. unfold updateSellerPool. preserve; done. Qed.

Lemma pieces_ordered p es : preserves ordered (updateFileProgress p es).
Proof. unfold updateFileProgress. preserve; done. Qed.

Lemma file_ordered e p f s : preserves ordered (insertAssembledFile e p f s).
Proof.
  unfold insertAssembledFile. preserve. apply preserves_execute. intros t t' u E Ht.
  case_match; [done|]. by injection E as <- _.
Qed.
End Phases.

Create HintDb ordered discriminated.
#[export] Hint Resolve take_ordered start_ordered stop_ordered flags_ordered preferences_ordered
  contract_ordered pool_ordered pieces_ordered file_ordered : ordered.

Ltac keep :=
  repeat match goal with
  | |- keeps _ (ibind _ _) => apply keeps_bind; [|intros ?]
  | |- keeps _ (iret _) => apply keeps_ret
  | |- keeps _ (worked _) => apply keeps_worked
  | |- keeps _ (attempt _) => apply keeps_attempt
  | |- keeps _ (let '(_, _) := ?x in _) => destruct x
  | |- keeps _ (match ?x with _ => _ end) => destruct x eqn:?
  end.

Section Fibers.
Context {Ware Prefs Contract CSection T : Type}.
Context `{Json Ware} `{Json Prefs} `{Json Contract} `{Json CSection}.
Context `{Json (SellerPool T)} `{Json Piece}.
Notation Purchase := (Purchase Ware Prefs Contract CSection T).
Implicit Types p : Purchase.

(** A run keeps the order of the phases in the tables and ends with a download that has it. *)
Definition in_order {A} (out : A -> Purchase) (m : io A) : Prop :=
  keeps ordered m /\ forall c, phases (out (m c).1).

Lemma in_order_ret {A} (out : A -> Purchase) a : phases (out a) -> in_order out (iret a).
Proof. intros Ha. split; [apply keeps_ret|done]. Qed.

Lemma in_order_bind {A B} (out : B -> Purchase) (m : io A) (k : A -> io B) :
  keeps ordered m -> (forall a, in_order out (k a)) -> in_order out (ibind m k).
Proof.
  intros Hm Hk. split; [apply keeps_bind; [done|]; intros a; apply Hk|].
  intros c. unfold ibind. destruct (m c) as [a c']. apply Hk.
Qed.

Lemma in_order_seq {A B} (out1 : A -> Purchase) (out : B -> Purchase) (m : io A) (k : A -> io B) :
  in_order out1 m -> (forall a, phases (out1 a) -> in_order out (k a)) -> in_order out (ibind m k).
Proof.
  intros [Hm Ho] Hk. split.
  - intros c Hc. unfold ibind. pose proof (Ho c) as Hp. pose proof (Hm c Hc) as Hr.
    destruct (m c) as [a c']. by apply (Hk a Hp).
  - intros c. unfold ibind. pose proof (Ho c) as Hp. destruct (m c) as [a c']. by apply (Hk a Hp).
Qed.

Lemma purchaseLicense_in_order mk p :
  phases p -> ps_licensePurchased p = false -> in_order snd (purchaseLicense mk p).
Proof.
  intros Hp Hl. assert (ps_dataPurchased p = false) as Hd.
  { destruct (ps_dataPurchased p) eqn:E; [|done]. apply Hp in E. congruence. }
  assert (ps_filesAssembled p = false) as Hf.
  { destruct (ps_filesAssembled p) eqn:E; [|done]. apply Hp in E. congruence. }
  unfold purchaseLicense. destruct (mk_sign _ _); [|by apply in_order_ret; split; cbn; congruence].
  destruct (mk_buyLicense _ _); [|by apply in_order_ret; split; cbn; congruence].
  apply in_order_bind; [apply keeps_worked; auto with ordered|]. intros [|];
    [|by apply in_order_ret; split; cbn; congruence].
  apply in_order_bind; [|intros ?; by apply in_order_ret; split; cbn; congruence].
  apply keeps_worked, flags_ordered. split; cbn; congruence.
Qed.

Lemma purchaseData_in_order mk p :
  phases p -> ps_licensePurchased p = true -> ps_dataPurchased p = false ->
  in_order snd (purchaseData mk p).
Proof.
  intros Hp Hl Hd. assert (ps_filesAssembled p = false) as Hf.
  { destruct (ps_filesAssembled p) eqn:E; [|done]. apply Hp in E. congruence. }
  unfold purchaseData, runPurchaseDataOp. cbn [ps_progress set_ps_dataPurchased].
  destruct (pay_files mk true [] (ps_progress p)) as [[ok es] l].
  destruct ok; [|by apply in_order_ret; split; cbn; congruence].
  apply in_order_bind; [apply keeps_worked; auto with ordered|]. intros [|];
    [|by apply in_order_ret; split; cbn; congruence].
  apply in_order_bind; [|intros ?; by apply in_order_ret; split; cbn; congruence].
  apply keeps_worked, flags_ordered. split; cbn; congruence.
Qed.

Lemma purchaser_in_order mk id p : phases p -> in_order fst (purchaser mk id p).
Proof.
  intros Hp. unfold purchaser. apply in_order_bind; [apply keeps_worked; auto with ordered|]. intros _.
  apply (in_order_seq snd).
  { destruct (negb _); [by apply in_order_ret|]. destruct (ps_licensePurchased p) eqn:El;
      [by apply in_order_ret|].
    apply (in_order_seq snd); [by apply purchaseLicense_in_order|]. intros [ok q] Hq. by apply in_order_ret. }
  intros [e1 q] Hq. cbn in Hq. apply (in_order_seq snd).
  { destruct (ps_licensePurchased q) eqn:El, (ps_dataPurchased q) eqn:Ed; cbn;
      try by apply in_order_ret.
    apply (in_order_seq snd); [by apply purchaseData_in_order|]. intros [ok q'] Hq'. by apply in_order_ret. }
  intros [e2 q'] Hq'. apply in_order_bind; [apply keeps_worked; auto with ordered|]. intros _.
  by apply in_order_ret.
Qed.

Lemma update_pools_keeps p l : keeps ordered (update_pools p l).
Proof. induction l as [|[k g] l IH]; cbn; keep; auto with ordered. Qed.

Lemma acquirer_in_order D `{BigDecimal D} rd sign id p :
  phases p -> in_order fst (licenseAcquirer D rd sign id p).
Proof.
  intros Hp. unfold licenseAcquirer. apply in_order_bind; [apply keeps_worked; auto with ordered|].
  intros _. apply (in_order_seq snd).
  - destruct (ps_licenseAcquired p); [by apply in_order_ret|].
    destruct (sign _); [|by apply in_order_ret].
    apply in_order_bind; [apply keeps_worked; auto with ordered|]. intros ok.
    apply in_order_bind; [destruct ok; [by apply keeps_worked, flags_ordered|apply keeps_ret]|].
    intros fl. apply in_order_bind; [apply update_pools_keeps|]. intros _. by apply in_order_ret.
  - intros [acq q] Hq. apply in_order_bind; [apply keeps_worked; auto with ordered|]. intros _.
    by apply in_order_ret.
Qed.
End Fibers.

(** * Requests and fibers *)

Section System.
Context {Ware Prefs Contract CSection T : Type}.
Context `{Json Ware} `{Json Prefs} `{Json Contract} `{Json CSection}.
Context `{Json (SellerPool T)} `{Json Piece}.
Context (no_ware : Ware) (no_prefs : Prefs) (no_contract : Contract).
Context (dirname : string -> string) (section_info : CSection -> SectionInfo).
Notation Purchase := (Purchase Ware Prefs Contract CSection T).
Implicit Types p : Purchase.

Definition purchase_flags p : bool * bool * bool :=
  (ps_licensePurchased p, ps_dataPurchased p, ps_filesAssembled p).

Lemma phases_flags p q : purchase_flags q = purchase_flags p -> phases p -> phases q.
Proof. unfold phases. by intros [= -> -> ->]. Qed.

(** ** Loading *)

Lemma each_row_flags {R} (f : R -> Purchase -> outcome Purchase) l p q :
  (forall r p q, f r p = Ok q -> purchase_flags q = purchase_flags p) ->
  each_row f l p = Ok q -> purchase_flags q = purchase_flags p.
Proof.
  intros Hf. revert p. induction l as [|r l IH]; intros p; cbn; [by intros [= <-]|].
  destruct (f r p) as [p'|] eqn:E; cbn; [|done]. intros Eq%IH. by rewrite Eq, (Hf r p p' E).
Qed.

Lemma each_piece_flags l found p found' q :
  each_piece l found p = Ok (found', q) -> purchase_flags q = purchase_flags p.
Proof.
  revert found p. induction l as [|r l IH]; intros found p; cbn; [by intros [= _ <-]|].
  destruct (from_json (pr_piece r)) as [x|]; cbn; [|done].
  destruct (place_piece _ _ _ _ _) as [g|]; cbn; [|done]. by intros Eq%IH.
Qed.

Lemma populateSellerPools_flags p c q c' :
  populateSellerPools p c = (Ok q, c') -> purchase_flags q = purchase_flags p.
Proof.
  intros (rows & c1 & _ & E%lift_ok)%push_ok%bind_ok. eapply each_row_flags; [|exact E].
  intros r p1 q1. unfold pool_row. destruct (from_json (pl_pool r)); cbn; [|done]. by intros [= <-].
Qed.

Lemma populateFileProgress_flags p c q c' :
  populateFileProgress p c = (Ok q, c') -> purchase_flags q = purchase_flags p.
Proof.
  intros (p1 & c1 & E1%populateSellerPools_flags & (rows & c2 & _ & Hb)%bind_ok)%push_ok%bind_ok.
  apply bind_ok in Hb as ([found p2] & c3 & E2%lift_ok%each_piece_flags & [= <- _]).
  cbn. unfold purchase_flags in *. cbn in *. congruence.
Qed.

Lemma populateFilePaths_flags p c q c' :
  populateFilePaths dirname p c = (Ok q, c') -> purchase_flags q = purchase_flags p.
Proof.
  intros (rows & c1 & _ & E%lift_ok)%push_ok%bind_ok. eapply each_row_flags; [|exact E].
  intros r p1 q1 [= <-]. by destruct (dm_get (ps_progress p1) (fr_fileId r)).
Qed.

Lemma populateSellerData_flags p c q c' :
  populateSellerData section_info p c = (Ok q, c') -> purchase_flags q = purchase_flags p.
Proof.
  intros (rows & c1 & _ & E%lift_ok)%push_ok%bind_ok. eapply each_row_flags; [|exact E].
  intros r p1 q1. unfold seller_row. destruct (from_json (sl_section r)); cbn; [|done]. by intros [= <-].
Qed.

Lemma populateContract_flags p c q c' :
  populateContract p c = (Ok q, c') -> purchase_flags q = purchase_flags p.
Proof.
  intros (row & c1 & _ & Hb)%push_ok%bind_ok. destruct row as [r|]; [|by injection Hb as <- _].
  apply bind_ok in Hb as (k & c2 & _ & [= <- _]). done.
Qed.

(** A download that is loaded has the phases of its row. *)
Lemma populate_phases p c q c' :
  ordered (cn_data c) -> populateDownloadState section_info dirname p c = (Ok q, c') -> phases q.
Proof.
  intros Ho (c1 & E & Hd & _)%push_ok%open_ok.
  apply push_ok, bind_ok in E as (row & c2 & [[= _ Er] _]%update_ok & Hb). rewrite Hd in Er.
  destruct row as [r|]; [|done].
  apply bind_ok in Hb as (p1 & c3 & E1%lift_ok & Hb).
  apply bind_ok in Hb as (p2 & c4 & E2%populateContract_flags & Hb).
  apply bind_ok in Hb as (p3 & c5 & E3%populateFileProgress_flags & Hb).
  apply bind_ok in Hb as (p4 & c6 & E4%populateFilePaths_flags & E5%populateSellerData_flags).
  apply (phases_flags p1); [congruence|].
  unfold load_row in E1. destruct (from_json (sr_ware r)); cbn in E1; [|done].
  destruct (from_json (sr_preferences r)); cbn in E1; [|done]. injection E1 as <-.
  assert (In r (download_states (cn_data c))) as Hin.
  { destruct (List.filter (own_state p) (download_states (cn_data c))) as [|r0 l] eqn:Ef; [done|].
    injection Er as ->. assert (In r (r :: l)) as Hr by (by left). rewrite <- Ef in Hr.
    by apply filter_In in Hr as [Hr _]. }
  exact (Ho r Hin).
Qed.

Lemma populate_ordered p : preserves ordered (populateDownloadState section_info dirname p).
Proof.
  unfold populateDownloadState, populate_state, populateContract, populateFileProgress,
    populateSellerPools, populateFilePaths, populateSellerData.
  repeat (preserve; try done; case_match).
Qed.

(** ** Requests *)

Definition fiber_purchase (f : Fiber (Ware:=Ware) (Prefs:=Prefs) (Contract:=Contract)
    (CSection:=CSection) (T:=T)) : Purchase :=
  match f with
  | Initializer p | Acquirer p | Manager p | Purchaser p | Assembler p => p
  end.

(** A request keeps the order, and the fiber it starts has a download in order. *)
Definition starts_in_order (m : io (outcome Fiber)) : Prop :=
  forall c, at_rest ordered c -> at_rest ordered (m c).2 /\
    forall f, (m c).1 = Ok f -> phases (fiber_purchase f).

Lemma processing_in_order userId id k :
  (forall p, phases p -> starts_in_order (k p)) ->
  starts_in_order (processing no_ware no_prefs no_contract dirname section_info userId id k).
Proof.
  intros Hk c Hc. unfold processing, ibind.
  set (p0 := blank no_ware no_prefs no_contract userId id).
  pose proof (keeps_attempt _ _ (start_ordered p0 0) c Hc) as Hc1.
  destruct (attempt (startProcessingDownloadState p0 0) c) as [[[]|e] c1]; [|done].
  pose proof (keeps_attempt _ _ (populate_ordered p0) c1 Hc1) as Hc2. unfold attempt in *.
  destruct (populateDownloadState section_info dirname p0 c1) as [r c2] eqn:E. cbn in Hc2.
  assert (forall c3, at_rest ordered c3 -> at_rest ordered (worked (stopProcessingDownloadState p0 0) c3).2)
    as Hstop by (intros c3 Hc3; by apply keeps_worked; [apply stop_ordered|]).
  destruct r as [q|e].
  - assert (phases q) as Hq by (by eapply populate_phases; [apply Hc1|]).
    destruct (Hk q Hq (reconnect c2) Hc2) as [Hc3 Hf].
    destruct (k q (reconnect c2)) as [[f|e] c3]; [done|]. specialize (Hstop c3 Hc3).
    by destruct (worked _ c3).
  - specialize (Hstop (reconnect c2) Hc2). cbn. by destruct (worked _ (reconnect c2)).
Qed.

Lemma starts_ret f : phases (fiber_purchase f) -> starts_in_order (iret (Ok f)).
Proof. intros Hf c Hc. split; [done|]. by intros f' [= <-]. Qed.

Lemma download_in_order untyped valid userId id prefs :
  starts_in_order (downloadContractData no_ware no_prefs no_contract dirname section_info
    untyped valid userId id prefs).
Proof.
  apply processing_in_order. intros p Hp.
  destruct (match prefs with None => if valid (ps_preferences p) then Ok p else Raise untyped
    | Some v => Ok (set_ps_preferences v p) end) as [q|e] eqn:E; [|by intros c].
  assert (phases (set_ps_started true false q)) as Hq.
  { destruct prefs; [injection E as <-; done|]. by destruct (valid _); [injection E as <-|]. }
  intros c Hc. unfold ibind.
  pose proof (keeps_attempt _ _ (preferences_ordered (set_ps_started true false q)) c Hc) as Hc1.
  destruct (attempt (updatePreferences _) c) as [[[]|e] c1]; [|done].
  pose proof (keeps_attempt _ _ (flags_ordered _ Hq) c1 Hc1) as Hc2.
  destruct (attempt (updateDownloadStateFlags _) c1) as [[[]|e] c2]; cbn in *; [|done].
  split; [done|]. by intros f [= <-].
Qed.

(** ** The assembler *)

Definition fkeeps {A} (m : fio A) : Prop :=
  forall fs c, at_rest ordered c -> at_rest ordered (m (fs, c)).2.2.

Lemma fkeeps_ret {A} (a : A) : fkeeps (fret a).
Proof. by intros fs c. Qed.

Lemma fkeeps_bind {A B} (m : fio A) (k : A -> fio B) :
  fkeeps m -> (forall a, fkeeps (k a)) -> fkeeps (fbind m k).
Proof.
  intros Hm Hk fs c Hc%(Hm fs). unfold fbind. destruct (m (fs, c)) as [a [fs' c']]. by apply Hk.
Qed.

Lemma fkeeps_db {A} (m : io A) : keeps ordered m -> fkeeps (on_db m).
Proof. intros Hm fs c Hc%Hm. cbn. by destruct (m c). Qed.

Lemma fkeeps_bind_ret {A B} (a : A) (k : A -> fio B) : fkeeps (k a) -> fkeeps (fbind (fret a) k).
Proof. done. Qed.

Lemma assemble_file_keeps a e dir p g : fkeeps (assemble_file a e dir p g).
Proof.
  unfold assemble_file. case_match; [apply fkeeps_ret|]. case_match; [|apply fkeeps_ret].
  apply fkeeps_bind.
  { intros fs c Hc. unfold assemblePieces. by repeat case_match. }
  intros [ok path]. case_match; [apply fkeeps_ret|].
  apply fkeeps_bind; [apply fkeeps_db, keeps_worked, file_ordered|]. intros [|]; [|apply fkeeps_ret].
  apply fkeeps_bind; [by intros fs c|]. intros _. apply fkeeps_ret.
Qed.

Lemma assemble_files_keeps a e dir p l : fkeeps (assemble_files a e dir p l).
Proof.
  induction l as [|[k g] l IH]; cbn [assemble_files]; [apply fkeeps_ret|].
  apply fkeeps_bind; [apply assemble_file_keeps|]. intros [|]; [done|apply fkeeps_ret].
Qed.

Lemma assembler_keeps a e id p : phases p -> fkeeps (assembler a e id p).
Proof.
  intros Hp. unfold assembler.
  apply fkeeps_bind; [apply fkeeps_db, keeps_worked, take_ordered|]. intros _.
  destruct (checkPurchase p) eqn:Ec.
  - apply andb_prop in Ec as [El Ed]. apply fkeeps_bind.
    { destruct (as_downloadPath a); [apply assemble_files_keeps|apply fkeeps_ret]. }
    intros ok. apply fkeeps_bind.
    { destruct ok; [|apply fkeeps_ret]. apply fkeeps_db, keeps_worked, flags_ordered. by split. }
    intros _. apply fkeeps_bind; [apply fkeeps_db, keeps_worked, stop_ordered|]. intros _. apply fkeeps_ret.
  - apply fkeeps_bind_ret. apply fkeeps_bind_ret.
    apply fkeeps_bind; [apply fkeeps_db, keeps_worked, stop_ordered|]. intros _. apply fkeeps_ret.
Qed.

(** ** The initializer *)

Lemma pools_ordered files p : preserves ordered (insertSellerPools files p).
Proof.
  unfold insertSellerPools. preserve. generalize (files (ps_ware p)). intros l. revert p.
  induction l as [|w l IH]; intros p; cbn [insert_pools]; preserve; [|apply IH].
  unfold insert_pool. preserve. done.
Qed.

Lemma initializer_keeps files wakes id p : keeps ordered (initializer files wakes id p).
Proof.
  assert (forall (q : Purchase) es, keeps ordered (await_pools id q wakes es)) as Hw.
  { intros q. induction wakes as [|ms wakes IH]; intros es; cbn [await_pools]; [apply keeps_ret|].
    apply keeps_bind; [|intros [[|] es']; [apply IH|apply keeps_ret]].
    generalize (true, es). induction ms as [|m ms IHm]; intros st; cbn [pools_messages]; [apply keeps_ret|].
    apply keeps_bind; [|done]. unfold pools_message. keep; auto with ordered. }
  unfold initializer. keep; auto with ordered. all: try apply pools_ordered. 
Qed.

(** ** All runs *)

(** The tables, and the downloads fibers were started with. *)
Inductive run : Tables * list Fiber -> Tables * list Fiber -> Prop :=
| run_initialize c fs userId id r c' :
    cn_saved c = None ->
    initializeDownloadState no_ware no_prefs no_contract dirname section_info userId id c = (r, c') ->
    run (cn_data c, fs) (cn_data c', match r with Ok f => f :: fs | Raise _ => fs end)
| run_acquire c fs userId id r c' :
    cn_saved c = None ->
    acquireLicense no_ware no_prefs no_contract dirname section_info userId id c = (r, c') ->
    run (cn_data c, fs) (cn_data c', match r with Ok f => f :: fs | Raise _ => fs end)
| run_download c fs untyped valid userId id prefs r c' :
    cn_saved c = None ->
    downloadContractData no_ware no_prefs no_contract dirname section_info untyped valid userId id
      prefs c = (r, c') ->
    run (cn_data c, fs) (cn_data c', match r with Ok f => f :: fs | Raise _ => fs end)
| run_purchase c fs userId id r c' :
    cn_saved c = None ->
    purchaseContractData no_ware no_prefs no_contract dirname section_info userId id c = (r, c') ->
    run (cn_data c, fs) (cn_data c', match r with Ok f => f :: fs | Raise _ => fs end)
| run_assemble c fs userId id r c' :
    cn_saved c = None ->
    assembleContractData no_ware no_prefs no_contract dirname section_info userId id c = (r, c') ->
    run (cn_data c, fs) (cn_data c', match r with Ok f => f :: fs | Raise _ => fs end)
| run_initializer c fs files wakes id p :
    cn_saved c = None -> In (Initializer p) fs ->
    run (cn_data c, fs) (cn_data (initializer files wakes id p c).2, fs)
| run_acquirer c fs D (bd : BigDecimal D) rd sign id p :
    cn_saved c = None -> In (Acquirer p) fs ->
    run (cn_data c, fs) (cn_data (licenseAcquirer D rd sign id p c).2, fs)
| run_manager c fs p q :
    cn_saved c = None -> In (Manager p) fs -> purchase_flags q = purchase_flags p ->
    run (cn_data c, fs) (cn_data (worked (updateDownloadStateFlags q) c).2, fs)
| run_purchaser c fs mk id p :
    cn_saved c = None -> In (Purchaser p) fs ->
    run (cn_data c, fs) (cn_data (purchaser mk id p c).2, fs)
| run_assembler c fs a e id files p :
    cn_saved c = None -> In (Assembler p) fs ->
    run (cn_data c, fs) (cn_data (assembler a e id p (files, c)).2.2, fs).

Definition runs_in_order (s : Tables * list Fiber) : Prop :=
  ordered s.1 /\ forall f, In f s.2 -> phases (fiber_purchase f).

Lemma request_in_order m c fs r c' :
  starts_in_order m -> cn_saved c = None -> m c = (r, c') -> runs_in_order (cn_data c, fs) ->
  runs_in_order (cn_data c', match r with Ok f => f :: fs | Raise _ => fs end).
Proof.
  intros Hm Hs E [Ho Hf]. destruct (Hm c) as [[_ Ho'] Hf']; [by split|]. rewrite E in *. cbn in *.
  split; [done|]. destruct r as [f|e]; [|done]. intros f' [<-|Hin]; [by apply Hf'|by apply Hf].
Qed.

Lemma fiber_in_order {A} (m : io A) c fs :
  keeps ordered m -> cn_saved c = None -> runs_in_order (cn_data c, fs) ->
  runs_in_order (cn_data (m c).2, fs).
Proof. intros Hm Hs [Ho Hf]. split; [|done]. by apply (Hm c). Qed.

Lemma run_in_order s s' : run s s' -> runs_in_order s -> runs_in_order s'.
Proof.
  intros Hr Hi. destruct Hr as [| | | | | |c fs D bd rd sign id p Hs Hin|c fs p q Hs Hin Hq
    |c fs mk id p Hs Hin|c fs a e id files p Hs Hin].
  1, 2, 4, 5: eapply request_in_order; [|done|done|done]; apply processing_in_order; intros q Hq;
    by apply starts_ret.
  1: eapply request_in_order; [apply download_in_order|done|done|done].
  1: apply fiber_in_order; [apply initializer_keeps|done|done].
  all: pose proof (proj2 Hi _ Hin) as Hp; cbn in Hp.
  - apply fiber_in_order; [by apply acquirer_in_order|done|done].
  - apply fiber_in_order; [by apply keeps_worked, flags_ordered, (phases_flags p)|done|done].
  - apply fiber_in_order; [by apply purchaser_in_order|done|done].
  - destruct Hi as [Ho Hf]. split; [|done]. by apply (assembler_keeps a e id p Hp).
Qed.

Lemma runs_stay_in_order s s' : rtc run s s' -> runs_in_order s -> runs_in_order s'.
Proof. induction 1 as [|x y z Hxy _ IH]; [done|]. intros Hx. by apply IH, (run_in_order x). Qed.

(** C6: the phases of a purchase are in order.  Whatever requests are made and however the fibers they
    start run, with any answers of the servers and any failures of the database, no download in the
    database is marked as assembled without its data being purchased, or has its data purchased without
    its license. *)
Theorem phases_in_order t t' fs :
  ordered t -> rtc run (t, []) (t', fs) -> ordered t'.
Proof.
  intros Ho Hr. apply (runs_stay_in_order _ _ Hr). by split.
Qed.
End System.

(** * Names of files *)

Lemma string_app_inv_l (a b c : string) : a +:+ b = a +:+ c -> b = c.
Proof. induction a as [|x a IH]; cbn; [done|]. intros [= E]. by apply IH. Qed.

Lemma string_app_inv_r (a b c : string) : a +:+ c = b +:+ c -> a = b.
Proof.
  revert b. induction a as [|x a IH]; intros [|y b] E; [done| | |].
  1-2: exfalso; pose proof (f_equal String.length E) as El; rewrite !string_length_app in El; cbn in El; lia.
  cbn in E. injection E as -> E. f_equal. by apply IH.
Qed.

Lemma numbered_inj root ext n m : numbered root ext n = numbered root ext m -> n = m.
Proof.
  unfold numbered. intros E%string_app_inv_l%string_app_inv_l%string_app_inv_r. by apply (inj pretty).
Qed.

Lemma exists_file_In fs s : exists_file fs s = true <-> In s fs.
Proof.
  unfold exists_file. rewrite existsb_exists. split.
  - by intros (x & Hx & ->%String.eqb_eq).
  - intros Hs. exists s. split; [done|apply String.eqb_refl].
Qed.

(** If the loop runs out, all the names it has tried are taken. *)
Lemma next_free_None fuel fs root ext n :
  next_free fuel fs root ext n = None ->
  forall i, (i < fuel)%nat -> In (numbered root ext (n + 1 + N.of_nat i)) fs.
Proof.
  revert n. induction fuel as [|fuel IH]; intros n; cbn; [lia|].
  destruct (exists_file fs _) eqn:E; [|done]. intros Hn [|i] Hi.
  - rewrite N.add_0_r. by apply exists_file_In.
  - replace (n + 1 + N.of_nat (S i))%N with (n + 1 + 1 + N.of_nat i)%N by lia. apply (IH _ Hn). lia.
Qed.

Lemma next_free_Some fuel fs root ext n path :
  next_free fuel fs root ext n = Some path -> ~ In path fs.
Proof.
  revert n. induction fuel as [|fuel IH]; intros n; cbn; [done|].
  destruct (exists_file fs _) eqn:E; [apply IH|]. intros [= <-] Hin.
  apply exists_file_In in Hin. congruence.
Qed.

Lemma next_free_total fs root ext : exists path, next_free (S (length fs)) fs root ext 0 = Some path.
Proof.
  destruct (next_free _ _ _ _ _) as [path|] eqn:E; [by exists path|]. exfalso.
  pose proof (next_free_None _ _ _ _ _ E) as Hall.
  set (names := map (fun i => numbered root ext (0 + 1 + N.of_nat i)) (seq 0 (S (length fs)))).
  assert (List.NoDup names) as Hd.
  { unfold names. apply NoDup_ListNoDup, NoDup_fmap_2_strong; [|apply NoDup_seq].
    intros i j _ _ Eij. apply numbered_inj in Eij. lia. }
  assert (incl names fs) as Hi.
  { intros s (i & <- & Hin)%in_map_iff. apply in_seq in Hin. apply Hall. lia. }
  pose proof (NoDup_incl_length Hd Hi) as Hl. unfold names in Hl. rewrite length_map, length_seq in Hl. lia.
Qed.

(** The search for a free name ends and finds one.  For any files there are, the loop that numbers
    the name of an assembled file stops after at most one more round than there are files, and the
    name it ends with is that of no file. *)
Theorem getUniqueFilename_free split fs path :
  exists path', getUniqueFilename split fs path = Some path' /\ ~ In path' fs.
Proof.
  unfold getUniqueFilename. destruct (exists_file fs path) eqn:E.
  - destruct (split path) as [root ext]. destruct (next_free_total fs root ext) as [path' E'].
    exists path'. split; [done|]. by eapply next_free_Some.
  - exists path. split; [done|]. intros Hin%exists_file_In. congruence.
Qed.

(** * Assembly *)

Section Assembly.
Context {Ware Prefs Contract CSection T : Type}.
Context `{Json Ware} `{Json Prefs} `{Json Contract} `{Json CSection}.
Context `{Json (SellerPool T)} `{Json Piece}.
Notation Purchase := (Purchase Ware Prefs Contract CSection T).
Implicit Types (p : Purchase) (g : Progress T CSection) (a : Assembly (T:=T) (Contract:=Contract)).

(** Some piece of the file is not where it was downloaded to. *)
Definition pieces_missing g (fs : list string) : Prop :=
  exists x, In (Some x) (pg_paid g) /\ ~ In (pc_path x) fs.

Lemma cleaned_missing g fs x :
  In (Some x) (pg_paid g) -> pieces_missing g (remove_files (map pc_path (omap id (pg_paid g))) fs).
Proof.
  intros Hx. exists x. split; [done|]. intros [_ Hn]%filter_In. apply negb_true_iff in Hn.
  assert (exists_file (map pc_path (omap id (pg_paid g))) (pc_path x) = true) as He; [|congruence].
  apply exists_file_In, in_map. apply list_elem_of_In, list_elem_of_omap.
  exists (Some x). split; [by apply list_elem_of_In|done].
Qed.

Lemma missing_unreadable a g fs : pieces_missing g fs -> forallb (read_piece a fs) (pg_paid g) = false.
Proof.
  intros (x & Hx & Hn). apply not_true_iff_false. rewrite forallb_forall. intros Hall.
  specialize (Hall _ Hx). cbn in Hall. apply andb_prop in Hall as [He _].
  by apply exists_file_In in He.
Qed.

Lemma missing_fails a e dir p g fs c : pieces_missing g fs -> (assemble_file a e dir p g (fs, c)).1 = false.
Proof.
  intros Hm. unfold assemble_file. case_match; [done|]. case_match; [|done].
  unfold fbind, assemblePieces. destruct (negb (as_mkdirs a _)); [done|].
  destruct (getUniqueFilename _ _ _); [|done]. rewrite (missing_unreadable a g fs Hm), andb_false_r. done.
Qed.

(** What a successful assembly of a file leaves. *)
Lemma assembled_missing a e dir p g s s' x :
  In (Some x) (pg_paid g) -> assemble_file a e dir p g s = (true, s') -> pieces_missing g s'.1.
Proof.
  intros Hx. destruct s as [fs c]. unfold assemble_file. case_match; [done|]. case_match; [|done].
  unfold fbind. destruct (assemblePieces a g _ (fs, c)) as [[ok path] [fs1 c1]].
  case_match; [done|]. cbn. destruct (worked _ c1) as [[|] c2]; [|done]. cbn. intros [= <-].
  by apply (cleaned_missing g _ x).
Qed.

(** An assembly that failed after its first file cannot be taken up again.  The pieces of a file
    are removed once it is assembled, and a later assembly starts with that file again: unless a piece
    is put back, it fails, with whatever file processors, names and directories. *)
Theorem assembly_not_resumed a e dir p k g l s s' x :
  In (Some x) (pg_paid g) -> assemble_file a e dir p g s = (true, s') ->
  forall a' e' dir' p' fs c,
    (forall y, In y (pg_paid g) -> forall z, y = Some z -> In (pc_path z) fs -> In (pc_path z) s'.1) ->
    (assemble_files a' e' dir' p' ((k, g) :: l) (fs, c)).1 = false.
Proof.
  intros Hx Ha a' e' dir' p' fs c Hfs.
  destruct (assembled_missing a e dir p g s s' x Hx Ha) as (z & Hz & Hn).
  assert (pieces_missing g fs) as Hm by (exists z; split; [done|]; intros Hin; apply Hn; by eapply Hfs).
  cbn [assemble_files]. unfold fbind. pose proof (missing_fails a' e' dir' p' g fs c Hm) as Hf.
  by destruct (assemble_file a' e' dir' p' g (fs, c)) as [[|] s1].
Qed.
End Assembly.

(** * Payments *)

Section Payments.
Context {Ware Prefs Contract CSection T : Type}.
Notation Purchase := (Purchase Ware Prefs Contract CSection T).
Implicit Types (p : Purchase) (g : Progress T CSection) (x : Piece)
  (mk : Market (Prefs:=Prefs) (Contract:=Contract) (T:=T)).

(** The servers take every payment and return the section with all the pieces that were paid for. *)
Definition pays_all mk : Prop :=
  forall sd l, exists s, mk_pay mk sd l = Some s /\ pd_hash s = sd_hash sd /\
    map pc_index (pd_pieces s) = map pc_index l.

(** There is an entry that says that a piece is paid for. *)
Definition has_paid (h : string) (i : Z) (es : list PieceEntry) : Prop :=
  exists e, In e es /\ pe_status e = "paid" /\ pe_hash e = h /\ pc_index (pe_piece e) = i.

Lemma paid_pieces_incl s dl xs acc e :
  In e acc.1 -> In e (foldl (paid_piece s dl) acc xs).1.
Proof.
  revert acc. induction xs as [|y xs IH]; intros acc He; [done|]. cbn. apply IH. unfold paid_piece.
  case_match; [|done]. cbn. apply in_or_app. by left.
Qed.

Lemma paid_pieces_every s dl xs acc y :
  In y xs -> In (pc_index y) (map pc_index dl) ->
  has_paid (pd_hash s) (pc_index y) (foldl (paid_piece s dl) acc xs).1.
Proof.
  revert acc. induction xs as [|z xs IH]; intros acc; [done|]. intros [<-|Hin] Hd; cbn; [|by apply IH].
  destruct (List.find (fun w => pc_index w =? pc_index z) dl) as [w|] eqn:Ef.
  - exists {| pe_fileId := pd_fileId s; pe_hash := pd_hash s; pe_status := "paid";
              pe_piece := set_pc_path (pc_path w) z |}. split; [|done].
    apply paid_pieces_incl. unfold paid_piece. rewrite Ef. apply in_or_app. right. by left.
  - exfalso. apply in_map_iff in Hd as (w & Ew & Hw). pose proof (List.find_none _ _ Ef w Hw) as Hn.
    cbn in Hn. apply Z.eqb_neq in Hn. congruence.
Qed.

Lemma paid_later h i es es' : (forall e, In e es -> In e es') -> has_paid h i es -> has_paid h i es'.
Proof. intros Hi (e & He & Hr). exists e. split; [by apply Hi|done]. Qed.

(** One payment: it works, adds entries and changes nothing but what is paid. *)
Lemma pay_seller_all mk es g sd :
  pays_all mk -> exists es' g', pay_seller mk (true, es, g) sd = (true, es', g') /\
    pg_file g' = pg_file g /\ (forall e, In e es -> In e es') /\
    forall l x, dm_get (fp_downloaded (pg_file g)) (sd_hash sd) = Some l -> In x l ->
      has_paid (sd_hash sd) (pc_index x) es'.
Proof.
  intros Hmk. unfold pay_seller. destruct (dm_get _ (sd_hash sd)) as [dl|]; [|by exists es, g].
  destruct (Hmk sd dl) as (s & -> & Hh & Hp).
  destruct (foldl (paid_piece s dl) (es, pg_paid g) (pd_pieces s)) as [es' paid] eqn:E.
  exists es', (set_pg_paid paid g). split; [done|]. split; [done|].
  change es' with (es', paid).1. rewrite <- E. split; [intros e; apply (paid_pieces_incl s dl (pd_pieces s) (es, pg_paid g))|].
  intros l x [= <-] Hx. apply (in_map pc_index) in Hx as Hi. rewrite <- Hp in Hi.
  apply in_map_iff in Hi as (y & Ey & Hy). rewrite <- Hh, <- Ey. apply paid_pieces_every; [done|].
  rewrite Ey. by apply in_map.
Qed.

Lemma pay_sellers_all mk sds es g :
  pays_all mk -> exists es' g', foldl (pay_seller mk) (true, es, g) sds = (true, es', g') /\
    pg_file g' = pg_file g /\ (forall e, In e es -> In e es') /\
    forall sd l x, In sd sds -> dm_get (fp_downloaded (pg_file g)) (sd_hash sd) = Some l -> In x l ->
      has_paid (sd_hash sd) (pc_index x) es'.
Proof.
  intros Hmk. revert es g. induction sds as [|sd sds IH]; intros es g; [by exists es, g|].
  cbn [foldl]. destruct (pay_seller_all mk es g sd Hmk) as (es1 & g1 & -> & Hg1 & Hi1 & Hp1).
  destruct (IH es1 g1) as (es2 & g2 & -> & Hg2 & Hi2 & Hp2). exists es2, g2. rewrite Hg1 in *.
  split; [done|]. split; [done|]. split; [by auto|]. intros sd' l x [<-|Hin] Hd Hx.
  - eapply paid_later; [exact Hi2|]. by eapply Hp1.
  - by eapply Hp2.
Qed.

Lemma pay_files_all mk l es :
  pays_all mk -> exists es' l', pay_files mk true es l = (true, es', l') /\
    (forall e, In e es -> In e es') /\
    forall f g sd dl x, In (f, g) l -> In sd (dm_values (fp_sellerData (pg_file g))) ->
      dm_get (fp_downloaded (pg_file g)) (sd_hash sd) = Some dl -> In x dl ->
      has_paid (sd_hash sd) (pc_index x) es'.
Proof.
  intros Hmk. revert es. induction l as [|[f g] l IH]; intros es; [by exists es, []|].
  cbn [pay_files].
  destruct (pay_sellers_all mk (dm_values (fp_sellerData (pg_file g))) es g Hmk)
    as (es1 & g1 & -> & Hg1 & Hi1 & Hp1).
  destruct (IH es1) as (es2 & l2 & -> & Hi2 & Hp2). exists es2, ((f, g1) :: l2).
  split; [done|]. split; [by auto|]. intros f' g' sd dl x [[= <- <-]|Hin] Hs Hd Hx.
  - eapply paid_later; [exact Hi2|]. by eapply Hp1.
  - by eapply Hp2.
Qed.

(** C8: if the servers take every payment, all data is paid for.  The operation then reports success,
    and for each piece that was downloaded from a seller of a file there is an entry that it is paid
    for under the section of that seller. *)
Theorem downloaded_pieces_paid mk p :
  pays_all mk -> exists es p', runPurchaseDataOp mk p = (true, es, p') /\
    forall f g sd dl x, In (f, g) (ps_progress p) -> In sd (dm_values (fp_sellerData (pg_file g))) ->
      dm_get (fp_downloaded (pg_file g)) (sd_hash sd) = Some dl -> In x dl ->
      has_paid (sd_hash sd) (pc_index x) es.
Proof.
  intros Hmk. unfold runPurchaseDataOp.
  destruct (pay_files_all mk (ps_progress p) [] Hmk) as (es & l & -> & _ & Hp).
  exists es, (set_ps_progress l p). by split.
Qed.
End Payments.

(** * A purchase *)

Module PurchaseSample.
Import PurchaseDbFacts.Sample.

Definition piece1 : Piece := {| pc_index := 1; pc_size := 5; pc_bfpId := 1; pc_path := "1.fp" |}.

Definition seller (h : string) (id : Z) : SellerData Z :=
  {| sd_userId := id; sd_serverId := 1; sd_price := "1.00"; sd_downloadRate := None; sd_hash := h;
     sd_fileId := "f"; sd_sectionSeller := (id, 1) |}.

(** Each of two sellers has delivered a piece of the file. *)
Definition file : FileProgress Z :=
  set_fp_downloaded [("a", [piece0]); ("b", [piece1])]
    (set_fp_sellerData [("a", seller "a" 1); ("b", seller "b" 2)] (set_fp_pool pool no_progress)).

Definition paying (remaining : Z) : Purchase unit unit unit unit Z :=
  {| ps_id := 1; ps_userId := 900; ps_version := "3.0"; ps_ware := tt; ps_preferences := tt;
     ps_contract := tt; ps_totalMinPrice := "0.00"; ps_totalMedPrice := "0.00";
     ps_totalMaxPrice := "0.00"; ps_totalPieceCount := 2; ps_totalMicroPaymentCost := "0.00";
     ps_startDate := ""; ps_remainingPieces := remaining; ps_initialized := true;
     ps_licenseAcquired := true; ps_downloadStarted := true; ps_downloadPaused := false;
     ps_licensePurchased := true; ps_dataPurchased := false; ps_filesAssembled := false;
     ps_processing := true; ps_processorId := 0;
     ps_progress := [("f", set_pg_file file new_progress)] |}.

(** The servers refuse the payment for the sections in [refused]. *)
Definition market (refused : list string) : Market (Prefs:=unit) (Contract:=unit) (T:=Z) :=
  {| mk_sign := fun k => Some k; mk_account := fun _ k => k; mk_buyLicense := fun k => Some k;
     mk_pay := fun sd l => if existsb (String.eqb (sd_hash sd)) refused then None
       else Some {| pd_fileId := "f"; pd_hash := sd_hash sd; pd_pieces := l |} |}.

Lemma market_pays : pays_all (market []).
Proof. intros sd l. by eexists. Qed.

Lemma downloaded_pieces_paid_witness :
  pays_all (market []) /\ exists es p', runPurchaseDataOp (market []) (paying 0) = (true, es, p') /\
    has_paid "a" 0 es.
Proof.
  split; [exact market_pays|].
  destruct (downloaded_pieces_paid (market []) (paying 0) market_pays) as (es & p' & E & Hp).
  exists es, p'. split; [exact E|].
  apply (Hp "f" (set_pg_file file new_progress) (seller "a" 1) [piece0] piece0);
    [by left|by left|reflexivity|by left].
Defined.

(** The tables when the fiber starts. *)
Definition before : Tables := Eval vm_compute in
  durable (startProcessingDownloadState (paying 0) 0 (quiet idle)).2.

(** A payment that was refused is reported as made if a later one is not.  Of two sellers the first
    is not paid; the data is nevertheless marked as purchased in the database, the purchase is reported
    as completed, and no entry says that the piece of the first seller is paid for. *)
Theorem refused_payment_hidden :
  let '((p, events), c) := purchaser (market ["a"]) 7 (paying 0) (quiet before) in
  ps_dataPurchased p = true /\
  In (ds_event ".purchaseCompleted") events /\
  map sr_dataPurchased (download_states (cn_data c)) = [1] /\
  ~ exists r, In r (file_pieces (cn_data c)) /\ pr_hash r = "a".
Proof.
  vm_compute. split; [reflexivity|]. split; [by auto|]. split; [reflexivity|].
  intros (r & [<-|[]] & E). discriminate E.
Qed.

(** The data is purchased although a piece is missing, once the license is. *)
Lemma purchased_with_missing_pieces :
  ps_dataPurchased (purchaser (market []) 7 (paying 1) (quiet before)).1.1 = true.
Proof. vm_compute. reflexivity. Qed.

(** ** Assembly *)

Definition assembly (bfp : bool) : Assembly (Contract:=unit) (T:=Z) :=
  {| as_downloadPath := Some "d"; as_loadBfp := fun _ => bfp; as_filename := fun _ _ => Some "n";
     as_mkdirs := fun _ => true; as_splitext := fun s => (s, ""); as_prepare := fun _ => true;
     as_read := fun _ => true; as_verify := fun _ _ => true |}.

Definition paid_file : Progress Z unit := set_pg_paid [Some piece0] (set_pg_file file new_progress).

Definition files_before : list string * Conn Tables := (["0.fp"], quiet before).

Lemma assembly_not_resumed_witness :
  In (Some piece0) (pg_paid paid_file) /\
  (assemble_files (assembly true) "e" "d" (paying 0) [("f", paid_file)]
     (assemble_file (assembly true) "e" "d" (paying 0) paid_file files_before).2).1 = false.
Proof.
  split; [by left|].
  exact (assembly_not_resumed (assembly true) "e" "d" (paying 0) "f" paid_file [] files_before
    (assemble_file (assembly true) "e" "d" (paying 0) paid_file files_before).2 piece0
    (or_introl eq_refl) (ltac:(vm_compute; reflexivity)) (assembly true) "e" "d" (paying 0)
    (assemble_file (assembly true) "e" "d" (paying 0) paid_file files_before).2.1
    (assemble_file (assembly true) "e" "d" (paying 0) paid_file files_before).2.2
    (fun _ _ _ _ h => h)).
Defined.

(** ** A request and its fiber *)

Definition info (u : unit) : SectionInfo :=
  {| si_hash := ""; si_userId := 0; si_serverId := 0; si_fileId := "" |}.

Definition requested : outcome (Fiber (Ware:=unit) (Prefs:=unit) (Contract:=unit) (CSection:=unit) (T:=Z))
    * Conn Tables :=
  purchaseContractData tt tt tt id info 900 1 (quiet idle).

Definition loaded_purchase : Purchase unit unit unit unit Z :=
  match requested.1 with Ok (Purchaser p) => p | _ => purchase end.

Lemma request_starts : requested.1 = Ok (Purchaser loaded_purchase).
Proof. vm_compute. reflexivity. Qed.

Lemma idle_ordered : ordered idle.
Proof. intros r [<-|[]]. split; discriminate. Qed.

Definition after_purchase : Tables :=
  cn_data (purchaser (market []) 7 loaded_purchase requested.2).2.

Lemma purchase_runs : exists fs, rtc (run tt tt tt id info) (idle, []) (after_purchase, fs).
Proof.
  eexists. eapply rtc_l.
  { apply (run_purchase tt tt tt id info (quiet idle) [] 900 1 requested.1 requested.2); [reflexivity|].
    symmetry. apply surjective_pairing. }
  rewrite request_starts. eapply rtc_l; [|apply rtc_refl].
  apply (run_purchaser tt tt tt id info requested.2 _ (market []) 7 loaded_purchase); [|by left].
  vm_compute. reflexivity.
Qed.

Lemma phases_in_order_witness : ordered idle /\ ordered after_purchase.
Proof.
  split; [exact idle_ordered|]. destruct purchase_runs as [fs Hr].
  exact (phases_in_order tt tt tt id info idle after_purchase fs idle_ordered Hr).
Defined.
End PurchaseSample.
