(* ===== verification/LibraryDb.v ===== *)
(** The database of a user's media library ([cpp/medialibrary/MediaLibraryDatabase.cpp]).

    The media library and the catalog of a user share one database: the catalog adds its tables and,
    to those of the media library, triggers that mark its wares.  The tables of both are in
    [Library], and the triggers are part of the statements that fire them.  Values that are stored
    as JSON text are of types with [Json]. *)
From stdpp Require Import gmap.
From S2P Require Import Prelude DynMap Sql Http.

Local Open Scope Z_scope.
Local Open Scope sql_scope.

(** * Tables *)

Record LibraryFile := {
  fl_mlId : Z; fl_fileId : string; fl_mediaId : Z; fl_path : string; fl_contentType : string;
  fl_contentSize : Z; fl_size : Z; fl_formatDetails : string
}.

Record MediaRow := { md_id : Z; md_type : string; md_title : string }.

Record ContributorRow := { cb_mediaId : Z; cb_type : string; cb_name : string }.

(** The columns that the wares and the payee schemes have in common. *)
Record Flags := { fg_problem : Z; fg_dirty : bool; fg_updating : bool; fg_deleted : bool }.

Record SchemeRow := { sm_id : Z; sm_description : string; sm_flags : Flags }.

(** A payee of a scheme; a member that is absent is empty. *)
Record SchemePayee := {
  sp_account : Z; sp_amountType : string; sp_description : string; sp_amount : string;
  sp_percentage : string; sp_min : string
}.

Record PayeeRow := { py_scheme : Z; py_position : Z; py_payee : SchemePayee }.

Record WareRow := {
  wr_mlId : Z; wr_id : string; wr_description : string; wr_scheme : Z; wr_flags : Flags
}.

Record ProblemRow := { pb_id : Z; pb_text : string }.

Record Library := {
  lb_files : list LibraryFile;
  lb_media : list MediaRow;
  lb_contributors : list ContributorRow;
  lb_config : gmap string string;
  lb_problems : list ProblemRow;
  lb_schemes : list SchemeRow;
  lb_payees : list PayeeRow;
  lb_wares : list WareRow
}.

Definition set_lb_files (v : list LibraryFile) (x : Library) : Library :=
  {| lb_files := v; lb_media := lb_media x; lb_contributors := lb_contributors x;
     lb_config := lb_config x; lb_problems := lb_problems x; lb_schemes := lb_schemes x;
     lb_payees := lb_payees x; lb_wares := lb_wares x |}.

Definition set_lb_media (v : list MediaRow) (x : Library) : Library :=
  {| lb_files := lb_files x; lb_media := v; lb_contributors := lb_contributors x;
     lb_config := lb_config x; lb_problems := lb_problems x; lb_schemes := lb_schemes x;
     lb_payees := lb_payees x; lb_wares := lb_wares x |}.

Definition set_lb_contributors (v : list ContributorRow) (x : Library) : Library :=
  {| lb_files := lb_files x; lb_media := lb_media x; lb_contributors := v;
     lb_config := lb_config x; lb_problems := lb_problems x; lb_schemes := lb_schemes x;
     lb_payees := lb_payees x; lb_wares := lb_wares x |}.

Definition set_lb_config (v : gmap string string) (x : Library) : Library :=
  {| lb_files := lb_files x; lb_media := lb_media x; lb_contributors := lb_contributors x;
     lb_config := v; lb_problems := lb_problems x; lb_schemes := lb_schemes x;
     lb_payees := lb_payees x; lb_wares := lb_wares x |}.

Definition set_lb_problems (v : list ProblemRow) (x : Library) : Library :=
  {| lb_files := lb_files x; lb_media := lb_media x; lb_contributors := lb_contributors x;
     lb_config := lb_config x; lb_problems := v; lb_schemes := lb_schemes x;
     lb_payees := lb_payees x; lb_wares := lb_wares x |}.

Definition set_lb_schemes (v : list SchemeRow) (x : Library) : Library :=
  {| lb_files := lb_files x; lb_media := lb_media x; lb_contributors := lb_contributors x;
     lb_config := lb_config x; lb_problems := lb_problems x; lb_schemes := v;
     lb_payees := lb_payees x; lb_wares := lb_wares x |}.

Definition set_lb_payees (v : list PayeeRow) (x : Library) : Library :=
  {| lb_files := lb_files x; lb_media := lb_media x; lb_contributors := lb_contributors x;
     lb_config := lb_config x; lb_problems := lb_problems x; lb_schemes := lb_schemes x;
     lb_payees := v; lb_wares := lb_wares x |}.

Definition set_lb_wares (v : list WareRow) (x : Library) : Library :=
  {| lb_files := lb_files x; lb_media := lb_media x; lb_contributors := lb_contributors x;
     lb_config := lb_config x; lb_problems := lb_problems x; lb_schemes := lb_schemes x;
     lb_payees := lb_payees x; lb_wares := v |}.

Definition set_wr_flags (v : Flags) (r : WareRow) : WareRow :=
  {| wr_mlId := wr_mlId r; wr_id := wr_id r; wr_description := wr_description r;
     wr_scheme := wr_scheme r; wr_flags := v |}.

Definition set_sm_flags (v : Flags) (r : SchemeRow) : SchemeRow :=
  {| sm_id := sm_id r; sm_description := sm_description r; sm_flags := v |}.

(** [problem_id=0,dirty=1], with [updating] as it is. *)
Definition touched (f : Flags) : Flags :=
  {| fg_problem := 0; fg_dirty := true; fg_updating := fg_updating f; fg_deleted := fg_deleted f |}.

(** [problem_id=0,dirty=1,deleted=1] *)
Definition gone (f : Flags) : Flags :=
  {| fg_problem := 0; fg_dirty := true; fg_updating := fg_updating f; fg_deleted := true |}.

(** The id of a new row where the column is an [INTEGER PRIMARY KEY]. *)
Definition next_rowid (ids : list Z) : Z := foldr Z.max 0 ids + 1.

(** * Triggers *)

(** [media_library_file_updated], for a file that was updated *)
Definition file_updated (mlId : Z) (ws : list WareRow) : list WareRow :=
  update_rows (fun w => (wr_mlId w =? mlId) && negb (fg_deleted (wr_flags w)))
    (fun w => set_wr_flags (touched (wr_flags w)) w) ws.

(** [fkd_media_library_id_files], for a file that is deleted *)
Definition file_deleted (mlId : Z) (ws : list WareRow) : list WareRow :=
  update_rows (fun w => wr_mlId w =? mlId) (fun w => set_wr_flags (gone (wr_flags w)) w) ws.

(** [DELETE] on files *)
Definition delete_files (p : LibraryFile -> bool) (x : Library) : Library :=
  set_lb_files (delete_rows p (lb_files x))
    (set_lb_wares (foldl (fun ws f => file_deleted (fl_mlId f) ws) (lb_wares x)
      (List.filter p (lb_files x))) x).

(** [fkd_media_id_contributors], and [DELETE] on media *)
Definition delete_media (p : MediaRow -> bool) (x : Library) : Library :=
  set_lb_media (delete_rows p (lb_media x))
    (set_lb_contributors (foldl (fun cs m => delete_rows (fun c => cb_mediaId c =? md_id m) cs)
      (lb_contributors x) (List.filter p (lb_media x))) x).

(** [fkd_payee_scheme_id_payees], and [DELETE] on payee schemes *)
Definition delete_schemes (p : SchemeRow -> bool) (x : Library) : Library :=
  set_lb_schemes (delete_rows p (lb_schemes x))
    (set_lb_payees (foldl (fun ps s => delete_rows (fun r => py_scheme r =? sm_id s) ps)
      (lb_payees x) (List.filter p (lb_schemes x))) x).

(** * Files *)

Definition mldb (s : string) : string := "bitmunk.medialibrary.MediaLibraryDatabase" +:+ s.

(** A call of the database client, which may not be there. *)
Definition database_client : sql Library unit := open_connection.

Section MediaLibraryDatabase.
Context {Details : Type} `{Json Details}.

(** What a failed read leaves of format details, and the extension of a path. *)
Context (unread : Details) (extension : string -> string).

Record FileInfo := {
  fi_id : string; fi_mediaId : Z; fi_path : option string; fi_extension : string;
  fi_contentType : string; fi_contentSize : Z; fi_size : Z; fi_formatDetails : Details
}.
Implicit Types fi : FileInfo.

Definition set_fi_path (v : option string) fi : FileInfo :=
  {| fi_id := fi_id fi; fi_mediaId := fi_mediaId fi; fi_path := v; fi_extension := fi_extension fi;
     fi_contentType := fi_contentType fi; fi_contentSize := fi_contentSize fi;
     fi_size := fi_size fi; fi_formatDetails := fi_formatDetails fi |}.

Definition file_row fi (text : string) (mlId : Z) : LibraryFile :=
  {| fl_mlId := mlId; fl_fileId := fi_id fi; fl_mediaId := fi_mediaId fi;
     fl_path := default "" (fi_path fi); fl_contentType := fi_contentType fi;
     fl_contentSize := fi_contentSize fi; fl_size := fi_size fi; fl_formatDetails := text |}.

Definition same_file (id : string) (r : LibraryFile) : bool := String.eqb (fl_fileId r) id.

(** [INSERT OR IGNORE], with [UNIQUE(file_id)]: whether a row was inserted *)
Definition insert_file fi (text : string) (x : Library) : Library * bool :=
  if existsb (same_file (fi_id fi)) (lb_files x) then (x, false)
  else (set_lb_files (lb_files x ++ [file_row fi text (next_rowid (map fl_mlId (lb_files x)))]) x, true).

Definition replace_file fi (text : string) (x : Library) : Library * unit :=
  (set_lb_files (update_rows (same_file (fi_id fi)) (fun r => file_row fi text (fl_mlId r)) (lb_files x))
     (set_lb_wares (foldl (fun ws r => file_updated (fl_mlId r) ws) (lb_wares x)
       (List.filter (same_file (fi_id fi)) (lb_files x))) x), tt).

(** Whether the file is new.  The id that is looked up for an event is left out. *)
Definition updateFile fi : sql Library bool :=
  push (mldb ".UpdateFileException") (
    let! _ := database_client in
    let text := to_json (fi_formatDetails fi) in
    if (String.length text =? 0)%nat then sraise "" else
    let! inserted := update (insert_file fi text) in
    if inserted : bool then sret true else
    let! _ := update (replace_file fi text) in
    let! _ := select (fun _ => tt) in
    sret false).

(** What is read from a row into a file info. *)
Definition row_info (r : LibraryFile) : FileInfo :=
  {| fi_id := fl_fileId r; fi_mediaId := fl_mediaId r; fi_path := Some (fl_path r);
     fi_extension := extension (fl_path r); fi_contentType := fl_contentType r;
     fi_contentSize := fl_contentSize r; fi_size := fl_size r;
     fi_formatDetails := match from_json (fl_formatDetails r) with Ok d => d | Raise _ => unread end |}.

Definition find_file (id : string) (mlId : Z) (x : Library) : option LibraryFile :=
  List.find (if mlId =? 0 then same_file id else fun r => fl_mlId r =? mlId) (lb_files x).

Definition populateFile (id : string) (mlId : Z) : sql Library FileInfo :=
  push (mldb ".FilePopulationFailure") (
    let! _ := database_client in
    let! r := select (find_file id mlId) in
    match r with
    | None => sraise (mldb ".NotFound")
    | Some r => sret (row_info r)
    end).

(** The path of the removed file, if the row could be read; a failure to read it is no failure. *)
Definition removeFile (id : string) : sql Library (option string) :=
  push (mldb ".DeleteFileException") (
    let! _ := open_connection in
    transaction (
      let! r := tried (select (find_file id 0)) in
      let! path := match r with
        | Ok (Some r) => sret (Some (fl_path r))
        | Ok None => sraise (mldb ".FileNotFound")
        | Raise _ => sret None
        end in
      let! _ := update (fun x => (delete_files (same_file id) x, tt)) in
      sret path)).

(** ** Media *)

Record Media := {
  me_id : Z; me_type : string; me_title : string; me_contributors : list (string * list string)
}.
Implicit Types me : Media.

(** [INSERT OR REPLACE]: the rows of the table are ordered by their ids. *)
Fixpoint put_media (m : MediaRow) (l : list MediaRow) : list MediaRow :=
  match l with
  | [] => [m]
  | r :: l =>
      if md_id r =? md_id m then m :: l
      else if md_id m <? md_id r then m :: r :: l
      else r :: put_media m l
  end.

(** [fki_media_id_contributors] *)
Definition insert_contributor (trigger_error : string) (c : ContributorRow) (x : Library)
    : outcome (Library * unit) :=
  if existsb (fun m => md_id m =? cb_mediaId c) (lb_media x)
  then Ok (set_lb_contributors (lb_contributors x ++ [c]) x, tt)
  else Raise trigger_error.

(** The contributors of a media, type after type. *)
Definition contributor_rows me : list ContributorRow :=
  flat_map (fun '(ty, names) =>
    map (fun n => {| cb_mediaId := me_id me; cb_type := ty; cb_name := n |}) names) (me_contributors me).

Definition updateMedia (trigger_error : string) me : sql Library unit :=
  push (mldb ".UpdateMediaException") (
    let! _ := open_connection in
    transaction (
      let! _ := update (fun x => (set_lb_media
        (put_media {| md_id := me_id me; md_type := me_type me; md_title := me_title me |}
          (lb_media x)) x, tt)) in
      let! _ := update (fun x => (set_lb_contributors
        (delete_rows (fun c => cb_mediaId c =? me_id me) (lb_contributors x)) x, tt)) in
      seach (fun c => execute (insert_contributor trigger_error c)) (contributor_rows me))).

(** The test of the number of rows is the wrong way round. *)
Definition removeMedia (id : Z) : sql Library unit :=
  push (mldb ".DeleteMediaException") (
    let! _ := database_client in
    let! n := update (fun x => (delete_media (fun m => md_id m =? id) x,
                                rows_changed (fun m => md_id m =? id) (lb_media x))) in
    match n with O => sret tt | S _ => sraise (mldb ".MediaNotFound") end).

Definition find_media (id mlId : Z) (x : Library) : option MediaRow :=
  if mlId =? 0 then List.find (fun m => md_id m =? id) (lb_media x)
  else
    match List.find (fun f => fl_mlId f =? mlId) (lb_files x) with
    | None => None
    | Some f => List.find (fun m => md_id m =? fl_mediaId f) (lb_media x)
    end.

Definition add_contributor (acc : list (string * list string)) (c : ContributorRow)
    : list (string * list string) :=
  dm_set acc (cb_type c) (dm_get_or acc (cb_type c) [] ++ [cb_name c]).

Definition media_of (cs : list ContributorRow) (m : MediaRow) : Media :=
  {| me_id := md_id m; me_type := md_type m; me_title := md_title m;
     me_contributors := foldl add_contributor [] (List.filter (fun c => cb_mediaId c =? md_id m) cs) |}.

(** [sPopulateMedia]: nothing if there is no such media, which the callers tell from other failures. *)
Definition lookupMedia (id mlId : Z) : sql Library (option Media) :=
  let! r := select (find_media id mlId) in
  match r with
  | None => sret None
  | Some m => let! cs := select lb_contributors in sret (Some (media_of cs m))
  end.

(** The transaction is rolled back if there is no such media; [None] is [NotFound]. *)
Definition populateMedia (id mlId : Z) : sql Library (option Media) :=
  let! _ := open_connection in
  let! _ := begin_ in fun c =>
  let '(r, c) := push (mldb ".MediaPopulationFailure") (lookupMedia id mlId) c in
  match r with
  | Ok None => (Ok None, (rollback_ c).2)
  | _ => finish r c
  end.

(** ** Sets of files *)

Record FileQuery := {
  fq_start : option Z; fq_num : option Z; fq_order : option string; fq_asc : bool; fq_dir : string;
  fq_extension : option string; fq_ids : option (list string); fq_media : bool
}.

Record FileSet := {
  fs_start : Z; fs_num : Z; fs_total : Z; fs_resources : list (FileInfo * option (option Media))
}.

(** The [LIKE] operator, with the value first. *)
Context (like : string -> string -> bool).

Definition has_extension (q : FileQuery) (f : LibraryFile) : bool :=
  match fq_extension q with None => true | Some e => like (fl_path f) ("%." +:+ e) end.

(** The titles of media; a file without media comes first. *)
Definition file_title (ms : list MediaRow) (f : LibraryFile) : option string :=
  option_map md_title (List.find (fun m => md_id m =? fl_mediaId f) ms).

Definition compare_titles (a b : option string) : comparison :=
  match a, b with
  | None, None => Eq | None, _ => Lt | _, None => Gt | Some a, Some b => String.compare a b
  end.

Definition lex (c d : comparison) : comparison := match c with Eq => d | _ => c end.

(** The direction belongs to the last column only. *)
Definition compare_files (order dir : string) (ms : list MediaRow) (f g : LibraryFile)
    : option comparison :=
  let path := if String.eqb dir "desc" then String.compare (fl_path g) (fl_path f)
              else String.compare (fl_path f) (fl_path g) in
  let title := compare_titles (file_title ms f) (file_title ms g) in
  if String.eqb order "path" then Some path
  else if String.eqb order "size" then Some (lex (fl_size f ?= fl_size g) (lex title path))
  else if String.eqb order "title" then Some (lex title path)
  else if String.eqb order "type" then
    Some (lex (String.compare (fl_contentType f) (fl_contentType g)) (lex title path))
  else None.

Definition file_le (order dir : string) (ms : list MediaRow) (f g : LibraryFile) : Prop :=
  match compare_files order dir ms f g with Some Gt => False | _ => True end.

#[local] Instance file_le_dec order dir ms f g : Decision (file_le order dir ms f g).
Proof. unfold file_le. destruct (compare_files _ _ _ _ _) as [[]|]; apply _. Defined.

Definition known_order (order : string) : bool :=
  existsb (String.eqb order) ["path"; "size"; "title"; "type"].

(** The rows of the query.  With ids and no extension there is no [WHERE]: the condition on the ids
    becomes part of the outer join and excludes no file. *)
Definition selected_files (q : FileQuery) (x : Library) : list LibraryFile :=
  let start := u32 (default 0 (fq_start q)) in
  let num := u32 (default 10 (fq_num q)) in
  let dir := if fq_asc q then fq_dir q else "asc" in
  let rows := List.filter (has_extension q) (lb_files x) in
  match fq_ids q with
  | Some ids =>
      match fq_extension q with
      | Some _ => List.filter (fun f => existsb (String.eqb (fl_fileId f)) ids) rows
      | None => rows
      end
  | None =>
      take (Z.to_nat num) (drop (Z.to_nat start)
        (merge_sort (file_le (default "title" (fq_order q)) dir (lb_media x)) rows))
  end.

(** [_rowToFileInfo], which fails if the format details cannot be read, and the media if wanted. *)
Definition file_resource (media : bool) (r : LibraryFile)
    : sql Library (FileInfo * option (option Media)) :=
  match from_json (fl_formatDetails r) with
  | Raise e => sraise e
  | Ok _ =>
      if media then
        let! m := push (mldb ".MediaPopulationFailure") (lookupMedia (fl_mediaId r) 0) in
        sret (row_info r, Some m)
      else sret (row_info r, None)
  end.

Definition populateFileSet (q : FileQuery) : sql Library FileSet :=
  push (mldb ".FileSetRetrievalFailure") (
    let! _ := open_connection in
    transaction (
      let! total := select (fun x => rows_changed (has_extension q) (lb_files x)) in
      let! rows := (if match fq_ids q with Some _ => true
                       | None => known_order (default "title" (fq_order q)) end
                    then select (selected_files q) else sraise "") in
      let! rs := smap (file_resource (fq_media q)) rows in
      sret {| fs_start := u32 (default 0 (fq_start q)); fs_num := u32 (default 10 (fq_num q));
              fs_total := Z.of_nat total; fs_resources := rs |})).
End MediaLibraryDatabase.
Arguments FileInfo : clear implicits.
