(* ===== verification/MediaLibrary.v ===== *)
(** The media library of a user and its service ([cpp/medialibrary/MediaLibrary.cpp],
    [cpp/medialibrary/MediaLibraryService.cpp]).

    Files on disk, the file processor that computes file ids, the detectors of formats and the Bitmunk
    servers are inputs. *)
From stdpp Require Import gmap.
From S2P Require Import Prelude DynMap Sql Http LibraryDb.

Local Open Scope Z_scope.
Local Open Scope sql_scope.
Local Open Scope io_scope.

Definition ml (s : string) : string := "bitmunk.medialibrary" +:+ s.

(** What there is at a path *)
Record FileProbe := {
  pb_exists : bool; pb_directory : bool; pb_readable : bool; pb_extension : string;
  pb_absolute : string; pb_length : Z
}.

(** [_checkFile]; an extension includes its dot. *)
Definition checkFile (f : FileProbe) : outcome unit :=
  if negb (pb_exists f) then Raise (ml ".FileDoesNotExist")
  else if pb_directory f then Raise (ml ".FileIsDirectory")
  else if negb (pb_readable f) then Raise (ml ".FileAccessDenied")
  else if (String.length (pb_extension f) <=? 1)%nat then Raise (ml ".InvalidFileExtension")
  else Ok tt.

Section MediaLibrary.
Context {Details : Type} `{Json Details}.
Context (unread : Details) (extension : string -> string) (trigger_error : string).
Context (like : string -> string -> bool).
Notation FileInfo := (FileInfo Details).
Implicit Types fi : FileInfo.

Inductive MediaEvent :=
| FileUpdated fi (isNew : bool)
| FileScanned fi
| FileException fi
| MediaUpdated (id : Z).

(** The path, the extension and the size of a file that was checked *)
Definition located (f : FileProbe) fi : FileInfo :=
  {| fi_id := fi_id fi; fi_mediaId := fi_mediaId fi; fi_path := Some (pb_absolute f);
     fi_extension := String.substring 1 (String.length (pb_extension f) - 1) (pb_extension f);
     fi_contentType := fi_contentType fi; fi_contentSize := fi_contentSize fi;
     fi_size := u64 (pb_length f); fi_formatDetails := fi_formatDetails fi |}.

(** A file id that is not there is empty. *)
Definition updateFile (f : FileProbe) fi : io Library (outcome FileInfo * list MediaEvent) :=
  match checkFile f with
  | Raise _ => iret (Raise (ml ".FileUpdateFailed"), [FileException fi])
  | Ok _ =>
      if (String.length (fi_id fi) =? 0)%nat
      then iret (Raise (ml ".FileUpdateFailed"), [FileException fi])
      else
        let fi := located f fi in
        do! r := attempt (let! _ := open_connection in transaction (LibraryDb.updateFile fi)) in
        iret (match r with
          | Ok isNew => (Ok fi, [FileUpdated fi isNew])
          | Raise _ => (Raise (ml ".FileUpdateFailed"), [FileException fi])
          end)
  end.

(** [removable] says of a path whether the file there can be deleted; a path that could not be read is
    empty. *)
Definition removeFile (removable : string -> bool) (id : string) (erase : bool)
    : io Library (outcome unit) :=
  do! r := attempt (LibraryDb.removeFile id) in
  iret (match r with
    | Raise e => Raise e
    | Ok path => if erase then if removable (default ""%string path) then Ok tt else Raise "" else Ok tt
    end).

Definition populateFile (id : string) (mlId : Z) : sql Library FileInfo :=
  LibraryDb.populateFile unread extension id mlId.

(** ** Media *)

(** [media] is what the servers answer. *)
Definition updateMedia (media : option Media) : io Library (outcome unit * list MediaEvent) :=
  match media with
  | None => iret (Raise "", [])
  | Some me =>
      do! r := attempt (LibraryDb.updateMedia trigger_error me) in
      iret (r, match r with Ok _ => [MediaUpdated (me_id me)] | Raise _ => [] end)
  end.

(** A file without a media id gets one from the servers, if they know the file; its media is fetched if
    it is not there. *)
Definition fileUpdated (known : option Z) (media : Z -> option Media) fi : io Library (list MediaEvent) :=
  let mediaId := if fi_mediaId fi =? 0 then default 0 known else fi_mediaId fi in
  if mediaId =? 0 then iret []
  else
    do! r := attempt (populateMedia mediaId 0) in
    match r with
    | Ok None => do! (_, evs) := updateMedia (media mediaId) in iret evs
    | _ => iret []
    end.

(** ** Scanning *)

(** What a detector says of a file: the id of an embedded media is 0 if there is none. *)
Record Format := { fm_details : Details; fm_contentType : string; fm_mediaId : Z }.

(** The world a scan meets: the file, its id, its media according to the servers, and its formats. *)
Record Scan := {
  sn_file : FileProbe; sn_fileId : option string; sn_known : option Z;
  sn_formats : option (Format * list Format)
}.

Definition set_media_id (n : Z) fi : FileInfo :=
  {| fi_id := fi_id fi; fi_mediaId := n; fi_path := fi_path fi; fi_extension := fi_extension fi;
     fi_contentType := fi_contentType fi; fi_contentSize := fi_contentSize fi; fi_size := fi_size fi;
     fi_formatDetails := fi_formatDetails fi |}.

Definition set_file_id (s : string) fi : FileInfo :=
  {| fi_id := s; fi_mediaId := fi_mediaId fi; fi_path := fi_path fi; fi_extension := fi_extension fi;
     fi_contentType := fi_contentType fi; fi_contentSize := fi_contentSize fi; fi_size := fi_size fi;
     fi_formatDetails := fi_formatDetails fi |}.

(** [_getFormatDetails]: the first format is taken, a media id from any. *)
Definition getFormatDetails (formats : Format * list Format) fi : FileInfo :=
  let '(f, fs) := formats in
  let fi := {| fi_id := fi_id fi; fi_mediaId := fi_mediaId fi; fi_path := fi_path fi;
    fi_extension := fi_extension fi; fi_contentType := fm_contentType f;
    fi_contentSize := fi_contentSize fi; fi_size := fi_size fi; fi_formatDetails := fm_details f |} in
  if fi_mediaId fi =? 0 then
    match List.find (fun f => negb (fm_mediaId f =? 0)) (f :: fs) with
    | Some f => set_media_id (fm_mediaId f) fi
    | None => fi
    end
  else fi.

Definition scan (w : Scan) fi : FileInfo * bool :=
  match checkFile (sn_file w) with
  | Raise _ => (fi, false)
  | Ok _ =>
      let fi := located (sn_file w) fi in
      match sn_fileId w with
      | None => (fi, false)
      | Some id =>
          let fi := set_file_id id fi in
          let fi := if fi_mediaId fi =? 0 then
              match sn_known w with Some n => set_media_id n fi | None => fi end
            else fi in
          match sn_formats w with
          | None => (fi, false)
          | Some fs => (getFormatDetails fs fi, true)
          end
      end
  end.

Definition scanFile (w : Scan) fi (update : bool) : io Library (list MediaEvent) :=
  let '(fi, pass) := scan w fi in
  if pass then
    if update then do! (_, evs) := updateFile (sn_file w) fi in iret (FileScanned fi :: evs)
    else iret [FileScanned fi]
  else iret [FileException fi].

(** The scan is an operation beside the request; it may not be possible to start it. *)
Definition start_scan (started : bool) (w : Scan) fi (update : bool) : io Library (list MediaEvent) :=
  if started then scanFile w fi update else iret [FileException fi].

(** ** Service *)

Definition ml_service (s : string) : string := ml (".MediaService" +:+ s).

(** [POST .../files]: without a file id the file is scanned after the answer, which has no file info. *)
Definition postFile (started : bool) (w : Scan) fi
    : io Library (outcome (option FileInfo) * list MediaEvent) :=
  if (String.length (fi_id fi) =? 0)%nat then
    do! evs := start_scan started w fi true in iret (Ok None, evs)
  else
    do! (r, evs) := updateFile (sn_file w) fi in
    iret (match r with
      | Ok fi => Ok (Some fi)
      | Raise _ => Raise (ml_service ".FileUpdateFailure")
      end, evs).

Definition removeFiles (removable : string -> bool) (id : string) (erase : option bool)
    : io Library (outcome unit) :=
  removeFile removable id (default false erase).

(** A media that is not found is a blank one. *)
Definition getFile (id : string) (media : bool) : io Library (outcome (FileInfo * option Media)) :=
  do! r := attempt (populateFile id 0) in
  match r with
  | Raise _ => iret (Raise (ml_service ".FileRetrievalFailure"))
  | Ok fi =>
      if media then
        do! m := attempt (populateMedia (fi_mediaId fi) 0) in
        iret (match m with
          | Ok (Some m) => Ok (fi, Some m)
          | Ok None => Ok (fi, Some {| me_id := fi_mediaId fi; me_type := ""; me_title := "";
                                       me_contributors := [] |})
          | Raise _ => Raise (ml_service ".FileRetrievalFailure")
          end)
      else iret (Ok (fi, None))
  end.

(** The parameters of a request, each with all its values *)
Record SetFilters := {
  sr_id : option (list string); sr_start : list Z; sr_num : list Z; sr_extension : list string;
  sr_order : list string; sr_dir : list string; sr_media : list bool
}.

(** The last value counts.  The direction is never used: [asc] is no parameter of the query. *)
Definition file_query (f : SetFilters) : FileQuery :=
  match sr_id f with
  | Some ids =>
      {| fq_start := None; fq_num := None; fq_order := None; fq_asc := false; fq_dir := "";
         fq_extension := None; fq_ids := Some ids; fq_media := default false (last (sr_media f)) |}
  | None =>
      {| fq_start := Some (default 0 (last (sr_start f))); fq_num := Some (default 10 (last (sr_num f)));
         fq_order := last (sr_order f); fq_asc := false; fq_dir := default "asc"%string (last (sr_dir f));
         fq_extension := last (sr_extension f); fq_ids := None;
         fq_media := default false (last (sr_media f)) |}
  end.

Definition getFileSet (f : SetFilters) : io Library (outcome (FileSet (Details:=Details))) :=
  attempt (populateFileSet unread extension like (file_query f)).

Definition postMedia (media : option Media) : io Library (outcome Media * list MediaEvent) :=
  do! (r, evs) := updateMedia media in
  iret (match r, media with
    | Ok _, Some me => Ok me
    | _, _ => Raise (ml_service ".MediaUpdateFailure")
    end, evs).

Definition getMedia (id : Z) : io Library (outcome Media) :=
  do! r := attempt (populateMedia id 0) in
  iret (match r with
    | Ok (Some m) => Ok m
    | _ => Raise (ml_service ".MediaPopulationFailure")
    end).

(** ** Theorems *)

(** A request for files by their ids returns the file infos of all files of the library. *)
Lemma ids_select_all f ids x : sr_id f = Some ids -> selected_files like (file_query f) x = lb_files x.
Proof.
  intros E. unfold file_query. rewrite E. unfold selected_files, has_extension. cbn.
  induction (lb_files x) as [|r l IH]; cbn; congruence.
Qed.

(** The direction of a request has no effect. *)
Lemma direction_ignored f dir x :
  selected_files like (file_query {| sr_id := sr_id f; sr_start := sr_start f; sr_num := sr_num f;
    sr_extension := sr_extension f; sr_order := sr_order f; sr_dir := [dir]; sr_media := sr_media f |}) x =
  selected_files like (file_query f) x.
Proof. unfold file_query. cbn. by destruct (sr_id f). Qed.
End MediaLibrary.
