(* ===== verification/CatalogDb.v ===== *)
(** The tables of the catalog of a seller ([cpp/customcatalog/CatalogDatabase.cpp]).

    A ware offers a file of the media library for a price that its payee scheme says.  Wares and
    payee schemes have flags that tell what the Bitmunk servers do not know yet: [dirty] after a
    change, [updating] while a change is sent, [deleted] until the servers know of the removal. *)
From stdpp Require Import gmap sorting.
From S2P Require Import Prelude DynMap Sql Http LibraryDb.

Local Open Scope Z_scope.
Local Open Scope sql_scope.

Definition MAX_ALLOCATION_ATTEMPTS : Z := 255.
Definition MAX_PAYEE_SCHEMES : Z := 255.
Definition MAX_WARE_UPDATES : nat := 100.
Definition MAX_PAYEE_UPDATES : nat := 100.

(** A number that is kept as text, read as [uint32_t]. *)
Definition read_u32 (s : string) : Z := u32 (strtoull s).

(** * Configuration *)

(** [INSERT OR IGNORE] of a default *)
Definition default_value (name value : string) (x : Library) : Library * unit :=
  (match lb_config x !! name with
   | Some _ => x
   | None => set_lb_config (<[name := value]> (lb_config x)) x
   end, tt).

(** Statements that create tables and triggers which may be there; the ones of [LibraryDb] are. *)
Definition create_missing (n : nat) : sql Library unit :=
  seach (fun _ => update (fun x => (x, tt))) (replicate n tt).

Definition initialize : sql Library unit :=
  let! _ := create_missing 1 in
  let! _ := seach (fun '(n, v) => update (default_value n v))
    [("serverId", "0"); ("serverToken", "0"); ("serverUrl", ""); ("updateId", "0")] in
  create_missing 8.

Definition setConfigValue (name value : string) : sql Library unit :=
  update (fun x => (set_lb_config (<[name := value]> (lb_config x)) x, tt)).

(** A value that is not there is a failure without an exception. *)
Definition getConfigValue (name : string) : sql Library string :=
  let! v := select (fun x => lb_config x !! name) in
  match v with Some v => sret v | None => sraise "" end.

Definition getConfigNumber (name : string) : sql Library Z :=
  let! v := getConfigValue name in sret (read_u32 v).

Record Seller := { sl_userId : Z; sl_serverId : Z; sl_url : string }.

(** The seller and the server token *)
Definition populateSeller (userId : Z) : sql Library (Seller * string) :=
  let! id := getConfigNumber "serverId" in
  let! url := getConfigValue "serverUrl" in
  let! token := getConfigValue "serverToken" in
  sret ({| sl_userId := userId; sl_serverId := id; sl_url := url |}, token).

(** * Flags *)

(** [CC_TABLE_WARES] and [CC_TABLE_PAYEE_SCHEMES] *)
Inductive FlagTable := Wares | PayeeSchemes.

Definition update_ware_flags (q : WareRow -> bool) (f : Flags -> Flags) (x : Library) : Library :=
  set_lb_wares (update_rows q (fun r => set_wr_flags (f (wr_flags r)) r) (lb_wares x)) x.

Definition update_scheme_flags (q : SchemeRow -> bool) (f : Flags -> Flags) (x : Library) : Library :=
  set_lb_schemes (update_rows q (fun r => set_sm_flags (f (sm_flags r)) r) (lb_schemes x)) x.

Definition update_flags (t : FlagTable) (q : Flags -> bool) (f : Flags -> Flags) (x : Library) : Library :=
  match t with
  | Wares => update_ware_flags (fun r => q (wr_flags r)) f x
  | PayeeSchemes => update_scheme_flags (fun r => q (sm_flags r)) f x
  end.

Definition with_marks (dirty updating : bool) (f : Flags) : Flags :=
  {| fg_problem := fg_problem f; fg_dirty := dirty; fg_updating := updating; fg_deleted := fg_deleted f |}.

Definition with_problem (n : Z) (f : Flags) : Flags :=
  {| fg_problem := n; fg_dirty := fg_dirty f; fg_updating := fg_updating f; fg_deleted := fg_deleted f |}.

Definition setTableFlags (t : FlagTable) (dirty updating : bool) : sql Library unit :=
  update (fun x => (update_flags t (fun _ => true) (with_marks dirty updating) x, tt)).

(** What was removed with the knowledge of the servers. *)
Definition purged (f : Flags) : bool :=
  fg_updating f && fg_deleted f && negb (fg_dirty f) && (fg_problem f =? 0).

Definition purge (t : FlagTable) (x : Library) : Library :=
  match t with
  | Wares => set_lb_wares (delete_rows (fun r => purged (wr_flags r)) (lb_wares x)) x
  | PayeeSchemes => delete_schemes (fun r => purged (sm_flags r)) x
  end.

Definition purgeDeletedEntries (t : FlagTable) : sql Library unit :=
  update (fun x => (purge t x, tt)).

Definition clearUpdatingFlags (t : FlagTable) : sql Library unit :=
  update (fun x => (update_flags t fg_updating (fun f => with_marks (fg_dirty f) false f) x, tt)).

(** * Payee schemes *)

Definition live_scheme (psId : Z) (r : SchemeRow) : bool :=
  (sm_id r =? psId) && negb (fg_deleted (sm_flags r)).

Definition isPayeeSchemeIdValid (psId : Z) : sql Library unit :=
  let! ok := select (fun x => existsb (live_scheme psId) (lb_schemes x)) in
  if ok : bool then sret tt else sraise "bitmunk.catalog.InvalidPayeeSchemeId".

Section PayeeSchemes.
(** The exceptions of a violated [UNIQUE] or [PRIMARY KEY] and of a trigger. *)
Context (constraint_error trigger_error : string).

(** [ORDER BY ... LIMIT 1] *)
Fixpoint least (l : list Z) : option Z :=
  match l with
  | [] => None
  | n :: l => Some (match least l with None => n | Some m => Z.min n m end)
  end.

(** The lowest unused id, as the query finds it. *)
Definition unused_id (ids : list Z) : Z :=
  let used n := existsb (Z.eqb n) ids in
  let q1 := if used 1 then [] else [1] in
  let q2 := match least (List.filter (fun n => negb (used n)) (map (fun n => n + 1) ids)) with
            | None => [] | Some n => [n] end in
  default 0 (least (q1 ++ q2)).

Definition new_flags : Flags :=
  {| fg_problem := 0; fg_dirty := true; fg_updating := false; fg_deleted := false |}.

Definition insert_scheme (psId : Z) (description : string) (x : Library) : outcome (Library * unit) :=
  if existsb (fun r => sm_id r =? psId) (lb_schemes x) then Raise constraint_error
  else Ok (set_lb_schemes (lb_schemes x ++
    [{| sm_id := psId; sm_description := description; sm_flags := new_flags |}]) x, tt).

(** The loop for a new id.  If the query for an id fails, the insertion is still tried, with the id 0. *)
Fixpoint allocate (fuel : nat) (attempts : Z) (description : string) : sql Library Z :=
  match fuel with
  | O => sraise ""
  | S fuel =>
      if MAX_ALLOCATION_ATTEMPTS <? attempts then sret 0 else
      let! r := tried (select (fun x => unused_id (map sm_id (lb_schemes x)))) in
      let psId := match r with Ok n => n | Raise _ => 0 end in
      let! r := tried (execute (insert_scheme psId description)) in
      match r with
      | Ok _ => if psId =? 0 then allocate fuel attempts description else sret psId
      | Raise e =>
          if String.eqb e constraint_error then allocate fuel (attempts + 1) description
          else sraise e
      end
  end.

(** The id of the caller is 0 in every call.  The statements are prepared before the loop.  If the
    attempts are used up, the result is 0. *)
Definition allocateNewPayeeScheme (description : string) : sql Library Z :=
  push "bitmunk.catalog.database.PayeeSchemeIdAllocationFailed" (
    let! _ := select (fun _ => tt) in
    allocate 258 0 description).

(** [PRIMARY KEY(payee_scheme_id,position)] *)
Definition insert_payee (psId : Z) (pos : nat) (p : SchemePayee) (x : Library) : outcome (Library * unit) :=
  if existsb (fun r => (py_scheme r =? psId) && (py_position r =? Z.of_nat pos)) (lb_payees x)
  then Raise constraint_error
  else Ok (set_lb_payees (lb_payees x ++
    [{| py_scheme := psId; py_position := Z.of_nat pos; py_payee := p |}]) x, tt).

Definition insert_payees (psId : Z) (payees : list SchemePayee) : sql Library unit :=
  push "bitmunk.catalog.database.PayeeAdditionFailed"
    (seach (fun '(pos, p) => execute (insert_payee psId pos p)) (imap pair payees)).

Definition addPayeeScheme (description : string) (payees : list SchemePayee) : sql Library Z :=
  let! psId := allocateNewPayeeScheme description in
  let! _ := insert_payees psId payees in
  sret psId.

Definition updatePayeeScheme (psId : Z) (description : string) (payees : list SchemePayee)
    : sql Library unit :=
  let! _ := isPayeeSchemeIdValid psId in
  let! _ := update (fun x => (set_lb_schemes (update_rows (fun r => sm_id r =? psId)
    (fun r => {| sm_id := sm_id r; sm_description := description; sm_flags := touched (sm_flags r) |})
    (lb_schemes x)) x, tt)) in
  let! _ := update (fun x => (set_lb_payees
    (delete_rows (fun r => py_scheme r =? psId) (lb_payees x)) x, tt)) in
  insert_payees psId payees.

Definition getFirstPayeeSchemeId : sql Library Z :=
  select (fun x => match lb_schemes x with r :: _ => sm_id r | [] => 0 end).

Definition deletePayeeScheme (psId : Z) : sql Library unit :=
  update (fun x => (delete_schemes (fun r => sm_id r =? psId) x, tt)).

Definition ensurePayeeSchemeNotInUse (psId : Z) : sql Library unit :=
  let! used := select (fun x =>
    existsb (fun w => (wr_scheme w =? psId) && negb (fg_deleted (wr_flags w))) (lb_wares x)) in
  if used : bool then sraise "bitmunk.catalog.PayeeSchemeWareDependency" else sret tt.

Definition removePayeeScheme (psId : Z) : sql Library unit :=
  let! _ := ensurePayeeSchemeNotInUse psId in
  update (fun x => (update_scheme_flags (fun r => sm_id r =? psId) gone x, tt)).

Definition updatePayeeSchemeProblemId (problemId psId : Z) : sql Library unit :=
  update (fun x => (update_scheme_flags
    (fun r => (sm_id r =? psId) && negb (fg_dirty (sm_flags r))) (with_problem problemId) x, tt)).
End PayeeSchemes.

(** ** Reading payee schemes *)

Section Reading.
Context {Details Exn : Type} `{Json Details} `{Json Exn}.
Context (unread : Details) (extension : string -> string).
Notation FileInfo := (FileInfo Details).

(** What is read from the columns of an outer join that found no payee. *)
Definition no_payee : SchemePayee :=
  {| sp_account := 0; sp_amountType := ""; sp_description := ""; sp_amount := ""; sp_percentage := "";
     sp_min := "" |}.

Definition join_payee (r : option PayeeRow) : SchemePayee :=
  match r with Some r => py_payee r | None => no_payee end.

(** [ORDER BY p.payee_scheme_id,p.position] *)
Definition payee_row_le (a b : PayeeRow) : Prop :=
  py_scheme a < py_scheme b \/ py_scheme a = py_scheme b /\ py_position a <= py_position b.

Definition payee_le (a b : SchemeRow * PayeeRow) : Prop := payee_row_le a.2 b.2.

#[local] Instance payee_row_le_dec a b : Decision (payee_row_le a b).
Proof. unfold payee_row_le. apply _. Defined.

#[local] Instance payee_le_dec a b : Decision (payee_le a b).
Proof. unfold payee_le. apply _. Defined.

Definition payees_of (psId : Z) (x : Library) : list PayeeRow :=
  List.filter (fun r => py_scheme r =? psId) (lb_payees x).

(** Payee schemes with their payees, by scheme and position; schemes without payees come first. *)
Definition scheme_rows (x : Library) : list (SchemeRow * option PayeeRow) :=
  map (fun s => (s, None))
    (List.filter (fun s => match payees_of (sm_id s) x with [] => true | _ => false end) (lb_schemes x)) ++
  map (fun '(s, p) => (s, Some p))
    (merge_sort payee_le (flat_map (fun s => map (pair s) (payees_of (sm_id s) x)) (lb_schemes x))).

(** The exception of a problem, [dirty], [updating] and the number of wares. *)
Record SchemeDetails := {
  sd_exception : option Exn; sd_dirty : bool; sd_updating : bool; sd_wareCount : Z
}.

Record ListedScheme := {
  ls_id : Z; ls_description : string; ls_payees : list SchemePayee; ls_details : option SchemeDetails
}.

Record SchemeFilters := { sf_default : bool; sf_start : Z; sf_num : option Z }.

Definition problem_text (f : Flags) (x : Library) : option string :=
  option_map pb_text (List.find (fun p => pb_id p =? fg_problem f) (lb_problems x)).

Definition ware_count (psId : Z) (x : Library) : Z :=
  Z.of_nat (length (List.filter (fun w => wr_scheme w =? psId) (lb_wares x))).

(** The exception of a row, if the outer join found its problem. *)
Definition read_problem (text : option string) : sql Library (option Exn) :=
  match text with
  | None => sret None
  | Some t => let! e := lift_outcome (from_json t) in sret (Some e)
  end.

Definition scheme_details (r : SchemeRow) (problem : option string) : sql Library SchemeDetails :=
  let! e := read_problem problem in
  let! n := select (ware_count (sm_id r)) in
  sret {| sd_exception := e; sd_dirty := fg_dirty (sm_flags r); sd_updating := fg_updating (sm_flags r);
          sd_wareCount := n |}.

(** The list so far, the last id, the offset and whether payees are stored. *)
Record Listing := {
  lg_resources : list ListedScheme; lg_last : Z; lg_offset : Z; lg_store : bool
}.

(** A payee is added to the scheme that was listed last. *)
Definition append_payee (p : SchemePayee) (l : list ListedScheme) : list ListedScheme :=
  match last l with
  | None => l
  | Some s =>
      take (length l - 1) l ++
      [{| ls_id := ls_id s; ls_description := ls_description s; ls_payees := ls_payees s ++ [p];
          ls_details := ls_details s |}]
  end.

Definition list_row (f : SchemeFilters) (problems : SchemeRow -> option string)
    (g : Listing) (row : SchemeRow * option PayeeRow) : sql Library Listing :=
  let '(r, p) := row in
  let! g :=
    if (negb (sm_id r =? lg_last g)) && negb (fg_deleted (sm_flags r)) then
      let offset := if lg_last g =? 0 then lg_offset g else u32 (lg_offset g + 1) in
      if (sf_start f <=? offset) &&
         (Z.of_nat (length (lg_resources g)) <? default MAX_PAYEE_SCHEMES (sf_num f)) then
        let! d := (if sf_default f then sret None
                   else let! d := scheme_details r (problems r) in sret (Some d)) in
        sret {| lg_resources := lg_resources g ++
                  [{| ls_id := sm_id r; ls_description := sm_description r; ls_payees := [];
                      ls_details := d |}];
                lg_last := sm_id r; lg_offset := offset; lg_store := true |}
      else sret {| lg_resources := lg_resources g; lg_last := sm_id r; lg_offset := offset;
                   lg_store := false |}
    else sret g in
  if lg_store g then
    sret {| lg_resources := append_payee (join_payee p) (lg_resources g); lg_last := lg_last g;
            lg_offset := lg_offset g; lg_store := true |}
  else sret g.

Fixpoint list_rows (f : SchemeFilters) (problems : SchemeRow -> option string) (g : Listing)
    (l : list (SchemeRow * option PayeeRow)) : sql Library Listing :=
  match l with
  | [] => sret g
  | row :: l => let! g := list_row f problems g row in list_rows f problems g l
  end.

Definition no_listing : Listing :=
  {| lg_resources := []; lg_last := 0; lg_offset := 0; lg_store := false |}.

(** The listed schemes and the total *)
Definition populatePayeeSchemes (f : SchemeFilters) : sql Library (list ListedScheme * Z) :=
  let! x := select (fun x => x) in
  push "bitmunk.catalog.database.FailedToPopulatePayeeSchemes" (
    let! g := list_rows f (fun r => problem_text (sm_flags r) x) no_listing (scheme_rows x) in
    sret (lg_resources g, u32 (lg_offset g + 1))).

(** One scheme with the payees in their order; the flags are missing if the problem is not readable,
    the count if it fails. *)
Record OneScheme := {
  os_description : string; os_payees : list SchemePayee;
  os_exception : option Exn; os_flags : option (bool * bool * bool); os_wareCount : option Z
}.

Definition payee_rows (psId : Z) (x : Library) : list PayeeRow :=
  merge_sort payee_row_le (payees_of psId x).

Definition find_scheme (psId : Z) (x : Library)
    : option (SchemeRow * option string * list SchemePayee) :=
  match List.find (fun r => sm_id r =? psId) (lb_schemes x) with
  | None => None
  | Some r =>
      Some (r, problem_text (sm_flags r) x,
        match payee_rows psId x with [] => [no_payee] | l => map py_payee l end)
  end.

Definition populatePayeeScheme (psId : Z) (default_ : bool) : sql Library OneScheme :=
  let! found := select (find_scheme psId) in
  match found with
  | None => sraise "bitmunk.catalog.database.InvalidPayeeSchemeId"
  | Some (r, problem, payees) =>
      let f := sm_flags r in
      if default_ then
        sret {| os_description := sm_description r; os_payees := payees; os_exception := None;
                os_flags := None; os_wareCount := None |}
      else
        let e := match problem with None => Ok None | Some t => outcome_bind (from_json t) (fun e => Ok (Some e)) end in
        let! n := tried (select (ware_count psId)) in
        sret {| os_description := sm_description r; os_payees := payees;
                os_exception := match e with Ok e => e | Raise _ => None end;
                os_flags := match e with
                  | Ok _ => Some (fg_dirty f, fg_updating f, fg_deleted f) | Raise _ => None end;
                os_wareCount := match n with Ok n => Some n | Raise _ => None end |}
  end.

(** The payee schemes of an update: those that are changed and those that are removed. *)
Record SchemeUpdate := { su_id : Z; su_scheme : OneScheme }.

Definition add_scheme (deleted : bool) (u : SchemeUpdate) (l : list SchemeUpdate * list SchemeUpdate)
    : list SchemeUpdate * list SchemeUpdate :=
  if deleted then (l.1, l.2 ++ [u]) else (l.1 ++ [u], l.2).

(** Rows that are sent: [updating=1 AND dirty=0]. *)
Definition sending (f : Flags) : bool := fg_updating f && negb (fg_dirty f).

Fixpoint updating_schemes (rows : list SchemeRow) (acc : list SchemeUpdate * list SchemeUpdate)
    : sql Library (list SchemeUpdate * list SchemeUpdate) :=
  match rows with
  | [] => sret acc
  | r :: rows =>
      let! s := tried (populatePayeeScheme (sm_id r) true) in
      match s with
      | Ok s => updating_schemes rows
                  (add_scheme (fg_deleted (sm_flags r)) {| su_id := sm_id r; su_scheme := s |} acc)
      | Raise _ => sraise "bitmunk.catalog.database.PayeeSchemeDoesNotExist"
      end
  end.

Definition populateUpdatingPayeeSchemes : sql Library (list SchemeUpdate * list SchemeUpdate) :=
  let! rows := select (fun x => List.filter (fun r => sending (sm_flags r)) (lb_schemes x)) in
  updating_schemes rows ([], []).

(** * Wares *)

Record FullWare := {
  fw_mediaLibraryId : Z; fw_payeeSchemeId : Z; fw_description : string; fw_fileInfo : FileInfo;
  fw_payees : list SchemePayee
}.

Definition find_ware (id : string) (x : Library) : option WareRow :=
  List.find (fun w => String.eqb (wr_id w) id) (lb_wares x).

Definition populateWare (id : string) : sql Library FullWare :=
  let! r := select (find_ware id) in
  match r with
  | None => sraise "bitmunk.catalog.InvalidWareId"
  | Some w =>
      if fg_deleted (wr_flags w) then sraise "bitmunk.catalog.InvalidWareId" else
      let! fi := populateFile unread extension "" (wr_mlId w) in
      let! s := populatePayeeScheme (wr_scheme w) true in
      sret {| fw_mediaLibraryId := wr_mlId w; fw_payeeSchemeId := wr_scheme w;
              fw_description := wr_description w; fw_fileInfo := fi; fw_payees := os_payees s |}
  end.

Record WareQuery := {
  wq_ids : option (list string); wq_fileIds : option (list string); wq_default : bool
}.

(** A ware of a set without file info and payees *)
Record BasicWare := {
  bw_id : string; bw_mediaLibraryId : Z; bw_payeeSchemeId : Z; bw_description : string;
  bw_dirty : bool; bw_updating : bool; bw_exception : option Exn
}.

Record WareSet := { ws_total : Z; ws_num : Z; ws_full : list FullWare; ws_basic : list BasicWare }.

Definition add_id (m : list (string * bool)) (id : string) : list (string * bool) := dm_set m id true.

(** The ids of the wares of files *)
Definition ware_ids_of (fileIds : list string) (x : Library) : list string :=
  map wr_id (List.filter (fun w =>
    existsb (fun f => (fl_mlId f =? wr_mlId w) && existsb (String.eqb (fl_fileId f)) fileIds)
      (lb_files x)) (lb_wares x)).

Definition basic_ware (problem : option string) (w : WareRow) : sql Library BasicWare :=
  let! e := read_problem problem in
  sret {| bw_id := wr_id w; bw_mediaLibraryId := wr_mlId w; bw_payeeSchemeId := wr_scheme w;
          bw_description := wr_description w; bw_dirty := fg_dirty (wr_flags w);
          bw_updating := fg_updating (wr_flags w); bw_exception := e |}.

(** What [getString] returns for [true]. *)
Definition true_string : string := "true".

(** The ids are the names of a map with the value [true]; a query for all details looks for a ware
    with a value, not a name, as its id.  A failure to find the wares of files is overlooked. *)
Definition populateWareSet (q : WareQuery) : sql Library WareSet :=
  push "bitmunk.catalog.WareSetRetrievalFailure" (
    let ids := foldl add_id [] (default [] (wq_ids q)) in
    let! ids := match wq_fileIds q with
      | None => sret ids
      | Some fs =>
          let! r := tried (select (ware_ids_of fs)) in
          sret (match r with Ok l => foldl add_id ids l | Raise _ => ids end)
      end in
    let num := Z.of_nat (length (default [] (wq_ids q)) + length (default [] (wq_fileIds q))) in
    if wq_default q then
      let! ws := smap (fun _ => populateWare true_string) (dm_values ids) in
      sret {| ws_total := Z.of_nat (length ws); ws_num := num; ws_full := ws; ws_basic := [] |}
    else
      let! x := select (fun x => x) in
      let! ws := smap (fun w => basic_ware (problem_text (wr_flags w) x) w)
        (List.filter (fun w => existsb (String.eqb (wr_id w)) (dm_keys ids) &&
                               negb (fg_deleted (wr_flags w))) (lb_wares x)) in
      sret {| ws_total := Z.of_nat (length ws); ws_num := num; ws_full := []; ws_basic := ws |}).

Definition populateWareFileInfo (id : string) : sql Library FileInfo :=
  let! r := select (find_ware id) in
  match r with
  | None => sraise "bitmunk.catalog.database.InvalidWareId"
  | Some w => populateFile unread extension "" (wr_mlId w)
  end.
End Reading.

(** ** Changing wares *)

Section Wares.
Context {Details : Type} `{Json Details}.
Context (unread : Details) (extension : string -> string).
Context (trigger_error : string).
Notation FileInfo := (FileInfo Details).

(** [StringTools::split] *)
Context (split : string -> string -> list string).

(** A ware as it is offered: the first of its file infos, and its payee scheme or its payees. *)
Record Ware := {
  wa_id : string; wa_fileId : string; wa_description : string; wa_scheme : option Z;
  wa_payees : list SchemePayee
}.

(** The payee scheme of the removed ware *)
Definition removeWare (id : string) : sql Library Z :=
  let! n := update (fun x =>
    let q w := String.eqb (wr_id w) id && negb (fg_deleted (wr_flags w)) in
    (update_ware_flags q gone x, rows_changed q (lb_wares x))) in
  let! _ := expect_rows "bitmunk.catalog.database.WareNotFound" n in
  select (fun x => match find_ware id x with Some w => wr_scheme w | None => 0 end).

Definition file_mlId (fileId : string) (x : Library) : option Z :=
  option_map fl_mlId (List.find (same_file fileId) (lb_files x)).

(** [INSERT OR IGNORE], with the trigger [fki_media_library_id]: whether a row was inserted *)
Definition insert_ware (w : Ware) (psId : Z) (x : Library) : outcome (Library * bool) :=
  match file_mlId (wa_fileId w) x with
  | None => Raise trigger_error
  | Some mlId =>
      if existsb (fun r => wr_mlId r =? mlId) (lb_wares x) then Ok (x, false)
      else Ok (set_lb_wares (lb_wares x ++
        [{| wr_mlId := mlId; wr_id := wa_id w; wr_description := wa_description w; wr_scheme := psId;
            wr_flags := new_flags |}]) x, true)
  end.

Definition replace_ware (w : Ware) (psId : Z) (x : Library) : Library :=
  match file_mlId (wa_fileId w) x with
  | None => x
  | Some mlId =>
      set_lb_wares (update_rows (fun r => wr_mlId r =? mlId)
        (fun r => {| wr_mlId := wr_mlId r; wr_id := wa_id w; wr_description := wa_description w;
                     wr_scheme := psId;
                     wr_flags := {| fg_problem := 0; fg_dirty := true;
                                    fg_updating := fg_updating (wr_flags r); fg_deleted := false |} |})
        (lb_wares x)) x
  end.

(** Whether the ware was added *)
Definition updateWare (w : Ware) (psId : Z) : sql Library bool :=
  let! inserted := execute (insert_ware w psId) in
  if inserted : bool then sret true else
  let! _ := update (fun x => (replace_ware w psId x, tt)) in
  sret false.

(** The number of the problem is bound as [uint32_t]. *)
Definition updateWareProblemId (problemId : Z) (fileId : string) (mediaId : Z) : sql Library unit :=
  update (fun x => (
    match List.find (fun f => same_file fileId f && (fl_mediaId f =? mediaId)) (lb_files x) with
    | None => x
    | Some f => update_ware_flags (fun r => (wr_mlId r =? fl_mlId f) && negb (fg_dirty (wr_flags r)))
                  (with_problem (u32 problemId)) x
    end, tt)).

(** ** Updates for the servers *)

Record ListingEntry := { le_fileInfo : FileInfo; le_payeeSchemeId : Z }.

Record ListingRemoval := { lr_fileId : string; lr_mediaId : Z }.

(** The ids of a removed file are taken from the id of the ware. *)
Definition removal_of (wareId : string) : ListingRemoval :=
  let ids := split (nth 1 (split wareId "bitmunk:file:") "") "-" in
  {| lr_fileId := nth 1 ids ""; lr_mediaId := strtoull (nth 0 ids "") |}.

Fixpoint updating_wares (rows : list WareRow) (acc : list ListingEntry * list ListingRemoval)
    : sql Library (list ListingEntry * list ListingRemoval) :=
  match rows with
  | [] => sret acc
  | w :: rows =>
      if fg_deleted (wr_flags w) then updating_wares rows (acc.1, acc.2 ++ [removal_of (wr_id w)])
      else
        let! fi := tried (populateFile unread extension "" (wr_mlId w)) in
        match fi with
        | Ok fi => updating_wares rows
            (acc.1 ++ [{| le_fileInfo := set_fi_path None fi; le_payeeSchemeId := wr_scheme w |}], acc.2)
        | Raise _ => sraise "bitmunk.catalog.database.FileDoesNotExist"
        end
  end.

Definition populateUpdatingWares : sql Library (list ListingEntry * list ListingRemoval) :=
  let! rows := select (fun x => List.filter (fun w => sending (wr_flags w)) (lb_wares x)) in
  updating_wares rows ([], []).

(** *** Marking the next update *)

Definition mark (f : Flags) : Flags := with_marks false true f.

(** A scheme waits for its removed wares. *)
Definition markable (x : Library) (r : SchemeRow) : bool :=
  fg_dirty (sm_flags r) &&
  negb (existsb (fun w => (wr_scheme w =? sm_id r) && fg_deleted (wr_flags w)) (lb_wares x)).

Definition mark_schemes (x : Library) : Library :=
  let ids := take MAX_PAYEE_UPDATES (map sm_id (List.filter (markable x) (lb_schemes x))) in
  update_scheme_flags (fun r => existsb (Z.eqb (sm_id r)) ids) mark x.

(** [LIMIT] has no effect if it is negative. *)
Definition limit {A} (n : Z) (l : list A) : list A := if n <? 0 then l else take (Z.to_nat n) l.

(** Marks the wares with the ids of the first [n] that satisfy [q]; the result is how many. *)
Definition mark_wares (q : WareRow -> bool) (n : Z) (x : Library) : Library * nat :=
  let ids := limit n (map wr_id (List.filter q (lb_wares x))) in
  let picked w := existsb (String.eqb (wr_id w)) ids in
  (update_ware_flags picked mark x, rows_changed picked (lb_wares x)).

Definition busy_scheme (x : Library) (psId : Z) : bool :=
  existsb (fun r => (sm_id r =? psId) && (fg_updating (sm_flags r) || fg_dirty (sm_flags r)))
    (lb_schemes x).

(** A ware waits for its payee scheme. *)
Definition unmark_wares (x : Library) : Library :=
  update_ware_flags (fun w => negb (fg_deleted (wr_flags w)) && fg_updating (wr_flags w) &&
    busy_scheme x (wr_scheme w)) (with_marks true false) x.

Definition markNextListingUpdate : sql Library unit :=
  let! pending := select (fun x => existsb (fun w => fg_updating (wr_flags w)) (lb_wares x)) in
  let! pending := (if pending : bool then sret true
    else select (fun x => existsb (fun r => fg_updating (sm_flags r)) (lb_schemes x))) in
  if pending : bool then sret tt else
  let! _ := update (fun x => (mark_schemes x, tt)) in
  let! n := update (mark_wares (fun w => fg_deleted (wr_flags w)) (Z.of_nat MAX_WARE_UPDATES)) in
  let rows := u64 (Z.of_nat MAX_WARE_UPDATES - Z.of_nat n) in
  if 0 <? rows then
    let! _ := update (mark_wares (fun w => fg_dirty (wr_flags w)) (i64 rows)) in
    update (fun x => (unmark_wares x, tt))
  else sret tt.

(** *** Problems *)

Definition find_problem (text : string) (x : Library) : option Z :=
  option_map pb_id (List.find (fun p => String.eqb (pb_text p) text) (lb_problems x)).

Definition insert_problem (text : string) (x : Library) : Library * Z :=
  let id := next_rowid (map pb_id (lb_problems x)) in
  (set_lb_problems (lb_problems x ++ [{| pb_id := id; pb_text := text |}]) x, id).

Definition getProblemId (text : string) : sql Library Z :=
  push "bitmunk.catalog.database.GetProblemIdFailed" (
    let! n := select (find_problem text) in
    match n with Some n => sret n | None => update (insert_problem text) end).

Definition referenced (x : Library) (p : ProblemRow) : bool :=
  existsb (fun r => fg_problem (sm_flags r) =? pb_id p) (lb_schemes x) ||
  existsb (fun w => fg_problem (wr_flags w) =? pb_id p) (lb_wares x).

Definition removeUnreferencedProblems : sql Library unit :=
  update (fun x => (set_lb_problems
    (delete_rows (fun p => negb (referenced x p)) (lb_problems x)) x, tt)).
End Wares.
