(* ===== verification/CustomCatalog.v ===== *)
(** The catalog of a seller ([cpp/customcatalog/CustomCatalog.cpp]).

    Every operation has a connection of its own, and what it changes is a transaction.  Events are
    scheduled by some operations before they commit, so that they are a result of failed operations
    as well.  [populateNextListingUpdate] and [processListingUpdateResponse] are the two ends of an
    update of the listings of the Bitmunk servers. *)
From stdpp Require Import gmap.
From S2P Require Import Prelude DynMap Sql Http LibraryDb CatalogDb.

Local Open Scope Z_scope.
Local Open Scope sql_scope.
Local Open Scope io_scope.

Section CustomCatalog.
Context {Details Exn : Type} `{Json Details} `{Json Exn}.
Context (unread : Details) (extension : string -> string).
Context (constraint_error trigger_error : string).
Context (split : string -> string -> list string).
Notation FileInfo := (FileInfo Details).
Notation ListingEntry := (ListingEntry (Details:=Details)).
Notation OneScheme := (OneScheme (Exn:=Exn)).
Notation SchemeUpdate := (SchemeUpdate (Exn:=Exn)).

(** [EVENT_WARE] and [EVENT_PAYEE_SCHEME] with [.updated], [.removed] and [.exception] *)
Inductive Event :=
| WareUpdated (id : string) (isNew : bool)
| WareRemoved (id : string)
| WareException (id : string) (e : Exn)
| SchemeUpdated (id : string) (isNew : bool)
| SchemeRemoved (id : string)
| SchemeException (id : string) (e : Exn).

Definition scheme_updated (psId : Z) (isNew : bool) : Event := SchemeUpdated (print_u64 psId) isNew.

(** A transaction of a connection of its own, whose body says what it returns and which events it
    schedules. *)
Definition transacting {A} (body : sql Library (outcome A * list Event))
    : io Library (outcome A * list Event) := fun c =>
  match sbind open_connection (fun _ => begin_) c with
  | (Raise e, c) => ((Raise e, []), reconnect c)
  | (Ok _, c) =>
      match body c with
      | (Ok (r, evs), c) => let '(r, c) := finish r c in ((r, evs), reconnect c)
      | (Raise e, c) => ((Raise e, []), reconnect (rollback_ c).2)
      end
  end.

(** ** Wares *)

Definition ware_scheme (w : Ware) : sql Library (outcome Z * list Event) :=
  match wa_scheme w with
  | Some psId =>
      let! r := tried (isPayeeSchemeIdValid psId) in
      sret (match r with Ok _ => Ok psId | Raise e => Raise e end, [])
  | None =>
      let! r := tried (addPayeeScheme constraint_error (wa_description w) (wa_payees w)) in
      sret (r, match r with Ok psId => [scheme_updated psId true] | Raise _ => [] end)
  end.

(** The payee scheme of the ware.  The event of a new payee scheme is scheduled before the ware is
    updated. *)
Definition updateWare (w : Ware) : io Library (outcome Z * list Event) :=
  do! (r, evs) := transacting (
    let! (s, evs) := ware_scheme w in
    match s with
    | Raise e => sret (Raise e, evs)
    | Ok psId =>
        let! r := tried (CatalogDb.updateWare trigger_error w psId) in
        sret (match r with Ok added => Ok (psId, added) | Raise e => Raise e end, evs)
    end) in
  iret (match r with
    | Ok (psId, added) => (Ok psId, evs ++ [WareUpdated (wa_id w) added; scheme_updated psId false])
    | Raise e => (Raise e, evs)
    end).

(** Without a connection or a transaction the operation fails as a whole. *)
Definition committing {A} (body : sql Library A) : sql Library A :=
  let! _ := open_connection in transaction body.

Definition removeWare (id : string) : io Library (outcome Z * list Event) :=
  do! r := attempt (committing (CatalogDb.removeWare id)) in
  iret (r, match r with
    | Ok psId => [WareRemoved id; scheme_updated psId false]
    | Raise _ => []
    end).

Definition populateWare (id : string) : sql Library FullWare :=
  let! _ := open_connection in CatalogDb.populateWare (Exn:=Exn) unread extension id.

Definition populateWareSet (q : WareQuery) : sql Library WareSet :=
  let! _ := open_connection in CatalogDb.populateWareSet (Exn:=Exn) unread extension q.

Definition populateWareBundle : outcome unit := Raise "bitmunk.catalog.FeatureUnsupported".

Definition populateFileInfos (id : string) : sql Library FileInfo :=
  let! _ := open_connection in populateWareFileInfo unread extension id.

(** The loop over the files runs while [rval], which is false before it. *)
Fixpoint populate_files (rval : bool) (count : Z) (l : list string) : sql Library Z :=
  match l with
  | [] => sret count
  | id :: l =>
      if rval then
        let! r := tried (populateFile unread extension id 0) in
        let ok := succeeded r in
        populate_files ok (if ok then count + 1 else count) l
      else sret count
  end.

Definition populateFileInfoList (ids : list string) : sql Library unit :=
  match ids with
  | [] => sret tt
  | _ =>
      let! _ := open_connection in
      let! count := populate_files false 0 ids in
      if count =? Z.of_nat (length ids) then sret tt else sraise "bitmunk.catalog.InvalidFileId"
  end.

(** ** Payee schemes *)

(** The id of the payee scheme, which is 0 for a new one *)
Definition updatePayeeScheme (psId : Z) (description : string) (payees : list SchemePayee)
    : io Library (outcome Z * list Event) :=
  do! (r, evs) := transacting (
    if psId =? 0 then
      let! r := tried (addPayeeScheme constraint_error description payees) in
      sret (r, match r with Ok psId => [scheme_updated psId true] | Raise _ => [] end)
    else
      let! r := tried (CatalogDb.updatePayeeScheme constraint_error psId description payees) in
      sret (match r with
        | Ok _ => (Ok psId, [scheme_updated psId false])
        | Raise e => (Raise e, [])
        end)) in
  iret (match r with
    | Ok psId => Ok psId
    | Raise _ => Raise "bitmunk.catalog.UpdatePayeeSchemeFailed"
    end, evs).

Definition populatePayeeSchemes (f : SchemeFilters) : sql Library (list (ListedScheme (Exn:=Exn)) * Z) :=
  let! _ := open_connection in CatalogDb.populatePayeeSchemes f.

Definition populatePayeeScheme (psId : Z) (default_ : bool) : sql Library OneScheme :=
  let! _ := open_connection in CatalogDb.populatePayeeScheme psId default_.

Definition removePayeeScheme (psId : Z) : io Library (outcome unit * list Event) :=
  do! r := attempt (committing (CatalogDb.removePayeeScheme psId)) in
  iret (r, match r with Ok _ => [SchemeRemoved (print_u64 psId)] | Raise _ => [] end).

(** ** Seller *)

Definition updateSeller (serverId url token : string) : sql Library unit :=
  committing (
    let! _ := CatalogDb.setConfigValue "serverId" serverId in
    let! _ := CatalogDb.setConfigValue "serverToken" token in
    CatalogDb.setConfigValue "serverUrl" url).

Definition populateSeller (userId : Z) : sql Library (Seller * string) :=
  let! _ := open_connection in
  push "bitmunk.catalog.PopulateSellerFailed" (CatalogDb.populateSeller userId).

Definition setConfigValue (name value : string) : sql Library unit :=
  let! _ := open_connection in CatalogDb.setConfigValue name value.

Definition getConfigValue (name : string) : sql Library string :=
  let! _ := open_connection in CatalogDb.getConfigValue name.

(** ** Updates of the listings *)

Definition getUpdateId : sql Library Z :=
  push "bitmunk.catalog.GetUpdateIdFailed"
    (let! _ := open_connection in getConfigNumber "updateId").

(** [SellerListingUpdate], as it is sent; a heartbeat has no listings and no payee schemes. *)
Record ListingUpdate := {
  up_seller : Seller; up_serverToken : string; up_updateId : Z; up_newUpdateId : Z;
  up_updates : list ListingEntry; up_removals : list ListingRemoval;
  up_schemes : list SchemeUpdate; up_schemeRemovals : list SchemeUpdate
}.

Definition no_changes (u : ListingUpdate) : bool :=
  match up_updates u, up_removals u, up_schemes u, up_schemeRemovals u with
  | [], [], [], [] => true
  | _, _, _, _ => false
  end.

Definition seller_and_id (userId : Z) : sql Library (Seller * string * Z) :=
  let! (seller, token) := CatalogDb.populateSeller userId in
  let! id := getConfigNumber "updateId" in
  sret (seller, token, id).

Definition populateHeartbeatListingUpdate (userId : Z) : sql Library ListingUpdate :=
  push "bitmunk.catalog.PopulateHeartbeatListingUpdateFailed" (
    let! _ := open_connection in
    let! (seller, token, id) := seller_and_id userId in
    sret {| up_seller := seller; up_serverToken := token; up_updateId := id; up_newUpdateId := id;
            up_updates := []; up_removals := []; up_schemes := []; up_schemeRemovals := [] |}).

(** The payee schemes and the wares that are being updated *)
Definition populateUpdatingSellerListings
    : sql Library (list ListingEntry * list ListingRemoval * (list SchemeUpdate * list SchemeUpdate)) :=
  let! ss := populateUpdatingPayeeSchemes in
  let! ws := populateUpdatingWares unread extension split in
  sret (ws, ss).

Definition populatePendingListingUpdate (userId : Z) : sql Library ListingUpdate :=
  push "bitmunk.catalog.PopulatePendingListingUpdateFailed" (committing (
    let! (seller, token, id) := seller_and_id userId in
    let! (ups, rms, (ss, srs)) := populateUpdatingSellerListings in
    sret {| up_seller := seller; up_serverToken := token; up_updateId := u32 (id + 1);
            up_newUpdateId := u32 (id + 1); up_updates := ups; up_removals := rms; up_schemes := ss;
            up_schemeRemovals := srs |})).

(** The new update id is only used if there are changes. *)
Definition next_update (seller : Seller) (token : string) (id : Z)
    (l : list ListingEntry * list ListingRemoval * (list SchemeUpdate * list SchemeUpdate)) : ListingUpdate :=
  let '(ups, rms, (ss, srs)) := l in
  let make n := {| up_seller := seller; up_serverToken := token; up_updateId := id; up_newUpdateId := n;
    up_updates := ups; up_removals := rms; up_schemes := ss; up_schemeRemovals := srs |} in
  make (if no_changes (make id) then id else u32 (id + 1)).

Definition populateNextListingUpdate (userId : Z) : sql Library ListingUpdate :=
  push "bitmunk.catalog.PopulateNextListingUpdateFailed" (committing (
    let! (seller, token, id) := seller_and_id userId in
    let! _ := markNextListingUpdate in
    let! l := populateUpdatingSellerListings in
    sret (next_update seller token id l))).

(** The answer of the servers: what could not be done, and the id they have now. *)
Record ListingResult := {
  lt_updates : list (ListingRemoval * Exn); lt_removals : list (ListingRemoval * Exn);
  lt_schemes : list (Z * Exn); lt_schemeRemovals : list (Z * Exn);
  lt_updateId : string
}.

Definition ware_id_of (l : ListingRemoval) : string :=
  "bitmunk:file:" +:+ print_u64 (lr_mediaId l) +:+ "-" +:+ lr_fileId l.

Definition entry_ids (e : ListingEntry) : ListingRemoval :=
  {| lr_fileId := fi_id (le_fileInfo e); lr_mediaId := fi_mediaId (le_fileInfo e) |}.

Definition failed_listing (f : ListingRemoval * Exn) : sql Library unit :=
  let! n := getProblemId (to_json f.2) in
  updateWareProblemId n (lr_fileId f.1) (lr_mediaId f.1).

Definition failed_scheme (f : Z * Exn) : sql Library unit :=
  let! n := getProblemId (to_json f.2) in
  updatePayeeSchemeProblemId n f.1.

(** The failures are written down until that fails; the result is whether it did not, and what was
    looked at. *)
Fixpoint write_down {A} (f : A -> sql Library unit) (l : list A) : sql Library (bool * list A) :=
  match l with
  | [] => sret (true, [])
  | a :: l =>
      let! r := tried (f a) in
      if succeeded r then let! (ok, seen) := write_down f l in sret (ok, a :: seen)
      else sret (false, [a])
  end.

(** What the answer changes.  That failures could not be written down is overlooked. *)
Definition take_result (r : ListingResult)
    : sql Library (list (ListingRemoval * Exn) * list (Z * Exn)) :=
  let! (ok, wares) := write_down failed_listing (lt_updates r ++ lt_removals r) in
  let! (_, schemes) := (if ok : bool then write_down failed_scheme (lt_schemes r ++ lt_schemeRemovals r)
                        else sret (false, [])) in
  let! _ := purgeDeletedEntries Wares in
  let! _ := clearUpdatingFlags Wares in
  let! _ := purgeDeletedEntries PayeeSchemes in
  let! _ := clearUpdatingFlags PayeeSchemes in
  let! _ := removeUnreferencedProblems in
  let! _ := CatalogDb.setConfigValue "updateId" (lt_updateId r) in
  sret (wares, schemes).

(** The names that are left of those of an update without those that failed. *)
Definition good_names (sent failed : list string) : list string :=
  dm_keys (foldl dm_remove (foldl (fun m n => dm_set m n true) [] sent) failed).

Definition result_events (u : ListingUpdate) (wares : list (ListingRemoval * Exn)) (schemes : list (Z * Exn))
    : list Event :=
  map (fun n => WareUpdated n false)
    (good_names (map (fun e => ware_id_of (entry_ids e)) (up_updates u)) (map (fun f => ware_id_of f.1) wares)) ++
  map (fun f => WareException (ware_id_of f.1) f.2) wares ++
  map (fun n => SchemeUpdated n false)
    (good_names (map (fun s => print_u64 (su_id s)) (up_schemes u)) (map (fun f => print_u64 f.1) schemes)) ++
  map (fun f => SchemeException (print_u64 f.1) f.2) schemes.

Definition processListingUpdateResponse (u : ListingUpdate) (r : ListingResult)
    : io Library (outcome unit * list Event) :=
  do! o := attempt (push "bitmunk.catalog.ProcessListingUpdateResponseFailed" (committing (take_result r))) in
  iret (match o with
    | Ok (wares, schemes) => (Ok tt, result_events u wares schemes)
    | Raise e => (Raise e, [])
    end).

Definition resetListingUpdateCounter : sql Library unit :=
  push "bitmunk.catalog.ResetListingUpdateCounterFailed" (committing (
    let! _ := CatalogDb.setConfigValue "updateId" "0" in
    let! _ := CatalogDb.setConfigValue "serverId" "0" in
    let! _ := CatalogDb.setConfigValue "serverToken" "0" in
    let! _ := setTableFlags Wares true false in
    setTableFlags PayeeSchemes true false)).

(** ** Initialization and events *)

(** The settings of the module for a user *)
Record CatalogConfig := {
  cc_uploadListings : option bool; cc_listingSyncInterval : option Z;
  cc_testNetAccessInterval : option Z; cc_autoSell : option Z
}.

Definition interval (v : option Z) (standard : Z) : Z :=
  let n := u64 (default 0 v * 1000) in if n =? 0 then standard else n.

(** The intervals of the daemon events for an updater that is started, in milliseconds *)
Definition mediaLibraryInitialized (cfg : CatalogConfig) (token : Z) : sql Library (option (Z * Z)) :=
  let! _ := initialize in
  let! _ := CatalogDb.setConfigValue "netaccessToken" (print_u64 token) in
  sret (if default true (cc_uploadListings cfg)
        then Some (interval (cc_listingSyncInterval cfg) (5 * 60 * 1000),
                   interval (cc_testNetAccessInterval cfg) (60 * 60 * 1000))
        else None).

Definition auto_payee (account : Z) : SchemePayee :=
  {| sp_account := account; sp_amountType := "flatFee"; sp_description := "Auto-generated payee";
     sp_amount := "0.05"; sp_percentage := "0.00"; sp_min := "0.00" |}.

(** The payee scheme that becomes the one of the settings, if any.  [account] is the answer to the
    request for the first account of the user: none if it fails. *)
Definition userLoggedIn (cfg : option CatalogConfig) (account : option (option Z))
    : io Library (option Z) :=
  do! first := attempt (let! _ := open_connection in getFirstPayeeSchemeId) in
  let wanted := match cfg with Some c => match cc_autoSell c with Some n => n =? 0 | None => false end
                | None => false end in
  match first, account with
  | Ok first, Some (Some account) =>
      if (first =? 0) && wanted then
        do! r := attempt (committing (
          let! psId := getFirstPayeeSchemeId in
          if psId =? 0
          then addPayeeScheme constraint_error "Auto-generated payment scheme" [auto_payee account]
          else sret psId)) in
        iret (match r with Ok psId => Some psId | Raise _ => None end)
      else iret None
  | _, _ => iret None
  end.

Definition checkAutoSell (cfg : option CatalogConfig) (fileId : string) (mediaId : Z)
    : io Library (outcome Z * list Event) :=
  match cfg with
  | Some c =>
      match cc_autoSell c with
      | Some psId =>
          updateWare {| wa_id := ware_id_of {| lr_fileId := fileId; lr_mediaId := mediaId |};
                        wa_fileId := fileId; wa_description := ""; wa_scheme := Some psId;
                        wa_payees := [] |}
      | None => iret (Ok 0, [])
      end
  | None => iret (Ok 0, [])
  end.
End CustomCatalog.
