(* ===== verification/CatalogFacts.v ===== *)
(** What holds of the catalog of a seller: ids, invariants of its tables, and what is sent to the
    servers. *)
From stdpp Require Import gmap sorting.
From S2P Require Import Prelude DynMap Sql Http LibraryDb MediaLibrary CatalogDb CustomCatalog.

Local Open Scope Z_scope.
Local Open Scope sql_scope.
Local Open Scope io_scope.

(** * Lists of rows *)

Section Rows.
Context {R K : Type} (key : R -> K).
Implicit Types (l : list R) (p : R -> bool).

Lemma update_rows_keys p f l :
  (forall r, p r = true -> key (f r) = key r) -> map key (update_rows p f l) = map key l.
Proof.
  intros Hf. unfold update_rows. rewrite map_map. apply map_ext. intros r. destruct (p r) eqn:E; auto.
Qed.

Lemma delete_rows_unique p l : NoDup (map key l) -> NoDup (map key (delete_rows p l)).
Proof.
  unfold delete_rows. induction l as [|r l IH]; cbn; [done|]. intros [Hr Hl]%NoDup_cons.
  destruct (negb (p r)); cbn; [|by apply IH]. apply NoDup_cons. split; [|by apply IH].
  contradict Hr. apply list_elem_of_fmap in Hr as (r' & -> & [Hin _]%list_elem_of_In%filter_In).
  apply list_elem_of_fmap. exists r'. by rewrite list_elem_of_In.
Qed.

Lemma elem_of_delete_rows p l r : r ∈ delete_rows p l <-> r ∈ l /\ p r = false.
Proof.
  unfold delete_rows. rewrite !list_elem_of_In, filter_In, negb_true_iff. done.
Qed.

Lemma elem_of_update_rows p f l r :
  r ∈ update_rows p f l <-> exists r0, r0 ∈ l /\ r = if p r0 then f r0 else r0.
Proof.
  unfold update_rows. rewrite list_elem_of_In, in_map_iff. split.
  - intros (r0 & <- & Hin%list_elem_of_In). eauto.
  - intros (r0 & Hin%list_elem_of_In & ->). eauto.
Qed.
End Rows.

Lemma elem_of_filter_bool {R} (p : R -> bool) l r : r ∈ List.filter p l <-> p r = true /\ r ∈ l.
Proof. rewrite !list_elem_of_In, filter_In. tauto. Qed.

Lemma existsb_elem {R} (p : R -> bool) l : existsb p l = true <-> exists r, r ∈ l /\ p r = true.
Proof.
  rewrite existsb_exists. by setoid_rewrite list_elem_of_In.
Qed.

Lemma existsb_none {R} (p : R -> bool) l r : existsb p l = false -> r ∈ l -> p r = false.
Proof.
  intros E Hin. destruct (p r) eqn:Er; [|done]. assert (existsb p l = true) by (apply existsb_elem; eauto).
  congruence.
Qed.

Lemma existsb_Z_elem n l : existsb (Z.eqb n) l = true <-> n ∈ l.
Proof.
  rewrite existsb_elem. split.
  - by intros (m & Hm & ->%Z.eqb_eq).
  - intros Hn. exists n. by rewrite Z.eqb_refl.
Qed.

Lemma existsb_string_elem n l : existsb (String.eqb n) l = true <-> n ∈ l.
Proof.
  rewrite existsb_elem. split.
  - by intros (m & Hm & ->%String.eqb_eq).
  - intros Hn. exists n. by rewrite String.eqb_refl.
Qed.

Lemma NoDup_snoc {K} (k : K) l : NoDup l -> k ∉ l -> NoDup (l ++ [k]).
Proof.
  intros Hl Hk. apply NoDup_app. split; [done|]. split; [|apply NoDup_singleton].
  intros x Hx ->%list_elem_of_singleton. done.
Qed.

(** * Ids *)

Lemma next_rowid_above ids n : n ∈ ids -> n < next_rowid ids.
Proof.
  unfold next_rowid. induction ids as [|m ids IH]; cbn; [by intros ?%elem_of_nil|].
  intros [->|?%IH]%elem_of_cons; lia.
Qed.

Lemma next_rowid_pos ids : 1 <= next_rowid ids.
Proof. unfold next_rowid. induction ids as [|m ids IH]; cbn; lia. Qed.

Lemma next_rowid_succ ids : next_rowid ids = 1 \/ next_rowid ids - 1 ∈ ids.
Proof.
  unfold next_rowid. induction ids as [|m ids IH]; cbn; [by left|].
  destruct (Z.max_spec m (foldr Z.max 0 ids)) as [[_ ->]|[_ ->]].
  - destruct IH as [?|?]; [by left|right; by right].
  - right. replace (m + 1 - 1) with m by lia. left.
Qed.

Lemma next_rowid_fresh ids : next_rowid ids ∉ ids.
Proof. intros ?%next_rowid_above. lia. Qed.

Lemma least_spec l n : least l = Some n -> n ∈ l /\ forall m, m ∈ l -> n <= m.
Proof.
  revert n. induction l as [|a l IH]; cbn; [done|]. intros n [= <-]. destruct (least l) as [b|] eqn:E.
  - destruct (IH b eq_refl) as [Hb Hmin]. split.
    + destruct (Z.min_spec a b) as [[_ ->]|[_ ->]]; [left|by right].
    + intros m [->|Hm%Hmin]%elem_of_cons; lia.
  - destruct l; [|done]. split; [left|]. intros m ->%list_elem_of_singleton. lia.
Qed.

Lemma least_none l : least l = None -> l = [].
Proof. by destruct l. Qed.

(** The first of a list of candidates that one can have: 1, or the successor of one that is used. *)
Definition candidates (ids : list Z) : list Z :=
  (if existsb (Z.eqb 1) ids then [] else [1]) ++
  match least (List.filter (fun n => negb (existsb (Z.eqb n) ids)) (map (fun n => n + 1) ids)) with
  | None => [] | Some n => [n] end.

Lemma candidate_free ids n :
  Forall (fun i => 0 <= i) ids -> n ∈ candidates ids -> 1 <= n /\ n ∉ ids.
Proof.
  intros Hpos. unfold candidates. rewrite elem_of_app. intros [Hn|Hn].
  - destruct (existsb (Z.eqb 1) ids) eqn:E; [by apply elem_of_nil in Hn|].
    apply list_elem_of_singleton in Hn as ->. split; [lia|].
    intros H1%existsb_Z_elem. congruence.
  - destruct (least _) as [m|] eqn:E; [|by apply elem_of_nil in Hn].
    apply list_elem_of_singleton in Hn as ->. apply least_spec in E as [E _].
    apply elem_of_filter_bool in E as [Hf (i & -> & Hi)%list_elem_of_fmap].
    rewrite Forall_forall in Hpos. specialize (Hpos i Hi). split; [lia|].
    intros H1%existsb_Z_elem. by rewrite H1 in Hf.
Qed.

Lemma candidates_some ids : exists n, least (candidates ids) = Some n.
Proof.
  destruct (least (candidates ids)) as [n|] eqn:E; [by exists n|]. exfalso. apply least_none in E.
  unfold candidates in E. apply app_eq_nil in E as [E1 E2].
  destruct (existsb (Z.eqb 1) ids) eqn:H1; [|done]. apply existsb_Z_elem in H1.
  destruct (least _) eqn:El in E2; [done|]. apply least_none in El.
  pose proof (next_rowid_above ids 1 H1). destruct (next_rowid_succ ids) as [?|Hm]; [lia|].
  assert (next_rowid ids ∈ @nil Z) as Hin; [|by apply elem_of_nil in Hin]. rewrite <- El.
  apply elem_of_filter_bool. split; [|apply list_elem_of_fmap; exists (next_rowid ids - 1); split; [lia|done]].
  apply negb_true_iff. destruct (existsb (Z.eqb (next_rowid ids)) ids) eqn:E; [|done].
  by apply existsb_Z_elem, next_rowid_fresh in E.
Qed.

(** A number without a successor that is used is a candidate, or not below one. *)
Lemma below_candidates ids n (k : nat) :
  (forall m, m ∈ candidates ids -> n <= m) -> 1 + Z.of_nat k < n -> 1 + Z.of_nat k ∈ ids.
Proof.
  intros Hmin. unfold candidates in Hmin. induction k as [|k IH]; intros Hk.
  - destruct (existsb (Z.eqb 1) ids) eqn:E; [by apply existsb_Z_elem|].
    specialize (Hmin 1 ltac:(left)). lia.
  - destruct (existsb (Z.eqb (1 + Z.of_nat (S k))) ids) eqn:E; [by apply existsb_Z_elem|].
    specialize (IH ltac:(lia)).
    assert (1 + Z.of_nat (S k) ∈ List.filter (fun n => negb (existsb (Z.eqb n) ids)) (map (fun n => n + 1) ids))
      as Hin.
    { apply elem_of_filter_bool. split; [by rewrite E|]. apply list_elem_of_fmap.
      exists (1 + Z.of_nat k). split; [lia|done]. }
    destruct (least _) as [m|] eqn:El in Hmin.
    + apply least_spec in El as [_ Hle]. specialize (Hle _ Hin). specialize (Hmin m).
      rewrite elem_of_app, list_elem_of_singleton in Hmin. specialize (Hmin ltac:(by right)). lia.
    + apply least_none in El. rewrite El in Hin. by apply elem_of_nil in Hin.
Qed.

(** The id of a new payee scheme is the lowest positive number that no payee scheme has. *)
Theorem unused_id_lowest ids :
  Forall (fun i => 0 <= i) ids ->
  1 <= unused_id ids /\ unused_id ids ∉ ids /\
  forall m, 1 <= m < unused_id ids -> m ∈ ids.
Proof.
  intros Hpos. destruct (candidates_some ids) as [n E].
  assert (unused_id ids = n) as -> by (unfold unused_id; fold (candidates ids); by rewrite E).
  apply least_spec in E as [Hin Hmin]. destruct (candidate_free ids n Hpos Hin) as [H1 Hn].
  split; [done|]. split; [done|]. intros m Hm.
  replace m with (1 + Z.of_nat (Z.to_nat (m - 1))) by lia. apply (below_candidates ids n); [done|lia].
Qed.

(** ** Allocation ends *)

Section Allocation.
Context (constraint_error : string).

(** The rounds that are left: one for each attempt, one for a row with the id 0, which can be added only
    once, and the one that finds the attempts used up *)
Definition rounds_left (attempts : Z) (x : Library) : nat :=
  Z.to_nat (256 - attempts) + Nat.b2n (negb (existsb (fun r => sm_id r =? 0) (lb_schemes x))) + 1.

Lemma select_data {X A} (f : X -> A) c : cn_data (select f c).2 = cn_data c.
Proof.
  unfold select, update, execute, faulty. pose proof (step_fault_same c) as [Hd _].
  by destruct (step_fault c) as [[e|] c']; cbn in *.
Qed.

Lemma allocate_more fuel more attempts d c :
  (rounds_left attempts (cn_data c) <= fuel <= more)%nat ->
  allocate constraint_error more attempts d c = allocate constraint_error fuel attempts d c.
Proof.
  revert more attempts c. induction fuel as [|fuel IH]; intros more attempts c Hf; [unfold rounds_left in Hf; lia|].
  destruct more as [|more]; [lia|].
  cbn [allocate]. destruct (Z.ltb_spec MAX_ALLOCATION_ATTEMPTS attempts) as [|Ha]; [done|].
  unfold MAX_ALLOCATION_ATTEMPTS in Ha. unfold sbind, tried. cbv beta.
  pose proof (select_data (fun x => unused_id (map sm_id (lb_schemes x))) c) as Hd.
  destruct (select (fun x => unused_id (map sm_id (lb_schemes x))) c) as [r c1]. cbn [snd] in Hd.
  cbv beta iota. rewrite <- Hd in Hf. clear Hd.
  set (psId := match r with Ok n => n | Raise _ => 0 end).
  unfold execute, faulty. pose proof (step_fault_same c1) as [Hd _].
  destruct (step_fault c1) as [[e|] c2]; cbn in Hd; rewrite <- Hd in Hf.
  - destruct (String.eqb e constraint_error); [|done]. apply (IH _ (attempts + 1)).
    unfold rounds_left in *. lia.
  - unfold insert_scheme. destruct (existsb _ _) eqn:Ex.
    + rewrite String.eqb_refl. apply (IH _ (attempts + 1)). unfold rounds_left in *. lia.
    + destruct (Z.eqb_spec psId 0) as [Ez|]; [|done]. apply (IH _ attempts). rewrite Ez in *.
      unfold rounds_left in *. rewrite Ex in Hf. cbn in *. rewrite existsb_app, orb_true_r. cbn in *. lia.
Qed.

(** More rounds than the 258 of [allocateNewPayeeScheme] make no difference. *)
Lemma allocation_ends n d c :
  allocate constraint_error (258 + n) 0 d c = allocate constraint_error 258 0 d c.
Proof.
  apply allocate_more. unfold rounds_left. destruct (negb _); cbn [Nat.b2n]; lia.
Qed.
End Allocation.

(** * Invariants of the tables *)

Definition scheme_live (psId : Z) (x : Library) : Prop := exists s, s ∈ lb_schemes x /\ live_scheme psId s = true.

(** A ware that is offered has a payee scheme that is not removed.  The id 0, which is no valid one,
    is what an allocation without a free id returns. *)
Definition priced (x : Library) (w : WareRow) : Prop :=
  fg_deleted (wr_flags w) = true \/ wr_scheme w = 0 \/ scheme_live (wr_scheme w) x.

Definition owned (x : Library) (r : PayeeRow) : Prop :=
  py_scheme r = 0 \/ py_scheme r ∈ map sm_id (lb_schemes x).

(** A ware that is offered has its file in the library. *)
Definition filed (x : Library) (w : WareRow) : Prop :=
  fg_deleted (wr_flags w) = true \/ wr_mlId w ∈ map fl_mlId (lb_files x).

Definition payee_key (r : PayeeRow) : Z * Z := (py_scheme r, py_position r).

Record catalog_ok (x : Library) : Prop := {
  ok_files : NoDup (map fl_mlId (lb_files x));
  ok_fileIds : NoDup (map fl_fileId (lb_files x));
  ok_mlIds : Forall (fun f => 1 <= fl_mlId f) (lb_files x);
  ok_wares : NoDup (map wr_mlId (lb_wares x));
  ok_schemes : NoDup (map sm_id (lb_schemes x));
  ok_positions : NoDup (map payee_key (lb_payees x));
  ok_payees : Forall (owned x) (lb_payees x);
  ok_priced : Forall (priced x) (lb_wares x);
  ok_filed : Forall (filed x) (lb_wares x)
}.

Lemma live_scheme_id psId s : live_scheme psId s = true -> sm_id s = psId.
Proof. unfold live_scheme. by intros [->%Z.eqb_eq _]%andb_prop. Qed.

(** ** Wares *)

(** Changes of the wares that keep their library ids and what they cost. *)
Lemma ok_set_wares x ws :
  catalog_ok x -> NoDup (map wr_mlId ws) -> Forall (priced x) ws -> Forall (filed x) ws ->
  catalog_ok (set_lb_wares ws x).
Proof. by intros [] Hn Hp Hf; split. Qed.

Lemma ok_update_wares x p (f : WareRow -> WareRow) :
  catalog_ok x ->
  (forall w, p w = true -> wr_mlId (f w) = wr_mlId w) ->
  (forall w, p w = true -> priced x w -> priced x (f w)) ->
  (forall w, p w = true -> filed x w -> filed x (f w)) ->
  catalog_ok (set_lb_wares (update_rows p f (lb_wares x)) x).
Proof.
  intros Hx Hk Hf Hg. apply ok_set_wares; [done| | |].
  - rewrite update_rows_keys by done. by apply ok_wares.
  - apply Forall_forall. intros w (w0 & Hin & ->)%elem_of_update_rows.
    pose proof (proj1 (Forall_forall _ _) (ok_priced x Hx) w0 Hin). destruct (p w0) eqn:E; auto.
  - apply Forall_forall. intros w (w0 & Hin & ->)%elem_of_update_rows.
    pose proof (proj1 (Forall_forall _ _) (ok_filed x Hx) w0 Hin). destruct (p w0) eqn:E; auto.
Qed.

Lemma ok_ware_flags x q f :
  catalog_ok x -> (forall fl, fg_deleted fl = true -> fg_deleted (f fl) = true) ->
  catalog_ok (update_ware_flags q f x).
Proof.
  intros Hx Hf. apply ok_update_wares; [done|done|..]; intros w _ [Hd|Hl]; (by right) || (left; by apply Hf).
Qed.

(** ** Payee schemes *)

(** Changes of the schemes that keep their ids and those that are offered. *)
Lemma ok_set_schemes x ss :
  catalog_ok x -> map sm_id ss = map sm_id (lb_schemes x) ->
  (forall w, w ∈ lb_wares x -> fg_deleted (wr_flags w) = false -> scheme_live (wr_scheme w) x ->
     exists s, s ∈ ss /\ live_scheme (wr_scheme w) s = true) ->
  catalog_ok (set_lb_schemes ss x).
Proof.
  intros [] Hids Hl. split; cbn; try done.
  - by rewrite Hids.
  - eapply Forall_impl; [exact ok_payees0|]. intros r [?|?]; [by left|right; cbn; by rewrite Hids].
  - apply Forall_forall. intros w Hw. rewrite Forall_forall in ok_priced0.
    destruct (fg_deleted (wr_flags w)) eqn:E; [by left|].
    destruct (ok_priced0 w Hw) as [?|[?|Hs]]; [congruence|right; by left|].
    right. right. destruct (Hl w Hw E Hs) as (s & ? & ?). by exists s.
Qed.

Lemma live_scheme_update psId p (f : SchemeRow -> SchemeRow) l :
  (forall s, p s = true -> live_scheme psId s = true -> live_scheme psId (f s) = true) ->
  (exists s, s ∈ l /\ live_scheme psId s = true) ->
  exists s, s ∈ update_rows p f l /\ live_scheme psId s = true.
Proof.
  intros Hf (s & Hin & Hs). exists (if p s then f s else s).
  split; [apply elem_of_update_rows; by exists s|]. destruct (p s) eqn:E; auto.
Qed.

Lemma ok_update_schemes x p (f : SchemeRow -> SchemeRow) :
  catalog_ok x ->
  (forall s, sm_id (f s) = sm_id s) ->
  (forall s, fg_deleted (sm_flags s) = false -> fg_deleted (sm_flags (f s)) = false) ->
  catalog_ok (set_lb_schemes (update_rows p f (lb_schemes x)) x).
Proof.
  intros Hx Hid Hd. apply ok_set_schemes; [done|by apply update_rows_keys|].
  intros w _ _ Hs. apply live_scheme_update; [|done]. intros s _.
  unfold live_scheme. rewrite Hid, !andb_true_iff, !negb_true_iff. naive_solver.
Qed.

Lemma ok_scheme_flags x q f :
  catalog_ok x -> (forall fl, fg_deleted fl = false -> fg_deleted (f fl) = false) ->
  catalog_ok (update_scheme_flags q f x).
Proof. intros Hx Hf. apply ok_update_schemes; [done|done|]. intros s. apply Hf. Qed.

Lemma ok_flags t x q f :
  catalog_ok x -> (forall fl, fg_deleted (f fl) = fg_deleted fl) -> catalog_ok (update_flags t q f x).
Proof.
  intros Hx Hf. destruct t; [apply ok_ware_flags|apply ok_scheme_flags]; try done; intros fl; by rewrite Hf.
Qed.

(** ** Removal *)

Lemma ok_purge t x : catalog_ok x -> catalog_ok (purge t x).
Proof.
  intros Hx. destruct t; cbn.
  - apply ok_set_wares; [done|by apply delete_rows_unique, ok_wares|..];
      apply Forall_forall; intros w [Hin _]%elem_of_delete_rows.
    + by apply (proj1 (Forall_forall _ _) (ok_priced x Hx)).
    + by apply (proj1 (Forall_forall _ _) (ok_filed x Hx)).
  - destruct Hx. split; cbn; try done; unfold delete_schemes; cbn.
    + by apply delete_rows_unique.
    + clear -ok_positions0. induction (List.filter _ _) as [|s l IH] using rev_ind; [done|].
      rewrite foldl_app. cbn. by apply delete_rows_unique.
    + apply Forall_forall. intros r Hr. rewrite Forall_forall in ok_payees0.
      assert (r ∈ lb_payees x /\ forall s, s ∈ List.filter (fun s => purged (sm_flags s)) (lb_schemes x) ->
        py_scheme r <> sm_id s) as [Hin Hne].
      { revert Hr. clear. induction (List.filter _ _) as [|s l IH] using rev_ind.
        - intros Hr. split; [done|]. by intros s ?%elem_of_nil.
        - rewrite foldl_app. cbn. intros [[Hr Hl]%IH Hs]%elem_of_delete_rows. split; [done|].
          intros s' [?| ->%list_elem_of_singleton]%elem_of_app; [by apply Hl|]. by apply Z.eqb_neq. }
      destruct (ok_payees0 r Hin) as [?|(s & Es & Hs)%list_elem_of_fmap]; [by left|right].
      apply list_elem_of_fmap. exists s. split; [done|]. apply elem_of_delete_rows. split; [done|].
      destruct (purged (sm_flags s)) eqn:E; [|done]. exfalso. apply (Hne s); [|done].
      by apply elem_of_filter_bool.
    + eapply Forall_impl; [exact ok_priced0|]. intros w [?|[?|(s & Hin & Hs)]]; [by left|right; by left|].
      right. right. exists s. split; [|done]. cbn. apply elem_of_delete_rows. split; [done|].
      unfold live_scheme in Hs. apply andb_prop in Hs as [_ Hs%negb_true_iff].
      unfold purged. by rewrite Hs, andb_false_r.
Qed.

(** ** Files *)

Lemma ok_other x x' :
  lb_files x' = lb_files x -> lb_schemes x' = lb_schemes x -> lb_payees x' = lb_payees x ->
  lb_wares x' = lb_wares x -> catalog_ok x -> catalog_ok x'.
Proof.
  intros Ef Es Ep Ew []. split; rewrite ?Ef, ?Es, ?Ep, ?Ew; try done.
  - eapply Forall_impl; [exact ok_payees0|]. unfold owned. by rewrite Es.
  - eapply Forall_impl; [exact ok_priced0|]. unfold priced, scheme_live. by rewrite Es.
  - eapply Forall_impl; [exact ok_filed0|]. unfold filed. by rewrite Ef.
Qed.

Ltac ok_elsewhere := match goal with H : catalog_ok ?x |- _ => by apply (ok_other x) end.

Lemma ok_set_files x fs :
  catalog_ok x -> NoDup (map fl_mlId fs) -> NoDup (map fl_fileId fs) -> Forall (fun f => 1 <= fl_mlId f) fs ->
  (forall w, w ∈ lb_wares x -> fg_deleted (wr_flags w) = false -> wr_mlId w ∈ map fl_mlId (lb_files x) ->
     wr_mlId w ∈ map fl_mlId fs) ->
  catalog_ok (set_lb_files fs x).
Proof.
  intros [] ? ? ? Hf. split; try done. apply Forall_forall. intros w Hw.
  destruct (fg_deleted (wr_flags w)) eqn:E; [by left|right]. apply Hf; [done|done|].
  destruct (proj1 (Forall_forall _ _) ok_filed0 w Hw); [congruence|done].
Qed.

Lemma ok_foldl {A} (f : Library -> A -> Library) l x :
  (forall x a, catalog_ok x -> catalog_ok (f x a)) -> catalog_ok x -> catalog_ok (foldl f x l).
Proof. intros Hf. revert x. induction l as [|a l IH]; intros x Hx; cbn; auto. Qed.

(** The wares after a trigger for each of some files. *)
Lemma foldl_wares {A} (g : A -> list WareRow -> list WareRow) l x :
  set_lb_wares (foldl (fun ws a => g a ws) (lb_wares x) l) x =
  foldl (fun x a => set_lb_wares (g a (lb_wares x)) x) x l.
Proof.
  revert x. induction l as [|a l IH]; intros x; cbn; [by destruct x|]. by rewrite <- IH.
Qed.

Section Details.
Context {Details : Type} `{Json Details}.
Implicit Types fi : FileInfo Details.

Lemma ok_insert_file fi text x : catalog_ok x -> catalog_ok (insert_file fi text x).1.
Proof.
  intros Hx. unfold insert_file. destruct (existsb _ _) eqn:E; [done|]. cbn.
  apply ok_set_files; [done|..]; rewrite ?map_app; cbn; try (apply NoDup_snoc; [apply Hx|]).
  - apply next_rowid_fresh.
  - intros (r & Er & Hin)%list_elem_of_fmap. pose proof (existsb_none _ _ _ E Hin) as Hf.
    unfold same_file in Hf. by rewrite <- Er, String.eqb_refl in Hf.
  - apply Forall_app. split; [apply Hx|]. apply Forall_singleton. cbn. apply next_rowid_pos.
  - intros w _ _ Hw. set_solver.
Qed.

Lemma ok_replace_file fi text x : catalog_ok x -> catalog_ok (replace_file fi text x).1.
Proof.
  intros Hx. unfold replace_file. cbn. apply (ok_set_files (set_lb_wares _ x)).
  - rewrite (foldl_wares (fun r ws => file_updated (fl_mlId r) ws)). apply ok_foldl; [|done].
    intros y r Hy. by apply ok_ware_flags.
  - rewrite update_rows_keys by done. apply Hx.
  - rewrite update_rows_keys; [apply Hx|]. intros r Hr. cbn. symmetry. by apply String.eqb_eq.
  - apply Forall_forall. intros r (r0 & Hin & ->)%elem_of_update_rows.
    pose proof (proj1 (Forall_forall _ _) (ok_mlIds x Hx) r0 Hin). by destruct (same_file _ r0).
  - intros w _ _. by rewrite update_rows_keys.
Qed.
End Details.

(** The wares of files that are deleted are removed. *)
Lemma deleted_with_file fs ws w f :
  w ∈ foldl (fun ws f => file_deleted (fl_mlId f) ws) ws fs -> f ∈ fs -> wr_mlId w = fl_mlId f ->
  fg_deleted (wr_flags w) = true.
Proof.
  induction fs as [|g fs IH] using rev_ind; [by intros _ ?%elem_of_nil|].
  rewrite foldl_app. cbn. intros (w0 & Hin & ->)%elem_of_update_rows Hf Em.
  destruct (wr_mlId w0 =? fl_mlId g) eqn:E; [done|].
  apply elem_of_app in Hf as [Hf| ->%list_elem_of_singleton]; [by apply IH|].
  by rewrite Em, Z.eqb_refl in E.
Qed.

Lemma ok_delete_files p x : catalog_ok x -> catalog_ok (delete_files p x).
Proof.
  intros Hx. unfold delete_files. apply (ok_set_files (set_lb_wares _ x)).
  - rewrite (foldl_wares (fun r ws => file_deleted (fl_mlId r) ws)). apply ok_foldl; [|done].
    intros y r Hy. by apply ok_ware_flags.
  - apply delete_rows_unique, Hx.
  - apply delete_rows_unique, Hx.
  - apply Forall_forall. intros f [Hin _]%elem_of_delete_rows.
    by apply (proj1 (Forall_forall _ _) (ok_mlIds x Hx)).
  - cbn. intros w Hw Hd (f & Ef & Hf)%list_elem_of_fmap. apply list_elem_of_fmap. exists f.
    split; [done|]. apply elem_of_delete_rows. split; [done|]. destruct (p f) eqn:Ep; [|done]. exfalso.
    apply (deleted_with_file _ _ _ f) in Hw; [congruence| |done]. by apply elem_of_filter_bool.
Qed.

(** ** Operations on payee schemes *)

(** A scheme that wares and payees may refer to *)
Definition usable (psId : Z) (x : Library) : Prop := psId = 0 \/ scheme_live psId x.

Abbreviation ok_triple := (triple catalog_ok).

Lemma ok_append_scheme psId d x :
  catalog_ok x -> psId ∉ map sm_id (lb_schemes x) ->
  catalog_ok (set_lb_schemes (lb_schemes x ++
    [{| sm_id := psId; sm_description := d; sm_flags := new_flags |}]) x).
Proof.
  intros [] Hid. split; cbn; try done.
  - rewrite map_app. by apply NoDup_snoc.
  - eapply Forall_impl; [exact ok_payees0|]. intros r [?|?]; [by left|right]. cbn. rewrite map_app. set_solver.
  - eapply Forall_impl; [exact ok_priced0|]. intros w [?|[?|(s & ? & ?)]]; [by left|right; by left|].
    right. right. exists s. split; [|done]. cbn. set_solver.
Qed.

Section Schemes.
Context (constraint_error trigger_error : string).

Lemma insert_scheme_ok psId d x x' u :
  insert_scheme constraint_error psId d x = Ok (x', u) -> catalog_ok x ->
  catalog_ok x' /\ scheme_live psId x'.
Proof.
  unfold insert_scheme. destruct (existsb _ _) eqn:E; [done|]. intros [= <- _] Hx. split.
  - apply ok_append_scheme; [done|]. intros (s & -> & Hin)%list_elem_of_fmap.
    pose proof (existsb_none _ _ _ E Hin) as Hf. cbn in Hf. by rewrite Z.eqb_refl in Hf.
  - eexists. split; [apply elem_of_app; right; by left|]. unfold live_scheme. cbn. by rewrite Z.eqb_refl.
Qed.

Lemma allocate_ok fuel n d :
  ok_triple catalog_ok (allocate constraint_error fuel n d) (fun id x => catalog_ok x /\ usable id x).
Proof.
  revert n. induction fuel as [|fuel IH]; intros n; cbn [allocate]; [by apply triple_raise|].
  destruct (_ <? n).
  { apply triple_ret. intros x Hx. split; [done|by left]. }
  eapply triple_bind; [apply triple_tried, triple_select; done|]. intros r.
  set (psId := match r with Ok n => n | Raise _ => 0 end).
  apply (triple_pre _ _ catalog_ok); [intros x Hx; by destruct r as [k|]; [destruct Hx|]|].
  eapply triple_bind.
  { apply triple_tried, (triple_execute _ _ _ (fun _ x => catalog_ok x /\ scheme_live psId x)); [done|].
    intros x x' u Hx E. by eapply insert_scheme_ok. }
  intros [u|e].
  - destruct (psId =? 0).
    + eapply triple_pre; [|apply IH]. by intros x [? _].
    + apply triple_ret. intros x [? ?]. split; [done|by right].
  - destruct (String.eqb e constraint_error); [apply IH|by apply triple_raise].
Qed.

Lemma insert_payees_ok psId payees :
  ok_triple (fun x => catalog_ok x /\ usable psId x) (insert_payees constraint_error psId payees)
    (fun _ x => catalog_ok x /\ usable psId x).
Proof.
  apply triple_push, triple_seach. intros [pos p]. apply triple_execute; [by intros x [? _]|].
  intros x x' u [Hx Hu]. unfold insert_payee. destruct (existsb _ _) eqn:E; [done|]. intros [= <- _].
  split; [|done]. destruct Hx. split; cbn; try done.
  - rewrite map_app. apply NoDup_snoc; [done|]. intros (r & Er & Hin)%list_elem_of_fmap.
    pose proof (existsb_none _ _ _ E Hin) as Hf. cbn in Hf. injection Er as E1 E2.
    by rewrite <- E1, <- E2, !Z.eqb_refl in Hf.
  - apply Forall_app. split; [done|]. apply Forall_singleton. destruct Hu as [->|(s & Hs & Hl)]; [by left|].
    right. apply list_elem_of_fmap. exists s. split; [symmetry; by apply live_scheme_id|done].
Qed.

Lemma addPayeeScheme_ok d payees :
  ok_triple catalog_ok (addPayeeScheme constraint_error d payees) (fun id x => catalog_ok x /\ usable id x).
Proof.
  eapply triple_bind; [apply triple_push; eapply triple_bind; [by apply triple_select|]; intros p;
    eapply triple_pre; [|apply allocate_ok]; by intros x [? _]|]. intros psId.
  eapply triple_bind; [apply insert_payees_ok|]. intros u.
  by apply triple_ret.
Qed.

Lemma isPayeeSchemeIdValid_ok psId :
  ok_triple catalog_ok (isPayeeSchemeIdValid psId) (fun _ x => catalog_ok x /\ scheme_live psId x).
Proof.
  eapply triple_bind; [by apply triple_select|]. intros b. destruct b.
  - apply triple_ret. intros x [Hx E]. split; [done|]. symmetry in E. apply existsb_elem in E as (s & ? & ?). by exists s.
  - apply triple_raise. by intros x [? _].
Qed.

Lemma updatePayeeScheme_ok psId d payees :
  ok_triple catalog_ok (CatalogDb.updatePayeeScheme constraint_error psId d payees) (fun _ => catalog_ok).
Proof.
  eapply triple_bind; [apply isPayeeSchemeIdValid_ok|]. intros u.
  eapply triple_bind.
  { apply (triple_update _ _ _ (fun _ x => catalog_ok x /\ scheme_live psId x)); [by intros x [? _]|].
    intros x [Hx Hl]. cbn. split; [by apply ok_update_schemes|].
    apply live_scheme_update; [|done]. unfold live_scheme. cbn. done. }
  intros u1. eapply triple_bind.
  { apply (triple_update _ _ _ (fun _ x => catalog_ok x /\ usable psId x)); [by intros x [? _]|].
    intros x [Hx Hl]. cbn. split; [|by right]. destruct Hx. split; cbn; try done.
    - by apply delete_rows_unique.
    - apply Forall_forall. intros r [Hin _]%elem_of_delete_rows.
      by apply (proj1 (Forall_forall _ _) ok_payees0). }
  intros u2. eapply triple_conseq; [apply insert_payees_ok|done|]. by intros ? x [? _].
Qed.

(** A scheme is removed only if no ware that is offered has it. *)
Lemma removePayeeScheme_ok psId :
  ok_triple catalog_ok (CatalogDb.removePayeeScheme psId) (fun _ => catalog_ok).
Proof.
  eapply triple_bind.
  { eapply triple_bind; [by apply triple_select|]. intros b. destruct b.
    - apply (triple_raise _ _ _ (fun _ x => catalog_ok x /\
        forall w, w ∈ lb_wares x -> wr_scheme w = psId -> fg_deleted (wr_flags w) = true)).
      by intros x [? _].
    - apply triple_ret. intros x [Hx E]. split; [done|]. intros w Hw <-. symmetry in E.
      pose proof (existsb_none _ _ _ E Hw) as Hf. cbn in Hf. rewrite Z.eqb_refl in Hf.
      by apply negb_false_iff in Hf. }
  intros u. apply triple_update; [by intros x [? _]|]. intros x [Hx Hu]. cbn.
  apply ok_set_schemes; [done|by apply update_rows_keys|]. intros w Hw Hd Hs.
  apply live_scheme_update; [|done]. intros s E%Z.eqb_eq Hl%live_scheme_id. exfalso.
  rewrite (Hu w) in Hd; congruence.
Qed.

(** ** Operations on wares *)

Lemma removeWare_ok id : ok_triple catalog_ok (CatalogDb.removeWare id) (fun _ => catalog_ok).
Proof.
  eapply triple_bind; [apply (triple_update _ _ _ (fun _ => catalog_ok)); [done|]|].
  - intros x Hx. cbn. by apply ok_ware_flags.
  - intros n. eapply triple_bind; [apply preserves_triple, preserves_expect|]. intros u.
    eapply triple_conseq; [by apply triple_select|done|]. by intros a x [? _].
Qed.

Lemma file_mlId_in fileId x mlId : file_mlId fileId x = Some mlId -> mlId ∈ map fl_mlId (lb_files x).
Proof.
  unfold file_mlId. destruct (List.find _ _) as [f|] eqn:E; [|done]. intros [= <-].
  apply find_some in E as [Hin _]. apply list_elem_of_fmap. exists f. by rewrite list_elem_of_In.
Qed.

Lemma updateWare_ok w psId :
  ok_triple (fun x => catalog_ok x /\ usable psId x) (CatalogDb.updateWare trigger_error w psId)
    (fun _ => catalog_ok).
Proof.
  eapply triple_bind.
  { apply (triple_execute _ _ _ (fun _ x => catalog_ok x /\ usable psId x)); [by intros x [? _]|].
    intros x x' b [Hx Hu]. unfold insert_ware. destruct (file_mlId _ x) as [mlId|] eqn:Em; [|done].
    destruct (existsb _ _) eqn:E; intros [= <- _]; [done|]. split; [|done].
    apply ok_set_wares; [done|..].
    - rewrite map_app. apply NoDup_snoc; [apply Hx|]. intros (r & Er & Hin)%list_elem_of_fmap.
      pose proof (existsb_none _ _ _ E Hin) as Hf. cbn in Hf, Er. by rewrite <- Er, Z.eqb_refl in Hf.
    - apply Forall_app. split; [apply Hx|]. apply Forall_singleton. by right.
    - apply Forall_app. split; [apply Hx|]. apply Forall_singleton. right. by eapply file_mlId_in. }
  intros [].
  - apply triple_ret. by intros x [? _].
  - eapply triple_bind; [apply (triple_update _ _ _ (fun _ => catalog_ok)); [by intros x [? _]|]|].
    + intros x [Hx Hu]. cbn. unfold replace_ware. destruct (file_mlId _ x) eqn:Em; [|done].
      apply ok_update_wares; [done|done| |]; [intros r _ _; by right|].
      intros r ->%Z.eqb_eq _. right. by eapply file_mlId_in.
    + intros u. by apply triple_ret.
Qed.
End Schemes.

(** ** The two ends of an update *)

Lemma mark_wares_ok q n x : catalog_ok x -> catalog_ok (mark_wares q n x).1.
Proof. intros Hx. by apply ok_ware_flags. Qed.

Lemma markNextListingUpdate_ok : preserves catalog_ok markNextListingUpdate.
Proof.
  unfold markNextListingUpdate. preserve; try done.
  - destruct a; preserve; done.
  - destruct a0; preserve; [by apply ok_scheme_flags|by apply mark_wares_ok|].
    destruct (0 <? _); preserve; [by apply mark_wares_ok|by apply ok_ware_flags].
Qed.

Section Ends.
Context {Details Exn : Type} `{Json Details} `{Json Exn}.

Lemma getProblemId_ok text : preserves catalog_ok (getProblemId text).
Proof.
  unfold getProblemId. preserve; [done|]. destruct a; preserve. ok_elsewhere.
Qed.

Lemma write_down_ok {A} (f : A -> sql Library unit) l :
  (forall a, preserves catalog_ok (f a)) -> preserves catalog_ok (write_down f l).
Proof.
  intros Hf. induction l as [|a l IH]; cbn [write_down]; preserve; [apply Hf|].
  destruct (succeeded _); preserve; [done|]. destruct a1 as [ok seen]. preserve.
Qed.

Lemma take_result_ok (r : ListingResult (Exn:=Exn)) : preserves catalog_ok (take_result r).
Proof.
  unfold take_result, failed_listing, failed_scheme, updateWareProblemId, updatePayeeSchemeProblemId,
    purgeDeletedEntries, clearUpdatingFlags, removeUnreferencedProblems, CatalogDb.setConfigValue.
  preserve.
  { apply write_down_ok. intros f. preserve; [apply getProblemId_ok|]. cbn.
    destruct (List.find _ _); [|done]. by apply ok_ware_flags. }
  destruct a as [ok wares]. preserve.
  { destruct ok; preserve. apply write_down_ok. intros f. preserve; [apply getProblemId_ok|].
    by apply ok_scheme_flags. }
  destruct a as [ok2 schemes]. preserve; try (by apply ok_purge); try (by apply ok_flags); ok_elsewhere.
Qed.
End Ends.

(** ** Requests *)

Section Requests.
Context {Details Exn : Type} `{Json Details} `{Json Exn}.
Context (unread : Details) (extension : string -> string).
Context (constraint_error trigger_error : string).
Context (split : string -> string -> list string).
Abbreviation event := (Event (Exn:=Exn)).

Lemma keeps_transacting {A} (I : Library -> Prop) (body : sql Library (outcome A * list event)) :
  preserves I body -> keeps I (transacting body).
Proof.
  intros Hb c Hc%at_rest_holds. unfold transacting.
  assert (preserves I (sbind open_connection (fun _ => begin_))) as Ho
    by (apply preserves_bind; [apply preserves_open|intros ?; apply preserves_begin]).
  specialize (Ho c Hc). destruct (sbind _ _ c) as [[u|e] c1]; [|by apply at_rest_reconnect].
  specialize (Hb c1 Ho). destruct (body c1) as [[[r evs]|e] c2].
  - pose proof (preserves_finish I r c2 Hb) as Hf. destruct (finish r c2) as [r' c3].
    by apply at_rest_reconnect.
  - apply at_rest_reconnect. apply (preserves_finish I (Raise e : outcome A) c2 Hb).
Qed.

(** What the user, the fiber and the events of other parts ask of catalog and library *)
Inductive Request :=
| PutFile (f : FileProbe) (fi : FileInfo Details)
| DropFile (id : string)
| PutMedia (me : Media)
| DropMedia (id : Z)
| PutWare (w : Ware)
| DropWare (id : string)
| PutScheme (psId : Z) (description : string) (payees : list SchemePayee)
| DropScheme (psId : Z)
| PutSeller (serverId url token : string)
| PutConfig (name value : string)
| Start (cfg : CatalogConfig) (token : Z)
| LogIn (cfg : option CatalogConfig) (account : option (option Z))
| NextUpdate (userId : Z)
| PendingUpdate (userId : Z)
| TakeResult (u : ListingUpdate (Details:=Details) (Exn:=Exn)) (r : ListingResult (Exn:=Exn))
| ResetCounter.

Definition ignoring {A} (m : io Library A) : io Library unit := do! _ := m in iret tt.

Definition run_request (r : Request) : io Library unit :=
  match r with
  | PutFile f fi => ignoring (MediaLibrary.updateFile f fi)
  | DropFile id => ignoring (MediaLibrary.removeFile (fun _ => true) id false)
  | PutMedia me => ignoring (attempt (LibraryDb.updateMedia trigger_error me))
  | DropMedia id => ignoring (attempt (removeMedia id))
  | PutWare w => ignoring (updateWare (Exn:=Exn) constraint_error trigger_error w)
  | DropWare id => ignoring (removeWare (Exn:=Exn) id)
  | PutScheme psId d payees => ignoring (updatePayeeScheme (Exn:=Exn) constraint_error psId d payees)
  | DropScheme psId => ignoring (removePayeeScheme (Exn:=Exn) psId)
  | PutSeller id url token => ignoring (attempt (updateSeller id url token))
  | PutConfig n v => ignoring (attempt (setConfigValue n v))
  | Start cfg token => ignoring (attempt (mediaLibraryInitialized cfg token))
  | LogIn cfg account => ignoring (userLoggedIn constraint_error cfg account)
  | NextUpdate id => ignoring (attempt (populateNextListingUpdate (Exn:=Exn) unread extension split id))
  | PendingUpdate id => ignoring (attempt (populatePendingListingUpdate (Exn:=Exn) unread extension split id))
  | TakeResult u r => ignoring (processListingUpdateResponse u r)
  | ResetCounter => ignoring (attempt resetListingUpdateCounter)
  end.

(** Requests one after the other, with any failures *)
Definition run_requests (rs : list Request) (c : Conn Library) : Conn Library :=
  foldl (fun c r => (run_request r c).2) c rs.

Definition no_library : Library :=
  {| lb_files := []; lb_media := []; lb_contributors := []; lb_config := ∅; lb_problems := [];
     lb_schemes := []; lb_payees := []; lb_wares := [] |}.

Lemma no_library_ok : catalog_ok no_library.
Proof. split; cbn; constructor. Qed.

Lemma keeps_ignoring {A} (m : io Library A) : keeps catalog_ok m -> keeps catalog_ok (ignoring m).
Proof. intros Hm. apply keeps_bind; [done|]. intros a. apply keeps_ret. Qed.

Lemma committing_ok {A} (m : sql Library A) (Q : A -> Library -> Prop) :
  ok_triple catalog_ok m Q -> (forall a x, Q a x -> catalog_ok x) -> preserves catalog_ok (committing m).
Proof.
  intros Hm HQ. apply preserves_bind; [apply preserves_open|]. intros u.
  apply preserves_transaction, triple_preserves. by eapply triple_conseq.
Qed.

Lemma updateFile_ok (fi : FileInfo Details) : preserves catalog_ok (LibraryDb.updateFile fi).
Proof.
  unfold LibraryDb.updateFile, database_client. preserve. destruct (_ =? _)%nat; preserve.
  - by apply ok_insert_file.
  - destruct a0; preserve; [by apply ok_replace_file|done].
Qed.

Lemma put_file_ok f (fi : FileInfo Details) : keeps catalog_ok (MediaLibrary.updateFile f fi).
Proof.
  unfold MediaLibrary.updateFile. destruct (checkFile f); [|apply keeps_ret].
  destruct (_ =? _)%nat; [apply keeps_ret|]. apply keeps_bind; [|intros ?; apply keeps_ret].
  apply keeps_attempt, preserves_bind; [apply preserves_open|]. intros u.
  apply preserves_transaction, updateFile_ok.
Qed.

Lemma removeFile_ok id : preserves catalog_ok (LibraryDb.removeFile id).
Proof.
  unfold LibraryDb.removeFile. preserve; [done| |by apply ok_delete_files].
  destruct a0 as [[r|]|e]; preserve.
Qed.

Lemma updateMedia_ok me : preserves catalog_ok (LibraryDb.updateMedia trigger_error me).
Proof.
  unfold LibraryDb.updateMedia. preserve; try ok_elsewhere. apply preserves_execute.
  intros x x' u. unfold insert_contributor. destruct (existsb _ _); [|done]. intros [= <- _] Hx.
  ok_elsewhere.
Qed.

Lemma removeMedia_ok id : preserves catalog_ok (removeMedia id).
Proof.
  unfold removeMedia, database_client. preserve; [ok_elsewhere|]. destruct a0; preserve.
Qed.

Lemma updating_schemes_ok rows acc : preserves catalog_ok (updating_schemes (Exn:=Exn) rows acc).
Proof.
  revert acc. induction rows as [|r rows IH]; intros acc; cbn [updating_schemes]; preserve.
  - unfold CatalogDb.populatePayeeScheme. preserve; [done|]. destruct a as [[[s p] l]|]; preserve.
  - destruct a; preserve. apply IH.
Qed.

Lemma updating_wares_ok rows acc : preserves catalog_ok (updating_wares unread extension split rows acc).
Proof.
  revert acc. induction rows as [|w rows IH]; intros acc; cbn [updating_wares]; preserve.
  destruct (fg_deleted _); [apply IH|]. preserve.
  - unfold LibraryDb.populateFile, database_client. preserve; [done|]. destruct a0; preserve.
  - destruct a; preserve. apply IH.
Qed.

Lemma updating_listings_ok :
  preserves catalog_ok (populateUpdatingSellerListings (Exn:=Exn) unread extension split).
Proof.
  unfold populateUpdatingSellerListings, populateUpdatingPayeeSchemes, populateUpdatingWares.
  preserve; try done; [apply updating_schemes_ok|apply updating_wares_ok].
Qed.

Lemma seller_and_id_ok id : preserves catalog_ok (seller_and_id id).
Proof.
  unfold seller_and_id, CatalogDb.populateSeller, getConfigNumber, CatalogDb.getConfigValue.
  repeat (preserve; try done; try match goal with
    | |- preserves _ (match ?o with _ => _ end) => destruct o
    | |- preserves _ (let '(_, _) := ?p in _) => destruct p
    end).
Qed.

Lemma put_ware_ok w :
  keeps catalog_ok (updateWare (Exn:=Exn) constraint_error trigger_error w).
Proof.
  apply keeps_bind; [|intros [r evs]; apply keeps_ret]. apply keeps_transacting, triple_preserves.
  apply (triple_bind _ _ _ (fun '(s, _) x => match s with
    | Ok psId => catalog_ok x /\ usable psId x | Raise _ => catalog_ok x end)).
  - unfold ware_scheme. destruct (wa_scheme w) as [psId|]; (eapply triple_bind; [apply triple_tried|]).
    + apply isPayeeSchemeIdValid_ok.
    + intros r. apply triple_ret. intros x. destruct r; [|done]. intros [? ?]. split; [done|by right].
    + apply addPayeeScheme_ok.
    + intros r. by apply triple_ret.
  - intros [[psId|e] evs]; [|by apply triple_ret].
    eapply triple_bind; [apply triple_tried, updateWare_ok|]. intros r. apply triple_ret. by destruct r.
Qed.

Lemma put_scheme_ok psId d payees :
  keeps catalog_ok (updatePayeeScheme (Exn:=Exn) constraint_error psId d payees).
Proof.
  apply keeps_bind; [|intros [r evs]; apply keeps_ret]. apply keeps_transacting, triple_preserves.
  destruct (psId =? 0); (eapply triple_bind; [apply triple_tried|]).
  - apply addPayeeScheme_ok.
  - intros r. apply triple_ret. intros x. destruct r; [|done]. by intros [? _].
  - apply updatePayeeScheme_ok.
  - intros r. apply triple_ret. by destruct r.
Qed.

Lemma login_ok cfg account : keeps catalog_ok (userLoggedIn constraint_error cfg account).
Proof.
  apply keeps_bind.
  { apply keeps_attempt. unfold getFirstPayeeSchemeId. by preserve. }
  intros [first|e]; [|destruct account as [[]|]; apply keeps_ret].
  destruct account as [[account|]|]; [|apply keeps_ret..].
  cbv zeta. case_match; [|apply keeps_ret].
  apply keeps_bind; [|intros r; apply keeps_ret]. apply keeps_attempt.
  apply (committing_ok _ (fun _ => catalog_ok)); [|done].
  eapply triple_bind; [by apply triple_select|]. intros psId. destruct (psId =? 0).
  - eapply triple_conseq; [apply addPayeeScheme_ok|by intros x [? _]|by intros a x [? _]].
  - apply triple_ret. by intros x [? _].
Qed.

Lemma start_ok cfg token : preserves catalog_ok (mediaLibraryInitialized cfg token).
Proof.
  unfold mediaLibraryInitialized, initialize, create_missing, CatalogDb.setConfigValue.
  preserve; try done; [|ok_elsewhere]. destruct a0 as [n v]. preserve. unfold default_value.
  destruct (_ !! n); [done|ok_elsewhere].
Qed.

Lemma reset_ok : preserves catalog_ok resetListingUpdateCounter.
Proof.
  apply preserves_push, (committing_ok _ (fun _ => catalog_ok)); [|done]. apply preserves_triple.
  unfold CatalogDb.setConfigValue, setTableFlags. preserve; try ok_elsewhere; by apply ok_flags.
Qed.

Lemma request_ok r : keeps catalog_ok (run_request r).
Proof.
  destruct r; apply keeps_ignoring; try apply keeps_attempt.
  - apply put_file_ok.
  - apply keeps_bind; [apply keeps_attempt, removeFile_ok|intros ?; apply keeps_ret].
  - apply updateMedia_ok.
  - apply removeMedia_ok.
  - apply put_ware_ok.
  - apply keeps_bind; [|intros ?; apply keeps_ret].
    apply keeps_attempt, (committing_ok _ _ (removeWare_ok _)). done.
  - apply put_scheme_ok.
  - apply keeps_bind; [|intros ?; apply keeps_ret].
    apply keeps_attempt, (committing_ok _ _ (removePayeeScheme_ok _)). done.
  - apply (committing_ok _ (fun _ => catalog_ok)); [|done]. apply preserves_triple.
    unfold CatalogDb.setConfigValue. preserve; ok_elsewhere.
  - unfold setConfigValue, CatalogDb.setConfigValue. preserve. ok_elsewhere.
  - apply start_ok.
  - apply login_ok.
  - apply preserves_push, (committing_ok _ (fun _ => catalog_ok)); [|done]. apply preserves_triple.
    preserve; [apply seller_and_id_ok|]. destruct a as [[seller token] id].
    preserve; [apply markNextListingUpdate_ok|apply updating_listings_ok].
  - apply preserves_push, (committing_ok _ (fun _ => catalog_ok)); [|done]. apply preserves_triple.
    preserve; [apply seller_and_id_ok|]. destruct a as [[seller token] id].
    preserve; [apply updating_listings_ok|]. destruct a as [[ups rms] [ss srs]]. preserve.
  - apply keeps_bind; [|intros ?; apply keeps_ret]. apply keeps_attempt, preserves_push.
    apply (committing_ok _ (fun _ => catalog_ok)); [|done]. apply preserves_triple, take_result_ok.
  - apply reset_ok.
Qed.

Lemma run_requests_ok rs c : at_rest catalog_ok c -> at_rest catalog_ok (run_requests rs c).
Proof.
  revert c. induction rs as [|r rs IH]; intros c Hc; [done|]. cbn. by apply IH, request_ok.
Qed.

(** C23: In every history of requests on a new library, with any failures, library ids, file ids,
    payee scheme ids and positions of payees are unique, and every ware that is offered has its file in
    the library.  Every payee belongs to a payee scheme, and an offered ware has a payee scheme that
    is not removed, unless the scheme id is 0, the invalid one that a failed allocation leaves. *)
Theorem catalog_consistent rs faults :
  catalog_ok (durable (run_requests rs {| cn_data := no_library; cn_saved := None; cn_faults := faults |})).
Proof.
  destruct (run_requests_ok rs {| cn_data := no_library; cn_saved := None; cn_faults := faults |}) as [Hs Hd].
  - split; [done|]. apply no_library_ok.
  - unfold durable. by rewrite Hs.
Qed.
End Requests.

(** * The next update *)

(** What [markNextListingUpdate] makes of tables in which nothing is marked. *)
Definition next_marks (x : Library) : Library :=
  let x := mark_schemes x in
  let '(x, n) := mark_wares (fun w => fg_deleted (wr_flags w)) (Z.of_nat MAX_WARE_UPDATES) x in
  let rows := u64 (Z.of_nat MAX_WARE_UPDATES - Z.of_nat n) in
  if 0 <? rows then unmark_wares (mark_wares (fun w => fg_dirty (wr_flags w)) (i64 rows) x).1 else x.

Definition pending (x : Library) : bool :=
  existsb (fun w => fg_updating (wr_flags w)) (lb_wares x) ||
  existsb (fun r => fg_updating (sm_flags r)) (lb_schemes x).

Lemma mark_result c u c' :
  markNextListingUpdate c = (Ok u, c') ->
  cn_data c' = if pending (cn_data c) then cn_data c else next_marks (cn_data c).
Proof.
  unfold markNextListingUpdate, pending. intros (b & c1 & [[= Hd1 <-] _]%update_ok & E)%bind_ok.
  rewrite Hd1 in *. destruct (existsb (fun w => fg_updating (wr_flags w)) _) in E |- *.
  { apply bind_ok in E as (b & c2 & [= <- <-] & [= <- <-]). done. }
  apply bind_ok in E as (b & c2 & [[= Hd2 <-] _]%update_ok & E). rewrite Hd2 in *.
  destruct (existsb (fun r => fg_updating (sm_flags r)) _) in E |- *; [by injection E as <- <-|].
  apply bind_ok in E as (u1 & c3 & [[= Hd3] _]%update_ok & E).
  apply bind_ok in E as (n & c4 & [E4 _]%update_ok & E). unfold next_marks. cbn [orb].
  rewrite <- Hd3 in E4. rewrite E4. destruct (0 <? _); [|by injection E as <- <-].
  apply bind_ok in E as (n2 & c5 & [E5 _]%update_ok & [[= <-] _]%update_ok). by rewrite E5.
Qed.

(** ** How much is marked *)

Definition marked_count (l : list WareRow) : nat := length (List.filter (fun w => fg_updating (wr_flags w)) l).

Lemma marked_count_mark p l :
  (marked_count (update_rows p (fun w => set_wr_flags (mark (wr_flags w)) w) l) <=
   marked_count l + rows_changed p l)%nat.
Proof.
  unfold marked_count, rows_changed, update_rows. induction l as [|w l IH]; [done|]. cbn.
  destruct (p w); cbn; destruct (fg_updating (wr_flags w)); cbn; lia.
Qed.

Lemma marked_count_unmark p l :
  (marked_count (update_rows p (fun w => set_wr_flags (with_marks true false (wr_flags w)) w) l) <=
   marked_count l)%nat.
Proof.
  unfold marked_count, update_rows. induction l as [|w l IH]; [done|]. cbn.
  destruct (p w); cbn; destruct (fg_updating (wr_flags w)); cbn; lia.
Qed.

(** Rows that are picked by keys are no more than the keys. *)
Lemma picked_count {R K} (key : R -> K) (p : R -> bool) (ids : list K) l :
  NoDup (map key l) -> (forall r, r ∈ l -> p r = true -> key r ∈ ids) ->
  (rows_changed p l <= length ids)%nat.
Proof.
  intros Hn Hp. unfold rows_changed. rewrite <- (length_map key). apply NoDup_incl_length.
  - apply NoDup_ListNoDup. rewrite (filter_ext p (fun r => negb (negb (p r))))
      by (intros r; by rewrite negb_involutive). by apply (delete_rows_unique key (fun r => negb (p r))).
  - intros k (r & <- & [Hin Hr]%filter_In)%in_map_iff. apply list_elem_of_In, Hp; [|done].
    by apply list_elem_of_In.
Qed.

Lemma limit_length {A} n (l : list A) : 0 <= n -> (length (limit n l) <= Z.to_nat n)%nat.
Proof. intros Hn. unfold limit. rewrite (proj2 (Z.ltb_ge _ _) Hn). rewrite length_take. lia. Qed.

Lemma limit_sub {A} n (l : list A) a : a ∈ limit n l -> a ∈ l.
Proof.
  unfold limit. destruct (n <? 0); [done|]. intros Ha. eapply elem_of_subseteq; [|exact Ha].
  apply sublist_subseteq, sublist_take.
Qed.

Lemma mark_wares_count q n x :
  0 <= n -> NoDup (map wr_id (lb_wares x)) ->
  Z.of_nat (mark_wares q n x).2 <= n /\
  (marked_count (lb_wares (mark_wares q n x).1) <= marked_count (lb_wares x) + (mark_wares q n x).2)%nat.
Proof.
  intros Hn Hu. cbn. split; [|apply marked_count_mark].
  assert (rows_changed (fun w => existsb (String.eqb (wr_id w)) (limit n (map wr_id (List.filter q (lb_wares x)))))
    (lb_wares x) <= length (limit n (map wr_id (List.filter q (lb_wares x)))))%nat.
  { apply (picked_count wr_id); [done|]. intros r _. by rewrite existsb_string_elem. }
  pose proof (limit_length n (map wr_id (List.filter q (lb_wares x))) Hn). lia.
Qed.

Lemma pending_none x : pending x = false -> marked_count (lb_wares x) = 0%nat.
Proof.
  unfold pending, marked_count. intros [Hw _]%orb_false_iff. apply length_zero_iff_nil.
  destruct (List.filter _ _) as [|w l] eqn:E; [done|].
  assert (w ∈ lb_wares x /\ fg_updating (wr_flags w) = true) as [Hin Hu].
  { assert (w ∈ w :: l) as Hin by left. rewrite <- E in Hin. by apply elem_of_filter_bool in Hin as [? ?]. }
  by rewrite (existsb_none _ _ _ Hw Hin) in Hu.
Qed.

Lemma mark_wares_ids q n x : map wr_id (lb_wares (mark_wares q n x).1) = map wr_id (lb_wares x).
Proof. by apply update_rows_keys. Qed.

(** At most as many wares are marked as an update may have. *)
Lemma next_marks_count x :
  pending x = false -> NoDup (map wr_id (lb_wares x)) ->
  (marked_count (lb_wares (next_marks x)) <= MAX_WARE_UPDATES)%nat.
Proof.
  intros Hp Hn. unfold next_marks.
  set (x1 := mark_schemes x). assert (lb_wares x1 = lb_wares x) as Ew by done.
  pose proof (mark_wares_count (fun w => fg_deleted (wr_flags w)) (Z.of_nat MAX_WARE_UPDATES) x1
    ltac:(lia) ltac:(by rewrite Ew)) as [Hle Hc].
  pose proof (mark_wares_ids (fun w => fg_deleted (wr_flags w)) (Z.of_nat MAX_WARE_UPDATES) x1) as Hid.
  destruct (mark_wares _ _ x1) as [x2 n]. cbn [fst snd] in Hle, Hc, Hid.
  rewrite Ew, (pending_none x Hp) in Hc. unfold MAX_WARE_UPDATES in *.
  rewrite u64_small by lia. destruct (0 <? _) eqn:Er; [|lia]. rewrite i64_small by lia.
  pose proof (mark_wares_count (fun w => fg_dirty (wr_flags w)) (Z.of_nat 100 - Z.of_nat n) x2
    ltac:(lia) ltac:(by rewrite Hid, Ew)) as [Hle2 Hc2].
  unfold unmark_wares, update_ware_flags. cbn [lb_wares set_lb_wares].
  etrans; [apply marked_count_unmark|]. lia.
Qed.

(** ** What waits for what *)

Lemma elem_of_ware_flags q f x w :
  w ∈ lb_wares (update_ware_flags q f x) ->
  exists w0, w0 ∈ lb_wares x /\ w = if q w0 then set_wr_flags (f (wr_flags w0)) w0 else w0.
Proof. cbn. intros (w0 & Hin & ->)%elem_of_update_rows. by exists w0. Qed.

Lemma key_inj {R K} (key : R -> K) l a b :
  NoDup (map key l) -> a ∈ l -> b ∈ l -> key a = key b -> a = b.
Proof.
  induction l as [|r l IH]; [by intros _ ?%elem_of_nil|]. cbn. intros [Hr Hl]%NoDup_cons.
  intros [->|Ha]%elem_of_cons [->|Hb]%elem_of_cons E; [done| | |by apply IH].
  - destruct Hr. rewrite E. by apply list_elem_of_fmap_2.
  - destruct Hr. rewrite <- E. by apply list_elem_of_fmap_2.
Qed.

(** A ware that is sent is removed, or its payee scheme is neither changed nor sent. *)
Lemma next_marks_waits x w :
  pending x = false -> NoDup (map wr_id (lb_wares x)) ->
  w ∈ lb_wares (next_marks x) -> fg_updating (wr_flags w) = true ->
  fg_deleted (wr_flags w) = true \/ busy_scheme (next_marks x) (wr_scheme w) = false.
Proof.
  intros Hp Hn. unfold next_marks. set (x1 := mark_schemes x).
  destruct (mark_wares (fun w => fg_deleted (wr_flags w)) _ x1) as [x2 n] eqn:E2.
  destruct (0 <? _) eqn:Er.
  - intros (w0 & Hin & ->)%elem_of_ware_flags. set (x3 := (mark_wares _ _ x2).1) in *.
    destruct (_ && _) eqn:Eq; [done|]. intros Hu. rewrite Hu, andb_true_r in Eq.
    change (busy_scheme (unmark_wares x3)) with (busy_scheme x3).
    destruct (fg_deleted (wr_flags w0)); [by left|right]. done.
  - injection E2 as <- _. intros (w0 & Hin & ->)%elem_of_ware_flags.
    change (lb_wares x1) with (lb_wares x) in *. destruct (existsb _ _) eqn:Eq.
    + intros _. left. apply existsb_string_elem, limit_sub, list_elem_of_fmap in Eq as (w1 & Ei & Hf).
      apply elem_of_filter_bool in Hf as [Hd Hin1].
      by rewrite (key_inj wr_id _ w0 w1 Hn Hin Hin1 Ei).
    + intros Hu. exfalso. unfold pending in Hp. apply orb_false_iff in Hp as [Hw _].
      by rewrite (existsb_none _ _ _ Hw Hin) in Hu.
Qed.

Lemma next_marks_schemes x : lb_schemes (next_marks x) = lb_schemes (mark_schemes x).
Proof.
  unfold next_marks. destruct (mark_wares _ _ _) as [x2 n] eqn:E. injection E as <- _.
  by destruct (0 <? _).
Qed.

(** A payee scheme that is sent has no removed wares. *)
Lemma marked_scheme x s :
  pending x = false -> NoDup (map sm_id (lb_schemes x)) ->
  s ∈ lb_schemes (next_marks x) -> fg_updating (sm_flags s) = true ->
  exists s0, s0 ∈ lb_schemes x /\ markable x s0 = true /\ sm_id s0 = sm_id s /\
    fg_deleted (sm_flags s0) = fg_deleted (sm_flags s).
Proof.
  intros Hp Hn. rewrite next_marks_schemes. unfold mark_schemes, update_scheme_flags. cbn.
  intros (s0 & Hin & ->)%elem_of_update_rows. destruct (existsb _ _) eqn:E.
  - intros _. exists s0. split; [done|]. split; [|done].
    apply existsb_Z_elem in E. eapply elem_of_subseteq in E; [|apply sublist_subseteq, sublist_take].
    apply list_elem_of_fmap in E as (s1 & Ei & [Hm Hin1]%elem_of_filter_bool).
    by rewrite (key_inj sm_id _ s0 s1 Hn Hin Hin1 Ei).
  - intros Hu. exfalso. unfold pending in Hp. apply orb_false_iff in Hp as [_ Hs].
    by rewrite (existsb_none _ _ _ Hs Hin) in Hu.
Qed.

Lemma marked_schemes_count x :
  pending x = false -> NoDup (map sm_id (lb_schemes x)) ->
  (length (List.filter (fun s => fg_updating (sm_flags s)) (lb_schemes (next_marks x))) <= MAX_PAYEE_UPDATES)%nat.
Proof.
  intros Hp Hn. rewrite next_marks_schemes. unfold mark_schemes. set (ids := take _ _).
  transitivity (length ids); [|unfold ids; rewrite length_take; lia].
  apply (picked_count sm_id).
  - cbn. by rewrite update_rows_keys.
  - cbn. intros s (s0 & Hin & ->)%elem_of_update_rows. destruct (existsb _ _) eqn:E.
    + intros _. by apply existsb_Z_elem in E.
    + intros Hu. exfalso. unfold pending in Hp. apply orb_false_iff in Hp as [_ Hs].
      by rewrite (existsb_none _ _ _ Hs Hin) in Hu.
Qed.

(** ** What is sent *)

Section Sent.
Context {Details Exn : Type} `{Json Details} `{Json Exn}.
Context (unread : Details) (extension : string -> string).
Context (split : string -> string -> list string).

Lemma tried_ok {X A} (m : sql X A) c r c' : tried m c = (Ok r, c') -> m c = (r, c').
Proof. unfold tried. destruct (m c) as [r1 c1]. by intros [= -> ->]. Qed.

(** Reading changes nothing. *)
Definition reads {A} (m : sql Library A) : Prop := forall c, cn_data (m c).2 = cn_data c.

Lemma reads_faulty {A} (f : sql Library A) : reads f -> reads (faulty f).
Proof.
  intros Hf c. unfold faulty. pose proof (step_fault_same c) as [Hd _].
  destruct (step_fault c) as [[e|] c']; cbn in *; [done|]. by rewrite Hf.
Qed.

Lemma reads_ret {A} (a : A) : reads (sret a).
Proof. done. Qed.

Lemma reads_raise {A} e : reads (sraise (A:=A) e).
Proof. done. Qed.

Lemma reads_bind {A B} (m : sql Library A) (k : A -> sql Library B) :
  reads m -> (forall a, reads (k a)) -> reads (sbind m k).
Proof.
  intros Hm Hk c. unfold sbind. specialize (Hm c). destruct (m c) as [[a|e] c']; cbn in *; [|done].
  by rewrite Hk.
Qed.

Lemma reads_push {A} e (m : sql Library A) : reads m -> reads (push e m).
Proof. intros Hm c. specialize (Hm c). unfold push. by destruct (m c) as [[a|x] c']. Qed.

Lemma reads_tried {A} (m : sql Library A) : reads m -> reads (tried m).
Proof. intros Hm c. specialize (Hm c). unfold tried. by destruct (m c). Qed.

Lemma reads_select {A} (f : Library -> A) : reads (select f).
Proof. by apply reads_faulty. Qed.

Lemma reads_file id mlId : reads (LibraryDb.populateFile unread extension id mlId).
Proof.
  apply reads_push, reads_bind; [by apply reads_faulty|]. intros u.
  apply reads_bind; [apply reads_select|]. by intros [r|].
Qed.

Lemma reads_scheme psId : reads (CatalogDb.populatePayeeScheme (Exn:=Exn) psId true).
Proof. apply reads_bind; [apply reads_select|]. by intros [[[r p] l]|]. Qed.

Lemma updating_wares_sent rows acc c ups rms c' :
  updating_wares unread extension split rows acc c = (Ok (ups, rms), c') ->
  cn_data c' = cn_data c /\
  map le_payeeSchemeId ups = map le_payeeSchemeId acc.1 ++
    map wr_scheme (List.filter (fun w => negb (fg_deleted (wr_flags w))) rows) /\
  rms = acc.2 ++ map (fun w => removal_of split (wr_id w)) (List.filter (fun w => fg_deleted (wr_flags w)) rows).
Proof.
  revert acc c. induction rows as [|w rows IH]; intros acc c; cbn [updating_wares].
  { intros [= -> <-]. cbn. by rewrite !app_nil_r. }
  cbn [List.filter]. destruct (fg_deleted (wr_flags w)); cbn [negb].
  - intros (Hd & Hu & Hr)%IH. split; [done|]. split; [done|]. rewrite Hr. cbn. by rewrite <- app_assoc.
  - intros (fi & c1 & E1 & E)%bind_ok. pose proof (reads_tried _ (reads_file "" (wr_mlId w)) c) as Hd1.
    rewrite E1 in Hd1. destruct fi as [fi|]; [|done]. apply IH in E as (Hd & Hu & Hr).
    split; [by rewrite Hd|]. split; [|done]. rewrite Hu. cbn. rewrite map_app. by rewrite <- app_assoc.
Qed.

Lemma updating_schemes_sent rows acc c ss srs c' :
  updating_schemes (Exn:=Exn) rows acc c = (Ok (ss, srs), c') ->
  cn_data c' = cn_data c /\
  map su_id ss = map su_id acc.1 ++ map sm_id (List.filter (fun r => negb (fg_deleted (sm_flags r))) rows) /\
  map su_id srs = map su_id acc.2 ++ map sm_id (List.filter (fun r => fg_deleted (sm_flags r)) rows).
Proof.
  revert acc c. induction rows as [|r rows IH]; intros acc c; cbn [updating_schemes].
  { intros [= -> <-]. cbn. by rewrite !app_nil_r. }
  intros (s & c1 & E1 & E)%bind_ok. pose proof (reads_tried _ (reads_scheme (sm_id r)) c) as Hd1.
  rewrite E1 in Hd1. destruct s as [s|]; [|done]. apply IH in E as (Hd & Hs & Hr).
  split; [by rewrite Hd|]. rewrite Hs, Hr. unfold add_scheme. cbn [List.filter].
  destruct (fg_deleted (sm_flags r)); cbn; rewrite map_app; cbn; by rewrite <- app_assoc.
Qed.

Lemma reads_config name : reads (CatalogDb.getConfigValue name).
Proof. apply reads_bind; [apply reads_select|]. by intros [v|]. Qed.

Lemma reads_seller_and_id userId : reads (seller_and_id userId).
Proof.
  apply reads_bind.
  - apply reads_bind; [apply reads_bind; [apply reads_config|done]|]. intros id.
    apply reads_bind; [apply reads_config|]. intros url. apply reads_bind; [apply reads_config|done].
  - intros [seller token]. apply reads_bind; [apply reads_bind; [apply reads_config|done]|done].
Qed.

(** The wares and the payee schemes that an update of the tables [x] has *)
Definition sent_wares (x : Library) : list WareRow := List.filter (fun w => sending (wr_flags w)) (lb_wares x).

Definition sent_schemes (x : Library) : list SchemeRow :=
  List.filter (fun r => sending (sm_flags r)) (lb_schemes x).

Lemma next_update_sent userId c (u : ListingUpdate) c' :
  populateNextListingUpdate (Exn:=Exn) unread extension split userId c = (Ok u, c') ->
  pending (cn_data c) = false ->
  let x := next_marks (cn_data c) in
  cn_data c' = x /\
  map le_payeeSchemeId (up_updates u) =
    map wr_scheme (List.filter (fun w => negb (fg_deleted (wr_flags w))) (sent_wares x)) /\
  up_removals u = map (fun w => removal_of split (wr_id w))
    (List.filter (fun w => fg_deleted (wr_flags w)) (sent_wares x)) /\
  map su_id (up_schemes u) =
    map sm_id (List.filter (fun r => negb (fg_deleted (sm_flags r))) (sent_schemes x)) /\
  map su_id (up_schemeRemovals u) = map sm_id (List.filter (fun r => fg_deleted (sm_flags r)) (sent_schemes x)).
Proof.
  intros (c1 & (c2 & c3 & Hd2 & E & Hd' & _)%transaction_ok & Hd1 & _)%push_ok%open_ok Hp.
  apply bind_ok in E as ([[seller token] id] & c4 & E4 & E).
  pose proof (reads_seller_and_id userId c2) as Hd4. rewrite E4 in Hd4. cbn in Hd4.
  apply bind_ok in E as (m & c5 & Hd5%mark_result & E).
  rewrite Hd4, Hd2, Hd1, Hp in Hd5. apply bind_ok in E as (l & c6 & E6 & [= <- <-]).
  apply bind_ok in E6 as ([ss srs] & c7 & E7 & E6). apply bind_ok in E6 as ([ups rms] & c8 & E8 & [= <- <-]).
  apply bind_ok in E7 as (rs & c9 & [[= Hd9 Er] _]%update_ok & (Hd7 & Hs & Hr)%updating_schemes_sent).
  apply bind_ok in E8 as (ws & c10 & [[= Hd10 Ew] _]%update_ok & (Hd8 & Hu & Hm)%updating_wares_sent).
  rewrite Hd9, Hd5 in *. subst rs. rewrite <- Hd10, Hd7 in *. subst ws.
  cbn in *. split; [by rewrite Hd', Hd8|]. done.
Qed.

Lemma filter_split_length {R} (p : R -> bool) l :
  (length (List.filter (fun r => negb (p r)) l) + length (List.filter p l) = length l)%nat.
Proof. induction l as [|r l IH]; [done|]. cbn. destruct (p r); cbn; lia. Qed.

Lemma sending_length {R} (flags : R -> Flags) l :
  (length (List.filter (fun r => sending (flags r)) l) <=
   length (List.filter (fun r => fg_updating (flags r)) l))%nat.
Proof.
  unfold sending. induction l as [|r l IH]; [done|]. cbn.
  destruct (fg_updating (flags r)), (fg_dirty (flags r)); cbn; lia.
Qed.

(** A payee scheme whose removal is sent has no wares. *)
Lemma removed_scheme_unused x psId w :
  catalog_ok x -> pending x = false ->
  (exists r, r ∈ lb_schemes (next_marks x) /\ psId = sm_id r /\ fg_updating (sm_flags r) = true /\
     fg_deleted (sm_flags r) = true) ->
  psId <> 0 -> w ∈ lb_wares x -> wr_scheme w <> psId.
Proof.
  intros Hok Hp (r & Hr & -> & Hu & Hd) Hz Hw Ew.
  destruct (marked_scheme _ r Hp (ok_schemes _ Hok) Hr Hu) as (r0 & Hr0 & Hm & Er0 & Hd0).
  apply andb_prop in Hm as [_ Hm%negb_true_iff]. pose proof (existsb_none _ _ _ Hm Hw) as Hf. cbn in Hf.
  rewrite Ew, Er0, Z.eqb_refl in Hf. cbn in Hf.
  destruct (proj1 (Forall_forall _ _) (ok_priced _ Hok) w Hw) as [?|[?|(s & Hs & Hl)]]; [congruence..|].
  assert (s = r0) as ->.
  { apply (key_inj sm_id _ s r0 (ok_schemes _ Hok) Hs Hr0). rewrite (live_scheme_id _ _ Hl). congruence. }
  unfold live_scheme in Hl. apply andb_prop in Hl as [_ Hl%negb_true_iff]. congruence.
Qed.

(** C25: For a consistent catalog in which no update is marked and wares differ in their ids, the next
    update has at most 100 wares and at most 100 payee schemes.  It changes a ware only if the payee
    scheme of the ware is neither changed nor marked for an update, and not part of this one; and it
    removes a payee scheme, other than the invalid 0, only if no ware has it. *)
Theorem next_update_ordered userId c (u : ListingUpdate) c' :
  populateNextListingUpdate (Exn:=Exn) unread extension split userId c = (Ok u, c') ->
  catalog_ok (cn_data c) -> pending (cn_data c) = false -> NoDup (map wr_id (lb_wares (cn_data c))) ->
  (length (up_updates u) + length (up_removals u) <= MAX_WARE_UPDATES)%nat /\
  (length (up_schemes u) + length (up_schemeRemovals u) <= MAX_PAYEE_UPDATES)%nat /\
  (forall e, e ∈ up_updates u ->
     busy_scheme (cn_data c') (le_payeeSchemeId e) = false /\
     le_payeeSchemeId e ∉ map su_id (up_schemes u ++ up_schemeRemovals u)) /\
  (forall s w, s ∈ up_schemeRemovals u -> su_id s <> 0 -> w ∈ lb_wares (cn_data c) -> wr_scheme w <> su_id s).
Proof.
  intros E Hok Hp Hn. destruct (next_update_sent _ _ _ _ E Hp) as (Hd & Hu & Hr & Hs & Hsr).
  set (x := next_marks (cn_data c)) in *. unfold sent_wares, sent_schemes in *.
  assert (forall id, id ∈ map su_id (up_schemes u ++ up_schemeRemovals u) ->
    exists s, s ∈ lb_schemes x /\ sm_id s = id /\ fg_updating (sm_flags s) = true) as Hin.
  { intros id. rewrite map_app, Hs, Hsr, <- map_app. intros (s & -> & Hin)%list_elem_of_fmap.
    exists s. rewrite elem_of_app, !elem_of_filter_bool in Hin.
    destruct Hin as [[_ [Hf ?]]|[_ [Hf ?]]]; apply andb_prop in Hf as [? _]; done. }
  split; [|split; [|split]].
  - rewrite <- (length_map le_payeeSchemeId (up_updates u)), Hu, Hr, !length_map, filter_split_length.
    etrans; [apply sending_length|]. by apply next_marks_count.
  - rewrite <- (length_map su_id (up_schemes u)), <- (length_map su_id (up_schemeRemovals u)), Hs, Hsr.
    rewrite !length_map, filter_split_length. etrans; [apply sending_length|].
    apply marked_schemes_count; [done|apply Hok].
  - intros e He. assert (busy_scheme x (le_payeeSchemeId e) = false) as Hb.
    { apply (list_elem_of_fmap_2 le_payeeSchemeId) in He. change (fmap ?f ?l) with (map f l) in He.
      rewrite Hu in He. apply list_elem_of_fmap in He as (w & -> & He).
      rewrite !elem_of_filter_bool in He. destruct He as (Hl%negb_true_iff & [Hw _]%andb_prop & Hin').
      destruct (next_marks_waits _ w Hp Hn Hin' Hw); [congruence|done]. }
    rewrite Hd. split; [done|]. intros (s & Hsin & Es & Hup)%Hin.
    pose proof (existsb_none _ _ _ Hb Hsin) as Hf. cbn in Hf. by rewrite Es, Z.eqb_refl, Hup in Hf.
  - intros s w Hsin. apply (removed_scheme_unused (cn_data c) (su_id s) w); [done|done|].
    apply (list_elem_of_fmap_2 su_id) in Hsin. change (fmap ?f ?l) with (map f l) in Hsin.
    rewrite Hsr in Hsin. apply list_elem_of_fmap in Hsin as (r & Er & Hr1).
    rewrite !elem_of_filter_bool in Hr1. destruct Hr1 as (? & [? _]%andb_prop & ?). by exists r.
Qed.

(** The first of the rows that are looked for is marked. *)
Lemma mark_wares_first q n x w l :
  0 < n -> List.filter q (lb_wares x) = w :: l ->
  set_wr_flags (mark (wr_flags w)) w ∈ lb_wares (mark_wares q n x).1.
Proof.
  intros Hn E. cbn. apply elem_of_update_rows. exists w. split.
  - assert (w ∈ w :: l) as Hin by left. rewrite <- E in Hin. by apply elem_of_filter_bool in Hin as [_ ?].
  - rewrite E. unfold limit. destruct (Z.ltb_spec n 0); [lia|].
    destruct (Z.to_nat n) as [|k] eqn:Ek; [lia|]. cbn. by rewrite String.eqb_refl.
Qed.

(** A row that is marked stays so when further rows are. *)
Lemma mark_wares_again q n x w :
  w ∈ lb_wares x -> sending (wr_flags w) = true ->
  exists w', w' ∈ lb_wares (mark_wares q n x).1 /\ sending (wr_flags w') = true /\
    fg_deleted (wr_flags w') = fg_deleted (wr_flags w) /\ wr_scheme w' = wr_scheme w.
Proof.
  intros Hin Hs. cbn. eexists. split; [apply elem_of_update_rows; by exists w|]. by destruct (existsb _ _).
Qed.

Lemma unmark_keeps x w :
  w ∈ lb_wares x -> fg_deleted (wr_flags w) = true \/ busy_scheme x (wr_scheme w) = false ->
  w ∈ lb_wares (unmark_wares x).
Proof.
  intros Hin Hw. cbn. apply elem_of_update_rows. exists w. split; [done|].
  destruct Hw as [-> | ->]; [done|]. by rewrite andb_false_r.
Qed.

Lemma removed_is_sent x w :
  w ∈ lb_wares x -> fg_deleted (wr_flags w) = true -> sent_wares (next_marks x) <> [].
Proof.
  intros Hin Hd. unfold next_marks. set (x1 := mark_schemes x).
  destruct (List.filter (fun w => fg_deleted (wr_flags w)) (lb_wares x1)) as [|w0 l] eqn:E.
  { assert (w ∈ @nil WareRow) as Hn; [|by apply elem_of_nil in Hn]. rewrite <- E.
    by apply elem_of_filter_bool. }
  pose proof (mark_wares_first _ (Z.of_nat MAX_WARE_UPDATES) x1 w0 l ltac:(done) E) as H1.
  assert (fg_deleted (wr_flags w0) = true) as Hd0.
  { assert (w0 ∈ w0 :: l) as H0' by left. rewrite <- E in H0'. by apply elem_of_filter_bool in H0' as [? _]. }
  destruct (mark_wares _ _ x1) as [x2 n]. cbn [fst] in H1.
  assert (exists w', w' ∈ lb_wares (if 0 <? u64 (Z.of_nat MAX_WARE_UPDATES - Z.of_nat n)
    then unmark_wares (mark_wares (fun w => fg_dirty (wr_flags w))
      (i64 (u64 (Z.of_nat MAX_WARE_UPDATES - Z.of_nat n))) x2).1 else x2) /\ sending (wr_flags w') = true)
    as (w' & Hw' & Hs').
  { destruct (0 <? _); [|by eexists].
    destruct (mark_wares_again (fun w => fg_dirty (wr_flags w))
      (i64 (u64 (Z.of_nat MAX_WARE_UPDATES - Z.of_nat n))) x2 _ H1) as (w' & Hw' & Hs' & Hd' & _); [done|].
    exists w'. split; [|done]. apply unmark_keeps; [done|]. left. by rewrite Hd'. }
  intros En. assert (w' ∈ @nil WareRow) as Hn; [|by apply elem_of_nil in Hn]. rewrite <- En.
  by apply elem_of_filter_bool.
Qed.

Lemma scheme_is_sent x s :
  (forall w, w ∈ lb_wares x -> fg_deleted (wr_flags w) = false) ->
  s ∈ lb_schemes x -> fg_dirty (sm_flags s) = true -> sent_schemes (next_marks x) <> [].
Proof.
  intros Hnd Hin Hd. unfold sent_schemes. rewrite next_marks_schemes.
  destruct (List.filter (markable x) (lb_schemes x)) as [|s0 l] eqn:E.
  { assert (s ∈ @nil SchemeRow) as Hn; [|by apply elem_of_nil in Hn]. rewrite <- E.
    apply elem_of_filter_bool. split; [|done]. unfold markable. rewrite Hd. cbn.
    destruct (existsb _ _) eqn:Ex; [|done]. apply existsb_elem in Ex as (w & Hw & [_ ?]%andb_prop).
    by rewrite (Hnd w Hw) in *. }
  assert (s0 ∈ lb_schemes x) as Hs0.
  { assert (s0 ∈ s0 :: l) as H0' by left. rewrite <- E in H0'. by apply elem_of_filter_bool in H0' as [_ ?]. }
  assert (set_sm_flags (mark (sm_flags s0)) s0 ∈
    List.filter (fun r => sending (sm_flags r)) (lb_schemes (mark_schemes x))) as Hm.
  { apply elem_of_filter_bool. split; [done|]. cbn. apply elem_of_update_rows. exists s0. split; [done|].
    rewrite E. cbn. by rewrite Z.eqb_refl. }
  intros En. rewrite En in Hm. by apply elem_of_nil in Hm.
Qed.

Lemma filter_nil {R} (p : R -> bool) l : (forall r, r ∈ l -> p r = false) -> List.filter p l = [].
Proof.
  intros Hp. destruct (List.filter p l) as [|r k] eqn:E; [done|].
  assert (r ∈ r :: k) as Hin by left. rewrite <- E in Hin. apply elem_of_filter_bool in Hin as [Hr Hin].
  by rewrite (Hp r Hin) in Hr.
Qed.

(** Without changed payee schemes no ware has to wait. *)
Lemma idle_schemes x psId :
  pending x = false -> (forall s, s ∈ lb_schemes x -> fg_dirty (sm_flags s) = false) ->
  busy_scheme (mark_schemes x) psId = false.
Proof.
  intros [_ Hp]%orb_false_iff Hd. destruct (busy_scheme _ _) eqn:E; [|done].
  apply existsb_elem in E as (s & Hin & Hs). cbn in Hin.
  rewrite (filter_nil (markable x)) in Hin by (intros r Hr; unfold markable; by rewrite (Hd r Hr)).
  apply elem_of_update_rows in Hin as (s0 & Hin & ->). cbn in Hs.
  rewrite (Hd s0 Hin), (existsb_none _ _ _ Hp Hin) in Hs. by rewrite andb_false_r in Hs.
Qed.

Lemma ware_is_sent x w :
  pending x = false -> (forall w, w ∈ lb_wares x -> fg_deleted (wr_flags w) = false) ->
  (forall s, s ∈ lb_schemes x -> fg_dirty (sm_flags s) = false) ->
  w ∈ lb_wares x -> fg_dirty (wr_flags w) = true -> sent_wares (next_marks x) <> [].
Proof.
  intros Hp Hnd Hns Hin Hd. unfold next_marks. pose proof (fun psId => idle_schemes x psId Hp Hns) as Hb.
  set (x1 := mark_schemes x) in *.
  assert (mark_wares (fun w => fg_deleted (wr_flags w)) (Z.of_nat MAX_WARE_UPDATES) x1 = (x1, 0%nat)) as ->.
  { unfold mark_wares, update_ware_flags. change (lb_wares x1) with (lb_wares x).
    rewrite (filter_nil (fun w => fg_deleted (wr_flags w)) (lb_wares x)) by done.
    assert (rows_changed (fun w => existsb (String.eqb (wr_id w)) (limit (Z.of_nat MAX_WARE_UPDATES) (map wr_id [])))
      (lb_wares x) = 0%nat) as Hz by (unfold rows_changed; by rewrite filter_nil).
    f_equal; [|exact Hz]. rewrite update_rows_none by exact Hz. reflexivity. }
  change (0 <? u64 (Z.of_nat MAX_WARE_UPDATES - Z.of_nat 0)) with true. cbn iota.
  destruct (List.filter (fun w => fg_dirty (wr_flags w)) (lb_wares x1)) as [|w0 l] eqn:E.
  { assert (w ∈ @nil WareRow) as Hn; [|by apply elem_of_nil in Hn]. rewrite <- E.
    by apply elem_of_filter_bool. }
  pose proof (mark_wares_first _ (i64 (u64 (Z.of_nat MAX_WARE_UPDATES - Z.of_nat 0))) x1 w0 l ltac:(done) E) as H1.
  apply unmark_keeps in H1; [|right; apply Hb]. intros En.
  assert (set_wr_flags (mark (wr_flags w0)) w0 ∈ @nil WareRow) as Hn; [|by apply elem_of_nil in Hn].
  rewrite <- En. by apply elem_of_filter_bool.
Qed.

(** Something for the servers: a ware that is changed or removed, or a payee scheme that is changed. *)
Definition unsent (x : Library) : bool :=
  existsb (fun w => fg_dirty (wr_flags w) || fg_deleted (wr_flags w)) (lb_wares x) ||
  existsb (fun s => fg_dirty (sm_flags s)) (lb_schemes x).

Lemma something_sent x :
  pending x = false -> unsent x = true ->
  sent_wares (next_marks x) <> [] \/ sent_schemes (next_marks x) <> [].
Proof.
  intros Hp Hu. destruct (existsb (fun w => fg_deleted (wr_flags w)) (lb_wares x)) eqn:Ed.
  { apply existsb_elem in Ed as (w & Hw & Hd). left. by eapply removed_is_sent. }
  pose proof (fun w => existsb_none _ _ w Ed) as Hnd. cbn in Hnd.
  destruct (existsb (fun s => fg_dirty (sm_flags s)) (lb_schemes x)) eqn:Es.
  { apply existsb_elem in Es as (s & Hs & Hd). right. by eapply scheme_is_sent. }
  pose proof (fun s => existsb_none _ _ s Es) as Hns. cbn in Hns.
  unfold unsent in Hu. rewrite Es, orb_false_r in Hu. apply existsb_elem in Hu as (w & Hw & Hd).
  rewrite (Hnd w Hw), orb_false_r in Hd. left. by eapply ware_is_sent.
Qed.

Lemma no_changes_sent (u : ListingUpdate (Details:=Details) (Exn:=Exn)) :
  no_changes u = true ->
  up_updates u = [] /\ up_removals u = [] /\ up_schemes u = [] /\ up_schemeRemovals u = [].
Proof. unfold no_changes. by destruct (up_updates u), (up_removals u), (up_schemes u), (up_schemeRemovals u). Qed.

Lemma split_nil {R S} (p : R -> bool) (f : R -> S) l :
  map f (List.filter (fun r => negb (p r)) l) = [] -> map f (List.filter p l) = [] -> l = [].
Proof.
  intros E1%map_eq_nil E2%map_eq_nil. apply length_zero_iff_nil.
  rewrite <- (filter_split_length p), E1, E2. done.
Qed.

Lemma next_update_id userId c (u : ListingUpdate) c' :
  populateNextListingUpdate (Exn:=Exn) unread extension split userId c = (Ok u, c') ->
  up_newUpdateId u = if no_changes u then up_updateId u else u32 (up_updateId u + 1).
Proof.
  intros (c1 & (c2 & c3 & _ & E & _)%transaction_ok & _)%push_ok%open_ok.
  apply bind_ok in E as ([[seller token] id] & c4 & _ & E).
  apply bind_ok in E as (m & c5 & _ & E). apply bind_ok in E as (l & c6 & _ & [= <- _]).
  unfold next_update. by destruct l as [[ups rms] [ss srs]].
Qed.

Lemma changes_if_unsent userId c (u : ListingUpdate) c' :
  populateNextListingUpdate (Exn:=Exn) unread extension split userId c = (Ok u, c') ->
  pending (cn_data c) = false -> unsent (cn_data c) = true -> no_changes u = false.
Proof.
  intros E Hp Hu. destruct (next_update_sent _ _ _ _ E Hp) as (_ & Hw & Hr & Hs & Hsr).
  destruct (no_changes u) eqn:En; [|done]. exfalso.
  pose proof (something_sent _ Hp Hu) as Hn. set (x := next_marks (cn_data c)) in *. clearbody x.
  apply no_changes_sent in En as (E1 & E2 & E3 & E4). rewrite E1 in Hw. rewrite E2 in Hr.
  rewrite E3 in Hs. rewrite E4 in Hsr. destruct Hn as [Hn|Hn]; apply Hn.
  - symmetry in Hw, Hr. apply map_eq_nil in Hw, Hr.
    apply (split_nil (fun w => fg_deleted (wr_flags w)) wr_id); [by rewrite Hw|by rewrite Hr].
  - by apply (split_nil (fun r => fg_deleted (sm_flags r)) sm_id).
Qed.
(** If no update is under way and something is changed or removed, the next update is not empty and
    has the next update id. *)
Theorem next_update_not_empty userId c (u : ListingUpdate) c' :
  populateNextListingUpdate (Exn:=Exn) unread extension split userId c = (Ok u, c') ->
  pending (cn_data c) = false -> unsent (cn_data c) = true ->
  no_changes u = false /\ up_newUpdateId u = u32 (up_updateId u + 1).
Proof.
  intros E Hp Hu. pose proof (changes_if_unsent _ _ _ _ E Hp Hu) as Hn. split; [done|].
  by rewrite (next_update_id _ _ _ _ E), Hn.
Qed.
End Sent.

(** * Taking the answer *)

(** What an answer without failures makes of the tables. *)
Definition acknowledged (id : string) (x : Library) : Library :=
  let clear t x := update_flags t fg_updating (fun f => with_marks (fg_dirty f) false f) x in
  let x := clear PayeeSchemes (purge PayeeSchemes (clear Wares (purge Wares x))) in
  let x := set_lb_problems (delete_rows (fun p => negb (referenced x p)) (lb_problems x)) x in
  set_lb_config (<["updateId" := id]> (lb_config x)) x.

Section Answers.
Context {Exn : Type} `{Json Exn}.
Implicit Types r : ListingResult (Exn:=Exn).

Definition no_failures r : Prop :=
  lt_updates r = [] /\ lt_removals r = [] /\ lt_schemes r = [] /\ lt_schemeRemovals r = [].

Lemma take_result_clean r c u c' :
  no_failures r -> take_result r c = (Ok u, c') ->
  cn_data c' = acknowledged (lt_updateId r) (cn_data c).
Proof.
  intros (E1 & E2 & E3 & E4). unfold take_result. rewrite E1, E2, E3, E4.
  intros (u1 & c1 & [= <- <-] & (u2 & c2 & [= <- <-] & E)%bind_ok)%bind_ok.
  apply bind_update_ok in E as (c3 & H3 & E). apply bind_update_ok in E as (c4 & H4 & E).
  apply bind_update_ok in E as (c5 & H5 & E). apply bind_update_ok in E as (c6 & H6 & E).
  apply bind_update_ok in E as (c7 & H7 & E). apply bind_update_ok in E as (c8 & H8 & [= _ <-]).
  unfold acknowledged. by rewrite H8, H7, H6, H5, H4, H3.
Qed.

Lemma process_result {Details} (u : ListingUpdate (Details:=Details) (Exn:=Exn)) r c evs c' :
  no_failures r -> cn_saved c = None ->
  processListingUpdateResponse u r c = ((Ok tt, evs), c') ->
  cn_data c' = acknowledged (lt_updateId r) (cn_data c) /\ cn_saved c' = None.
Proof.
  intros Hr Hs. unfold processListingUpdateResponse, ibind, attempt.
  destruct (push _ _ c) as [[[ws ss]|e] c1] eqn:E; [|done]. intros [= _ <-]. split; [|done]. cbn.
  apply push_ok, open_ok in E as (c2 & (c3 & c4 & Hd3 & E & Hd & Hsv)%transaction_ok & Hd2 & _).
  apply take_result_clean in E; [|done]. unfold durable. by rewrite Hsv, Hd, E, Hd3, Hd2.
Qed.
End Answers.

(** The wares after an answer: those that were not purged, with nothing under way. *)
Lemma acknowledged_wares id x :
  lb_wares (acknowledged id x) =
  map (fun w => if fg_updating (wr_flags w) then set_wr_flags (with_marks (fg_dirty (wr_flags w)) false (wr_flags w)) w
                else w) (delete_rows (fun w => purged (wr_flags w)) (lb_wares x)).
Proof. done. Qed.

Lemma acknowledged_pending id x : pending (acknowledged id x) = false.
Proof.
  unfold pending. apply orb_false_iff. split.
  - destruct (existsb _ _) eqn:E; [|done]. apply existsb_elem in E as (w & Hw & Hu).
    rewrite acknowledged_wares in Hw. apply list_elem_of_fmap in Hw as (w0 & -> & _).
    by destruct (fg_updating (wr_flags w0)) eqn:E0; [|rewrite E0 in Hu].
  - destruct (existsb _ _) eqn:E; [|done]. apply existsb_elem in E as (s & Hs & Hu).
    cbn in Hs. apply elem_of_update_rows in Hs as (s0 & _ & ->).
    by destruct (fg_updating (sm_flags s0)) eqn:E0; [|rewrite E0 in Hu].
Qed.

(** A removed ware with a problem *)
Definition failed_removal (mlId problem : Z) (w : WareRow) : Prop :=
  wr_mlId w = mlId /\ fg_deleted (wr_flags w) = true /\ fg_problem (wr_flags w) = problem.

Lemma marks_keep_failed mlId problem x w :
  w ∈ lb_wares x -> failed_removal mlId problem w ->
  exists w', w' ∈ lb_wares (next_marks x) /\ failed_removal mlId problem w'.
Proof.
  intros Hin Hw. unfold next_marks. set (x1 := mark_schemes x).
  assert (forall q n y v, v ∈ lb_wares y -> failed_removal mlId problem v ->
    exists v', v' ∈ lb_wares (mark_wares q n y).1 /\ failed_removal mlId problem v') as Hmark.
  { intros q n y v Hv Hf. eexists. split; [apply elem_of_update_rows; by exists v|]. by destruct (existsb _ _). }
  destruct (Hmark (fun w => fg_deleted (wr_flags w)) (Z.of_nat MAX_WARE_UPDATES) x1 w Hin Hw) as (w1 & H1 & Hf1).
  destruct (mark_wares _ _ x1) as [x2 n]. destruct (0 <? _); [|by exists w1].
  destruct (Hmark (fun w => fg_dirty (wr_flags w))
    (i64 (u64 (Z.of_nat MAX_WARE_UPDATES - Z.of_nat n))) x2 w1 H1 Hf1) as (w2 & H2 & Hf2).
  exists w2. split; [|done]. apply unmark_keeps; [done|]. left. apply Hf2.
Qed.

Lemma acknowledged_keeps_failed mlId problem id x w :
  w ∈ lb_wares x -> failed_removal mlId problem w -> problem <> 0 ->
  exists w', w' ∈ lb_wares (acknowledged id x) /\ failed_removal mlId problem w'.
Proof.
  intros Hin (Hm & Hd & Hp) Hz. rewrite acknowledged_wares. eexists. split.
  - apply (list_elem_of_fmap_2 (fun w => if fg_updating (wr_flags w)
      then set_wr_flags (with_marks (fg_dirty (wr_flags w)) false (wr_flags w)) w else w) _ w).
    apply elem_of_delete_rows. split; [done|]. unfold purged. rewrite Hp.
    by rewrite (proj2 (Z.eqb_neq _ _) Hz), andb_false_r.
  - unfold failed_removal. by destruct (fg_updating (wr_flags w)).
Qed.

Section Repeats.
Context {Details Exn : Type} `{Json Details} `{Json Exn}.
Context (unread : Details) (extension : string -> string) (split : string -> string -> list string).

(** A removal that failed once is never done with: whatever the servers answer to an update without
    reporting a failure, the ware is still there with its problem afterwards, nothing is under way,
    and the next update is again not empty, so that updates follow each other without end. *)
Theorem failed_removal_repeats userId c (u : ListingUpdate (Details:=Details) (Exn:=Exn)) c1 r evs c2 mlId problem :
  (exists w, w ∈ lb_wares (cn_data c) /\ failed_removal mlId problem w) ->
  problem <> 0 -> pending (cn_data c) = false ->
  populateNextListingUpdate unread extension split userId c = (Ok u, c1) ->
  no_failures r -> processListingUpdateResponse u r (reconnect c1) = ((Ok tt, evs), c2) ->
  no_changes u = false /\
  (exists w, w ∈ lb_wares (cn_data c2) /\ failed_removal mlId problem w) /\
  pending (cn_data c2) = false /\ unsent (cn_data c2) = true.
Proof.
  intros (w & Hin & Hw) Hz Hp Hu Hr Hproc.
  destruct (next_update_sent _ _ _ _ _ _ _ Hu Hp) as (Hd1 & _).
  assert (durable c1 = cn_data c1) as Hdur.
  { apply push_ok, open_ok in Hu as (c3 & (c4 & c5 & _ & _ & _ & Hs)%transaction_ok & _).
    unfold durable. by rewrite Hs. }
  apply process_result in Hproc as [Hd2 _]; [|done|done]. cbn in Hd2. rewrite Hdur, Hd1 in Hd2.
  destruct (marks_keep_failed _ _ _ _ Hin Hw) as (w1 & H1 & Hw1).
  destruct (acknowledged_keeps_failed _ _ (lt_updateId r) _ _ H1 Hw1 Hz) as (w2 & H2 & Hw2).
  split; [|split; [|split]].
  - apply (changes_if_unsent _ _ _ _ _ _ _ Hu Hp). apply orb_true_iff. left. apply existsb_elem.
    exists w. split; [done|]. destruct Hw as (_ & -> & _). by rewrite orb_true_r.
  - rewrite Hd2. by exists w2.
  - rewrite Hd2. apply acknowledged_pending.
  - rewrite Hd2. apply orb_true_iff. left. apply existsb_elem. exists w2. split; [done|].
    destruct Hw2 as (_ & -> & _). by rewrite orb_true_r.
Qed.
End Repeats.

(** * Examples *)

Module CatalogSample.
Import BitText.

(** A way to split strings *)
Fixpoint split_at (fuel : nat) (s d : string) : list string :=
  match fuel with
  | O => [s]
  | S fuel =>
      match String.index 0 d s with
      | None => [s]
      | Some i => String.substring 0 i s ::
          split_at fuel (String.substring (i + String.length d) (String.length s) s) d
      end
  end.

Definition splits (s d : string) : list string := split_at (String.length s) s d.

Definition file_info (id : string) (mediaId : Z) : FileInfo bool :=
  {| fi_id := id; fi_mediaId := mediaId; fi_path := Some ("/music/" +:+ id +:+ ".mp3"); fi_extension := "mp3";
     fi_contentType := "audio/mpeg"; fi_contentSize := 10; fi_size := 10; fi_formatDetails := false |}.

Definition probe (id : string) : FileProbe :=
  {| pb_exists := true; pb_directory := false; pb_readable := true; pb_extension := ".mp3";
     pb_absolute := "/music/" +:+ id +:+ ".mp3"; pb_length := 10 |}.

Definition payee : SchemePayee :=
  {| sp_account := 9; sp_amountType := "flatFee"; sp_description := "artist"; sp_amount := "0.10";
     sp_percentage := ""; sp_min := "" |}.

Definition other_payee : SchemePayee :=
  {| sp_account := 8; sp_amountType := "flatFee"; sp_description := "label"; sp_amount := "0.20";
     sp_percentage := ""; sp_min := "" |}.

Definition ware (fileId : string) (psId : option Z) : Ware :=
  {| wa_id := "bitmunk:file:2-" +:+ fileId; wa_fileId := fileId; wa_description := "song";
     wa_scheme := psId; wa_payees := [payee] |}.

Abbreviation request := (Request (Details:=bool) (Exn:=string)).

Definition run (rs : list request) (x : Library) : Library :=
  cn_data (run_requests false (fun _ => "mp3") "constraint" "trigger" splits rs (quiet x)).

(** A user with a file, a payee scheme, and a ware that is known to the servers *)
Definition accept (id : string) : request :=
  TakeResult {| up_seller := {| sl_userId := 900; sl_serverId := 1; sl_url := "" |}; up_serverToken := "";
    up_updateId := 0; up_newUpdateId := 1; up_updates := []; up_removals := []; up_schemes := [];
    up_schemeRemovals := [] |}
    {| lt_updates := []; lt_removals := []; lt_schemes := []; lt_schemeRemovals := []; lt_updateId := id |}.

Definition opened : Library :=
  run [Start {| cc_uploadListings := None; cc_listingSyncInterval := None; cc_testNetAccessInterval := None;
                cc_autoSell := None |} 7;
       PutSeller "1" "https://node" "token"; PutFile (probe "A") (file_info "A" 2); PutWare (ware "A" None)]
    no_library.

Definition listed : Library := run [NextUpdate 900; accept "1"; NextUpdate 900; accept "2"] opened.

Abbreviation next_of x :=
  (populateNextListingUpdate (Exn:=string) false (fun _ => "mp3"%string) splits 900 (quiet x)).

Lemma run_ok rs x : catalog_ok x -> catalog_ok (run rs x).
Proof.
  intros Hx. apply (run_requests_ok (Exn:=string) false (fun _ => "mp3") "constraint" "trigger" splits rs (quiet x)).
  by split.
Qed.

(** The first ware is changed, a second payee scheme was added and removed. *)
Definition changed : Library :=
  run [PutScheme 0 "other" [other_payee]; DropScheme 2; PutWare (ware "A" (Some 1))] listed.

Lemma changed_ok : catalog_ok changed.
Proof. do 3 apply run_ok. apply no_library_ok. Qed.

Lemma unused_id_lowest_witness :
  Forall (fun i => 0 <= i) [1; 2; 4; 5] /\ unused_id [1; 2; 4; 5] = 3 /\ 3 ∉ [1; 2; 4; 5].
Proof.
  assert (Forall (fun i => 0 <= i) [1; 2; 4; 5]) as H
    by (repeat (apply Forall_cons_2; [lia|]); apply Forall_nil_2).
  split; [done|]. split; [reflexivity|]. apply (unused_id_lowest [1; 2; 4; 5] H).
Defined.

Lemma changed_next :
  exists u c', next_of changed = (Ok u, c') /\ up_removals u = [] /\
    map su_id (up_schemeRemovals u) = [2] /\ map le_payeeSchemeId (up_updates u) = [1] /\ up_updateId u = 2.
Proof. vm_compute. by eexists _, _. Qed.

Lemma next_update_ordered_witness :
  exists u c', next_of changed = (Ok u, c') /\ up_removals u = [] /\
    map su_id (up_schemeRemovals u) = [2] /\ map le_payeeSchemeId (up_updates u) = [1] /\
    (length (up_updates u) + length (up_removals u) <= MAX_WARE_UPDATES)%nat.
Proof.
  destruct changed_next as (u & c' & E & H1 & H2 & H3 & _). exists u, c'.
  split; [done|]. split; [done|]. split; [done|]. split; [done|].
  apply (next_update_ordered false (fun _ => "mp3") splits 900 (quiet changed) u c' E changed_ok).
  - vm_compute. reflexivity.
  - apply (bool_decide_unpack _). vm_compute. exact Logic.I.
Defined.

Lemma next_update_not_empty_witness :
  exists u c', next_of changed = (Ok u, c') /\ no_changes u = false /\ up_newUpdateId u = 3.
Proof.
  destruct changed_next as (u & c' & E & _ & _ & _ & Hid). exists u, c'. split; [done|].
 
  destruct (next_update_not_empty false (fun _ => "mp3") splits 900 (quiet changed) u c' E) as [Hn Hi].
  - vm_compute. reflexivity.
  - vm_compute. reflexivity.
  - split; [done|]. rewrite Hi, Hid. reflexivity.
Defined.

(** A removal that the servers could not do *)
Definition refuse (id : string) : request :=
  TakeResult {| up_seller := {| sl_userId := 900; sl_serverId := 1; sl_url := "" |}; up_serverToken := "";
    up_updateId := 2; up_newUpdateId := 3; up_updates := []; up_removals := []; up_schemes := [];
    up_schemeRemovals := [] |}
    {| lt_updates := []; lt_removals := [({| lr_fileId := "A"; lr_mediaId := 2 |}, "busy")];
       lt_schemes := []; lt_schemeRemovals := []; lt_updateId := id |}.

Definition refused : Library := run [DropWare "bitmunk:file:2-A"; NextUpdate 900; refuse "3"] listed.

Definition all_done : ListingResult (Exn:=string) :=
  {| lt_updates := []; lt_removals := []; lt_schemes := []; lt_schemeRemovals := []; lt_updateId := "4" |}.

Lemma refused_next :
  exists u c1 evs c2, next_of refused = (Ok u, c1) /\
    processListingUpdateResponse u all_done (reconnect c1) = ((Ok tt, evs), c2).
Proof.
  assert (match next_of refused with
    | (Ok u, c1) => succeeded (processListingUpdateResponse u all_done (reconnect c1)).1.1
    | _ => false end = true) as Hs by (vm_compute; reflexivity).
  destruct (next_of refused) as [[u|e] c1]; [|done].
  destruct (processListingUpdateResponse u all_done (reconnect c1)) as [[[[]|e] evs] c2] eqn:E; [|done].
  by exists u, c1, evs, c2.
Qed.

Lemma failed_removal_repeats_witness :
  exists u c1 c2, next_of refused = (Ok u, c1) /\ no_changes u = false /\
    (exists w, w ∈ lb_wares (cn_data c2) /\ failed_removal 1 1 w) /\ unsent (cn_data c2) = true.
Proof.
  destruct refused_next as (u & c1 & evs & c2 & E & E2). exists u, c1, c2. split; [done|].
 
  assert (exists w, w ∈ lb_wares (cn_data (quiet refused)) /\ failed_removal 1 1 w) as Hw.
  { assert (existsb (fun w => (wr_mlId w =? 1) && fg_deleted (wr_flags w) && (fg_problem (wr_flags w) =? 1))
      (lb_wares refused) = true) as (w & Hin & [[? ?]%andb_prop ?]%andb_prop)%existsb_elem by (vm_compute; reflexivity).
    exists w. split; [exact Hin|]. split; [by apply Z.eqb_eq|]. split; [done|by apply Z.eqb_eq]. }
  assert (pending (cn_data (quiet refused)) = false) as Hp by (vm_compute; reflexivity).
  pose proof (failed_removal_repeats false (fun _ => "mp3"%string) splits 900 (quiet refused) u c1 all_done
    evs c2 1 1 Hw ltac:(lia) Hp E ltac:(by repeat split) E2) as (Hn & Hw' & _ & Hu).
  split; [exact Hn|]. split; [exact Hw'|exact Hu].
Defined.

(** When a file is removed from the library and another one added before the next update, the new
    file gets the library id of the removed one and takes over the row of its ware: the removal is
    not sent to the servers, which go on offering the removed file. *)
Theorem reused_id_keeps_listing :
  let x := run [DropFile "A"; PutFile (probe "B") (file_info "B" 3); PutWare (ware "B" (Some 1))] listed in
  map fl_mlId (lb_files listed) = [1] /\ map fl_mlId (lb_files x) = [1] /\
  (exists u c', next_of x = (Ok u, c') /\ up_removals u = [] /\
     map entry_ids (up_updates u) = [{| lr_fileId := "B"; lr_mediaId := 3 |}]) /\
  (exists u c', next_of (run [NextUpdate 900; accept "3"] x) = (Ok u, c') /\ no_changes u = true).
Proof.
  vm_compute. split; [done|]. split; [done|]. split; eexists _, _; done.
Qed.

(** The payees of a removed payee scheme are listed as payees of the scheme before it. *)
Theorem removed_scheme_leaks :
  exists c', populatePayeeSchemes (Exn:=string) {| sf_default := true; sf_start := 0; sf_num := None |}
    (quiet (run [PutScheme 0 "other" [other_payee]; DropScheme 2] listed)) =
  (Ok ([{| ls_id := 1; ls_description := "song"; ls_payees := [payee; other_payee]; ls_details := None |}], 1), c').
Proof. eexists. vm_compute. reflexivity. Qed.

(** The payee scheme of a ware that cannot be added is announced, though it is not kept. *)
Lemma event_before_commit :
  exists e c', updateWare (Exn:=string) "constraint" "trigger" (ware "B" None) (quiet listed) =
    ((Raise e, [SchemeUpdated "2" true]), c') /\ lb_schemes (cn_data c') = lb_schemes listed.
Proof. eexists _, _. vm_compute. done. Qed.

(** When every attempt to insert violates a constraint, the allocation succeeds with the id 0. *)
Lemma exhausted_allocation_succeeds :
  exists c', allocateNewPayeeScheme "constraint" "d"
    {| cn_data := no_library; cn_saved := None;
       cn_faults := None :: concat (replicate 256 [None; Some "constraint"%string]) |} = (Ok 0, c').
Proof. eexists. vm_compute. reflexivity. Qed.

(** If the query for an id fails, a payee scheme with the id 0 is left behind. *)
Lemma failed_query_adds_scheme :
  exists c', allocateNewPayeeScheme "constraint" "d"
    {| cn_data := no_library; cn_saved := None; cn_faults := [None; Some "busy"%string] |} = (Ok 1, c') /\
  map sm_id (lb_schemes (cn_data c')) = [0; 1].
Proof. eexists. vm_compute. done. Qed.

(** A removal that failed is forgotten if the file is no longer in the library. *)
Lemma unknown_failure_forgotten :
  lb_wares (run [DropFile "A"; NextUpdate 900; refuse "3"] listed) = [].
Proof. vm_compute. reflexivity. Qed.

(** A removal that failed is forgotten if its failure cannot be written down. *)
Lemma overlooked_failure_forgotten :
  let x := run [DropWare "bitmunk:file:2-A"; NextUpdate 900] listed in
  let r := {| lt_updates := []; lt_removals := [({| lr_fileId := "A"; lr_mediaId := 2 |}, "unavailable"%string)];
              lt_schemes := []; lt_schemeRemovals := []; lt_updateId := "3" |} in
  exists u c1 evs c2, next_of x = (Ok u, c1) /\
    processListingUpdateResponse u r
      {| cn_data := x; cn_saved := None; cn_faults := [None; None; Some "busy"%string] |} = ((Ok tt, evs), c2) /\
    map wr_id (lb_wares x) = ["bitmunk:file:2-A"%string] /\ lb_wares (cn_data c2) = [].
Proof. vm_compute. by eexists _, _, _, _. Qed.

(** A list of files is never populated. *)
Lemma populateFileInfoList_fails ids c :
  ids <> [] -> exists e c', populateFileInfoList (Details:=bool) false (fun _ => "mp3") ids c = (Raise e, c').
Proof.
  destruct ids as [|id ids]; [done|]. intros _. unfold populateFileInfoList, sbind.
  destruct (open_connection c) as [[u|e] c1]; [|by eexists _, _]. cbn. by eexists _, _.
Qed.

(** A set of wares with all details is not found. *)
Lemma full_ware_set_fails :
  exists e c', populateWareSet (Exn:=string) false (fun _ => "mp3")
    {| wq_ids := Some ["bitmunk:file:2-A"%string]; wq_fileIds := None; wq_default := true |} (quiet listed) =
  (Raise e, c').
Proof. eexists _, _. vm_compute. reflexivity. Qed.
End CatalogSample.
