(* ===== verification/CatalogService.v ===== *)
(** The requests to the catalog of a seller ([cpp/customcatalog/CatalogService.cpp]).

    A request has been let through by the delegate of its resource ([Serve]) when a function here is
    called with its sender and the user of the node that it names.  Functions that change a catalog use
    the one of the sender, most functions that only read the one of the named user. *)
From stdpp Require Import gmap.
From S2P Require Import Prelude DynMap Sql Http LibraryDb CatalogDb CustomCatalog CatalogFacts.

Local Open Scope Z_scope.
Local Open Scope io_scope.

(** The sender, which is 0 for a request without security, and the user of the node *)
Record Caller := { cl_userId : Z; cl_nodeuser : Z }.

Section CatalogService.
Context {Details Exn Report : Type} `{Json Details} `{Json Exn} `{Json Report}.
Context (unread : Details) (extension : string -> string).
Context (constraint_error trigger_error : string).
Notation Event := (Event (Exn:=Exn)).
Implicit Types (cl : Caller) (cs : gmap Z (Conn Library)).

(** The catalogs of the users whose database can be opened *)
Definition on_catalog {A} (userId : Z) (m : io Library (outcome A * list Event)) cs
    : outcome A * list Event * gmap Z (Conn Library) :=
  match cs !! userId with
  | None => ((Raise "", []), cs)
  | Some c => let '(r, c) := m c in (r, <[userId := c]> cs)
  end.

Definition reading {A} (m : sql Library A) : io Library (outcome A * list Event) :=
  do! r := attempt m in iret (r, []).

(** ** The server of the user *)

Definition netaccessTest cl (token : string) cs : outcome unit * list Event * gmap Z (Conn Library) :=
  let '((r, evs), cs) := on_catalog (cl_nodeuser cl) (reading (getConfigValue "netaccessToken")) cs in
  ((match r with
    | Ok known => if String.eqb known token then Ok tt else Raise "bitmunk.catalog.InvalidNetAccessToken"
    | Raise _ => Raise "bitmunk.catalog.NetAccessTokenNotFound"
    end, evs), cs).

(** The url, the id and the token of the server, and the exception of the last test of the access if
    there is one; a value that is not there is no failure. *)
Definition server_info (userId : Z) : io Library (outcome (string * Z * string * option Report) * list Event) :=
  do! r := attempt (populateSeller userId) in
  match r with
  | Raise e => iret (Raise e, [])
  | Ok (seller, token) =>
      do! j := attempt (getConfigValue "netaccessException") in
      let info e := (sl_url seller, sl_serverId seller, token, e) in
      iret (match j with
        | Ok json =>
            if (String.length json =? 0)%nat then Ok (info None)
            else outcome_bind (from_json json) (fun e => Ok (info (Some e)))
        | Raise _ => Ok (info None)
        end, [])
  end.

Definition getServerInfo cl cs := on_catalog (cl_nodeuser cl) (server_info (cl_nodeuser cl)) cs.

(** ** Wares *)

(** The body of a request for a ware: one file, or a list of files of which only the first is used *)
Record WareBody := {
  wb_id : string; wb_description : string; wb_fileInfo : option string; wb_fileInfos : list string;
  wb_scheme : option Z; wb_payees : list SchemePayee
}.

Definition ware_of (b : WareBody) : Ware :=
  {| wa_id := wb_id b;
     wa_fileId := match wb_fileInfo b with Some f => f | None => nth 0 (wb_fileInfos b) ""%string end;
     wa_description := wb_description b; wa_scheme := wb_scheme b;
     wa_payees := match wb_scheme b with Some _ => [] | None => wb_payees b end |}.

(** The ids of the ware and of its payee scheme *)
Definition postWare cl (b : WareBody) cs : outcome (string * Z) * list Event * gmap Z (Conn Library) :=
  let '((r, evs), cs) := on_catalog (cl_userId cl) (updateWare constraint_error trigger_error (ware_of b)) cs in
  ((match r with
    | Ok psId => Ok (wb_id b, psId)
    | Raise _ => Raise "bitmunk.catalog.UpdateWareFailed"
    end, evs), cs).

Definition getWare cl (id : string) cs :=
  on_catalog (cl_nodeuser cl) (reading (populateWare (Exn:=Exn) unread extension id)) cs.

(** The filters of a request, each with all its values; the last value of [default] counts. *)
Record WareFilters := {
  wf_id : option (list string); wf_fileId : option (list string); wf_default : list bool
}.

Definition ware_query (f : WareFilters) : WareQuery :=
  {| wq_ids := wf_id f; wq_fileIds := wf_fileId f; wq_default := default true (last (wf_default f)) |}.

(** The catalog of the sender is used, not the one of the named user. *)
Definition getWareSet cl (f : WareFilters) cs :=
  on_catalog (cl_userId cl) (reading (populateWareSet (Exn:=Exn) unread extension (ware_query f))) cs.

Definition deleteWare cl (id : string) cs := on_catalog (cl_userId cl) (removeWare (Exn:=Exn) id) cs.

(** ** Payee schemes *)

Definition getPayeeSchemes cl (default_ : option bool) cs :=
  on_catalog (cl_nodeuser cl) (reading (populatePayeeSchemes (Exn:=Exn)
    {| sf_default := default true default_; sf_start := 0; sf_num := None |})) cs.

Definition getPayeeScheme cl (psId : Z) (default_ : option bool) cs :=
  on_catalog (cl_nodeuser cl) (reading (populatePayeeScheme (Exn:=Exn) psId (default true default_))) cs.

Definition addPayeeScheme cl (description : string) (payees : list SchemePayee) cs :=
  on_catalog (cl_userId cl) (updatePayeeScheme (Exn:=Exn) constraint_error 0 description payees) cs.

(** The id is taken from the path of the request. *)
Definition putPayeeScheme cl (param : string) (description : string) (payees : list SchemePayee) cs :=
  on_catalog (cl_userId cl)
    (updatePayeeScheme (Exn:=Exn) constraint_error (read_u32 param) description payees) cs.

Definition deletePayeeScheme cl (param : string) cs :=
  on_catalog (cl_userId cl) (removePayeeScheme (Exn:=Exn) (read_u32 param)) cs.

(** ** Theorems *)

(** An update of a payee scheme whose id is no number adds a new one. *)
Lemma put_scheme_adds cl d payees cs : putPayeeScheme cl "new" d payees cs = addPayeeScheme cl d payees cs.
Proof. done. Qed.

(** A request is served from one catalog. *)
Lemma on_catalog_others {A} userId (m : io Library (outcome A * list Event)) cs r cs' v :
  on_catalog userId m cs = (r, cs') -> v <> userId -> cs' !! v = cs !! v.
Proof.
  unfold on_catalog. destruct (cs !! userId) as [c|]; [|by intros [= _ <-]].
  destruct (m c) as [r1 c1]. intros [= _ <-] Hv. by rewrite lookup_insert_ne.
Qed.

(** The test of the access tells whether the caller knows the token of the catalog, and nothing else. *)
Lemma netaccessTest_spec cl token cs c known :
  cs !! cl_nodeuser cl = Some c -> cn_faults c = [] -> cn_saved c = None ->
  lb_config (cn_data c) !! "netaccessToken"%string = Some known ->
  (netaccessTest cl token cs).1.1 =
    if String.eqb known token then Ok tt else Raise "bitmunk.catalog.InvalidNetAccessToken".
Proof.
  intros Ec Hf Hs Hk. unfold netaccessTest, on_catalog, reading, ibind, attempt. rewrite Ec.
  assert (getConfigValue "netaccessToken" c = (Ok known, c)) as ->.
  { destruct c as [x s f]. cbn in *. subst. fold (quiet x). unfold getConfigValue. rewrite open_quiet.
    unfold CatalogDb.getConfigValue. erewrite bind_quiet; [|apply select_quiet]. by rewrite Hk. }
  done.
Qed.
End CatalogService.
