(* ===== verification/ListingUpdater.v ===== *)
(** The fiber that keeps the listings of a seller up to date ([cpp/customcatalog/ListingUpdater.cpp]).

    The fiber handles messages one at a time.  What talks to the servers is an operation that runs
    beside the fiber and ends with messages to it; whether an operation can be started and what the
    servers answer are inputs.  [lstep] lets the fiber, its operations, its user and the senders of
    messages take turns in any order. *)
From stdpp Require Import gmap relations.
From S2P Require Import Prelude DynMap Sql Http LibraryDb CatalogDb CustomCatalog.

Local Open Scope Z_scope.
Local Open Scope io_scope.

Inductive UpdaterState := Busy | Idle.

Section ListingUpdater.
Context {Details Exn : Type} `{Json Details} `{Json Exn}.
Context (unread : Details) (extension : string -> string).
Context (split : string -> string -> list string).
Notation ListingUpdate := (ListingUpdate (Details:=Details) (Exn:=Exn)).
Notation ListingResult := (ListingResult (Exn:=Exn)).

Record Updater := {
  lu_userId : Z;
  lu_remote : Z;
  lu_state : UpdaterState;
  lu_updatePending : bool;
  lu_testPending : bool
}.
Implicit Types u : Updater.

Definition new_updater (userId : Z) : Updater :=
  {| lu_userId := userId; lu_remote := -1; lu_state := Idle; lu_updatePending := false;
     lu_testPending := false |}.

Definition set_remote (n : Z) u : Updater :=
  {| lu_userId := lu_userId u; lu_remote := n; lu_state := lu_state u;
     lu_updatePending := lu_updatePending u; lu_testPending := lu_testPending u |}.

Definition set_state (s : UpdaterState) u : Updater :=
  {| lu_userId := lu_userId u; lu_remote := lu_remote u; lu_state := s;
     lu_updatePending := lu_updatePending u; lu_testPending := lu_testPending u |}.

Definition set_updatePending (b : bool) u : Updater :=
  {| lu_userId := lu_userId u; lu_remote := lu_remote u; lu_state := lu_state u;
     lu_updatePending := b; lu_testPending := lu_testPending u |}.

Definition set_testPending (b : bool) u : Updater :=
  {| lu_userId := lu_userId u; lu_remote := lu_remote u; lu_state := lu_state u;
     lu_updatePending := lu_updatePending u; lu_testPending := b |}.

(** ** Messages and operations *)

(** The end of [sendUpdate]; what a message does not have is empty. *)
Record UpdateEnd := {
  ue_error : bool; ue_reset : bool; ue_updateId : string; ue_update : option ListingUpdate;
  ue_result : option ListingResult; ue_schedule : bool
}.

Inductive Message :=
| UpdateRequest
| UpdateResponse (e : UpdateEnd)
| RegisterResponse (registered : option (string * string * string))
| TestNetAccess
| TestNetAccessResponse
| Interrupt.

Inductive Operation :=
| RegisterServerId
| UpdateServerUrl (seller : Seller)
| SendUpdate (update : ListingUpdate).

Definition blank_update : ListingUpdate :=
  {| up_seller := {| sl_userId := 0; sl_serverId := 0; sl_url := "" |}; up_serverToken := "";
     up_updateId := 0; up_newUpdateId := 0; up_updates := []; up_removals := []; up_schemes := [];
     up_schemeRemovals := [] |}.

Definition blank_result : ListingResult :=
  {| lt_updates := []; lt_removals := []; lt_schemes := []; lt_schemeRemovals := []; lt_updateId := "" |}.

(** ** Handlers

    A handler returns the messages the fiber sends to itself, the operation that is started and the
    events.  [started] is the result of [runUserOperation]. *)

Definition Handled : Type := Updater * list Message * option Operation.

(** Where an operation is started the state ends as [Idle] if that succeeds and stays [Busy] if not. *)
Definition start (started : bool) (op : Operation) u : Handled :=
  if started then (set_state Idle u, [], Some op) else (set_state Busy u, [], None).

(** In the last branch it is the other way round. *)
Definition start_update (started : bool) (op : Operation) u : Handled :=
  if started then (set_state Busy u, [], Some op) else (set_state Idle u, [], None).

(** An update that was prepared is sent. *)
Definition send_prepared (started : bool) (r : outcome ListingUpdate) u : Handled :=
  match r with
  | Ok update => start_update started (SendUpdate update) u
  | Raise _ => (u, [], None)
  end.

Definition handleUpdateRequest (started : bool) u : io Library Handled :=
  do! r := attempt (populateSeller (lu_userId u)) in
  match r with
  | Raise _ => iret (u, [], None)
  | Ok (seller, _) =>
      if sl_serverId seller =? 0 then iret (start started RegisterServerId (set_remote (-1) u))
      else if lu_remote u =? -1 then
        do! r := attempt (populateHeartbeatListingUpdate (lu_userId u)) in
        iret (match r with
          | Raise _ => (u, [], None)
          | Ok update => start started (SendUpdate update) u
          end)
      else
        do! r := attempt getUpdateId in
        match r with
        | Raise _ => iret (u, [], None)
        | Ok id =>
            if u32 (id + 1) =? lu_remote u then
              do! r := attempt (populatePendingListingUpdate unread extension split (lu_userId u)) in
              iret (send_prepared started r u)
            else if id =? lu_remote u then
              do! r := attempt (populateNextListingUpdate unread extension split (lu_userId u)) in
              iret (send_prepared started r u)
            else
              do! _ := attempt resetListingUpdateCounter in
              iret (u, [UpdateRequest], None)
        end
  end.

(** The events are those of the catalog. *)
Definition handleUpdateResponse (e : UpdateEnd) u : io Library (Handled * list (Event (Exn:=Exn))) :=
  do! (u, msgs, evs) :=
    if negb (ue_error e) then
      if lu_remote u =? -1 then iret (set_remote (read_u32 (ue_updateId e)) u, [UpdateRequest], [])
      else
        let result := default blank_result (ue_result e) in
        let u := set_remote (read_u32 (lt_updateId result)) u in
        do! (r, evs) := processListingUpdateResponse (default blank_update (ue_update e)) result in
        iret (u, if succeeded r && ue_schedule e then [UpdateRequest] else [], evs)
    else if ue_reset e then
      let u := set_remote (-1) u in
      do! r := attempt resetListingUpdateCounter in
      iret (u, if succeeded r then [UpdateRequest] else [], [])
    else iret (u, [], []) in
  iret ((set_state Idle u, msgs, None), evs).

Definition handleRegisterResponse (r : option (string * string * string)) u
    : io Library (Handled * list string) :=
  match r with
  | Some (serverId, token, url) =>
      do! r := attempt (updateSeller serverId url token) in
      iret ((set_state Idle u, if succeeded r then [UpdateRequest] else [], None), [])
  | None =>
      iret ((set_state Idle u, [], None), ["bitmunk.catalog.ServerIdRegistration.exception"%string])
  end.

Definition handleTestNetAccess (started : bool) u : io Library Handled :=
  if lu_remote u =? -1 then iret (u, [], None)
  else
    do! r := attempt (populateSeller (lu_userId u)) in
    iret (match r with
      | Raise _ => (u, [], None)
      | Ok (seller, _) => start started (UpdateServerUrl seller) u
      end).

(** One round of the loop of [processMessages]: nothing is left after an interrupt. *)
Definition handle (started : bool) (m : Message) u : io Library (option Handled) :=
  match m with
  | UpdateRequest =>
      match lu_state u with
      | Idle => do! h := handleUpdateRequest started (set_updatePending false u) in iret (Some h)
      | Busy => iret (Some (set_updatePending true u, [], None))
      end
  | UpdateResponse e => do! (h, _) := handleUpdateResponse e u in iret (Some h)
  | RegisterResponse r => do! (h, _) := handleRegisterResponse r u in iret (Some h)
  | TestNetAccess =>
      match lu_state u with
      | Idle => do! h := handleTestNetAccess started (set_testPending false u) in iret (Some h)
      | Busy => iret (Some (set_testPending true u, [], None))
      end
  | TestNetAccessResponse => iret (Some (set_state Idle u, [], None))
  | Interrupt => iret None
  end.

(** ** Operations *)

(** [_addPortMapping]: whether gateways were discovered before, the result of a discovery and the one
    of the mapping *)
Definition addPortMapping (known : bool) (discovered : Z) (added : outcome unit) : outcome unit :=
  if known then added
  else if discovered =? 0 then Raise "bitmunk.portmapper.NoUPnPInternetGateways"
  else if discovered <? 0 then Raise ""
  else added.

(** The ports of the mapping *)
Definition mapped_ports (externalPort localPort : Z) : Z * Z :=
  (if externalPort =? 0 then localPort else externalPort, localPort).

(** The world an access test meets: the port of the node, the answers of the servers to the two tests,
    which are an address or an exception, the mapping of a port if one is wanted and possible, and the
    text of the exception that is written down. *)
Record Net := {
  nt_port : string; nt_first : outcome string; nt_mapping : option (outcome unit);
  nt_second : outcome string; nt_report : string
}.

Definition EXCEPTION_NET_ACCESS : string := "bitmunk.mastercatalog.NetAccessTestError".

(** [_doReverseNetTest] *)
Definition doReverseNetTest (nt : Net) (answer : outcome string) : outcome string :=
  outcome_bind answer (fun ip => Ok ("https://" +:+ ip +:+ ":" +:+ nt_port nt)%string).

Definition net_test (nt : Net) : outcome string :=
  match doReverseNetTest nt (nt_first nt) with
  | Ok url => Ok url
  | Raise e =>
      if String.eqb e EXCEPTION_NET_ACCESS then
        match nt_mapping nt with
        | None => Raise e
        | Some (Raise e) => Raise e
        | Some (Ok _) => doReverseNetTest nt (nt_second nt)
        end
      else Raise e
  end.

(** The result of writing to the database is not looked at. *)
Definition testNetAccess (nt : Net) : io Library (outcome string) :=
  do! token := attempt (getConfigValue "netaccessToken") in
  let r := match token with Ok _ => net_test nt | Raise e => Raise e end in
  match r with
  | Ok url => do! _ := attempt (setConfigValue "netaccessException" "") in iret (Ok url)
  | Raise _ =>
      do! _ := attempt (setConfigValue "netaccessException" (nt_report nt)) in
      iret (Raise "bitmunk.catalog.NetAccessTestError")
  end.

(** What the servers answer to an operation: to a registration, to a new url, and to an update. *)
Inductive Answer :=
| Accepted (r : ListingResult)
| UpdateIdNotCurrent (current : string)
| Refused (unknown_seller : bool).

Record World := {
  wo_net : Net; wo_register : option (string * string); wo_url : bool; wo_answer : Answer
}.

Definition registerServerId (w : World) : io Library Message :=
  do! r := testNetAccess (wo_net w) in
  iret (RegisterResponse (match r, wo_register w with
    | Ok url, Some (serverId, token) => Some (serverId, token, url)
    | _, _ => None
    end)).

Definition updateServerUrl (w : World) (seller : Seller) : io Library Message :=
  do! r := testNetAccess (wo_net w) in
  match r with
  | Ok url =>
      if String.eqb (sl_url seller) url then iret TestNetAccessResponse
      else if wo_url w then
        do! _ := attempt (setConfigValue "serverUrl" url) in iret TestNetAccessResponse
      else iret TestNetAccessResponse
  | Raise _ => iret TestNetAccessResponse
  end.

Definition sendUpdate (w : World) (update : ListingUpdate) : Message :=
  UpdateResponse (match wo_answer w with
    | Accepted r =>
        {| ue_error := false; ue_reset := false; ue_updateId := lt_updateId r; ue_update := Some update;
           ue_result := Some r; ue_schedule := negb (no_changes update) |}
    | UpdateIdNotCurrent id =>
        {| ue_error := false; ue_reset := false; ue_updateId := id; ue_update := None;
           ue_result := None; ue_schedule := false |}
    | Refused gone =>
        {| ue_error := true; ue_reset := gone; ue_updateId := ""; ue_update := None;
           ue_result := None; ue_schedule := false |}
    end).

(** The messages an operation ends with: its own, and the request that waited for it. *)
Definition finish_op (w : World) (op : Operation) u : io Library (Updater * list Message) :=
  let after_test u := (set_testPending false u, if lu_testPending u then [TestNetAccess] else []) in
  let after_update u := (set_updatePending false u, if lu_updatePending u then [UpdateRequest] else []) in
  match op with
  | RegisterServerId =>
      do! m := registerServerId w in let '(u, ms) := after_test u in iret (u, m :: ms)
  | UpdateServerUrl seller =>
      do! m := updateServerUrl w seller in let '(u, ms) := after_update u in iret (u, m :: ms)
  | SendUpdate update =>
      let '(u, ms) := after_test u in iret (u, sendUpdate w update :: ms)
  end.

(** ** The system *)

Record System := {
  sy_updater : Updater; sy_inbox : list Message; sy_ops : list Operation; sy_conn : Conn Library;
  sy_running : bool
}.

Definition handled (s : System) (rest : list Message) (r : option Handled) (c : Conn Library) : System :=
  match r with
  | None => {| sy_updater := sy_updater s; sy_inbox := rest; sy_ops := sy_ops s; sy_conn := c;
               sy_running := false |}
  | Some (u, ms, op) =>
      {| sy_updater := u; sy_inbox := rest ++ ms;
         sy_ops := sy_ops s ++ match op with Some op => [op] | None => [] end; sy_conn := c;
         sy_running := true |}
  end.

(** A change by the user of the catalog or the media library *)
Definition with_conn (c : Conn Library) (s : System) : System :=
  {| sy_updater := sy_updater s; sy_inbox := sy_inbox s; sy_ops := sy_ops s; sy_conn := c;
     sy_running := sy_running s |}.

Inductive lstep : System -> System -> Prop :=
| l_message s m rest started :
    sy_running s = true -> sy_inbox s = m :: rest ->
    lstep s (let '(r, c) := handle started m (sy_updater s) (sy_conn s) in handled s rest r c)
| l_operation s w op ops1 ops2 :
    sy_ops s = ops1 ++ op :: ops2 ->
    lstep s (let '((u, ms), c) := finish_op w op (sy_updater s) (sy_conn s) in
             {| sy_updater := u; sy_inbox := sy_inbox s ++ ms; sy_ops := ops1 ++ ops2; sy_conn := c;
                sy_running := sy_running s |})
| l_request s m :
    m = UpdateRequest \/ m = TestNetAccess \/ m = Interrupt ->
    lstep s {| sy_updater := sy_updater s; sy_inbox := sy_inbox s ++ [m]; sy_ops := sy_ops s;
               sy_conn := sy_conn s; sy_running := sy_running s |}
| l_edit {A} s (edit : io Library A) :
    lstep s (with_conn (edit (sy_conn s)).2 s).
End ListingUpdater.
