(* ===== verification/ListingFacts.v ===== *)
(** What holds of the fiber that keeps the listings up to date: with servers that accept everything
    all changes reach them, and what happens when operations cannot be started, answers are lost or
    two operations are under way. *)
From stdpp Require Import gmap relations.
From S2P Require Import Prelude DynMap Sql Http LibraryDb CatalogDb CustomCatalog CatalogFacts ListingUpdater.

Local Open Scope Z_scope.

(** * What is left to send *)

Definition ware_left (w : WareRow) : nat := Nat.b2n (fg_dirty (wr_flags w) || fg_deleted (wr_flags w)).

Definition scheme_left (s : SchemeRow) : nat := Nat.b2n (fg_dirty (sm_flags s)).

Definition left_to_send (x : Library) : nat :=
  sum_list_with ware_left (lb_wares x) + sum_list_with scheme_left (lb_schemes x).

Lemma sum_zero {R} (f : R -> nat) l : sum_list_with f l = 0%nat <-> forall r, r ∈ l -> f r = 0%nat.
Proof.
  induction l as [|r l IH]; cbn; [split; [by intros _ r ?%elem_of_nil|done]|]. split.
  - intros E r' [->|Hin]%elem_of_cons; [lia|]. apply IH; [lia|done].
  - intros Hl. rewrite (Hl r) by (by left). apply IH. intros r' Hr. apply Hl. by right.
Qed.

Lemma nothing_left x : left_to_send x = 0%nat -> unsent x = false.
Proof.
  unfold left_to_send, unsent. intros [Hw Hs]%Nat.eq_add_0. rewrite sum_zero in Hw. rewrite sum_zero in Hs.
  apply orb_false_iff. split.
  - destruct (existsb _ _) eqn:E; [|done]. apply existsb_elem in E as (w & Hin & E).
    specialize (Hw w Hin). unfold ware_left in Hw. by rewrite E in Hw.
  - destruct (existsb _ _) eqn:E; [|done]. apply existsb_elem in E as (s & Hin & E).
    specialize (Hs s Hin). unfold scheme_left in Hs. by rewrite E in Hs.
Qed.

(** Sums over the rows of a table after a change of every row *)
Lemma sum_map {R S} (f : S -> nat) (g : R -> S) l : sum_list_with f (map g l) = sum_list_with (fun r => f (g r)) l.
Proof. induction l as [|r l IH]; [done|]. cbn. by rewrite IH. Qed.

Lemma sum_ext {R} (f g : R -> nat) l : (forall r, f r = g r) -> sum_list_with f l = sum_list_with g l.
Proof. intros E. induction l as [|r l IH]; [done|]. cbn. by rewrite E, IH. Qed.

Lemma sum_delete {R} (f : R -> nat) p l :
  sum_list_with f (delete_rows p l) = sum_list_with (fun r => if p r : bool then 0 else f r)%nat l.
Proof.
  unfold delete_rows. induction l as [|r l IH]; [done|]. cbn. destruct (p r); cbn; by rewrite IH.
Qed.

Lemma sum_le {R} (f g : R -> nat) l :
  (forall r, r ∈ l -> f r <= g r)%nat -> (sum_list_with f l <= sum_list_with g l)%nat.
Proof.
  induction l as [|r l IH]; [done|]. cbn. intros Hl. apply Nat.add_le_mono; [apply Hl; by left|].
  apply IH. intros r' Hr. apply Hl. by right.
Qed.

Lemma sum_lt {R} (f g : R -> nat) l r :
  (forall r, r ∈ l -> f r <= g r)%nat -> r ∈ l -> (f r < g r)%nat ->
  (sum_list_with f l < sum_list_with g l)%nat.
Proof.
  induction l as [|r' l IH]; [by intros _ ?%elem_of_nil|]. cbn. intros Hl.
  assert (forall r, r ∈ l -> f r <= g r)%nat as Hl' by (intros a Ha; apply Hl; by right).
  intros [->|Hin]%elem_of_cons Hr.
  - pose proof (sum_le f g l Hl'). lia.
  - specialize (IH Hl' Hin Hr). pose proof (Hl r' ltac:(by left)). lia.
Qed.

(** ** One round *)

(** What a round makes of a row: nothing, or it is sent. *)
Definition row_marked (f f' : Flags) : Prop :=
  fg_deleted f' = fg_deleted f /\ fg_problem f' = fg_problem f /\
  ((fg_dirty f' = fg_dirty f /\ fg_updating f' = false) \/
   (sending f' = true /\ fg_dirty f || fg_deleted f = true)).

Lemma row_unmarked f : fg_updating f = false -> row_marked f f.
Proof. intros Hu. split; [done|]. split; [done|]. by left. Qed.

Lemma unpending_ware x w : pending x = false -> w ∈ lb_wares x -> fg_updating (wr_flags w) = false.
Proof. intros [Hw _]%orb_false_iff Hin. exact (existsb_none _ _ _ Hw Hin). Qed.

Lemma unpending_scheme x s : pending x = false -> s ∈ lb_schemes x -> fg_updating (sm_flags s) = false.
Proof. intros [_ Hs]%orb_false_iff Hin. exact (existsb_none _ _ _ Hs Hin). Qed.

(** A ware that is picked by its id is one that was looked for. *)
Lemma picked_ware q n x w :
  NoDup (map wr_id (lb_wares x)) -> w ∈ lb_wares x ->
  existsb (String.eqb (wr_id w)) (limit n (map wr_id (List.filter q (lb_wares x)))) = true -> q w = true.
Proof.
  intros Hn Hin E. apply existsb_string_elem, limit_sub, list_elem_of_fmap in E as (w1 & Ei & [Hq Hin1]%elem_of_filter_bool).
  by rewrite (key_inj wr_id _ w w1 Hn Hin Hin1 Ei).
Qed.

(** What is done to each ware by [mark_wares] *)
Definition mark_row (q : WareRow -> bool) (n : Z) (x : Library) (w : WareRow) : WareRow :=
  if existsb (String.eqb (wr_id w)) (limit n (map wr_id (List.filter q (lb_wares x))))
  then set_wr_flags (mark (wr_flags w)) w else w.

Lemma mark_row_id q n x w : wr_id (mark_row q n x w) = wr_id w.
Proof. unfold mark_row. by destruct (existsb _ _). Qed.

Lemma mark_row_cases q n x w :
  NoDup (map wr_id (lb_wares x)) -> w ∈ lb_wares x ->
  mark_row q n x w = w \/ (mark_row q n x w = set_wr_flags (mark (wr_flags w)) w /\ q w = true).
Proof.
  intros Hn Hin. unfold mark_row. destruct (existsb _ _) eqn:E; [right|by left].
  split; [done|]. by eapply picked_ware.
Qed.

Definition unmark_row (x : Library) (w : WareRow) : WareRow :=
  if negb (fg_deleted (wr_flags w)) && fg_updating (wr_flags w) && busy_scheme x (wr_scheme w)
  then set_wr_flags (with_marks true false (wr_flags w)) w else w.

(** Every ware is left alone or sent. *)
Lemma next_marks_wares x :
  pending x = false -> NoDup (map wr_id (lb_wares x)) ->
  exists h, lb_wares (next_marks x) = map h (lb_wares x) /\
    forall w, w ∈ lb_wares x -> wr_id (h w) = wr_id w /\ row_marked (wr_flags w) (wr_flags (h w)).
Proof.
  intros Hp Hn. unfold next_marks. set (x1 := mark_schemes x).
  set (n1 := Z.of_nat MAX_WARE_UPDATES). set (q1 := fun w => fg_deleted (wr_flags w)).
  destruct (mark_wares q1 n1 x1) as [x2 n] eqn:E2.
  assert (lb_wares x2 = map (mark_row q1 n1 x1) (lb_wares x)) as Ew2 by (injection E2 as <- _; done).
  assert (NoDup (map wr_id (lb_wares x2))) as Hn2.
  { rewrite Ew2, map_map. erewrite map_ext; [exact Hn|]. intros w. apply mark_row_id. }
  destruct (0 <? _).
  - set (n2 := i64 _). set (q2 := fun w => fg_dirty (wr_flags w)). set (x3 := (mark_wares q2 n2 x2).1).
    exists (fun w => unmark_row x3 (mark_row q2 n2 x2 (mark_row q1 n1 x1 w))). split.
    { transitivity (map (unmark_row x3) (lb_wares x3)); [done|].
      change (lb_wares x3) with (map (mark_row q2 n2 x2) (lb_wares x2)). by rewrite Ew2, !map_map. }
    intros w Hin. split.
    { transitivity (wr_id (mark_row q2 n2 x2 (mark_row q1 n1 x1 w))); [unfold unmark_row; by destruct (_ && _)|].
      by rewrite !mark_row_id. }
    assert (mark_row q1 n1 x1 w ∈ lb_wares x2) as Hin2 by (rewrite Ew2; by apply (list_elem_of_fmap_2 (mark_row q1 n1 x1))).
    pose proof (unpending_ware _ _ Hp Hin) as Hu.
    pose proof (mark_row_cases q2 n2 x2 _ Hn2 Hin2) as H2. revert H2.
    destruct (mark_row_cases q1 n1 x1 w Hn Hin) as [-> | [-> Hq1]]; intros [-> | [-> Hq2]].
    all: unfold unmark_row, row_marked, sending, q1, q2 in *; clear Hin Hin2; generalize (busy_scheme x3) as busy;
      destruct w as [m i d psId [p [] [] []]]; cbn in *; intros busy; try done.
    all: try (destruct (busy psId)); cbn; tauto.
  - exists (mark_row q1 n1 x1). split; [done|]. intros w Hin. split; [apply mark_row_id|].
    pose proof (unpending_ware _ _ Hp Hin) as Hu.
    destruct (mark_row_cases q1 n1 x1 w Hn Hin) as [-> | [-> Hq]]; [by apply row_unmarked|].
    unfold row_marked, sending, q1 in *. cbn. rewrite Hq, orb_true_r. tauto.
Qed.

Lemma next_marks_scheme_rows x :
  pending x = false -> NoDup (map sm_id (lb_schemes x)) ->
  exists h, lb_schemes (next_marks x) = map h (lb_schemes x) /\
    forall s, s ∈ lb_schemes x -> sm_id (h s) = sm_id s /\ 
      (h s = s \/ (sending (sm_flags (h s)) = true /\ fg_dirty (sm_flags s) = true)).
Proof.
  intros Hp Hn. rewrite next_marks_schemes. eexists. split; [done|]. intros s Hin. cbn.
  destruct (existsb _ _) eqn:E; [|by split; [|left]]. split; [done|]. right. split; [done|].
  apply existsb_Z_elem in E. eapply elem_of_subseteq in E; [|apply sublist_subseteq, sublist_take].
  apply list_elem_of_fmap in E as (s1 & Ei & [Hm Hin1]%elem_of_filter_bool).
  rewrite (key_inj sm_id _ s s1 Hn Hin Hin1 Ei). by apply andb_prop in Hm as [? _].
Qed.

(** What is left of a row after the answer *)
Definition left_after (left : Flags -> nat) (f : Flags) : nat :=
  if purged f then 0 else left (if fg_updating f then with_marks (fg_dirty f) false f else f).

Lemma ware_left_after id x :
  sum_list_with ware_left (lb_wares (acknowledged id x)) =
  sum_list_with (fun w => left_after (fun f => Nat.b2n (fg_dirty f || fg_deleted f)) (wr_flags w)) (lb_wares x).
Proof.
  rewrite acknowledged_wares, sum_map, sum_delete. apply sum_ext. intros w.
  unfold left_after, ware_left. by destruct (purged (wr_flags w)), (fg_updating (wr_flags w)).
Qed.

Lemma acknowledged_schemes id x :
  lb_schemes (acknowledged id x) =
  map (fun s => if fg_updating (sm_flags s) then set_sm_flags (with_marks (fg_dirty (sm_flags s)) false (sm_flags s)) s
                else s) (delete_rows (fun s => purged (sm_flags s)) (lb_schemes x)).
Proof. done. Qed.

Lemma scheme_left_after id x :
  sum_list_with scheme_left (lb_schemes (acknowledged id x)) =
  sum_list_with (fun s => left_after (fun f => Nat.b2n (fg_dirty f)) (sm_flags s)) (lb_schemes x).
Proof.
  rewrite acknowledged_schemes, sum_map, sum_delete. apply sum_ext. intros s.
  unfold left_after, scheme_left. by destruct (purged (sm_flags s)), (fg_updating (sm_flags s)).
Qed.

(** No removal of a ware has failed. *)
Definition no_failed_removal (x : Library) : Prop :=
  forall w, w ∈ lb_wares x -> fg_deleted (wr_flags w) = true -> fg_problem (wr_flags w) = 0.

Lemma ware_progress f f' :
  row_marked f f' -> (fg_deleted f = true -> fg_problem f = 0) ->
  (left_after (fun f => Nat.b2n (fg_dirty f || fg_deleted f)) f' <= Nat.b2n (fg_dirty f || fg_deleted f))%nat /\
  (sending f' = true ->
   (left_after (fun f => Nat.b2n (fg_dirty f || fg_deleted f)) f' < Nat.b2n (fg_dirty f || fg_deleted f))%nat).
Proof.
  destruct f as [p d u e], f' as [p' d' u' e']. unfold row_marked, left_after, purged, sending. cbn.
  intros (-> & -> & [[-> ->] | [[-> ->%negb_true_iff]%andb_prop Hs]]) Hz; cbn.
  - destruct d, e; cbn; split; (lia || done).
  - destruct e; cbn; [rewrite (Hz eq_refl); cbn; split; intros; destruct d; cbn; lia|].
    rewrite orb_false_r in *. subst d. cbn. split; intros; lia.
Qed.

Lemma scheme_progress f f' :
  fg_updating f = false -> f' = f \/ (sending f' = true /\ fg_dirty f = true) ->
  (left_after (fun f => Nat.b2n (fg_dirty f)) f' <= Nat.b2n (fg_dirty f))%nat /\
  (sending f' = true -> (left_after (fun f => Nat.b2n (fg_dirty f)) f' < Nat.b2n (fg_dirty f))%nat).
Proof.
  destruct f as [p d u e], f' as [p' d' u' e']. unfold left_after, purged, sending. cbn.
  intros -> [[= -> -> -> ->] | [[-> ->%negb_true_iff]%andb_prop ->]]; cbn.
  - split; [lia|done].
  - destruct (_ && _); cbn; split; intros; lia.
Qed.

Lemma sent_row {R} (flags : R -> Flags) (k : R -> R) l :
  List.filter (fun r => sending (flags r)) (map k l) <> [] ->
  exists r, r ∈ l /\ sending (flags (k r)) = true.
Proof.
  destruct (List.filter _ _) as [|r l'] eqn:E; [done|intros _].
  assert (r ∈ r :: l') as Hr by left. rewrite <- E in Hr.
  apply elem_of_filter_bool in Hr as [Hr (r0 & -> & Hin)%list_elem_of_fmap]. by exists r0.
Qed.

(** A round in which everything is accepted leaves less to send. *)
Lemma round_progress id x :
  pending x = false -> NoDup (map wr_id (lb_wares x)) -> NoDup (map sm_id (lb_schemes x)) ->
  no_failed_removal x ->
  (left_to_send (acknowledged id (next_marks x)) <= left_to_send x)%nat /\
  (unsent x = true -> left_to_send (acknowledged id (next_marks x)) < left_to_send x)%nat.
Proof.
  intros Hp Hw Hs Hf. unfold left_to_send. rewrite ware_left_after, scheme_left_after.
  destruct (next_marks_wares _ Hp Hw) as (h & Eh & Hh).
  destruct (next_marks_scheme_rows _ Hp Hs) as (g & Eg & Hg).
  pose proof (something_sent _ Hp) as Hsent. unfold sent_wares, sent_schemes in Hsent.
  rewrite Eh, Eg in *. rewrite !sum_map.
  pose proof (fun w Hin => ware_progress _ _ (proj2 (Hh w Hin)) (Hf w Hin)) as Hpw.
  assert (forall s, s ∈ lb_schemes x ->
    sm_flags (g s) = sm_flags s \/ (sending (sm_flags (g s)) = true /\ fg_dirty (sm_flags s) = true)) as Hg'.
  { intros s Hin. destruct (proj2 (Hg s Hin)) as [-> | ?]; [by left|by right]. }
  pose proof (fun s Hin => scheme_progress _ _ (unpending_scheme _ s Hp Hin) (Hg' s Hin)) as Hps.
  pose proof (sum_le _ _ _ (fun w Hin => proj1 (Hpw w Hin))) as Hlw.
  pose proof (sum_le _ _ _ (fun s Hin => proj1 (Hps s Hin))) as Hls.
  split; [by apply Nat.add_le_mono|]. intros Hu.
  destruct (Hsent Hu) as [(w & Hin & Hx)%sent_row | (s & Hin & Hx)%sent_row].
  - apply Nat.add_lt_le_mono; [|done].
    apply (sum_lt _ _ _ w); [intros w' Hw'; exact (proj1 (Hpw w' Hw'))|done|exact (proj2 (Hpw w Hin) Hx)].
  - apply Nat.add_le_lt_mono; [done|].
    apply (sum_lt _ _ _ s); [intros s' Hs'; exact (proj1 (Hps s' Hs'))|done|exact (proj2 (Hps s Hin) Hx)].
Qed.

Lemma unsent_left x : unsent x = false -> left_to_send x = 0%nat.
Proof.
  intros [Hw Hs]%orb_false_iff. apply Nat.eq_add_0. split; apply sum_zero.
  - intros w Hin. unfold ware_left. by rewrite (existsb_none _ _ _ Hw Hin).
  - intros s Hin. unfold scheme_left. by rewrite (existsb_none _ _ _ Hs Hin).
Qed.

(** Without changes nothing is sent. *)
Lemma nothing_sent x :
  pending x = false -> NoDup (map wr_id (lb_wares x)) -> NoDup (map sm_id (lb_schemes x)) ->
  unsent x = false -> sent_wares (next_marks x) = [] /\ sent_schemes (next_marks x) = [].
Proof.
  intros Hp Hw Hs [Hnw Hns]%orb_false_iff. unfold sent_wares, sent_schemes.
  destruct (next_marks_wares _ Hp Hw) as (h & -> & Hh).
  destruct (next_marks_scheme_rows _ Hp Hs) as (g & -> & Hg).
  split; apply filter_nil; intros r (r0 & -> & Hin)%list_elem_of_fmap.
  - destruct (proj2 (Hh r0 Hin)) as (_ & _ & [[_ Hu]|[_ Hl]]).
    + unfold sending. by rewrite Hu.
    + by rewrite (existsb_none _ _ _ Hnw Hin) in Hl.
  - destruct (proj2 (Hg r0 Hin)) as [-> | [_ Hl]].
    + unfold sending. by rewrite (unpending_scheme _ _ Hp Hin).
    + pose proof (existsb_none _ _ _ Hns Hin) as Hn. cbn in Hn. congruence.
Qed.

(** * A round succeeds *)

(** What the updater needs of the settings *)
Definition configured (x : Library) : Prop :=
  (exists v, lb_config x !! "serverId" = Some v /\ read_u32 v <> 0) /\
  is_Some (lb_config x !! "serverUrl") /\ is_Some (lb_config x !! "serverToken") /\
  is_Some (lb_config x !! "updateId").

Definition update_id (x : Library) : Z := read_u32 (default "" (lb_config x !! "updateId")).

Definition server_id (x : Library) : Z := read_u32 (default "" (lb_config x !! "serverId")).

Definition seller_of (userId : Z) (x : Library) : Seller :=
  {| sl_userId := userId; sl_serverId := server_id x; sl_url := default "" (lb_config x !! "serverUrl") |}.

Definition token_of (x : Library) : string := default "" (lb_config x !! "serverToken").

Lemma runs_config name x :
  is_Some (lb_config x !! name) -> runs (CatalogDb.getConfigValue name) x (default "" (lb_config x !! name)) x.
Proof.
  intros [v Ev]. eapply runs_bind; [apply runs_select|]. cbn. rewrite Ev. apply runs_ret.
Qed.

Lemma runs_number name x :
  is_Some (lb_config x !! name) ->
  runs (getConfigNumber name) x (read_u32 (default "" (lb_config x !! name))) x.
Proof. intros Hn. eapply runs_bind; [by apply runs_config|]. apply runs_ret. Qed.

Lemma runs_seller userId x :
  configured x -> runs (CatalogDb.populateSeller userId) x (seller_of userId x, token_of x) x.
Proof.
  intros ((v & Ev & _) & Hu & Ht & _). eapply runs_bind; [apply runs_number; by eexists|].
  eapply runs_bind; [by apply runs_config|]. eapply runs_bind; [by apply runs_config|]. apply runs_ret.
Qed.

Lemma runs_seller_and_id userId x :
  configured x -> runs (seller_and_id userId) x (seller_of userId x, token_of x, update_id x) x.
Proof.
  intros Hc. eapply runs_bind; [by apply runs_seller|]. cbn.
  eapply runs_bind; [by apply runs_number, Hc|]. apply runs_ret.
Qed.

Lemma runs_mark x : pending x = false -> runs markNextListingUpdate x tt (next_marks x).
Proof.
  unfold pending, next_marks. intros [Hw Hs]%orb_false_iff. unfold markNextListingUpdate.
  eapply runs_bind; [apply runs_select|]. rewrite Hw.
  eapply runs_bind; [apply runs_select|]. rewrite Hs.
  eapply runs_bind; [apply (runs_update (fun x => (mark_schemes x, tt)))|].
  eapply runs_bind; [apply runs_update|]. cbn [fst snd].
  destruct (mark_wares _ _ _) as [x2 n]. cbn [fst snd]. destruct (0 <? _); [|apply runs_ret].
  eapply runs_bind; [apply runs_update|]. apply (runs_update (fun x => (unmark_wares x, tt))).
Qed.

Section Runs.
Context {Details Exn : Type} `{Json Details} `{Json Exn}.
Context (unread : Details) (extension : string -> string) (split : string -> string -> list string).

Lemma runs_scheme psId x :
  psId ∈ map sm_id (lb_schemes x) ->
  exists s, runs (CatalogDb.populatePayeeScheme (Exn:=Exn) psId true) x s x.
Proof.
  intros (r & -> & Hin)%list_elem_of_fmap.
  destruct (List.find (fun s => sm_id s =? sm_id r) (lb_schemes x)) as [s|] eqn:E.
  - eexists. eapply runs_bind; [apply runs_select|]. unfold find_scheme. rewrite E. apply runs_ret.
  - eapply find_none in E; [|by apply list_elem_of_In]. cbn in E. by rewrite Z.eqb_refl in E.
Qed.

Lemma runs_updating_schemes rows acc x :
  (forall r, r ∈ rows -> sm_id r ∈ map sm_id (lb_schemes x)) ->
  exists l, runs (updating_schemes (Exn:=Exn) rows acc) x l x.
Proof.
  revert acc. induction rows as [|r rows IH]; intros acc Hr; [eexists; apply runs_ret|].
  destruct (runs_scheme (sm_id r) x) as [s Hs]; [apply Hr; by left|].
  destruct (IH (add_scheme (fg_deleted (sm_flags r)) {| su_id := sm_id r; su_scheme := s |} acc)) as [l Hl].
  { intros r' Hin. apply Hr. by right. }
  exists l. eapply runs_bind; [by apply runs_tried|]. done.
Qed.

Lemma runs_file x mlId :
  1 <= mlId -> mlId ∈ map fl_mlId (lb_files x) ->
  exists fi, runs (LibraryDb.populateFile unread extension "" mlId) x fi x.
Proof.
  intros Hm (f & -> & Hin)%list_elem_of_fmap.
  destruct (List.find (fun r => fl_mlId r =? fl_mlId f) (lb_files x)) as [r|] eqn:E.
  - eexists. apply runs_push. eapply runs_bind; [apply runs_open|]. eapply runs_bind; [apply runs_select|].
    unfold find_file. destruct (Z.eqb_spec (fl_mlId f) 0); [lia|]. rewrite E. apply runs_ret.
  - eapply find_none in E; [|by apply list_elem_of_In]. cbn in E. by rewrite Z.eqb_refl in E.
Qed.

Lemma runs_updating_wares rows acc x :
  catalog_ok x -> (forall w, w ∈ rows -> w ∈ lb_wares x) ->
  exists l, runs (updating_wares unread extension split rows acc) x l x.
Proof.
  intros Hx. revert acc. induction rows as [|w rows IH]; intros acc Hr; [eexists; apply runs_ret|].
  assert (forall w', w' ∈ rows -> w' ∈ lb_wares x) as Hr' by (intros w' Hin; apply Hr; by right).
  cbn [updating_wares]. destruct (fg_deleted (wr_flags w)) eqn:Ed; [by apply IH|].
  destruct (proj1 (Forall_forall _ _) (ok_filed x Hx) w (Hr w ltac:(by left))) as [?|Hm]; [congruence|].
  assert (1 <= wr_mlId w) as Hpos.
  { apply list_elem_of_fmap in Hm as (f & -> & Hf). by apply (proj1 (Forall_forall _ _) (ok_mlIds x Hx)). }
  destruct (runs_file x _ Hpos Hm) as [fi Hfi].
  destruct (IH (acc.1 ++ [{| le_fileInfo := set_fi_path None fi; le_payeeSchemeId := wr_scheme w |}], acc.2)) as [l Hl];
    [done|].
  exists l. eapply runs_bind; [by apply runs_tried|]. done.
Qed.

Lemma runs_listings x :
  catalog_ok x -> exists l, runs (populateUpdatingSellerListings (Exn:=Exn) unread extension split) x l x.
Proof.
  intros Hx.
  destruct (runs_updating_schemes (List.filter (fun r => sending (sm_flags r)) (lb_schemes x)) ([], []) x) as [ss Hss].
  { intros r [_ Hin]%elem_of_filter_bool. by apply (list_elem_of_fmap_2 sm_id). }
  destruct (runs_updating_wares (List.filter (fun w => sending (wr_flags w)) (lb_wares x)) ([], []) x Hx) as [ws Hws].
  { by intros w [_ Hin]%elem_of_filter_bool. }
  exists (ws, ss). eapply runs_bind; [eapply runs_bind; [apply runs_select|exact Hss]|].
  eapply runs_bind; [eapply runs_bind; [apply runs_select|exact Hws]|]. apply runs_ret.
Qed.

Lemma next_marks_ok x : pending x = false -> catalog_ok x -> catalog_ok (next_marks x).
Proof.
  intros Hp Hx. assert (holds catalog_ok (quiet x)) as Hc by (by apply at_rest_holds; split).
  apply (markNextListingUpdate_ok (quiet x)) in Hc.
  change (quiet x) with {| cn_data := x; cn_saved := None; cn_faults := [] |} in Hc.
  rewrite (runs_mark x Hp None) in Hc. by destruct Hc.
Qed.

Lemma committing_quiet {A} (m : sql Library A) x a x' :
  runs m x a x' -> committing m (quiet x) = (Ok a, quiet x').
Proof. intros Hm. unfold committing. rewrite open_quiet. by apply runs_transaction. Qed.

Lemma next_update_quiet userId x :
  catalog_ok x -> pending x = false -> configured x ->
  exists l, populateNextListingUpdate (Exn:=Exn) unread extension split userId (quiet x) =
    (Ok (next_update (seller_of userId x) (token_of x) (update_id x) l), quiet (next_marks x)).
Proof.
  intros Hx Hp Hc. destruct (runs_listings (next_marks x)) as [l Hl]; [by apply next_marks_ok|].
  exists l. apply push_quiet, committing_quiet. eapply runs_bind; [by apply runs_seller_and_id|].
  cbn. eapply runs_bind; [by apply runs_mark|]. eapply runs_bind; [exact Hl|]. apply runs_ret.
Qed.

Lemma runs_take_result (r : ListingResult (Exn:=Exn)) x :
  no_failures r -> runs (take_result r) x ([], []) (acknowledged (lt_updateId r) x).
Proof.
  intros (E1 & E2 & E3 & E4) s. unfold take_result. rewrite E1, E2, E3, E4. reflexivity.
Qed.

Lemma process_quiet (u : ListingUpdate (Details:=Details) (Exn:=Exn)) r x :
  no_failures r ->
  processListingUpdateResponse u r (quiet x) =
    ((Ok tt, result_events u [] []), quiet (acknowledged (lt_updateId r) x)).
Proof.
  intros Hr. unfold processListingUpdateResponse, ibind, attempt.
  by rewrite (push_quiet _ _ _ _ _ (committing_quiet _ _ _ _ (runs_take_result r x Hr))).
Qed.
End Runs.

(** * Servers that accept everything *)

Section Converge.
Context {Details Exn : Type} `{Json Details} `{Json Exn}.
Context (unread : Details) (extension : string -> string) (split : string -> string -> list string).
Context (w : World (Exn:=Exn)).
Notation ListingUpdate := (ListingUpdate (Details:=Details) (Exn:=Exn)).
Notation Operation := (Operation (Details:=Details) (Exn:=Exn)).
Notation System := (System (Details:=Details) (Exn:=Exn)).
Notation handle := (handle unread extension split).

(** The answer to an update without failures: the servers have the new update id. *)
Definition accepted (u : ListingUpdate) : ListingResult (Exn:=Exn) :=
  {| lt_updates := []; lt_removals := []; lt_schemes := []; lt_schemeRemovals := [];
     lt_updateId := print_u64 (up_newUpdateId u) |}.

Definition accepting (op : Operation) : World :=
  {| wo_net := wo_net w; wo_register := wo_register w; wo_url := wo_url w;
     wo_answer := match op with SendUpdate u => Accepted (accepted u) | _ => wo_answer w end |}.

(** The system left alone: the fiber handles its messages, and when there are none an operation ends. *)
Definition serve_step (s : System) : System :=
  if negb (sy_running s) then s else
  match sy_inbox s, sy_ops s with
  | m :: rest, _ => let '(r, c) := handle true m (sy_updater s) (sy_conn s) in handled s rest r c
  | [], op :: ops =>
      let '((u, ms), c) := finish_op (accepting op) op (sy_updater s) (sy_conn s) in
      {| sy_updater := u; sy_inbox := ms; sy_ops := ops; sy_conn := c; sy_running := sy_running s |}
  | [], [] => s
  end.

Fixpoint serve (n : nat) (s : System) : System :=
  match n with O => s | S n => serve n (serve_step s) end.

Lemma serve_app n m s : serve (n + m) s = serve m (serve n s).
Proof. revert s. induction n as [|n IH]; intros s; [done|]. apply IH. Qed.

(** It takes the steps of the system. *)
Lemma serve_steps n s : rtc (lstep unread extension split) s (serve n s).
Proof.
  revert s. induction n as [|n IH]; intros s; [apply rtc_refl|]. etrans; [|apply IH]. clear IH.
  unfold serve_step. destruct (sy_running s) eqn:Er; [cbn [negb]|apply rtc_refl].
  destruct (sy_inbox s) as [|m rest] eqn:Ei; [destruct (sy_ops s) as [|op ops] eqn:Eo; [apply rtc_refl|]|].
  - apply rtc_once. pose proof (l_operation unread extension split s (accepting op) op [] ops Eo) as Hs.
    rewrite Ei, Er in Hs. destruct (finish_op (accepting op) op (sy_updater s) (sy_conn s)) as [[u ms] c].
    exact Hs.
  - apply rtc_once. by apply l_message.
Qed.

Record ready (x : Library) : Prop := {
  rd_ok : catalog_ok x; rd_pending : pending x = false; rd_ids : NoDup (map wr_id (lb_wares x));
  rd_removals : no_failed_removal x; rd_config : configured x
}.

Lemma acknowledged_config id x :
  lb_config (acknowledged id x) = <["updateId" := id]> (lb_config x).
Proof. done. Qed.

Lemma next_marks_config x : lb_config (next_marks x) = lb_config x.
Proof.
  unfold next_marks. destruct (mark_wares _ _ _) as [x2 n] eqn:E. injection E as <- _. by destruct (0 <? _).
Qed.

Lemma acknowledged_ok id x : catalog_ok x -> catalog_ok (acknowledged id x).
Proof.
  intros Hx. set (r := {| lt_updates := []; lt_removals := []; lt_schemes := []; lt_schemeRemovals := [];
    lt_updateId := id |} : ListingResult (Exn:=Exn)).
  assert (holds catalog_ok (quiet x)) as Hc by (by apply at_rest_holds; split).
  apply (take_result_ok r (quiet x)) in Hc.
  change (quiet x) with {| cn_data := x; cn_saved := None; cn_faults := [] |} in Hc.
  rewrite (runs_take_result r x ltac:(done) None) in Hc. by destruct Hc.
Qed.

Lemma round_ready id x : ready x -> ready (acknowledged id (next_marks x)).
Proof.
  intros [Hok Hp Hi Hf Hc]. destruct (next_marks_wares _ Hp Hi) as (h & Eh & Hh). split.
  - by apply acknowledged_ok, next_marks_ok.
  - apply acknowledged_pending.
  - rewrite acknowledged_wares, map_map.
    rewrite (map_ext _ wr_id) by (intros v; by destruct (fg_updating _)).
    apply delete_rows_unique. rewrite Eh, map_map.
    erewrite map_ext_in; [exact Hi|]. intros v Hv%list_elem_of_In. apply (Hh v Hv).
  - intros v. rewrite acknowledged_wares. intros (v1 & -> & [Hv _]%elem_of_delete_rows)%list_elem_of_fmap.
    rewrite Eh in Hv. apply list_elem_of_fmap in Hv as (v0 & -> & Hv).
    destruct (Hh v0 Hv) as (_ & Hd & Hz & _). intros Hdel.
    assert (fg_deleted (wr_flags (h v0)) = true) as Hd1 by (revert Hdel; by destruct (fg_updating _)).
    transitivity (fg_problem (wr_flags (h v0))); [by destruct (fg_updating _)|].
    rewrite Hz. apply (Hf v0 Hv). by rewrite <- Hd.
  - destruct Hc as ((v & Ev & Hv) & Hu & Ht & _). unfold configured.
    rewrite acknowledged_config, next_marks_config. rewrite !lookup_insert_ne by done.
    split; [by exists v|]. split; [done|]. split; [done|]. by rewrite lookup_insert_eq.
Qed.

(** An update has changes exactly if something is left to send. *)
Lemma next_update_changes userId x (u : ListingUpdate) c' :
  ready x -> populateNextListingUpdate (Exn:=Exn) unread extension split userId (quiet x) = (Ok u, c') ->
  no_changes u = negb (unsent x).
Proof.
  intros [Hok Hp Hi Hf Hc] E. destruct (unsent x) eqn:Eu.
  - by apply (changes_if_unsent _ _ _ _ _ _ _ E).
  - destruct (nothing_sent _ Hp Hi (ok_schemes _ Hok) Eu) as [Hw Hs].
    destruct (next_update_sent _ _ _ _ _ _ _ E Hp) as (_ & E1 & E2 & E3 & E4). cbn [quiet cn_data] in *.
    rewrite Hw in E1, E2. rewrite Hs in E3, E4. apply map_eq_nil in E1, E3, E4.
    unfold no_changes. by rewrite E1, E2, E3, E4.
Qed.

(** The fiber has been asked for an update and does nothing else. *)
Definition waiting (u : Updater) (x : Library) : System :=
  {| sy_updater := u; sy_inbox := [UpdateRequest]; sy_ops := []; sy_conn := quiet x; sy_running := true |}.

Definition resting (u : Updater) (x : Library) : System :=
  {| sy_updater := u; sy_inbox := []; sy_ops := []; sy_conn := quiet x; sy_running := true |}.

Record in_step (u : Updater) (x : Library) : Prop := {
  is_idle : lu_state u = Idle; is_untested : lu_testPending u = false; is_remote : lu_remote u = update_id x
}.

Lemma read_u32_range s : 0 <= read_u32 s < 2 ^ 32.
Proof. apply Z.mod_pos_bound. lia. Qed.

Lemma u32_succ n : u32 (n + 1) <> n.
Proof. unfold u32. pose proof (Z.div_mod (n + 1) (2 ^ 32)). lia. Qed.

Lemma request_quiet u x :
  ready x -> in_step u x ->
  exists l, let upd := next_update (seller_of (lu_userId u) x) (token_of x) (update_id x) l in
    populateNextListingUpdate (Exn:=Exn) unread extension split (lu_userId u) (quiet x) =
      (Ok upd, quiet (next_marks x)) /\
    handleUpdateRequest (Exn:=Exn) unread extension split true u (quiet x) =
      ((set_state Busy u, [], Some (SendUpdate upd)), quiet (next_marks x)).
Proof.
  intros [Hok Hp Hi Hf Hc] [Hst Ht Hr].
  destruct (next_update_quiet (Exn:=Exn) unread extension split (lu_userId u) x Hok Hp Hc) as [l El].
  exists l. cbn zeta. split; [done|]. unfold handleUpdateRequest, ibind, attempt.
  assert (CustomCatalog.populateSeller (lu_userId u) (quiet x) =
    (Ok (seller_of (lu_userId u) x, token_of x), quiet x)) as ->.
  { unfold CustomCatalog.populateSeller. rewrite open_quiet. apply push_quiet. by apply runs_seller. }
  assert (getUpdateId (quiet x) = (Ok (update_id x), quiet x)) as Eid.
  { unfold getUpdateId. apply push_quiet. rewrite open_quiet. apply runs_number, Hc. }
  destruct Hc as ((v & Ev & Hv) & _). cbn [seller_of sl_serverId].
  assert (server_id x <> 0) as Hs by (unfold server_id; by rewrite Ev).
  pose proof (read_u32_range (default "" (lb_config x !! "updateId"))) as Hrange.
  fold (update_id x) in Hrange. rewrite Hr.
  destruct (Z.eqb_spec (server_id x) 0); [done|]. destruct (Z.eqb_spec (update_id x) (-1)); [lia|].
  change (reconnect (quiet x)) with (quiet x). rewrite Eid. change (reconnect (quiet x)) with (quiet x).
  destruct (Z.eqb_spec (u32 (update_id x + 1)) (update_id x)) as [E|_].
  { by destruct (u32_succ (update_id x)). }
  rewrite Z.eqb_refl, El. done.
Qed.

Definition sending_update (u : Updater) (upd : ListingUpdate) (x : Library) : System :=
  {| sy_updater := u; sy_inbox := []; sy_ops := [SendUpdate upd]; sy_conn := quiet x; sy_running := true |}.

Lemma serve_operation u upd x :
  lu_testPending u = false ->
  serve_step (sending_update u upd x) =
  {| sy_updater := set_testPending false u; sy_inbox := [sendUpdate (accepting (SendUpdate upd)) upd];
     sy_ops := []; sy_conn := quiet x; sy_running := true |}.
Proof. intros Ht. unfold serve_step. cbn. by rewrite Ht. Qed.

Lemma serve_answer u upd x :
  lu_remote u <> -1 ->
  let id := print_u64 (up_newUpdateId upd) in
  serve_step {| sy_updater := u; sy_inbox := [sendUpdate (accepting (SendUpdate upd)) upd];
                sy_ops := []; sy_conn := quiet x; sy_running := true |} =
  (if no_changes upd then resting else waiting) (set_state Idle (set_remote (read_u32 id) u)) (acknowledged id x).
Proof.
  intros Hr id. unfold serve_step. cbn [negb sy_running sy_inbox sy_updater sy_conn sendUpdate handle].
  unfold handleUpdateResponse, ibind. cbn [ue_error negb wo_answer accepting].
  rewrite (proj2 (Z.eqb_neq _ _) Hr). cbn [ue_result ue_update default].
  rewrite process_quiet by done. cbn -[acknowledged]. by destruct (no_changes upd).
Qed.

(** One round: the request, its operation and the answer *)
Lemma one_round u x :
  ready x -> in_step u x ->
  exists u' x', serve 3 (waiting u x) = (if unsent x then waiting u' x' else resting u' x') /\
    in_step u' x' /\ ready x' /\ (left_to_send x' <= left_to_send x)%nat /\
    (unsent x = true -> left_to_send x' < left_to_send x)%nat.
Proof.
  intros Hx Hu. set (u1 := set_updatePending false u).
  assert (in_step u1 x) as Hu1 by (destruct Hu; by split).
  destruct (request_quiet u1 x Hx Hu1) as (l & En & Eh). set (upd := next_update _ _ _ _) in *. clearbody upd.
  pose proof (next_update_changes _ _ _ _ Hx En) as Hch. set (id := print_u64 (up_newUpdateId upd)).
  assert (serve_step (waiting u x) = sending_update (set_state Busy u1) upd (next_marks x)) as E1.
  { unfold serve_step, waiting. cbn [negb sy_running sy_inbox sy_updater sy_conn handle].
    rewrite (is_idle _ _ Hu). unfold ibind. fold u1. by rewrite Eh. }
  pose proof (read_u32_range (default "" (lb_config x !! "updateId"))) as Hrange. fold (update_id x) in Hrange.
  pose proof (is_remote _ _ Hu) as Hr. pose proof (is_untested _ _ Hu) as Ht.
  exists (set_state Idle (set_remote (read_u32 id) (set_testPending false (set_state Busy u1)))),
    (acknowledged id (next_marks x)).
  split; [|split; [|split; [by apply round_ready|]]].
  - cbn [serve]. rewrite E1, serve_operation by done. rewrite serve_answer by (cbn; lia). rewrite Hch.
    by destruct (unsent x).
  - split; [done|done|]. unfold update_id. rewrite acknowledged_config, lookup_insert_eq. done.
  - destruct Hx as [Hok Hp Hi Hf Hc]. apply round_progress; [done|done|apply Hok|done].
Qed.

Lemma serve_resting n u x : serve n (resting u x) = resting u x.
Proof. induction n as [|n IH]; [done|]. apply IH. Qed.

Lemma rounds_converge n u x :
  ready x -> in_step u x -> (left_to_send x < n)%nat ->
  exists u' x', serve (3 * n) (waiting u x) = resting u' x' /\ in_step u' x' /\ ready x' /\ unsent x' = false.
Proof.
  revert u x. induction n as [|n IH]; intros u x Hx Hu Hn; [lia|].
  destruct (one_round u x Hx Hu) as (u' & x' & E & Hu' & Hx' & Hle & Hlt).
  replace (3 * S n)%nat with (3 + 3 * n)%nat by lia. rewrite serve_app, E. destruct (unsent x) eqn:Eu.
  - apply IH; [done|done|]. specialize (Hlt eq_refl). lia.
  - exists u', x'. rewrite serve_resting. split; [done|]. split; [done|]. split; [done|].
    apply nothing_left. rewrite (unsent_left x Eu) in Hle. lia.
Qed.

(** C24: With servers that accept everything, an update that is asked for is followed by as many as are
    needed: after at most one round more than there are changed and removed wares and changed payee
    schemes, nothing is left to send, the fiber rests, and both sides have the same update id.
    What is needed is that no removal has failed before, that wares differ in their ids, that no
    update is marked, that the seller is registered, that no test of the network access waits, and
    that both sides have the same update id to begin with. *)
Theorem updates_converge u x :
  catalog_ok x -> pending x = false -> NoDup (map wr_id (lb_wares x)) -> no_failed_removal x ->
  configured x -> in_step u x ->
  exists u' x', serve (3 * S (left_to_send x)) (waiting u x) = resting u' x' /\
    rtc (lstep unread extension split) (waiting u x) (resting u' x') /\
    unsent x' = false /\ pending x' = false /\ lu_state u' = Idle /\ lu_remote u' = update_id x'.
Proof.
  intros Hok Hp Hi Hf Hc Hu.
  destruct (rounds_converge (S (left_to_send x)) u x) as (u' & x' & E & [Hst _ Hr] & [_ Hp' _ _ _] & Hun);
    [by split|done|lia|].
  exists u', x'. split; [done|]. split; [rewrite <- E; apply serve_steps|]. done.
Qed.
End Converge.

(** * When things fail *)

Section Failures.
Context {Details Exn : Type} `{Json Details} `{Json Exn}.
Context (unread : Details) (extension : string -> string) (split : string -> string -> list string).
Notation System := (System (Details:=Details) (Exn:=Exn)).
Notation Message := (Message (Details:=Details) (Exn:=Exn)).
Notation lstep := (lstep (Exn:=Exn) unread extension split).

(** The messages that others send to the fiber *)
Definition is_request (m : Message) : bool :=
  match m with UpdateRequest | TestNetAccess | Interrupt => true | _ => false end.

(** The fiber waits for the end of an operation, and there is none. *)
Record stuck (s : System) : Prop := {
  st_busy : lu_state (sy_updater s) = Busy; st_ops : sy_ops s = [];
  st_inbox : Forall (fun m => is_request m = true) (sy_inbox s)
}.

Lemma stuck_step s s' : stuck s -> lstep s s' -> stuck s'.
Proof.
  intros [Hb Ho Hi] Hs. destruct Hs as [s m rest started Hr Em|s w op ops1 ops2 Eo|s m Hm|A s edit].
  - rewrite Em in Hi. apply Forall_cons in Hi as [Hm Hrest].
    destruct m; try done; cbn [handle]; rewrite ?Hb; (split; [done| |]); cbn; rewrite ?Ho, ?app_nil_r; done.
  - rewrite Ho in Eo. by destruct ops1.
  - split; [done|done|]. cbn. apply Forall_app. split; [done|]. apply Forall_singleton. by destruct Hm as [-> |[-> | ->]].
  - by split.
Qed.

Lemma stuck_steps s s' : rtc lstep s s' -> stuck s -> stuck s'.
Proof. induction 1 as [|s s1 s2 Hs _ IH]; [done|]. intros Ht. by apply IH, (stuck_step s). Qed.

Lemma unregistered_request u x :
  is_Some (lb_config x !! "serverId") -> is_Some (lb_config x !! "serverUrl") ->
  is_Some (lb_config x !! "serverToken") -> server_id x = 0 ->
  handleUpdateRequest (Exn:=Exn) unread extension split false u (quiet x) =
    ((set_state Busy (set_remote (-1) u), [], None), quiet x).
Proof.
  intros Hi Hu Ht Hz. unfold handleUpdateRequest, ibind, attempt.
  assert (CustomCatalog.populateSeller (lu_userId u) (quiet x) =
    (Ok (seller_of (lu_userId u) x, token_of x), quiet x)) as ->.
  { unfold CustomCatalog.populateSeller. rewrite open_quiet. apply push_quiet.
    unfold quiet. apply (runs_bind (X:=Library)) with (a := server_id x) (x1 := x); [by apply runs_number|].
    eapply runs_bind; [by apply runs_config|]. eapply runs_bind; [by apply runs_config|]. apply runs_ret. }
  cbn [seller_of sl_serverId]. by rewrite Hz.
Qed.

(** When the operation that registers a seller cannot be started, the fiber waits for an answer
    that never comes: whatever is asked of it later, no operation is started again. *)
Theorem failed_start_sticks s rest x :
  sy_running s = true -> sy_inbox s = UpdateRequest :: rest -> Forall (fun m => is_request m = true) rest ->
  sy_ops s = [] -> lu_state (sy_updater s) = Idle -> sy_conn s = quiet x ->
  is_Some (lb_config x !! "serverId") -> is_Some (lb_config x !! "serverUrl") ->
  is_Some (lb_config x !! "serverToken") -> server_id x = 0 ->
  exists s1, lstep s s1 /\ forall s', rtc lstep s1 s' -> sy_ops s' = [] /\ lu_state (sy_updater s') = Busy.
Proof.
  intros Hr Hi Hrest Ho Hst Hc Hk1 Hk2 Hk3 Hz. eexists.
  split; [exact (l_message unread extension split s _ _ false Hr Hi)|].
  intros s' Hs'. cut (stuck s'); [by intros [? ? ?]|]. apply (stuck_steps _ _ Hs'). cbn [handle]. rewrite Hst.
  unfold ibind. rewrite Hc, (unregistered_request _ x) by done.
  split; [done|cbn; by rewrite Ho|]. cbn. by rewrite app_nil_r.
Qed.

(** An update that the servers do not take, since its update id is not current, counts as done:
    what was marked to be sent is no longer left to send, wares that were to be removed are forgotten,
    and the update id of the catalog is lost. *)
Theorem not_current_counts_as_done u upd w x id :
  lu_remote u <> -1 -> wo_answer w = UpdateIdNotCurrent id ->
  catalog_ok x -> pending x = false -> NoDup (map wr_id (lb_wares x)) -> no_failed_removal x -> unsent x = true ->
  exists x', handle unread extension split true (sendUpdate w upd) u (quiet (next_marks x)) =
      (Some (set_state Idle (set_remote 0 u), [], None), quiet x') /\
    (left_to_send x' < left_to_send x)%nat /\ pending x' = false /\ update_id x' = 0 /\
    (forall v, v ∈ lb_wares (next_marks x) -> sending (wr_flags v) = true -> fg_deleted (wr_flags v) = true ->
       wr_mlId v ∉ map wr_mlId (lb_wares x')).
Proof.
  intros Hr Ha Hok Hp Hi Hf Hu. exists (acknowledged "" (next_marks x)).
  split; [|split; [|split; [|split]]].
  - unfold sendUpdate. rewrite Ha. cbn [handle]. unfold handleUpdateResponse, ibind. cbn [ue_error negb].
    rewrite (proj2 (Z.eqb_neq _ _) Hr). cbn [ue_result ue_update default].
    rewrite process_quiet by done. done.
  - apply round_progress; [done|done|apply Hok|done|done].
  - apply acknowledged_pending.
  - unfold update_id. rewrite acknowledged_config, lookup_insert_eq. done.
  - intros v Hin [Hs Hd]%andb_prop Hdel (v1 & Em & Hin1)%list_elem_of_fmap.
    rewrite acknowledged_wares in Hin1. apply list_elem_of_fmap in Hin1 as (v2 & -> & [Hin2 Hnp]%elem_of_delete_rows).
    assert (wr_mlId v = wr_mlId v2) as Em2 by (rewrite Em; by destruct (fg_updating (wr_flags v2))).
    pose proof (ok_wares _ (next_marks_ok x Hp Hok)) as Hnd.
    rewrite (key_inj wr_mlId _ v v2 Hnd Hin Hin2 Em2) in *. unfold purged in Hnp.
    destruct (next_marks_wares _ Hp Hi) as (h & Eh & Hh). rewrite Eh in Hin2.
    apply list_elem_of_fmap in Hin2 as (v0 & -> & Hin0). destruct (Hh v0 Hin0) as (_ & Ed & Ez & _).
    rewrite Hs, Hdel, Hd, Ez, (Hf v0 Hin0) in Hnp by congruence. done.
Qed.

(** ** Schedules *)

(** A message is handled, the operation at a position ends, or the fiber is sent a request. *)
Inductive Action :=
| Take (started : bool)
| End (n : nat) (w : World (Exn:=Exn))
| Ask (m : Message).

Definition act (a : Action) (s : System) : System :=
  match a with
  | Take started =>
      match sy_running s, sy_inbox s with
      | true, m :: rest => let '(r, c) := handle unread extension split started m (sy_updater s) (sy_conn s) in
                           handled s rest r c
      | _, _ => s
      end
  | End n w =>
      match sy_ops s !! n with
      | Some op =>
          let '((u, ms), c) := finish_op w op (sy_updater s) (sy_conn s) in
          {| sy_updater := u; sy_inbox := sy_inbox s ++ ms; sy_ops := take n (sy_ops s) ++ drop (S n) (sy_ops s);
             sy_conn := c; sy_running := sy_running s |}
      | None => s
      end
  | Ask m =>
      if is_request m
      then {| sy_updater := sy_updater s; sy_inbox := sy_inbox s ++ [m]; sy_ops := sy_ops s;
              sy_conn := sy_conn s; sy_running := sy_running s |}
      else s
  end.

Lemma act_steps a s : rtc lstep s (act a s).
Proof.
  destruct a as [started|n w|m]; cbn [act].
  - destruct (sy_running s) eqn:Er; [|done]. destruct (sy_inbox s) as [|m rest] eqn:Ei; [done|].
    apply rtc_once. by apply l_message.
  - destruct (sy_ops s !! n) as [op|] eqn:Eo; [|done]. apply rtc_once.
    exact (l_operation unread extension split s w op _ _ (eq_sym (take_drop_middle _ _ _ Eo))).
  - destruct (is_request m) eqn:Em; [|done]. apply rtc_once, l_request. destruct m; auto; done.
Qed.

Lemma acts_steps l s : rtc lstep s (foldl (fun s a => act a s) s l).
Proof.
  revert s. induction l as [|a l IH]; intros s; [apply rtc_refl|]. etrans; [apply act_steps|apply IH].
Qed.
End Failures.

(** * Examples *)

Module ListingSample.
Import BitText CatalogSample.

Definition net : Net :=
  {| nt_port := "8200"; nt_first := Ok "10.0.0.1"; nt_mapping := None; nt_second := Raise ""; nt_report := "" |}.

Definition world (a : Answer (Exn:=string)) : World :=
  {| wo_net := net; wo_register := Some ("1", "token")%string; wo_url := true; wo_answer := a |}.

Definition idle (remote : Z) : Updater := set_remote remote (new_updater 900).

(** A user whose ware was removed *)
Definition dropped : Library := run [DropWare "bitmunk:file:2-A"] listed.

Lemma dropped_ok : catalog_ok dropped.
Proof. do 3 apply run_ok. apply no_library_ok. Qed.

Definition no_failed (x : Library) : bool :=
  forallb (fun w => negb (fg_deleted (wr_flags w)) || (fg_problem (wr_flags w) =? 0)) (lb_wares x).

Lemma no_failed_ok x : no_failed x = true -> no_failed_removal x.
Proof.
  intros Hf w Hin Hd. unfold no_failed in Hf. rewrite forallb_forall in Hf.
  specialize (Hf w (proj1 (list_elem_of_In _ _) Hin)). rewrite Hd in Hf. by apply Z.eqb_eq in Hf.
Qed.

Definition has_settings (x : Library) : bool :=
  match lb_config x !! "serverId"%string, lb_config x !! "serverUrl"%string,
        lb_config x !! "serverToken"%string, lb_config x !! "updateId"%string with
  | Some v, Some _, Some _, Some _ => negb (read_u32 v =? 0)
  | _, _, _, _ => false
  end.

Lemma has_settings_ok x : has_settings x = true -> configured x.
Proof.
  unfold has_settings, configured. destruct (lb_config x !! "serverId") as [v|]; [|done].
  destruct (lb_config x !! "serverUrl"), (lb_config x !! "serverToken"), (lb_config x !! "updateId"); try done.
  intros Hv%negb_true_iff%Z.eqb_neq. split; [by exists v|]. split; [by eexists|]. split; by eexists.
Qed.

Lemma updates_converge_witness :
  left_to_send changed = 2%nat /\
  exists u' x', serve false (fun _ => "mp3"%string) splits (world (Refused false)) 9 (waiting (idle 2) changed) =
    resting u' x' /\ unsent x' = false.
Proof.
  assert (left_to_send changed = 2%nat) as El by (vm_compute; reflexivity). split; [done|].
  destruct (updates_converge (Exn:=string) false (fun _ => "mp3"%string) splits (world (Refused false)) (idle 2)
    changed changed_ok) as (u' & x' & E & _ & Hu & _).
  - vm_compute. reflexivity.
  - apply (bool_decide_unpack _). vm_compute. exact Logic.I.
  - apply no_failed_ok. vm_compute. reflexivity.
  - apply has_settings_ok. vm_compute. reflexivity.
  - split; vm_compute; reflexivity.
  - rewrite El in E. exists u', x'. split; [exact E|exact Hu].
Defined.

(** A user without a registered server *)
Definition unregistered : Library :=
  run [Start {| cc_uploadListings := None; cc_listingSyncInterval := None; cc_testNetAccessInterval := None;
                cc_autoSell := None |} 7] no_library.

Lemma failed_start_sticks_witness :
  exists s1, lstep (Exn:=string) false (fun _ => "mp3"%string) splits (waiting (idle (-1)) unregistered) s1 /\
    forall s', rtc (lstep (Exn:=string) false (fun _ => "mp3"%string) splits) s1 s' -> sy_ops s' = [].
Proof.
  destruct (failed_start_sticks (Exn:=string) false (fun _ => "mp3"%string) splits
    (waiting (idle (-1)) unregistered) [] unregistered) as (s1 & Hs & Hall); try reflexivity.
  - constructor.
  - vm_compute. by eexists.
  - vm_compute. by eexists.
  - vm_compute. by eexists.
  - exists s1. split; [exact Hs|]. intros s' H'. by apply Hall.
Defined.

Lemma not_current_counts_as_done_witness :
  left_to_send dropped = 1%nat /\
  exists x', (left_to_send x' < 1)%nat /\ update_id x' = 0.
Proof.
  assert (left_to_send dropped = 1%nat) as El by (vm_compute; reflexivity). split; [done|].
  destruct (not_current_counts_as_done (Exn:=string) false (fun _ => "mp3"%string) splits (idle 2) blank_update
    (world (UpdateIdNotCurrent "5")) dropped "5") as (x' & _ & Hl & _ & Hid & _).
  - done.
  - done.
  - exact dropped_ok.
  - vm_compute. reflexivity.
  - apply (bool_decide_unpack _). vm_compute. exact Logic.I.
  - apply no_failed_ok. vm_compute. reflexivity.
  - vm_compute. reflexivity.
  - exists x'. rewrite <- El. split; [exact Hl|exact Hid].
Defined.

Definition heartbeat_answer : Answer (Exn:=string) :=
  Accepted {| lt_updates := []; lt_removals := []; lt_schemes := []; lt_schemeRemovals := []; lt_updateId := "2" |}.

(** Two requests before the answer to the first heartbeat; its end asks for an update, which is sent,
    and then the second heartbeat ends before the update, which the servers refuse. *)
Definition two_heartbeats : list (Action (Details:=bool) (Exn:=string)) :=
  [Ask UpdateRequest; Take true; Ask UpdateRequest; Take true; End 0 (world heartbeat_answer); Take true; Take true;
   End 0 (world heartbeat_answer); Take true; End 0 (world (Refused false)); Take true].

Abbreviation acted l x :=
  (foldl (fun s a => act false (fun _ => "mp3"%string) splits a s) (resting (Exn:=string) (Details:=bool) (idle (-1)) x) l).

(** Since an operation that is started leaves the fiber idle, a second heartbeat can be sent while the
    answer to the first is not there.  If its answer comes while an update is under way, it is taken for
    the answer to the update: the removal of a ware is forgotten though the servers refuse it. *)
Theorem second_heartbeat_drops_removal :
  map (fun w => fg_deleted (wr_flags w)) (lb_wares dropped) = [true] /\
  lb_wares (cn_data (sy_conn (acted two_heartbeats dropped))) = [] /\
  sy_ops (acted two_heartbeats dropped) = [] /\
  rtc (lstep (Exn:=string) false (fun _ => "mp3"%string) splits) (resting (idle (-1)) dropped) (acted two_heartbeats dropped).
Proof.
  split; [vm_compute; reflexivity|]. split; [vm_compute; reflexivity|]. split; [vm_compute; reflexivity|].
  apply acts_steps.
Qed.
End ListingSample.
