(* ===== verification/Sell.v ===== *)
(** The seller's side of a purchase ([cpp/sell/ContractService.cpp],
    [cpp/sell/UploadThrottlerMap.cpp], [cpp/negotiate/INegotiateModule.cpp]).

    A buyer posts a contract with the section it wants; the seller fills in the ware of its
    catalog, signs the section and adds a key, with which the buyer gets pieces of files later.
    The catalog is the one of the user's database.  The file processor that encrypts pieces, the
    keys of other users and the connection are inputs. *)
From S2P Require Import Prelude DynMap Payees Signer KeyCache Http Btp Serve PerUser Sql LibraryDb MediaLibrary CatalogDb CustomCatalog.

Local Open Scope Z_scope.
Local Open Scope string_scope.

(** * Contracts *)

(** A section as it is exchanged, with the members that are not signed. *)
Record OfferedSection := {
  os_section : ContractSection;
  os_webbuy : option bool;
  os_hash : option string;
  os_peerbuyKey : option string
}.

(** A contract: its media and, for each seller, the sections. *)
Record OfferedContract := {
  oc_media : Signer.Media;
  oc_sections : dmap (list OfferedSection)
}.

(** A section of which nothing is set. *)
Definition blank_section : OfferedSection :=
  {| os_section :=
       {| cs_buyer := {| b_delegateId := None; b_profileId := ""; b_userId := ""; b_username := "" |};
          cs_seller := {| s_profileId := ""; s_serverId := ""; s_url := ""; s_userId := "";
                          s_username := "" |};
          cs_negotiationTerms := [];
          cs_ware := {| w_id := ""; w_mediaId := ""; w_fileInfos := []; w_payees := [] |};
          cs_sellerSignature := None; cs_sellerProfileId := None; cs_buyerSignature := None;
          cs_buyerProfileId := None |};
     os_webbuy := None; os_hash := None; os_peerbuyKey := None |}.

(** [c["sections"][name][0]] *)
Definition first_section (name : string) (c : OfferedContract) : OfferedSection :=
  hd blank_section (default [] (dm_get (oc_sections c) name)).

Definition set_first_section (name : string) (s : OfferedSection) (c : OfferedContract)
  : OfferedContract :=
  {| oc_media := oc_media c;
     oc_sections := dm_set (oc_sections c) name (s :: tl (default [] (dm_get (oc_sections c) name))) |}.

Definition set_oc_media (m : Signer.Media) (c : OfferedContract) : OfferedContract :=
  {| oc_media := m; oc_sections := oc_sections c |}.

Definition set_os_section (cs : ContractSection) (s : OfferedSection) : OfferedSection :=
  {| os_section := cs; os_webbuy := os_webbuy s; os_hash := os_hash s;
     os_peerbuyKey := os_peerbuyKey s |}.

Definition set_os_webbuy (b : bool) (s : OfferedSection) : OfferedSection :=
  {| os_section := os_section s; os_webbuy := Some b; os_hash := os_hash s;
     os_peerbuyKey := os_peerbuyKey s |}.

Definition set_seller_profile (id : Z) (cs : ContractSection) : ContractSection :=
  let s := cs_seller cs in
  {| cs_buyer := cs_buyer cs;
     cs_seller := {| s_profileId := print_u64 id; s_serverId := s_serverId s; s_url := s_url s;
                     s_userId := s_userId s; s_username := s_username s |};
     cs_negotiationTerms := cs_negotiationTerms cs; cs_ware := cs_ware cs;
     cs_sellerSignature := cs_sellerSignature cs; cs_sellerProfileId := cs_sellerProfileId cs;
     cs_buyerSignature := cs_buyerSignature cs; cs_buyerProfileId := cs_buyerProfileId cs |}.

(** * The negotiation of a section *)

Section Negotiate.
Context {Details Exn : Type} `{Json Details} `{Json Exn}.
Context (unread : Details) (extension : string -> string).

(** Whether a server id is equal to a member of a request. *)
Context (same_id : Z -> string -> bool).

(** A payee of the catalog; members that are empty are not set. *)
Definition offered_payee (p : SchemePayee) : Payee :=
  {| payee_id := print_u64 (sp_account p); amountType := sp_amountType p; amountResolved := false;
     amount := sp_amount p; percentage := sp_percentage p;
     payee_min := if (String.length (sp_min p) =? 0)%nat then None else Some (sp_min p);
     description := Some (sp_description p); taxExempt := false; nontaxable := None |}.

Definition offered_file (fi : LibraryDb.FileInfo Details) : Signer.FileInfo :=
  {| Signer.fi_id := fi_id fi; Signer.fi_contentSize := print_u64 (fi_contentSize fi);
     Signer.fi_mediaId := print_u64 (fi_mediaId fi) |}.

(** The ware of the catalog takes the place of the first file, the media and the payees of the
    requested one; further files stay.  The path that is removed is no member of the record. *)
Definition offered_ware (f : @FullWare Details) (w : Signer.Ware) : Signer.Ware :=
  {| w_id := w_id w; w_mediaId := print_u64 (fi_mediaId (fw_fileInfo f));
     w_fileInfos := offered_file (fw_fileInfo f) :: tl (w_fileInfos w);
     w_payees := map offered_payee (fw_payees f) |}.

(** [catalog]: a catalog module is loaded. *)
Definition negotiateContractSection (catalog : bool) (userId : Z) (cs : ContractSection)
  (seller : bool) : sql Library ContractSection :=
  (if negb seller then sret cs
   else if negb catalog then sraise "bitmunk.negotiate.NoCatalog"
   else
     let! s := populateSeller userId in
     if negb (same_id (sl_serverId s.1) (s_serverId (cs_seller cs)))
     then sraise "bitmunk.negotiate.InvalidServerId"
     else
       let! w := populateWare (Exn:=Exn) unread extension (w_id (cs_ware cs)) in
       sret (set_ware (offered_ware w (cs_ware cs)) cs))%sql.
End Negotiate.

(** * The service *)

(** What the node answers: keys of profiles, login data, whether there are modules for
    negotiation and a catalog. *)
Record SellNode (PrivateKey PublicKey : Type) := {
  nd_keys : Z -> Z -> option PublicKey;
  nd_login : Z -> outcome (option (Profile PrivateKey));
  nd_negotiate : bool;
  nd_catalog : bool
}.
Arguments nd_keys {_ _} _ _ _.
Arguments nd_login {_ _} _ _.
Arguments nd_negotiate {_ _} _.
Arguments nd_catalog {_ _} _.

Section Contracts.
Context {PrivateKey PublicKey : Type} `{SignatureScheme PrivateKey PublicKey}.
Context {Details Exn : Type} `{Json Details} `{Json Exn}.
Context (unread : Details) (extension : string -> string) (same_id : Z -> string -> bool).
Context (sha1 : string -> string).
Implicit Types (nd : SellNode PrivateKey PublicKey) (p : Profile PrivateKey).

(** The hash of the section and its signature, which is the key. *)
Definition addPeerBuyKey (s : OfferedSection) p : outcome OfferedSection :=
  let '(cs, hex) := getContractSectionHash sha1 (os_section s) in
  match profile_key p with
  | None => Raise no_pointer
  | Some k => Ok {| os_section := cs; os_webbuy := os_webbuy s; os_hash := Some hex;
                    os_peerbuyKey := Some (bytesToHex (ds_value k hex)) |}
  end.

(** [Exception::push] of [e] on failure; the use of a null pointer is none. *)
Definition failing {A} (e : string) (m : sql Library A) : sql Library A := fun c =>
  match m c with
  | (Raise x, c) => (Raise (if String.eqb x no_pointer then x else e), c)
  | r => r
  end.

(** What happens to a section that has been negotiated. *)
Definition sign_offer (s : OfferedSection) p : outcome OfferedSection :=
  match signContractSection (os_section s) p true with
  | (_, Raise e) => Raise e
  | (cs, Ok _) =>
      let s := set_os_section cs s in
      if default false (os_webbuy s) then Ok s else addPeerBuyKey (set_os_webbuy false s) p
  end.

(** [nodeuser] is the query variable. *)
Definition negotiateContract nd (nodeuser : string) (c : OfferedContract)
  : sql Library OfferedContract :=
  (failing "bitmunk.sell.NegotiationError" (
    match nd_keys nd 1 (snd (default (0, 0) (m_signer (oc_media c)))) with
    | None => sraise ""
    | Some key =>
        let '(m, r) := verifyMedia (oc_media c) key in
        let c := set_oc_media m c in
        match r with
        | Raise _ => sraise "bitmunk.sell.BadMediaSignature"
        | Ok _ =>
            if negb (nd_negotiate nd) then sraise "bitmunk.sell.MissingNegotiateModule" else
            let sellerId := strtoull nodeuser in
            let! profile := lift_outcome (nd_login nd sellerId) in
            let s := first_section nodeuser c in
            let! cs := negotiateContractSection (Exn:=Exn) unread extension same_id (nd_catalog nd)
                         sellerId (os_section s) true in
            match profile with
            | None => sraise no_pointer
            | Some p =>
                let! s := lift_outcome
                  (sign_offer (set_os_section (set_seller_profile (profile_id p) cs) s) p) in
                sret (set_first_section nodeuser s c)
            end
        end
    end))%sql.

(** The key is a signature of what is passed as the hash. *)
Definition verifyPeerBuyKey nd (peerBuyKey csHash : string) (sellerId sellerProfileId : Z)
  : outcome unit :=
  match nd_keys nd sellerId sellerProfileId with
  | None => Raise "bitmunk.sell.InvalidPeerBuyKey"
  | Some key => if ds_verify key csHash (hexToBytes peerBuyKey) then Ok tt
                else Raise "bitmunk.sell.InvalidPeerBuyKey"
  end.
End Contracts.

(** * Throttlers *)

(** [UploadThrottlerMap] has the operations of the map of download throttlers, with the
    configuration of the module that sells. *)
Module UploadThrottlers.
Definition initialize := @Throttlers.initialize.
Definition userLoggedOut := @Throttlers.throttlerLoggedOut.
Definition configChanged := @Throttlers.configChanged.
Definition getUserThrottler := @Throttlers.getUserThrottler.
Arguments initialize {Chain} _ _.
Arguments userLoggedOut {Chain} _ _.
Arguments configChanged {Chain} _ _ _ _.
Arguments getUserThrottler {Chain} _ _ _ _ _.
End UploadThrottlers.

(** * Pieces *)

(** A [FilePiece]: the seller's profile id is a string in the trailer of a response. *)
Record PieceData := {
  pd_index : Z;
  pd_size : Z;
  pd_ciphered : option bool;
  pd_encrypted : option bool;
  pd_openKey : option KeyInfo;
  pd_pieceKey : option KeyInfo;
  pd_sellerSignature : option string;
  pd_sellerProfileId : option string;
  pd_bfpSignature : option string;
  pd_bfpId : Z;
  pd_path : string
}.

(** [fp["index"] = index; fp["size"] = size;] *)
Definition new_piece (index size : Z) : PieceData :=
  {| pd_index := index; pd_size := size; pd_ciphered := None; pd_encrypted := None;
     pd_openKey := None; pd_pieceKey := None; pd_sellerSignature := None;
     pd_sellerProfileId := None; pd_bfpSignature := None; pd_bfpId := 0; pd_path := "" |}.

Definition key_data (k : option KeyInfo) : string := match k with Some k => ki_data k | None => "" end.

(** The piece as the signer sees it. *)
Definition piece_content (d : PieceData) : FilePiece :=
  {| fp_ciphered := pd_ciphered d; fp_index := print_u64 (pd_index d);
     fp_size := print_u64 (pd_size d); fp_openKeyData := key_data (pd_openKey d);
     fp_pieceKeyData := key_data (pd_pieceKey d); fp_sellerSignature := pd_sellerSignature d;
     fp_sellerProfileId := option_map strtoull (pd_sellerProfileId d);
     fp_bfpSignature := pd_bfpSignature d; fp_bfpId := Some (pd_bfpId d) |}.

(** The members [Signer::signFilePiece] sets for a seller. *)
Definition seller_signed (fp : FilePiece) (d : PieceData) : PieceData :=
  {| pd_index := pd_index d; pd_size := pd_size d; pd_ciphered := pd_ciphered d;
     pd_encrypted := pd_encrypted d; pd_openKey := pd_openKey d; pd_pieceKey := pd_pieceKey d;
     pd_sellerSignature := fp_sellerSignature fp;
     pd_sellerProfileId := option_map print_u64 (fp_sellerProfileId fp);
     pd_bfpSignature := pd_bfpSignature d; pd_bfpId := pd_bfpId d; pd_path := pd_path d |}.

(** The request for a piece. *)
Record PieceRequest := {
  pq_csHash : string;
  pq_fileId : string;
  pq_mediaId : Z;
  pq_index : Z;
  pq_size : Z;
  pq_peerbuyKey : string;
  pq_sellerProfileId : Z;
  pq_bfpId : Z
}.

(** What a file processor does: whether it can be initialized with the hash of a section and
    the key of the seller, prepare a file and start with a piece; what it has made of the piece
    after so many reads; the data of the reads, none of which is empty, and how the last one
    ends. *)
Record BfpRun := {
  bf_initialize : string -> string -> outcome unit;
  bf_prepare : outcome unit;
  bf_start : outcome unit;
  bf_piece : PieceData -> nat -> PieceData;
  bf_reads : list string;
  bf_end : outcome unit
}.

(** The loop that copies data to the connection; [write] says which writes succeed.  Whether all
    of them do, how many reads there are and what has been written. *)
Fixpoint copy (write : nat -> bool) (n : nat) (reads : list string) (sent : string)
  : bool * nat * string :=
  match reads with
  | [] => (true, S n, sent)
  | b :: reads => if write n then copy write (S n) reads (sent +:+ b) else (false, S n, sent)
  end.

Section Pieces.
Context {PrivateKey PublicKey : Type} `{SignatureScheme PrivateKey PublicKey} `{HexCheck}.
Context {Hdr : Type} `{HttpHeader Hdr} `{Compression} {D : Type} `{ObjectCodec D}.
Context {Q Chain : Type} (newChain : Z -> Chain).
Context {Details : Type} `{Json Details} (unread : Details) (extension : string -> string).

(** [writePublicKeyToPem], and a trailer without fields. *)
Context (pem : PublicKey -> string) (emptyTrailer : Hdr).
Abbreviation Action := (@Action PrivateKey PublicKey Hdr D Q).

(** The cache of the keys of sellers and the throttlers. *)
Record SellState := {
  sv_sellerKeys : PublicKeyCache PublicKey;
  sv_throttlers : @Throttlers.ThrottlerMap Chain
}.
Implicit Types st : SellState.

(** What the rest of the node and the network do for one request: the key Bitmunk has for a
    seller, the files that exist, the file processors, if there is a module for them, the upload
    rates of the configuration and the writes that succeed. *)
Record SellEnv := {
  se_node : SellNode PrivateKey PublicKey;
  se_bitmunk : Z -> option PublicKey;
  se_exists : string -> bool;
  se_bfp : option (Z -> outcome BfpRun);
  se_globalRate : option Z;
  se_userRate : Z -> option Z;
  se_write : nat -> bool
}.
Implicit Types env : SellEnv.

(** [ContractService::getPublicKey], the source of the cache. *)
Definition sellerKeySource env : PublicKeySource PublicKey := fun uid _ => (se_bitmunk env uid, false).

Definition getSellerKey env (sellerId : Z) st : option PublicKey * SellState :=
  let '(key, _, cache) := KeyCache.getPublicKey sellerId 0
    (KeyCache.setPublicKeySource (Some (sellerKeySource env)) (sv_sellerKeys st)) in
  (key, {| sv_sellerKeys := cache; sv_throttlers := sv_throttlers st |}).

Definition getThrottler env (sellerId : Z) st : SellState :=
  {| sv_sellerKeys := sv_sellerKeys st;
     sv_throttlers := (UploadThrottlers.getUserThrottler newChain sellerId (se_globalRate env)
                         (se_userRate env sellerId) (sv_throttlers st)).1 |}.

(** A piece that has been sent: the header, the content and what is made of it, and the fields of
    the trailer. *)
Record SentPiece := {
  st_header : Hdr;
  st_content : string;
  st_body : string * Trailer;
  st_fields : Hdr
}.

(** The fields of the trailer, in order. *)
Definition piece_fields (d : PieceData) : list (string * string) :=
  [("Bitmunk-Piece-Size", print_u64 (pd_size d));
   ("Bitmunk-Bfp-Signature", default "" (pd_bfpSignature d));
   ("Bitmunk-Seller-Signature", default "" (pd_sellerSignature d));
   ("Bitmunk-Seller-Profile-Id", default "" (pd_sellerProfileId d));
   ("Bitmunk-Open-Key-Algorithm", default "" (ki_algorithm <$> pd_openKey d));
   ("Bitmunk-Open-Key-Data", key_data (pd_openKey d));
   ("Bitmunk-Open-Key-Length", default "" (print_u64 ∘ ki_length <$> pd_openKey d));
   ("Bitmunk-Piece-Key-Algorithm", default "" (ki_algorithm <$> pd_pieceKey d));
   ("Bitmunk-Piece-Key-Data", key_data (pd_pieceKey d));
   ("Bitmunk-Piece-Key-Length", default "" (print_u64 ∘ ki_length <$> pd_pieceKey d))].

Definition set_fields (h : Hdr) (l : list (string * string)) : Hdr :=
  foldl (fun h f => hd_set h f.1 f.2) h l.

(** Reading, writing and signing: what has been written, the piece and the result; nothing if
    there is no profile to sign with, which ends the process.  A piece is signed even if a write
    has failed. *)
Definition read_and_sign env (csHash fileId : string) (profile : option (Profile PrivateKey))
  (run : BfpRun) (d : PieceData) : option (string * PieceData * outcome unit) :=
  match bf_prepare run, bf_start run with
  | Raise e, _ => Some ("", d, Raise e)
  | Ok _, Raise e => Some ("", bf_piece run d 0, Raise e)
  | Ok _, Ok _ =>
      let '(ok, n, sent) := copy (se_write env) 0 (bf_reads run) "" in
      let d := bf_piece run d n in
      match (if ok then bf_end run else Ok tt), profile with
      | Raise e, _ => Some (sent, d, Raise e)
      | Ok _, None => None
      | Ok _, Some p =>
          match signFilePiece csHash fileId (piece_content d) p true with
          | (fp, Ok _) => Some (sent, seller_signed fp d, if ok then Ok tt else Raise "")
          | (_, Raise _) => Some (sent, d, Raise "bitmunk.sell.FilePieceSignError")
          end
      end
  end.

(** Once the header has been sent the body is finished and the trailer follows, whatever fails. *)
Definition sendPiece env (run : BfpRun) (sellerId : Z) (fileId : string) (index size : Z)
  (csHash : string) (a : Action) st : Action * SellState * option SentPiece * outcome unit :=
  let profile := match nd_login (se_node env) sellerId with Ok p => p | Raise _ => None end in
  let '(key, st) := getSellerKey env sellerId st in
  match key with
  | None => (a, st, None, Raise no_pointer)
  | Some key =>
      match bf_initialize run csHash (pem key) with
      | Raise e => (a, st, None, Raise e)
      | Ok _ =>
          let h := hd_set (hd_setStatus (ac_response a) 200 "OK") "Transfer-Encoding" "chunked" in
          let st := getThrottler env sellerId st in
          match sendHeader (ac_outMessage a) h (ac_io a) with
          | Raise e => (set_response h a, st, None, Raise e)
          | Ok (m, h, ds) =>
              match read_and_sign env csHash fileId profile run (new_piece index size) with
              | None => (set_out m (set_response h a), st, None, Raise no_pointer)
              | Some (content, d, r) =>
                  let body := sendBody h ds content in
                  (set_out (set_trailer body.2 m) (set_response h a), st,
                   Some {| st_header := h; st_content := content; st_body := body;
                           st_fields := set_fields emptyTrailer (piece_fields d) |}, r)
              end
          end
      end
  end.

Definition transmit_error : string := "bitmunk.sell.TransmitError".

(** A file that the media library has is sent to whoever has a key that verifies. *)
Definition getFilePiece env (nodeuser : Z) (rq : PieceRequest) (a : Action) st
  : io Library (Action * SellState * option SentPiece * outcome unit) :=
  (let failed st := iret (a, st, None, Raise transmit_error) in
   match verifyPeerBuyKey (se_node env) (pq_peerbuyKey rq) (pq_csHash rq) nodeuser
           (pq_sellerProfileId rq), nd_catalog (se_node env) with
   | Raise _, _ => failed st
   | Ok _, false => iret (a, st, None, Raise no_pointer)
   | Ok _, true =>
       do! fi := attempt (populateFile unread extension (pq_fileId rq) 0) in
       match fi with
       | Raise _ => failed st
       | Ok fi =>
           if negb (se_exists env (default "" (fi_path fi))) then failed st
           else
             match getSellerKey env nodeuser st, se_bfp env with
             | (None, st), _ | (Some _, st), None => failed st
             | (Some _, st), Some create =>
                 match create (pq_bfpId rq) with
                 | Raise _ => failed st
                 | Ok run =>
                     let '(a, st, sent, r) := sendPiece env run nodeuser (fi_id fi) (pq_index rq)
                                                (pq_size rq) (pq_csHash rq) a st in
                     iret (a, st, sent, match r with
                       | Ok _ => Ok tt
                       | Raise e => Raise (if String.eqb e no_pointer then e else transmit_error)
                       end)
                 end
             end
       end
   end)%io.

(** The function of the handler, on the request that is read from the content: without a result
    to send. *)
Definition filePieceFunction env (readRequest : option D -> PieceRequest) st (c : Conn Library)
  (a : Action) (content : option D) : Action * outcome (option D) :=
  let '((a, _, _, r), _) := getFilePiece env (default 0 (ac_nodeuser a)) (readRequest content) a st c in
  (a, match r with Ok _ => Ok None | Raise e => Raise e end).
End Pieces.
