(* ===== verification/PieceDownload.v ===== *)
(** The download of a piece ([cpp/purchase/PieceDownloader.cpp]).

    The fiber of a piece starts an operation that asks the seller for it, writes what it gets to
    a file and takes the rest of the piece from the trailer; then it reports to the manager.
    Rates and the time they are measured in are left out. *)
From S2P Require Import Prelude DynMap Payees Signer Http Btp Client Sell.

Local Open Scope string_scope.
Local Open Scope Z_scope.

(** * The request *)

(** The first file with this id that has a media. *)
Fixpoint media_of_file (fileId : string) (l : list FileInfo) : Z :=
  match l with
  | [] => 0
  | fi :: l =>
      let mediaId := if String.eqb (fi_id fi) fileId then strtoull (fi_mediaId fi) else 0 in
      if mediaId =? 0 then media_of_file fileId l else mediaId
  end.

(** [pieceSize] is the size of all pieces but the last. *)
Definition piece_request (pieceSize : Z) (s : OfferedSection) (fileId : string) (d : PieceData)
  : PieceRequest :=
  {| pq_csHash := default "" (os_hash s); pq_fileId := fileId;
     pq_mediaId := media_of_file fileId (w_fileInfos (cs_ware (os_section s)));
     pq_index := pd_index d; pq_size := pieceSize; pq_peerbuyKey := default "" (os_peerbuyKey s);
     pq_sellerProfileId := u32 (strtoull (s_profileId (cs_seller (os_section s))));
     pq_bfpId := pd_bfpId d |}.

(** [setType(UInt32)] of a string. *)
Definition to_u32 (s : string) : Z := u32 (strtoull s).

Section Download.
Context {PrivateKey PublicKey : Type} `{SignatureScheme PrivateKey PublicKey} `{HexCheck}.
Context {Hdr : Type} `{HttpHeader Hdr} `{Compression} {D : Type} `{ObjectCodec D}.
Abbreviation Message := (@BtpMessage PrivateKey PublicKey Hdr D).

(** The object that is made of a request, the url that is parsed and a new request. *)
Context (requestObject : PieceRequest -> D) (parseUrl : string -> Url) (newRequest : Hdr).

(** What the node and the network do: login data, keys, the exchange with the seller, the fields
    of the trailer, whether the directory of the piece can be made and all data be written. *)
Record PieceEnv := {
  pe_login : outcome (Profile PrivateKey);
  pe_keys : KeySource (PublicKey := PublicKey);
  pe_network : Network (Hdr := Hdr);
  pe_fields : Hdr;
  pe_mkdirs : bool;
  pe_write : bool
}.
Implicit Types env : PieceEnv.

Definition piece_url (s : OfferedSection) : string :=
  let seller := cs_seller (os_section s) in
  s_url seller +:+ "/api/3.0/sales/contract/filepiece?nodeuser=" +:+
  print_u64 (strtoull (s_userId seller)).

(** The message received so far and the header of the response. *)
Definition connect env (userId pieceSize : Z) (s : OfferedSection) (fileId : string) (d : PieceData)
  : outcome (Message * Hdr) :=
  match pe_login env with
  | Raise e => Raise e
  | Ok profile =>
      let out := setDynamicObject (requestObject (piece_request pieceSize s fileId d)) None newMessage in
      let out := setAgentProfile profile (setUserId userId (setType Post out)) in
      let inMsg := setPublicKeySource (pe_keys env) newMessage in
      let url := parseUrl (piece_url s) in
      match createConnection (strtoull (s_userId (cs_seller (os_section s)))) url 120
              (nw_connect (pe_network env)) with
      | Raise e => Raise e
      | Ok _ =>
          match sendMessage url out newRequest (Some inMsg) (pe_network env) with
          | (_, Raise e) => Raise e
          | (Some inMsg, Ok (Some response)) =>
              if pe_mkdirs env then Ok (inMsg, response)
              else Raise "bitmunk.purchase.PieceDownloader.OutputFileWriteError"
          | (_, Ok _) => Raise ""
          end
      end
  end.

(** [getField] into the string that has the field before it. *)
Definition next_field (h : Hdr) (name value : string) : string := default value (hd_get h name).

(** The members of the piece that come from the trailer. *)
Definition take_fields (h : Hdr) (d : PieceData) : PieceData :=
  let size := next_field h "Bitmunk-Piece-Size" "" in
  let bfpSignature := next_field h "Bitmunk-Bfp-Signature" size in
  let sellerSignature := next_field h "Bitmunk-Seller-Signature" bfpSignature in
  let sellerProfileId := next_field h "Bitmunk-Seller-Profile-Id" sellerSignature in
  let openAlgorithm := next_field h "Bitmunk-Open-Key-Algorithm" sellerProfileId in
  let openData := next_field h "Bitmunk-Open-Key-Data" openAlgorithm in
  let openLength := next_field h "Bitmunk-Open-Key-Length" openData in
  let pieceAlgorithm := next_field h "Bitmunk-Piece-Key-Algorithm" openLength in
  let pieceData := next_field h "Bitmunk-Piece-Key-Data" pieceAlgorithm in
  let pieceLength := next_field h "Bitmunk-Piece-Key-Length" pieceData in
  {| pd_index := pd_index d; pd_size := to_u32 size;
     pd_ciphered := Some true; pd_encrypted := Some true;
     pd_openKey := Some {| ki_algorithm := openAlgorithm; ki_length := to_u32 openLength;
                           ki_data := openData |};
     pd_pieceKey := Some {| ki_algorithm := pieceAlgorithm; ki_length := to_u32 pieceLength;
                            ki_data := pieceData |};
     pd_sellerSignature := Some sellerSignature; pd_sellerProfileId := Some sellerProfileId;
     pd_bfpSignature := Some bfpSignature; pd_bfpId := pd_bfpId d; pd_path := pd_path d |}.

(** The data is read and written, then its security is checked: the piece and the data. *)
Definition receive env (inMsg : Message) (response : Hdr) (d : PieceData)
  : outcome (PieceData * string) :=
  match getContentReceiveStream response (nw_content (pe_network env)) inMsg with
  | (_, Raise e, _) => Raise e
  | (inMsg, Ok content, ds) =>
      if negb (pe_write env) then Raise ""
      else
        match mSecurityStatus (checkContentSecurity response (mTrailer inMsg) ds inMsg) with
        | Breach => Raise "bitmunk.protocol.Security"
        | _ => Ok (take_fields (pe_fields env) d, content)
        end
  end.

Inductive PieceEvent := PieceStarted | PieceFinished | PieceException (e : string).

(** [download]: the result is the message to the fiber. *)
Definition download env (userId pieceSize : Z) (s : OfferedSection) (fileId : string) (d : PieceData)
  : list PieceEvent * outcome (PieceData * string) :=
  match connect env userId pieceSize s fileId d with
  | Raise e => ([], Raise e)
  | Ok (inMsg, response) => ([PieceStarted], receive env inMsg response d)
  end.
End Download.

(** * The fiber *)

(** The messages of the fiber: an interruption, for the downloader with this id, and the end of
    the operation. *)
Inductive PieceMessage :=
| PieceInterrupt (id : Z) (pause : bool)
| PieceReceived
| PieceFailed (e : string).

Record PieceFiber := {
  pf_interrupted : bool;
  pf_received : bool;
  pf_done : bool;
  pf_stopped : bool;
  pf_events : list PieceEvent
}.

Definition start_fiber : PieceFiber :=
  {| pf_interrupted := false; pf_received := false; pf_done := false; pf_stopped := false;
     pf_events := [] |}.

Definition interrupted_error : string := "bitmunk.purchase.PieceDownloader.interrupted".

(** [pf_stopped]: the operation has been interrupted. *)
Definition take_message (uniqueId : Z) (f : PieceFiber) (msg : PieceMessage) : PieceFiber :=
  match msg with
  | PieceInterrupt id pause =>
      if id =? uniqueId then
        {| pf_interrupted := true; pf_received := pf_received f; pf_done := pf_done f;
           pf_stopped := true;
           pf_events := pf_events f ++ (if pause then [] else [PieceException interrupted_error]) |}
      else f
  | PieceReceived =>
      {| pf_interrupted := pf_interrupted f; pf_received := true; pf_done := true;
         pf_stopped := pf_stopped f; pf_events := pf_events f ++ [PieceFinished] |}
  | PieceFailed e =>
      {| pf_interrupted := pf_interrupted f; pf_received := pf_received f; pf_done := true;
         pf_stopped := pf_stopped f;
         pf_events := pf_events f ++ (if pf_interrupted f then [] else [PieceException e]) |}
  end.

(** The messages come in batches, each of which is taken as a whole; nothing if they end before
    the operation has. *)
Fixpoint await (uniqueId : Z) (batches : list (list PieceMessage)) (f : PieceFiber) : option PieceFiber :=
  if pf_done f then Some f
  else match batches with
       | [] => None
       | l :: batches => await uniqueId batches (foldl (take_message uniqueId) f l)
       end.

(** What the parent is told, besides the data the fiber was started with. *)
Inductive PieceReport := ReportStarted (d : PieceData) | ReportReceived (d : PieceData) | ReportFailed (d : PieceData).

(** The reports to the parent and the events; [after] is the piece with the fields of the trailer. *)
Definition processMessages (uniqueId : Z) (before after : PieceData) (batches : list (list PieceMessage))
  : option (list PieceReport * list PieceEvent) :=
  match await uniqueId batches start_fiber with
  | None => None
  | Some f =>
      Some ([ReportStarted before; if pf_received f then ReportReceived after else ReportFailed before], pf_events f)
  end.
