(* ===== verification/SellFacts.v ===== *)
(** Theorems about the two sides of a sale: what a negotiated section is worth to the buyer, what
    a key for pieces opens, and what the buyer makes of the pieces the seller sends. *)
From stdpp Require Import pretty.
From S2P Require Import Prelude DynMap Money Payees Signer SellerPicker DownloadState Negotiator Http Btp Client Serve KeyCache Sql LibraryDb MediaLibrary CatalogDb CustomCatalog Sell PieceDownload.

Local Open Scope string_scope.
Local Open Scope Z_scope.

(** * The content of a section *)

(** What a payee adds to the content, and what the visit makes of it. *)
Definition payee_text (p : Payee) : string := (appendPayeeContent p "").2.

Definition visited (p : Payee) : Payee := (appendPayeeContent p "").1.

Lemma appendPayeeContent_text p str : appendPayeeContent p str = (visited p, str +:+ payee_text p).
Proof.
  unfold visited, payee_text, appendPayeeContent.
  repeat case_match; cbn [fst snd]; by rewrite ?string_app_assoc.
Qed.

Definition payees_text (ps : list Payee) : string := foldr (fun p s => payee_text p +:+ s) "" ps.

Lemma appendPayees_text ps str : appendPayees ps str = (map visited ps, str +:+ payees_text ps).
Proof.
  revert str. induction ps as [|p ps IH]; intros str; cbn [appendPayees payees_text foldr map].
  - by rewrite string_app_nil_r.
  - rewrite appendPayeeContent_text, IH. f_equal. by rewrite <-string_app_assoc.
Qed.

Lemma visited_visited p : visited (visited p) = visited p.
Proof. by destruct p as [? ? ? ? ? ? ? ? [|]]. Qed.

Lemma visited_text p : payee_text (visited p) = payee_text p.
Proof. by destruct p as [? ? ? ? ? ? ? ? [|]]. Qed.

Lemma visited_texts ps : payees_text (map visited ps) = payees_text ps.
Proof.
  unfold payees_text. induction ps as [|p ps IH]; [done|]. cbn [map foldr]. by rewrite visited_text, IH.
Qed.

(** The part of the content of a section before its payees. *)
Definition section_prefix (cs : ContractSection) : string :=
  (appendContractSectionContent (set_ware_payees [] cs) "").2.

Definition section_text (cs : ContractSection) : string :=
  section_prefix cs +:+ payees_text (w_payees (cs_ware cs)).

Lemma section_content cs :
  appendContractSectionContent cs "" =
  (set_ware_payees (map visited (w_payees (cs_ware cs))) cs,
   section_text cs).
Proof.
  unfold section_text, section_prefix, appendContractSectionContent, appendWareContent. cbn.
  by rewrite appendPayees_text.
Qed.

Lemma section_prefix_payees ps cs : section_prefix (set_ware_payees ps cs) = section_prefix cs.
Proof. done. Qed.

Lemma section_prefix_signed {K} cs sig (p : Profile K) seller :
  section_prefix (section_signed cs sig p seller) = section_prefix cs.
Proof. by destruct seller. Qed.

Lemma section_text_signed {K} cs sig (p : Profile K) seller :
  section_text (section_signed (set_ware_payees (map visited (w_payees (cs_ware cs))) cs) sig p seller) =
  section_text cs.
Proof.
  unfold section_text. rewrite section_prefix_signed, section_prefix_payees.
  destruct seller; cbn; by rewrite visited_texts.
Qed.

(** Whether resolution leaves the content of a payee as it is. *)
Definition settled_already (p : Payee) : bool := is_flat p || amountResolved p.

(** What resolution makes of a payee, as far as its content goes. *)
Definition resolved_from (p p' : Payee) : Prop :=
  payee_shape p' = payee_shape p /\ amountResolved p' = true /\
  (settled_already p = true -> amount p' = amount p).

Lemma resolved_text p p' : resolved_from p p' ->
  if settled_already p then payee_text p' = payee_text p
  else exists a b, payee_text p = payee_id p +:+ amountType p +:+ "0" +:+ a /\
                   payee_text p' = payee_id p +:+ amountType p +:+ "1" +:+ b.
Proof.
  intros (Hs & Hr & Ha). destruct p as [i t r a pc mn ds tx nt], p' as [i' t' r' a' pc' mn' ds' tx' nt'].
  unfold payee_shape, set_amount, set_resolved in Hs. simpl in *. injection Hs as -> -> -> -> -> -> ->. subst r'.
  unfold settled_already, is_flat, payee_text, appendPayeeContent in *. simpl in *.
  destruct (String.eqb t PAYEE_AMOUNT_TYPE_FLATFEE) eqn:Et; simpl in *.
  - rewrite Ha by done. by destruct nt.
  - destruct r; [rewrite Ha by done; by destruct nt|].
    destruct ds as [d|]; destruct nt as [n|]; simpl; eexists _, _; split;
      by rewrite ?string_app_assoc.
Qed.

Lemma resolved_texts ps ps' : Forall2 resolved_from ps ps' ->
  payees_text ps' = payees_text ps <-> Forall (fun p => settled_already p = true) ps.
Proof.
  unfold payees_text. induction 1 as [|p p' ps ps' Hp _ IH]; cbn [foldr]; [by split|].
  rewrite Forall_cons, <-IH. apply resolved_text in Hp. destruct (settled_already p).
  - rewrite Hp. split; [|by intros [_ ->]]. intros E. split; [done|]. by apply (inj (String.append _)) in E.
  - destruct Hp as (a & b & -> & ->). split; [|by intros [? _]].
    rewrite !string_app_assoc. intros E. by do 2 apply (inj (String.append _)) in E.
Qed.

Section Signed.
Context {PrivateKey PublicKey : Type} `{SignatureLaws PrivateKey PublicKey}.
Implicit Types (p : Profile PrivateKey) (k : PrivateKey).

(** The section that signing makes. *)
Definition signed_with (k : PrivateKey) p (seller : bool) (cs : ContractSection) : ContractSection :=
  section_signed (set_ware_payees (map visited (w_payees (cs_ware cs))) cs)
    (bytesToHex (ds_value k (section_text cs))) p seller.

Lemma signContractSection_with cs p k seller :
  profile_key p = Some k -> signContractSection cs p seller = (signed_with k p seller cs, Ok tt).
Proof.
  intros Hk. unfold signContractSection, signed_with, sign. rewrite section_content, Hk. done.
Qed.

Lemma signed_with_text cs p k seller : section_text (signed_with k p seller cs) = section_text cs.
Proof. apply section_text_signed. Qed.

Lemma verify_own_text k c : verify (public_key k) c (bytesToHex (ds_value k c)) = Ok tt.
Proof. unfold verify. by rewrite hex_round, verify_own. Qed.

Lemma verify_other_text k c c' : signatures_exact (PrivateKey := PrivateKey) ->
  succeeded (verify (public_key k) c' (bytesToHex (ds_value k c))) = true <-> c' = c.
Proof.
  intros Hx. split; [|by intros ->; rewrite verify_own_text].
  unfold verify. rewrite hex_round. destruct (ds_verify _ _ _) eqn:E; [|done]. intros _. by eapply Hx.
Qed.

(** A section the seller has signed, whose payees are replaced before the buyer signs it. *)
Lemma verify_both cs p k q kq payees :
  signatures_exact (PrivateKey := PrivateKey) ->
  (verifyContractSection (signed_with kq q false (set_ware_payees payees (signed_with k p true cs)))
     (public_key k) (Some (public_key kq))).2 = SectionOk <->
  payees_text payees = payees_text (w_payees (cs_ware cs)).
Proof.
  intros Hx. set (cs1 := set_ware_payees payees (signed_with k p true cs)).
  assert (section_text cs1 = section_prefix cs +:+ payees_text payees) as Ht by done.
  unfold verifyContractSection.
  change (cs_sellerSignature (signed_with kq q false cs1))
    with (Some (bytesToHex (ds_value k (section_text cs)))).
  change (cs_buyerSignature (signed_with kq q false cs1))
    with (Some (bytesToHex (ds_value kq (section_text cs1)))).
  rewrite section_content, signed_with_text. cbn [snd default]. rewrite verify_own_text. cbn [succeeded].
  destruct (succeeded (verify (public_key k) _ _)) eqn:E.
  - apply verify_other_text in E; [|done]. rewrite Ht in E. unfold section_text in E.
    split; [|done]. intros _. by apply (inj (String.append _)) in E.
  - split; [done|]. intros Hp. rewrite Ht, Hp in E. by rewrite verify_own_text in E.
Qed.
End Signed.

Section Resolution.
Context {D : Type} `{BigDecimalLaws D}.

Lemma resolve_from ps (lic : option D) : Forall2 resolved_from ps (resolvePayeeAmounts ps lic).1.
Proof.
  destruct (resolvePayeeAmounts ps lic) as [ps' total] eqn:E.
  apply resolve_spec in E as (Hlen & Hk & _). cbn [fst].
  apply Forall2_same_length_lookup. split; [done|]. intros i p p' Hp Hp'.
  destruct (Hk _ _ _ Hp Hp') as (Hs & Hr & Hf & Hn). split_and!; [done..|].
  unfold settled_already. destruct (is_flat p); [by intros _; apply Hf|]. simpl. intros Hres.
  destruct (Hn eq_refl) as (base & (_ & _ & Ha) & _). by rewrite Ha, Hres.
Qed.

Context {T PrivateKey PublicKey : Type} `{SignatureLaws PrivateKey PublicKey}.

Lemma verifySection_signs (ds : DownloadState T) fileId q kq cs sd cs2 sd2 :
  profile_key q = Some kq ->
  verifySection (D := D) (PublicKey := PublicKey) ds fileId q cs sd = (Ok tt, cs2, sd2) ->
  cs2 = signed_with kq q false (set_ware_payees
    (resolvePayeeAmounts (w_payees (cs_ware cs)) (Some (bd_of_string (ds_licenseAmount ds) : D))).1 cs).
Proof.
  intros Hq. unfold verifySection, checkSectionPrice.
  destruct (resolvePayeeAmounts _ _) as [payees total]. destruct (bd_gtb total _); [done|].
  rewrite (signContractSection_with _ _ _ _ Hq). intros E%(f_equal (fun x => x.1.2)). by symmetry.
Qed.

(** C14: A section the seller has signed still verifies with both keys after the buyer has found
    its price acceptable and signed it if and only if all payees of its ware are flat fees or have
    been resolved before: the buyer resolves the amounts of the other payees in place, which
    changes the content the seller has signed. *)
Theorem buyer_signs_other_content (ds : DownloadState T) fileId cs ps ks pb kb cs1 cs2 sd sd2 :
  signatures_exact (PrivateKey := PrivateKey) -> profile_key ps = Some ks -> profile_key pb = Some kb ->
  signContractSection cs ps true = (cs1, Ok tt) ->
  verifySection (D := D) (PublicKey := PublicKey) ds fileId pb cs1 sd = (Ok tt, cs2, sd2) ->
  (verifyContractSection cs2 (public_key ks) (Some (public_key kb))).2 = SectionOk <->
  Forall (fun p => settled_already p = true) (w_payees (cs_ware cs)).
Proof.
  intros Hx Hs Hb. rewrite (signContractSection_with _ _ _ _ Hs). intros E.
  assert (cs1 = signed_with ks ps true cs) as -> by (by apply (f_equal fst) in E). clear E.
  intros ->%(verifySection_signs _ _ _ _ _ _ _ _ Hb).
  rewrite verify_both by done. rewrite <-(visited_texts (w_payees (cs_ware cs))), resolved_texts by apply resolve_from.
  rewrite Forall_map. apply Forall_iff. by intros [? ? ? ? ? ? ? ? [|]].
Qed.
End Resolution.

(** * Negotiation *)

(** A program that changes nothing and gives what satisfies [P] if it succeeds. *)
Definition yields {A} (x : Library) (m : sql Library A) (P : A -> Prop) : Prop :=
  triple (fun _ => True) (eq x) m (fun a y => x = y /\ P a).

Section Reads.
Context {A B : Type} (x : Library).
Implicit Types (P : A -> Prop) (Q : B -> Prop).

Lemma yields_ret (a : A) P : P a -> yields x (sret a) P.
Proof. intros Ha. by apply triple_ret. Qed.

Lemma yields_raise e P : yields x (sraise e) P.
Proof. by apply triple_raise. Qed.

Lemma yields_bind (m : sql Library A) P (k : A -> sql Library B) Q :
  yields x m P -> (forall a, P a -> yields x (k a) Q) -> yields x (sbind m k) Q.
Proof.
  intros Hm Hk. eapply triple_bind; [exact Hm|]. intros a c [Hx Ha] Hs. by apply (Hk a Ha).
Qed.

Lemma yields_push e (m : sql Library A) P : yields x m P -> yields x (push e m) P.
Proof. apply triple_push. Qed.

Lemma yields_failing e (m : sql Library A) P : yields x m P -> yields x (failing e m) P.
Proof.
  intros Hm c Hc Hs. destruct (Hm c Hc Hs) as [Hs' Hr]. unfold failing. by destruct (m c) as [[a|y] c'].
Qed.

Lemma failing_ok e (m : sql Library A) c a c' : failing e m c = (Ok a, c') <-> m c = (Ok a, c').
Proof. unfold failing. by destruct (m c) as [[b|y] c1]. Qed.

Lemma yields_select (f : Library -> A) : yields x (select f) (fun a => a = f x).
Proof. eapply triple_conseq; [by apply triple_select|done|]. intros a y [<- ->]. done. Qed.

Lemma yields_open : yields x open_connection (fun _ => True).
Proof. eapply triple_conseq; [by apply triple_open|done|]. done. Qed.

Lemma yields_lift (o : outcome A) : yields x (lift_outcome o) (fun a => o = Ok a).
Proof. destruct o; [by apply yields_ret|apply yields_raise]. Qed.

Lemma yields_weaken (m : sql Library A) P P' : (forall a, P a -> P' a) -> yields x m P -> yields x m P'.
Proof. intros HP Hm. eapply triple_conseq; [exact Hm|done|]. intros a y [-> Ha]. auto. Qed.

Lemma yields_ok (m : sql Library A) P c a c' :
  yields x m P -> cn_data c = x -> m c = (Ok a, c') -> P a.
Proof.
  intros Hm Hc E. destruct (Hm c (eq_sym Hc) (fun _ _ => Logic.I)) as [_ Hr]. rewrite E in Hr. apply Hr.
Qed.
End Reads.

Ltac yield_step :=
  lazymatch goal with
  | |- yields _ (sret _) _ => apply yields_ret
  | |- yields _ (sraise _) _ => apply yields_raise
  | |- yields _ (push _ _) _ => apply yields_push
  | |- yields _ (failing _ _) _ => apply yields_failing
  | |- yields _ (sbind (select _) _) _ => eapply yields_bind; [apply yields_select|intros ? ->]
  | |- yields _ (sbind open_connection _) _ => eapply yields_bind; [apply yields_open|intros ? _]
  | |- yields _ (sbind (lift_outcome _) _) _ => eapply yields_bind; [apply yields_lift|intros ? [= <-]]
  end.

Section Negotiation.
Context {Details Exn : Type} `{Json Details} `{Json Exn}.
Context (unread : Details) (extension : string -> string) (same_id : Z -> string -> bool).
Implicit Types (x : Library) (w : @FullWare Details).

Lemma yields_config x name : yields x (CatalogDb.getConfigValue name) (fun _ => True).
Proof.
  unfold CatalogDb.getConfigValue. repeat yield_step. case_match; repeat yield_step. done.
Qed.

(** The server id of the seller, as the settings have it. *)
Definition catalog_serverId x : Z := read_u32 (default "" (lb_config x !! "serverId")).

(** What the catalog has for a ware: a row that is not removed, its file and its payees. *)
Definition catalog_ware x (id : string) w : Prop := exists r f s problem,
  find_ware id x = Some r /\ fg_deleted (wr_flags r) = false /\
  find_file "" (wr_mlId r) x = Some f /\ fw_fileInfo w = row_info unread extension f /\
  find_scheme (wr_scheme r) x = Some (s, problem, fw_payees w).

Lemma yields_seller x userId :
  yields x (populateSeller userId) (fun s => sl_serverId s.1 = catalog_serverId x).
Proof.
  unfold populateSeller, CatalogDb.populateSeller, getConfigNumber. repeat yield_step.
  eapply yields_bind with (P := fun n => n = catalog_serverId x).
  { eapply yields_bind with (P := fun v => lb_config x !! "serverId" = Some v).
    - unfold CatalogDb.getConfigValue. repeat yield_step. case_match; by repeat yield_step.
    - intros v Hv. yield_step. unfold catalog_serverId. by rewrite Hv. }
  intros n ->. do 2 (eapply yields_bind; [apply yields_config|intros ? _]). by yield_step.
Qed.

Lemma yields_file x id mlId :
  yields x (LibraryDb.populateFile unread extension id mlId)
    (fun fi => exists f, find_file id mlId x = Some f /\ fi = row_info unread extension f).
Proof.
  unfold LibraryDb.populateFile, database_client. repeat yield_step.
  destruct (find_file id mlId x) as [f|]; repeat yield_step. by exists f.
Qed.

Lemma yields_ware x id :
  yields x (populateWare (Exn:=Exn) unread extension id) (catalog_ware x id).
Proof.
  unfold populateWare, CatalogDb.populateWare. repeat yield_step.
  destruct (find_ware id x) as [r|] eqn:Er; [|yield_step]. destruct (fg_deleted _) eqn:Ed; [yield_step|].
  eapply yields_bind; [apply yields_file|]. intros fi (f & Ef & ->).
  eapply yields_bind with (P := fun s => exists row problem, find_scheme (wr_scheme r) x = Some (row, problem, os_payees s)).
  { unfold CatalogDb.populatePayeeScheme. yield_step. destruct (find_scheme _ _) as [[[row problem] ps]|] eqn:Es; [|yield_step].
    yield_step. by exists row, problem. }
  intros s (row & problem & Es). yield_step. by exists r, f, row, problem.
Qed.

Lemma yields_section x userId cs :
  yields x (negotiateContractSection (Exn:=Exn) unread extension same_id true userId cs true)
    (fun cs' => same_id (catalog_serverId x) (s_serverId (cs_seller cs)) = true /\
       exists w, catalog_ware x (w_id (cs_ware cs)) w /\ cs' = set_ware (offered_ware w (cs_ware cs)) cs).
Proof.
  unfold negotiateContractSection. cbn [negb]. eapply yields_bind; [apply yields_seller|].
  intros s ->. destruct (same_id _ _) eqn:Es; cbn [negb]; [|yield_step].
  eapply yields_bind; [apply yields_ware|]. intros w Hw. yield_step. eauto.
Qed.
End Negotiation.

Section Offers.
Context {PrivateKey PublicKey : Type} `{SignatureLaws PrivateKey PublicKey}.
Context {Details Exn : Type} `{Json Details} `{Json Exn}.
Context (unread : Details) (extension : string -> string) (same_id : Z -> string -> bool).
Context (sha1 : string -> string).
Implicit Types (nd : SellNode PrivateKey PublicKey) (p : Profile PrivateKey) (k : PrivateKey) (x : Library).

Lemma visit_signed cs p k seller :
  appendContractSectionContent (signed_with k p seller cs) "" = (signed_with k p seller cs, section_text cs).
Proof.
  rewrite section_content, signed_with_text. f_equal.
  assert (map visited (w_payees (cs_ware (signed_with k p seller cs))) =
          w_payees (cs_ware (signed_with k p seller cs))) as ->; [|by destruct seller].
  replace (w_payees (cs_ware (signed_with k p seller cs))) with (map visited (w_payees (cs_ware cs)))
    by (by destruct seller).
  rewrite map_map. apply map_ext. intros q. apply visited_visited.
Qed.

(** The section that is answered: signed, and with a key unless it is bought on the web. *)
Definition offer_of k p (s : OfferedSection) : OfferedSection :=
  let cs := signed_with k p true (os_section s) in
  if default false (os_webbuy s) then set_os_section cs s
  else let hex := sha1 (section_text (os_section s)) in
       {| os_section := cs; os_webbuy := Some false; os_hash := Some hex;
          os_peerbuyKey := Some (bytesToHex (ds_value k hex)) |}.

Lemma sign_offer_of s p k : profile_key p = Some k -> sign_offer sha1 s p = Ok (offer_of k p s).
Proof.
  intros Hk. unfold sign_offer, offer_of. rewrite (signContractSection_with _ _ _ _ Hk).
  set (cs := signed_with k p true (os_section s)). change (os_webbuy (set_os_section cs s)) with (os_webbuy s).
  destruct (default false (os_webbuy s)); [done|]. unfold addPeerBuyKey, getContractSectionHash.
  change (os_section (set_os_webbuy false (set_os_section cs s))) with cs. unfold cs.
  by rewrite visit_signed, Hk.
Qed.

Lemma first_section_set user s (c : OfferedContract) : first_section user (set_first_section user s c) = s.
Proof. unfold first_section, set_first_section. cbn. by rewrite dm_get_set_eq. Qed.

(** The section a seller is asked to sign for a request, with the ware of its catalog. *)
Definition agreed p (w : @FullWare Details) (s : OfferedSection) : OfferedSection :=
  set_os_section (set_seller_profile (profile_id p)
    (set_ware (offered_ware w (cs_ware (os_section s))) (os_section s))) s.

Lemma yields_contract nd user c x p k :
  nd_login nd (strtoull user) = Ok (Some p) -> profile_key p = Some k ->
  yields x (negotiateContract (Exn:=Exn) unread extension same_id sha1 nd user c) (fun c' =>
    let s := first_section user c in
    same_id (catalog_serverId x) (s_serverId (cs_seller (os_section s))) = true /\
    exists w, catalog_ware unread extension x (w_id (cs_ware (os_section s))) w /\
      first_section user c' = offer_of k p (agreed p w s)).
Proof.
  intros Hl Hk. unfold negotiateContract. yield_step. destruct (nd_keys nd 1 _) as [key|]; [|yield_step].
  destruct (verifyMedia _ _) as [m [u|e]]; [|yield_step]. destruct (nd_negotiate nd); cbn [negb]; [|yield_step].
  rewrite Hl. yield_step.
  destruct (nd_catalog nd); [|by eapply (yields_bind _ _ (fun _ => False)); [apply yields_raise|]].
  eapply yields_bind; [apply yields_section|]. intros cs (Hid & w & Hw & ->). cbn [default].
  rewrite (sign_offer_of _ _ k) by done.
  yield_step. yield_step. split; [done|]. exists w. split; [done|]. apply first_section_set.
Qed.

Lemma verify_signed_with cs p k :
  verifyContractSection (signed_with k p true cs) (public_key k) None = (signed_with k p true cs, SectionOk).
Proof.
  unfold verifyContractSection.
  change (cs_sellerSignature (signed_with k p true cs)) with (Some (bytesToHex (ds_value k (section_text cs)))).
  by rewrite visit_signed, verify_own_text.
Qed.

Lemma verify_key nd k text userId pid :
  nd_keys nd userId pid = Some (public_key k) ->
  verifyPeerBuyKey nd (bytesToHex (ds_value k text)) text userId pid = Ok tt.
Proof. intros Hn. unfold verifyPeerBuyKey. by rewrite Hn, hex_round, verify_own. Qed.

Lemma offer_section k p s : os_section (offer_of k p s) = signed_with k p true (os_section s).
Proof. unfold offer_of. by destruct (default false (os_webbuy s)). Qed.

Lemma visited_offered (l : list SchemePayee) : map visited (map offered_payee l) = map offered_payee l.
Proof. rewrite map_map. by apply map_ext. Qed.

(** C11: A contract that is negotiated has a section that verifies with the key of the seller and
    names the seller's profile; its ware has the payees of the catalog, and in the place of the
    first file that of the catalog, followed by the further files the buyer has put there; unless it
    is bought on the web, its hash is the hash of its content and its key is one the seller accepts
    for that hash. *)
Theorem negotiated_section nd user c conn c' conn' p k :
  negotiateContract (Exn:=Exn) unread extension same_id sha1 nd user c conn = (Ok c', conn') ->
  nd_login nd (strtoull user) = Ok (Some p) -> profile_key p = Some k ->
  nd_keys nd (strtoull user) (profile_id p) = Some (public_key k) ->
  let s := first_section user c in
  let s' := first_section user c' in
  let ware := cs_ware (os_section s') in
  (verifyContractSection (os_section s') (public_key k) None).2 = SectionOk /\
  s_profileId (cs_seller (os_section s')) = print_u64 (profile_id p) /\
  (exists w, catalog_ware unread extension (cn_data conn) (w_id (cs_ware (os_section s))) w /\
     w_fileInfos ware = offered_file (fw_fileInfo w) :: tl (w_fileInfos (cs_ware (os_section s))) /\
     w_payees ware = map offered_payee (fw_payees w)) /\
  (default false (os_webbuy s) = false ->
   exists key, os_hash s' = Some (getContractSectionHash sha1 (os_section s')).2 /\
     os_peerbuyKey s' = Some key /\
     verifyPeerBuyKey nd key (default "" (os_hash s')) (strtoull user) (profile_id p) = Ok tt).
Proof.
  intros E Hl Hk Hn s s' ware.
  destruct (yields_ok (cn_data conn) _ _ _ _ _ (yields_contract nd user c _ p k Hl Hk) eq_refl E)
    as (_ & w & Hw & Hs'). fold s s' in Hs', Hw.
  assert (os_section s' = signed_with k p true (os_section (agreed p w s))) as Hsec
    by (rewrite Hs'; apply offer_section).
  unfold ware. rewrite Hsec, verify_signed_with. split_and!; [done|done| |].
  - exists w. split_and!; [done|done|]. apply visited_offered.
  - intros Hweb. unfold getContractSectionHash. rewrite visit_signed, Hs'. unfold offer_of.
    change (os_webbuy (agreed p w s)) with (os_webbuy s). rewrite Hweb. eexists. split_and!; [done..|].
    by apply verify_key.
Qed.

(** ** Files the buyer adds *)

Definition add_files (extra : list Signer.FileInfo) (cs : ContractSection) : ContractSection :=
  let w := cs_ware cs in
  set_ware {| w_id := w_id w; w_mediaId := w_mediaId w; w_fileInfos := w_fileInfos w ++ extra;
              w_payees := w_payees w |} cs.

(** The contract with more files in the first section of a seller. *)
Definition with_files user (extra : list Signer.FileInfo) (c : OfferedContract) : OfferedContract :=
  let s := first_section user c in set_first_section user (set_os_section (add_files extra (os_section s)) s) c.

(** The negotiation of a section depends on the ware id and the server id only. *)
Lemma negotiate_same catalog userId cs cs1 conn conn1 :
  negotiateContractSection (Exn:=Exn) unread extension same_id catalog userId cs true conn = (Ok cs1, conn1) ->
  exists w : @FullWare Details, cs1 = set_ware (offered_ware w (cs_ware cs)) cs /\ forall extra,
    negotiateContractSection (Exn:=Exn) unread extension same_id catalog userId (add_files extra cs) true conn =
    (Ok (set_ware (offered_ware w (cs_ware (add_files extra cs))) (add_files extra cs)), conn1).
Proof.
  unfold negotiateContractSection. cbn [negb]. destruct catalog; cbn [negb]; [|done]. unfold sbind.
  destruct (populateSeller userId conn) as [[sl|e] c1]; [|done].
  change (cs_seller (add_files ?l cs)) with (cs_seller cs).
  intros E. destruct (same_id _ _) eqn:Es; cbn [negb] in E; [|done].
  destruct (populateWare unread extension (w_id (cs_ware cs)) c1) as [[w|e] c2] eqn:Ew; [|done].
  injection E as <- <-. exists w. split; [done|]. intros extra.
  cbn [negb]. change (w_id (cs_ware (add_files extra cs))) with (w_id (cs_ware cs)). by rewrite Ew.
Qed.

(** If a negotiation succeeds, so does the one for the same request with any further files in
    its ware: the seller signs them as well, for the price of the ware, whatever they are. *)
Theorem further_files_signed nd user c conn c' conn' p k extra :
  negotiateContract (Exn:=Exn) unread extension same_id sha1 nd user c conn = (Ok c', conn') ->
  nd_login nd (strtoull user) = Ok (Some p) -> profile_key p = Some k ->
  w_fileInfos (cs_ware (os_section (first_section user c))) <> [] ->
  exists c2, negotiateContract (Exn:=Exn) unread extension same_id sha1 nd user (with_files user extra c) conn =
      (Ok c2, conn') /\
    let ware2 := cs_ware (os_section (first_section user c2)) in
    let ware := cs_ware (os_section (first_section user c')) in
    w_fileInfos ware2 = (w_fileInfos ware ++ extra)%list /\ w_payees ware2 = w_payees ware /\
    (verifyContractSection (os_section (first_section user c2)) (public_key k) None).2 = SectionOk.
Proof.
  intros E Hl Hk Hf. unfold negotiateContract in E |- *. apply failing_ok in E.
  change (oc_media (with_files user extra c)) with (oc_media c).
  destruct (nd_keys nd 1 _) as [key|]; [|done]. destruct (verifyMedia _ _) as [m [u|e]]; [|done].
  destruct (nd_negotiate nd); cbn [negb] in E |- *; [|done]. rewrite Hl in E |- *.
  apply bind_ok in E as (o & c1 & [= <- <-] & E). apply bind_ok in E as (cs1 & c2 & En & E).
  change (first_section user (set_oc_media m c)) with (first_section user c) in En, E.
  destruct (negotiate_same _ _ _ _ _ _ En) as (w & -> & Hw). rewrite (sign_offer_of _ _ k Hk) in E.
  apply bind_ok in E as (s1 & c3 & [= <- <-] & [= <- <-]).
  set (s := first_section user c) in *.
  assert (first_section user (set_oc_media m (with_files user extra c)) = set_os_section (add_files extra (os_section s)) s)
    as Hs by apply first_section_set.
  eexists. split.
  - apply failing_ok. etrans; [by eapply bind_quiet|]. rewrite Hs.
    etrans; [eapply bind_quiet, Hw|]. cbv beta iota. rewrite (sign_offer_of _ _ k Hk). reflexivity.
  - cbv zeta. rewrite !first_section_set, !offer_section, verify_signed_with. split_and!; [|done..].
    cbn. by destruct (w_fileInfos (cs_ware (os_section s))).
Qed.
End Offers.

(** * Pieces *)

Definition joined (l : list string) : string := foldr String.append "" l.

Lemma copy_all write n reads sent : (forall i, write i = true) ->
  copy write n reads sent = (true, (n + S (length reads))%nat, sent +:+ joined reads).
Proof.
  intros Hw. revert n sent. induction reads as [|b reads IH]; intros n sent; cbn [copy joined foldr].
  - rewrite string_app_nil_r. do 2 f_equal. simpl. lia.
  - rewrite Hw, IH. rewrite string_app_assoc. do 2 f_equal. simpl. lia.
Qed.

Lemma copy_ok write n reads sent m sent' :
  copy write n reads sent = (true, m, sent') ->
  m = (n + S (length reads))%nat /\ sent' = sent +:+ joined reads.
Proof.
  revert n sent. induction reads as [|b reads IH]; intros n sent; cbn [copy joined foldr].
  - intros [= <- <-]. rewrite string_app_nil_r. split; [simpl; lia|done].
  - destruct (write n); [|done]. intros [-> ->]%IH. rewrite string_app_assoc. split; [simpl; lia|done].
Qed.

Definition is_Ok {A} (o : outcome A) : Prop := exists a, o = Ok a.

Section Pieces.
Context {PrivateKey PublicKey : Type} `{SignatureLaws PrivateKey PublicKey}.
Context `{HexCheck} `{!HexCheckLaws}.
Context {Hdr : Type} `{HttpHeader Hdr} `{!HttpHeaderLaws Hdr} `{Compression} `{!CompressionLaws}.
Context {D : Type} `{ObjectCodec D}.
Context {Q Chain : Type} (newChain : Z -> Chain).
Context {Details : Type} `{Json Details} (unread : Details) (extension : string -> string).
Context (pem : PublicKey -> string) (emptyTrailer : Hdr).
Abbreviation Action := (@Serve.Action PrivateKey PublicKey Hdr D Q).
Abbreviation Message := (@BtpMessage PrivateKey PublicKey Hdr D).
Implicit Types (env : SellEnv (PrivateKey := PrivateKey) (PublicKey := PublicKey)) (a : Action)
  (st : SellState (PublicKey := PublicKey) (Chain := Chain)) (k : PrivateKey) (r : Message).

(** The value of a field that is set, the last one with its name. *)
Definition field_of (l : list (string * string)) (n : string) : option string :=
  foldl (fun v f => if String.eqb f.1 n then Some f.2 else v) None l.

(** Names that are the same up to case are the same. *)
Definition told_apart (l : list (string * string)) (n : string) : bool :=
  forallb (fun f => String.eqb f.1 n || negb (strcase_eqb f.1 n)) l.

Lemma get_set_fields l n h : told_apart l n = true ->
  hd_get (set_fields h l) n = match field_of l n with Some v => Some v | None => hd_get h n end.
Proof.
  unfold set_fields, field_of, told_apart. induction l as [|[m v] l IH] using rev_ind; [done|].
  rewrite forallb_app, !foldl_app. cbn [foldl forallb fst snd]. intros [Hl Hm]%andb_true_iff.
  destruct (String.eqb_spec m n) as [->|Hne]; [apply get_set_eq|].
  simpl in Hm. rewrite andb_true_r in Hm. rewrite get_set_ne by (by apply negb_true_iff). by apply IH.
Qed.

(** What the trailer of a piece makes of the piece that was asked for. *)
Lemma take_fields_sent d d0 :
  take_fields (set_fields emptyTrailer (piece_fields d)) d0 =
  {| pd_index := pd_index d0; pd_size := to_u32 (print_u64 (pd_size d)); pd_ciphered := Some true;
     pd_encrypted := Some true;
     pd_openKey := Some {| ki_algorithm := default "" (ki_algorithm <$> pd_openKey d);
       ki_length := to_u32 (default "" (print_u64 ∘ ki_length <$> pd_openKey d)); ki_data := key_data (pd_openKey d) |};
     pd_pieceKey := Some {| ki_algorithm := default "" (ki_algorithm <$> pd_pieceKey d);
       ki_length := to_u32 (default "" (print_u64 ∘ ki_length <$> pd_pieceKey d)); ki_data := key_data (pd_pieceKey d) |};
     pd_sellerSignature := Some (default "" (pd_sellerSignature d));
     pd_sellerProfileId := Some (default "" (pd_sellerProfileId d));
     pd_bfpSignature := Some (default "" (pd_bfpSignature d)); pd_bfpId := pd_bfpId d0; pd_path := pd_path d0 |}.
Proof.
  unfold take_fields, next_field. by rewrite !get_set_fields by reflexivity.
Qed.

(** A buyer whose connection with the seller of key [k] is secure so far. *)
Record trusting r (k : PrivateKey) : Prop := {
  ts_secure : mSecurityStatus r = Secure;
  ts_key : exists src dlg, mPublicKeySource r = Some src /\
    src (mAgentUserId r) (mAgentProfileId r) = Some (public_key k, dlg)
}.

(** What the buyer's network makes of a piece: all of it arrives. *)
Record arrives (penv : PieceEnv (PrivateKey := PrivateKey) (PublicKey := PublicKey)) (sp : SentPiece (Hdr := Hdr)) : Prop := {
  av_content : nw_content (pe_network penv) = Ok {| rc_bytes := (st_body sp).1; rc_trailer := (st_body sp).2 |};
  av_fields : pe_fields penv = st_fields sp;
  av_write : pe_write penv = true
}.

Lemma receive_arrived penv r k sp d :
  trusting r k -> arrives penv sp -> st_body sp = sendBody (st_header sp) (Some k) (st_content sp) ->
  receive penv r (st_header sp) d = Ok (take_fields (st_fields sp) d, st_content sp).
Proof.
  intros [Hsec (src & dlg & Hsrc & Hkey)] [Hc Hf Hw] Hb. unfold receive, getContentReceiveStream, contentKey.
  rewrite Hsrc, Hkey, Hc, Hw, Hf, Hb. cbn [rc_bytes rc_trailer fst snd sendBody negb]. rewrite decode_encode.
  unfold checkContentSecurity. cbn [option_map mTrailer set_trailer tr_length BtpTrailer_update tr_signature].
  destruct (0 <? _) eqn:El; cbn [mSecurityStatus setSecurityStatus set_trailer].
  - by rewrite nonempty_ltb, verify_hex_signed by apply signature_nonempty.
  - by rewrite Hsec.
Qed.

(** What a piece that has been sent is made of. *)
Lemma sendPiece_sent env run sellerId fileId index size csHash a st a' st' sp res :
  sendPiece newChain pem emptyTrailer env run sellerId fileId index size csHash a st = (a', st', Some sp, res) ->
  exists d, read_and_sign env csHash fileId
      (match nd_login (se_node env) sellerId with Ok p => p | Raise _ => None end) run (new_piece index size) =
      Some (st_content sp, d, res) /\
    st_body sp = sendBody (st_header sp) (createSignature (ac_outMessage a)) (st_content sp) /\
    st_fields sp = set_fields emptyTrailer (piece_fields d).
Proof.
  unfold sendPiece. destruct (getSellerKey env sellerId st) as [[key|] st1]; [|done].
  destruct (bf_initialize run csHash (pem key)); [|done]. unfold sendHeader.
  destruct (addHeaders _ _ _) as [[m h]|]; cbn [outcome_bind]; [|done].
  destruct (io_header _); cbn [outcome_bind]; [|done].
  destruct (read_and_sign _ _ _ _ _ _) as [[[content d] res1]|]; [|done].
  intros [= _ _ <- <-]. by exists d.
Qed.

(** The signature of a piece. *)
Definition piece_signature k (csHash fileId : string) (d : PieceData) : string :=
  bytesToHex (ds_value k (appendFilePieceContent csHash fileId (piece_content d) "")).

Lemma read_and_sign_ok env csHash fileId p k run d0 content d2 :
  profile_key p = Some k ->
  read_and_sign env csHash fileId (Some p) run d0 = Some (content, d2, Ok tt) ->
  content = joined (bf_reads run) /\
  let d := bf_piece run d0 (S (length (bf_reads run))) in
  piece_fields d2 = piece_fields (seller_signed (piece_signed (piece_content d) (piece_signature k csHash fileId d) p true) d).
Proof.
  intros Hk. unfold read_and_sign. destruct (bf_prepare run); [|done]. destruct (bf_start run); [|done].
  destruct (copy _ _ _ _) as [[ok n] sent] eqn:Ecp. destruct (if ok then bf_end run else Ok tt); [|done].
  unfold signFilePiece, sign. rewrite Hk. destruct ok; intros [= <- <-].
  apply copy_ok in Ecp as [-> ->]. done.
Qed.

Lemma to_u32_print z : 0 <= z < 2 ^ 32 -> to_u32 (print_u64 z) = z.
Proof. intros Hz. unfold to_u32. rewrite strtoull_print by lia. by apply u32_small. Qed.

(** C12: If the seller sends a piece, the data the buyer writes is what the file processor has
    read, the seller's signature of the piece verifies with the seller's key, the hash of the
    section and the id of the file, and the buyer has the size, the keys and the signature the
    file processor gave it.  (The processor must have ciphered the piece and kept its index.) *)
Theorem piece_round_trip env run sellerId fileId index size csHash a st a' st' sp p k penv r d0 :
  let d := bf_piece run (new_piece index size) (S (length (bf_reads run))) in
  sendPiece newChain pem emptyTrailer env run sellerId fileId index size csHash a st = (a', st', Some sp, Ok tt) ->
  nd_login (se_node env) sellerId = Ok (Some p) -> mAgentProfile (ac_outMessage a) = Some p ->
  profile_key p = Some k -> pd_ciphered d = Some true -> pd_index d = pd_index d0 -> 0 <= pd_size d < 2 ^ 32 ->
  trusting r k -> arrives penv sp ->
  exists d1, receive penv r (st_header sp) d0 = Ok (d1, joined (bf_reads run)) /\
    verifyFilePiece csHash fileId (piece_content d1) (public_key k) true = Ok tt /\
    pd_size d1 = pd_size d /\ key_data (pd_openKey d1) = key_data (pd_openKey d) /\
    key_data (pd_pieceKey d1) = key_data (pd_pieceKey d) /\
    pd_bfpSignature d1 = Some (default "" (pd_bfpSignature d)).
Proof.
  intros d Es Hl Ha Hk Hc Hi Hz Ht Hv. apply sendPiece_sent in Es as (d2 & Er & Hb & Hf).
  unfold createSignature in Hb. rewrite Ha, Hk in Hb. rewrite Hl in Er.
  destruct (read_and_sign_ok _ _ _ _ _ _ _ _ _ Hk Er) as [Hj Hd]. fold d in Hd.
  rewrite (receive_arrived penv r k sp d0 Ht Hv Hb), Hf, Hd, Hj, take_fields_sent.
  eexists. split; [reflexivity|]. cbn [pd_size pd_openKey pd_pieceKey pd_bfpSignature key_data ki_data seller_signed].
  split_and!; [|by apply to_u32_print|done..].
  unfold verifyFilePiece. cbn [piece_content fp_sellerSignature pd_sellerSignature seller_signed piece_signed default].
  assert (forall fp, fp_ciphered fp = Some true -> fp_index fp = print_u64 (pd_index d) -> fp_size fp = print_u64 (pd_size d) ->
    fp_openKeyData fp = key_data (pd_openKey d) -> fp_pieceKeyData fp = key_data (pd_pieceKey d) ->
    appendFilePieceContent csHash fileId fp "" = appendFilePieceContent csHash fileId (piece_content d) "") as Hfp.
  { intros fp H1' H2' H3' H4' H5'. unfold appendFilePieceContent. rewrite H1', H2', H3', H4', H5'. simpl. by rewrite Hc. }
  rewrite Hfp; simpl; [|done|by rewrite Hi|by rewrite to_u32_print|done..].
  unfold piece_signature. by rewrite verify_own_text.
Qed.

(** C15: Once the header of a piece has been sent, a failure of the file processor does not reach
    the buyer: what was sent until then arrives as a whole piece.  If the file cannot be
    prepared, the buyer gets a piece without data and with empty signatures, which counts as
    received. *)
Theorem failed_piece_received env run sellerId fileId index size csHash a st a' st' sp e p k penv r d0 id :
  sendPiece newChain pem emptyTrailer env run sellerId fileId index size csHash a st = (a', st', Some sp, Raise e) ->
  mAgentProfile (ac_outMessage a) = Some p -> profile_key p = Some k ->
  trusting r k -> arrives penv sp ->
  exists d1, receive penv r (st_header sp) d0 = Ok (d1, st_content sp) /\
    processMessages id d0 d1 [[PieceReceived]] = Some ([ReportStarted d0; ReportReceived d1], [PieceFinished]) /\
    (forall e0, bf_prepare run = Raise e0 ->
       st_content sp = "" /\ pd_sellerSignature d1 = Some "" /\ pd_bfpSignature d1 = Some "" /\
       pd_size d1 = to_u32 (print_u64 size)).
Proof.
  intros Es Ha Hk Ht Hv. apply sendPiece_sent in Es as (d2 & Er & Hb & Hf).
  unfold createSignature in Hb. rewrite Ha, Hk in Hb.
  rewrite (receive_arrived penv r k sp d0 Ht Hv Hb), Hf. eexists. split_and!; [done|done|].
  intros e0 Hp. unfold read_and_sign in Er. rewrite Hp in Er. injection Er as <- <- _.
  by rewrite take_fields_sent.
Qed.

(** ** Who gets a piece *)

(** C13: A key for pieces is any signature of the seller's profile: a request that presents a text
    the profile has signed, for any purpose, as the hash of a section, and its signature as the
    key, reaches the sending of a piece of any file of the seller's media library, whether it is for
    sale or not. *)
Theorem any_signature_opens env nodeuser rq a st x p k text sig f key cache create run :
  profile_key p = Some k -> sign p text = Ok sig ->
  nd_keys (se_node env) nodeuser (pq_sellerProfileId rq) = Some (public_key k) ->
  pq_csHash rq = text -> pq_peerbuyKey rq = sig ->
  nd_catalog (se_node env) = true -> find_file (pq_fileId rq) 0 x = Some f -> se_exists env (fl_path f) = true ->
  getSellerKey env nodeuser st = (Some key, cache) -> se_bfp env = Some create -> create (pq_bfpId rq) = Ok run ->
  let '((_, _, sent, _), _) :=
    getFilePiece newChain unread extension pem emptyTrailer env nodeuser rq a st (quiet x) in
  sent = (sendPiece newChain pem emptyTrailer env run nodeuser (fl_fileId f) (pq_index rq) (pq_size rq) text a cache).1.2.
Proof.
  intros Hk Hs Hn Ht Hg Hc Hf He Hkey Hbfp Hcr. unfold sign in Hs. rewrite Hk in Hs. injection Hs as <-.
  unfold getFilePiece. rewrite Ht, Hg, (verify_key _ k) by done. rewrite Hc.
  unfold ibind, attempt, MediaLibrary.populateFile, LibraryDb.populateFile, database_client.
  rewrite (push_quiet _ _ _ (row_info unread extension f) (quiet x)).
  - cbn -[sendPiece getSellerKey]. rewrite He. cbn -[sendPiece getSellerKey]. rewrite Hkey, Hbfp, Hcr.
    by destruct (sendPiece _ _ _ _ _ _ _ _ _ _ _ _) as [[[a1 st1] sent] res].
  - rewrite open_quiet. unfold sbind. rewrite select_quiet, Hf. done.
Qed.

(** ** What follows a piece *)

Lemma saveHeaders_same (m : Message) h :
  mAgentProfile (saveHeaders m h) = mAgentProfile m /\ mCustomHeaders (saveHeaders m h) = mCustomHeaders m.
Proof. unfold saveHeaders. by repeat case_match. Qed.

(** Headers are added to a message without headers of its own if it has a key for its profile;
    the status and the fields for the body stay. *)
Lemma addHeaders_plain (m : Message) h ds m' h' :
  mCustomHeaders m = None -> hd_type h = ResponseHeader -> addHeaders m h ds = Ok (m', h') ->
  mAgentProfile m' = mAgentProfile m /\ mCustomHeaders m' = None /\ hd_status h' = hd_status h /\
  hd_type h' = ResponseHeader /\ (mAgentProfile m = None \/ is_Some ds) /\
  (forall v, hd_get h "Content-Length" = Some v -> hd_get h' "Content-Length" = Some v) /\
  (hd_get h "Transfer-Encoding" = Some "chunked" -> hd_get h' "Transfer-Encoding" = Some "chunked").
Proof.
  intros Hc Ht. unfold addHeaders. rewrite Hc. cbn [outcome_bind].
  unfold addTransferHeaders, chunk_unless_length, addSecurityHeaders. rewrite Ht.
  set (h1 := if negb _ && _ then _ else h).
  assert (hd_status h1 = hd_status h /\ hd_type h1 = ResponseHeader /\
    (forall v, hd_get h "Content-Length" = Some v -> hd_get h1 "Content-Length" = Some v) /\
    (hd_get h "Transfer-Encoding" = Some "chunked" -> hd_get h1 "Transfer-Encoding" = Some "chunked")) as (H1' & H2' & H3' & H4').
  { unfold h1. repeat case_match; header_simpl; done. }
  clearbody h1. destruct (mAgentProfile m) as [p|] eqn:Hp.
  - destruct ds as [k|]; [|done]. cbn [outcome_bind fst snd]. intros [= <- <-].
    rewrite (proj1 (saveHeaders_same _ _)), (proj2 (saveHeaders_same _ _)).
    cbn [mAgentProfile mCustomHeaders set_ids]. rewrite Hp, Hc. destruct (_ && _); header_simpl; split_and!; eauto.
  - cbn [outcome_bind fst snd]. intros [= <- <-]. destruct (saveHeaders_same m h1) as [-> ->].
    rewrite Hp, Hc. split_and!; auto.
Qed.

Lemma addHeaders_total (m : Message) h ds :
  mCustomHeaders m = None -> mAgentProfile m = None \/ is_Some ds -> exists mh, addHeaders m h ds = Ok mh.
Proof.
  intros Hc Hp. unfold addHeaders, addSecurityHeaders. rewrite Hc. cbn [outcome_bind].
  destruct (mAgentProfile m); [|by eexists]. destruct Hp as [?|[k ->]]; [done|]. by eexists.
Qed.

(** What the action is after a piece: nothing marks the result as sent. *)
Lemma sendPiece_action env run sellerId fileId index size csHash a st a' st' sp res :
  mCustomHeaders (ac_outMessage a) = None -> hd_type (ac_response a) = ResponseHeader ->
  sendPiece newChain pem emptyTrailer env run sellerId fileId index size csHash a st = (a', st', Some sp, res) ->
  ac_sent a' = ac_sent a /\ ac_io a' = ac_io a /\ is_Ok (io_header (ac_io a)) /\
  mCustomHeaders (ac_outMessage a') = None /\ hd_status (ac_response a') = 200 /\
  hd_type (ac_response a') = ResponseHeader /\ hd_get (ac_response a') "Transfer-Encoding" = Some "chunked" /\
  (mAgentProfile (ac_outMessage a') = None \/ is_Some (createSignature (ac_outMessage a'))).
Proof.
  intros Hc Ht. unfold sendPiece. destruct (getSellerKey env sellerId st) as [[key|] st1]; [|done].
  destruct (bf_initialize run csHash (pem key)); [|done]. unfold sendHeader.
  destruct (addHeaders _ _ _) as [[m h]|] eqn:Eh; cbn [outcome_bind]; [|done].
  destruct (io_header _) as [u|] eqn:Eio; cbn [outcome_bind]; [|done].
  destruct (read_and_sign _ _ _ _ _ _) as [[[content d] res1]|]; [|done].
  intros [= <- _ _ _]. apply addHeaders_plain in Eh as (Hp & Hm & Hs & Hty & Hk & _ & Hte);
    [|done|by header_simpl]. revert Hs Hte Hk. header_simpl. intros Hs Hte Hk.
  cbn. rewrite Hp, Hm, Hs. split_and!; try done; [by eexists|by apply Hte|].
  unfold createSignature in *. cbn. rewrite Hp. destruct Hk as [Hk|Hk]; [by left|by right].
Qed.

Lemma getFilePiece_sent env nodeuser rq a st c a' st' sp res c' :
  getFilePiece newChain unread extension pem emptyTrailer env nodeuser rq a st c = ((a', st', Some sp, res), c') ->
  exists run fileId st0 res0,
    sendPiece newChain pem emptyTrailer env run nodeuser fileId (pq_index rq) (pq_size rq) (pq_csHash rq) a st0 =
      (a', st', Some sp, res0) /\ (res0 = Ok tt <-> res = Ok tt).
Proof.
  unfold getFilePiece. destruct (verifyPeerBuyKey _ _ _ _ _); [|done]. destruct (nd_catalog _); [|done].
  unfold ibind. destruct (attempt _ c) as [[fi|e] c1]; [|done]. destruct (se_exists env _); [|done].
  cbn [negb]. destruct (getSellerKey env nodeuser st) as [[key|] st0]; [|done].
  destruct (se_bfp env) as [create|]; [|done]. destruct (create _) as [run|]; [|done].
  destruct (sendPiece _ _ _ _ _ _ _ _ _ _ _ _) as [[[a1 st1] sent] res0] eqn:Es. intros [= <- <- -> <- _].
  exists run, (fi_id fi), st0, res0. split; [done|]. destruct res0 as [[]|]; [done|]. by split.
Qed.

Lemma sendResult_again a :
  ac_sent a = None -> is_Ok (io_header (ac_io a)) -> mCustomHeaders (ac_outMessage a) = None ->
  hd_status (ac_response a) = 200 -> hd_type (ac_response a) = ResponseHeader ->
  hd_get (ac_response a) "Transfer-Encoding" = Some "chunked" ->
  mAgentProfile (ac_outMessage a) = None \/ is_Some (createSignature (ac_outMessage a)) ->
  exists s, ac_sent (sendResult a).1 = Some s /\ sn_body s = None /\ hd_status (sn_header s) = 200 /\
    hd_get (sn_header s) "Content-Length" = Some "0" /\
    hd_get (sn_header s) "Transfer-Encoding" = Some "chunked".
Proof.
  intros Hs [[] Hio] Hc Hst Hty Hte Hk. unfold sendResult, isResultSent. rewrite Hs, Hst.
  change (200 =? 0) with false. cbv iota zeta. unfold sendOut, sendResponse, sendContent.
  cbn [ac_response ac_outMessage ac_io set_out set_response mDynamicObject mContentSource setContentSource].
  unfold sendHeaderAndStream, sendHeader. set (m := setContentSource None (ac_outMessage a)).
  assert (createSignature m = createSignature (ac_outMessage a)) as -> by done.
  edestruct (addHeaders_total m) as [[m' h'] Eh]; [exact Hc|exact Hk|]. rewrite Eh.
  apply addHeaders_plain in Eh as (_ & _ & Hs' & _ & _ & Hl & Ht'); [|done|by header_simpl].
  cbn [outcome_bind]. rewrite Hio. cbn. eexists. split; [reflexivity|]. cbn.
  rewrite Hs'. header_simpl. split_and!; [done|done|apply Hl|apply Ht']; by header_simpl.
Qed.

(** After a piece has been sent as the response, the handler sends another response on the
    same connection: sending a piece does not mark the result as sent.  It has no content, but
    both a length and a chunked encoding. *)
Theorem piece_answered_twice exceptionObject exceptionCode env readRequest st c d a content a' st' sp c' :
  dl_function d = DynoFunction
    (filePieceFunction newChain unread extension pem emptyTrailer env readRequest st c) ->
  mContentReceived a = true -> mContent a = content -> ac_sent a = None ->
  mCustomHeaders (ac_outMessage a) = None -> hd_type (ac_response a) = ResponseHeader ->
  getFilePiece newChain unread extension pem emptyTrailer env (default 0 (ac_nodeuser a)) (readRequest content) a st c =
    ((a', st', Some sp, Ok tt), c') ->
  exists s, ac_sent (performAction exceptionObject exceptionCode d a) = Some s /\ sn_body s = None /\
    hd_status (sn_header s) = 200 /\ hd_get (sn_header s) "Content-Length" = Some "0" /\
    hd_get (sn_header s) "Transfer-Encoding" = Some "chunked".
Proof.
  intros Hd Hr Hct Hs Hc Ht Hg. unfold performAction, receiveContent. rewrite Hd, Hr, Hct.
  unfold filePieceFunction. rewrite Hg.
  apply getFilePiece_sent in Hg as (run & fileId & st0 & r0 & Es & _).
  apply sendPiece_action in Es as (Hs' & Hio & Hok & Hc' & Hst & Hty & Hte & Hk); [|done..].
  rewrite <-Hio in Hok. apply sendResult_again; by rewrite ?Hs', ?Hs.
Qed.
End Pieces.

(** * A sale *)

Module SellSample.
Import Sealed PlainText Exact BitText.

(** User 900 sells the file A for a flat fee and a share of the license. *)
Definition clean : Flags := {| fg_problem := 0; fg_dirty := false; fg_updating := false; fg_deleted := false |}.

Definition share (account : Z) (type value pct : string) : SchemePayee :=
  {| sp_account := account; sp_amountType := type; sp_description := "artist"; sp_amount := value;
     sp_percentage := pct; sp_min := "" |}.

Definition library : Library :=
  {| lb_files := [{| fl_mlId := 1; fl_fileId := "A"; fl_mediaId := 2; fl_path := "/music/A.mp3";
                     fl_contentType := "audio/mpeg"; fl_contentSize := 10; fl_size := 12; fl_formatDetails := "" |};
                  {| fl_mlId := 2; fl_fileId := "B"; fl_mediaId := 3; fl_path := "/private/B.mp3";
                     fl_contentType := "audio/mpeg"; fl_contentSize := 10; fl_size := 12; fl_formatDetails := "" |}];
     lb_media := []; lb_contributors := [];
     lb_config := {["serverId" := "1"; "serverUrl" := "https://node"; "serverToken" := "t"]};
     lb_problems := []; lb_schemes := [{| sm_id := 1; sm_description := "default"; sm_flags := clean |}];
     lb_payees := [{| py_scheme := 1; py_position := 0; py_payee := share 9 "flatFee" "5" "" |};
                   {| py_scheme := 1; py_position := 1; py_payee := share 8 "percentOfLicense" "" "1000000" |}];
     lb_wares := [{| wr_mlId := 1; wr_id := "ware"; wr_description := "song"; wr_scheme := 1; wr_flags := clean |}] |}.

Definition wanted : OfferedSection :=
  {| os_section := set_ware {| w_id := "ware"; w_mediaId := "2";
       w_fileInfos := [{| Signer.fi_id := "A"; Signer.fi_contentSize := "10"; Signer.fi_mediaId := "2" |}];
       w_payees := [] |}
       {| cs_buyer := cs_buyer csection;
          cs_seller := {| s_profileId := "1"; s_serverId := "1"; s_url := "https://node"; s_userId := "900";
                          s_username := "seller" |};
          cs_negotiationTerms := []; cs_ware := cs_ware csection; cs_sellerSignature := None;
          cs_sellerProfileId := None; cs_buyerSignature := None; cs_buyerProfileId := None |};
     os_webbuy := None; os_hash := None; os_peerbuyKey := None |}.

(** The license is signed by the first profile of user 1. *)
Definition contract : OfferedContract :=
  {| oc_media := (signMedia (media "Song" "1999") (profile 1 "sva")).1; oc_sections := [("900", [wanted])] |}.

Definition node : SellNode string string :=
  {| nd_keys := fun user pid => if pid =? 1 then if user =? 1 then Some "sva" else if user =? 900 then Some "k" else None
                                else None;
     nd_login := fun user => if user =? 900 then Ok (Some (profile 900 "k")) else Raise "bitmunk.node.UserNotLoggedIn";
     nd_negotiate := true; nd_catalog := true |}.

Abbreviation negotiated :=
  (negotiateContract (Exn:=string) false (fun _ => "mp3"%string) (fun n s => String.eqb (print_u64 n) s)
     (fun s => s) node "900" contract (quiet library)).

Lemma negotiated_runs : exists c' conn', negotiated = (Ok c', conn').
Proof. vm_compute. by eexists _, _. Qed.

Lemma negotiated_section_witness :
  exists c' conn', negotiated = (Ok c', conn') /\
  (verifyContractSection (os_section (first_section "900" c')) "k" None).2 = SectionOk.
Proof.
  destruct negotiated_runs as (c' & conn' & E). exists c', conn'. split; [exact E|].
  destruct (negotiated_section (PrivateKey:=string) (PublicKey:=string) false (fun _ => "mp3")
    (fun n s => String.eqb (print_u64 n) s) (fun s => s) node "900" contract (quiet library) c' conn'
    (profile 900 "k") "k" E) as [Hv _]; [vm_compute; reflexivity..|]. exact Hv.
Defined.

(** The section of the sample is not settled: it verifies no more. *)
Lemma buyer_signs_other_content_witness :
  exists cs2 sd2, verifySection (D:=Q) (PublicKey:=string) sample_market "f" (profile 901 "l")
      (signContractSection csection (profile 900 "k") true).1 slow_seller = (Ok tt, cs2, sd2) /\
  (verifyContractSection cs2 "k" (Some "l")).2 <> SectionOk.
Proof.
  destruct (verifySection (D:=Q) (PublicKey:=string) sample_market "f" (profile 901 "l")
      (signContractSection csection (profile 900 "k") true).1 slow_seller) as [[[[]|e] cs2] sd2] eqn:E;
    [|exfalso; apply (f_equal (fun r => succeeded r.1.1)) in E; revert E; vm_compute; discriminate].
  exists cs2, sd2. split; [reflexivity|]. intros Hv.
  apply (buyer_signs_other_content (D:=Q) sample_market "f" csection (profile 900 "k") "k" (profile 901 "l") "l"
    (signContractSection csection (profile 900 "k") true).1 cs2 slow_seller sd2 sealed_exact eq_refl eq_refl
    eq_refl E) in Hv.
  apply Forall_inv in Hv. discriminate Hv.
Defined.

(** ** Pieces *)

Definition key_info (data : string) : KeyInfo := {| ki_algorithm := "AES256"; ki_length := 32; ki_data := data |}.

Definition ciphered_piece (d : PieceData) (n : nat) : PieceData :=
  {| pd_index := pd_index d; pd_size := 6; pd_ciphered := Some true; pd_encrypted := Some true;
     pd_openKey := Some (key_info "aa"); pd_pieceKey := Some (key_info "bb"); pd_sellerSignature := None;
     pd_sellerProfileId := None; pd_bfpSignature := Some "cc"; pd_bfpId := 1; pd_path := "" |}.

(** A file processor that reads twice, and one that cannot prepare the file. *)
Definition processor (prepare : outcome unit) : BfpRun :=
  {| bf_initialize := fun _ _ => Ok tt; bf_prepare := prepare; bf_start := Ok tt;
     bf_piece := ciphered_piece; bf_reads := ["abc"; "def"]; bf_end := Ok tt |}.

Definition sell_env (prepare : outcome unit) : SellEnv (PrivateKey:=string) (PublicKey:=string) :=
  {| se_node := node; se_bitmunk := fun _ => Some "seal"; se_exists := fun _ => true;
     se_bfp := Some (fun _ => Ok (processor prepare)); se_globalRate := None; se_userRate := fun _ => None;
     se_write := fun _ => true |}.

Definition sell_state : SellState (PublicKey:=string) (Chain:=Z) :=
  {| sv_sellerKeys := newCache 10; sv_throttlers := PerUser.Throttlers.newThrottlers |}.

Definition piece_action : @Serve.Action string string PlainHeader.t string unit :=
  set_out (setAgentProfile (profile 900 "k") (setUserId 900 newMessage)) SampleRequest.action.

Abbreviation sold prepare :=
  (sendPiece (fun rate => rate) (fun key => key) PlainHeader.response (sell_env prepare) (processor prepare) 900 "A" 0 10
     "hash" piece_action sell_state).

Lemma sold_ok : exists a' st' sp, sold (Ok tt) = (a', st', Some sp, Ok tt).
Proof. vm_compute. by eexists _, _, _. Qed.

Lemma sold_failed : exists a' st' sp, sold (Raise "bad file") = (a', st', Some sp, Raise "bad file").
Proof. vm_compute. by eexists _, _, _. Qed.

(** The buyer, to whom all of the piece arrives. *)
Definition buyer_message : Msg :=
  setSecurityStatus Secure (set_ids 900 900 1 (Btp.setPublicKeySource keys newMessage)).

Definition buyer_env (sp : SentPiece (Hdr:=PlainHeader.t)) : PieceEnv (PrivateKey:=string) (PublicKey:=string) :=
  {| pe_login := Ok (profile 901 "l"); pe_keys := keys;
     pe_network := {| nw_connect := fun _ => true; nw_send := io_ok; nw_response := Ok (st_header sp);
       nw_content := Ok {| rc_bytes := (st_body sp).1; rc_trailer := (st_body sp).2 |} |};
     pe_fields := st_fields sp; pe_mkdirs := true; pe_write := true |}.

Lemma buyer_trusts : trusting buyer_message "k".
Proof. split; [done|]. by exists keys, false. Qed.

Lemma buyer_gets sp : arrives (buyer_env sp) sp.
Proof. done. Qed.

Lemma piece_round_trip_witness :
  exists sp d1, (sold (Ok tt)).1.2 = Some sp /\
    receive (buyer_env sp) buyer_message (st_header sp) (new_piece 0 10) = Ok (d1, "abcdef") /\
    verifyFilePiece "hash" "A" (piece_content d1) "k" true = Ok tt.
Proof.
  destruct sold_ok as (a' & st' & sp & E). exists sp.
  destruct (piece_round_trip (PrivateKey:=string) (PublicKey:=string) (fun rate => rate) (fun key => key)
    PlainHeader.response (sell_env (Ok tt)) (processor (Ok tt)) 900 "A" 0 10 "hash" piece_action sell_state a' st' sp
    (profile 900 "k") "k" (buyer_env sp) buyer_message (new_piece 0 10) E) as (d1 & Hr & Hv & _);
    [reflexivity..|vm_compute; split; [discriminate|reflexivity]|apply buyer_trusts|apply buyer_gets|].
  exists d1. rewrite E. split; [reflexivity|]. split; [exact Hr|exact Hv].
Defined.

Lemma failed_piece_received_witness :
  exists sp d1, (sold (Raise "bad file")).1.2 = Some sp /\
    receive (buyer_env sp) buyer_message (st_header sp) (new_piece 0 10) = Ok (d1, st_content sp) /\
    st_content sp = "" /\ pd_sellerSignature d1 = Some "".
Proof.
  destruct sold_failed as (a' & st' & sp & E). exists sp.
  destruct (failed_piece_received (PrivateKey:=string) (PublicKey:=string) (fun rate => rate) (fun key => key)
    PlainHeader.response (sell_env (Raise "bad file")) (processor (Raise "bad file")) 900 "A" 0 10 "hash"
    piece_action sell_state a' st' sp "bad file" (profile 900 "k") "k" (buyer_env sp) buyer_message
    (new_piece 0 10) 1 E eq_refl eq_refl buyer_trusts (buyer_gets sp)) as (d1 & Hr & _ & Hp).
  destruct (Hp "bad file" eq_refl) as (Hc & Hs & _). exists d1. rewrite E.
  split; [reflexivity|]. split; [exact Hr|]. split; [exact Hc|exact Hs].
Defined.

(** The signature of some text opens a file that is in no ware. *)
Definition forged_request : PieceRequest :=
  {| pq_csHash := "any text"; pq_fileId := "B"; pq_mediaId := 3; pq_index := 0; pq_size := 10;
     pq_peerbuyKey := bytesToHex (ds_value "k" "any text"); pq_sellerProfileId := 1; pq_bfpId := 1 |}.

Definition key_cached : SellState (PublicKey:=string) (Chain:=Z) :=
  (getSellerKey (sell_env (Ok tt)) 900 sell_state).2.

Lemma any_signature_opens_witness :
  let '((_, _, sent, _), _) := getFilePiece (fun rate => rate) false (fun _ => "mp3") (fun key => key) PlainHeader.response
    (sell_env (Ok tt)) 900 forged_request piece_action sell_state (quiet library) in
  sent = (sendPiece (fun rate => rate) (fun key => key) PlainHeader.response (sell_env (Ok tt)) (processor (Ok tt)) 900
    "B" 0 10 "any text" piece_action key_cached).1.2.
Proof.
  exact (any_signature_opens (PrivateKey:=string) (PublicKey:=string) (fun rate => rate) false (fun _ => "mp3")
    (fun key => key) PlainHeader.response (sell_env (Ok tt)) 900 forged_request piece_action sell_state library
    (profile 900 "k") "k" "any text" (bytesToHex (ds_value "k" "any text"))
    {| fl_mlId := 2; fl_fileId := "B"; fl_mediaId := 3; fl_path := "/private/B.mp3";
       fl_contentType := "audio/mpeg"; fl_contentSize := 10; fl_size := 12; fl_formatDetails := "" |}
    "seal" key_cached (fun _ => Ok (processor (Ok tt))) (processor (Ok tt)) eq_refl eq_refl eq_refl eq_refl eq_refl
    eq_refl eq_refl eq_refl eq_refl eq_refl eq_refl).
Defined.
End SellSample.
