(* ===== verification/Samples.v ===== *)
(** Samples of media ([cpp/sell/SampleService.cpp]).

    Anyone can listen to the part of a file that Bitmunk names as its sample, or get a play list
    of such parts.  A semaphore limits how many samples are sent at a time, a cache keeps what
    Bitmunk has said.  The catalog, Bitmunk's answers and the data that the parsers cut out of a
    file are inputs. *)
From S2P Require Import Prelude DynMap Payees Signer Http Btp Serve Sql LibraryDb CustomCatalog.
From stdpp Require Import relations.

Local Open Scope string_scope.
Local Open Scope Z_scope.

(** * The semaphore *)

Record Semaphore := { sm_max : Z; sm_current : Z }.

Definition new_semaphore : Semaphore := {| sm_max := 30; sm_current := 0 |}.

Definition acquire (s : Semaphore) : bool * Semaphore :=
  if sm_current s <? sm_max s then (true, {| sm_max := sm_max s; sm_current := i32 (sm_current s + 1) |})
  else (false, s).

Definition release (s : Semaphore) : Semaphore :=
  {| sm_max := sm_max s; sm_current := i32 (sm_current s - 1) |}.

(** * Sample ranges *)

(** A [Media] with its sample range; the length is that of the sample. *)
Record SampleMedia := {
  sa_id : string;
  sa_title : string;
  sa_contributors : dmap (list string);
  sa_length : Z;
  sa_range : Z * Z;
  sa_contentLength : option Z
}.

(** What Bitmunk answers. *)
Record MediaAnswer := {
  ma_id : string;
  ma_title : string;
  ma_contributors : dmap (list string);
  ma_sampleRange : string
}.

(** The map of the cache: its capacity, if it is set, and the media by their ids. *)
Record RangeCache := { rg_capacity : option Z; rg_cache : dmap SampleMedia }.

Definition new_cache : RangeCache := {| rg_capacity := Some 100; rg_cache := [] |}.

(** Reaching the capacity clears the map, of which the capacity is a member. *)
Definition put_range (m : SampleMedia) (c : RangeCache) : RangeCache :=
  let c := if default 0 (rg_capacity c) <=? Z.of_nat (length (rg_cache c)) + 1
           then {| rg_capacity := None; rg_cache := [] |} else c in
  {| rg_capacity := rg_capacity c; rg_cache := dm_set (rg_cache c) (sa_id m) m |}.

(** [(uint32_t)strtoul(token, NULL, 10)] *)
Definition range_end (token : string) : Z := u32 (strtoull token).

(** A difference of [uint32_t] values as an [int]. *)
Definition sample_length (start stop : Z) : Z := i32 (u32 (stop - start)).

Section Ranges.
(** [tokens s] are the tokens of [s] between hyphens. *)
Context (tokens : string -> list string).

(** Nothing if the answer has no range. *)
Definition sample_of (a : MediaAnswer) : option SampleMedia :=
  match tokens (ma_sampleRange a) with
  | [start; stop] =>
      let start := range_end start in
      let stop := range_end stop in
      Some {| sa_id := ma_id a; sa_title := ma_title a +:+ " - Bitmunk Sample";
              sa_contributors := ma_contributors a; sa_length := sample_length start stop;
              sa_range := (start, stop); sa_contentLength := None |}
  | _ => None
  end.

(** The object that is returned is the one in the cache. *)
Definition getSampleRange (bitmunk : Z -> outcome MediaAnswer) (id : Z) (c : RangeCache)
  : option SampleMedia * RangeCache :=
  match dm_get (rg_cache c) (print_u64 id) with
  | Some m => (Some m, c)
  | None =>
      match bitmunk id with
      | Raise _ => (None, c)
      | Ok a => match sample_of a with
                | Some m => (Some m, put_range m c)
                | None => (None, c)
                end
      end
  end.
End Ranges.

Definition set_contentLength (n : Z) (m : SampleMedia) : SampleMedia :=
  {| sa_id := sa_id m; sa_title := sa_title m; sa_contributors := sa_contributors m;
     sa_length := sa_length m; sa_range := sa_range m; sa_contentLength := Some n |}.

(** The length is set in the object that is shared with the cache. *)
Definition cache_contentLength (n : Z) (m : SampleMedia) (c : RangeCache) : RangeCache :=
  {| rg_capacity := rg_capacity c;
     rg_cache := dm_set (rg_cache c) (sa_id m) (set_contentLength n m) |}.

(** * The service *)

(** What the code reads of a [FileInfo]. *)
Record SampleFile := { sf_id : string; sf_mediaId : Z; sf_extension : string; sf_path : string }.

Section Service.
Context {PrivateKey PublicKey : Type} `{SignatureScheme PrivateKey PublicKey} `{HexCheck}.
Context {Hdr : Type} `{HttpHeader Hdr} `{Compression} {D : Type} `{ObjectCodec D} {Q : Type}.
Context (tokens : string -> list string).
Abbreviation Action := (@Action PrivateKey PublicKey Hdr D Q).
Implicit Types a : Action.

(** What the node answers: the default user, the file of an id and the files of a bundle in the
    user's catalog, Bitmunk, the files that exist, and the data of a sample, which is all of it
    or what was read before an error. *)
Record SampleEnv := {
  sn_defaultUser : Z;
  sn_file : Z -> Z -> string -> outcome SampleFile;
  sn_bundle : Z -> Z -> string -> outcome (list SampleFile);
  sn_bitmunk : Z -> outcome MediaAnswer;
  sn_exists : string -> bool;
  sn_data : string -> SampleMedia -> string * bool
}.
Implicit Types env : SampleEnv.

Record SampleState := { ss_semaphore : Semaphore; ss_cache : RangeCache }.
Implicit Types st : SampleState.

Definition set_cache (c : RangeCache) st : SampleState :=
  {| ss_semaphore := ss_semaphore st; ss_cache := c |}.

Definition set_request (h : Hdr) a : Action :=
  {| ac_params := ac_params a; ac_query := ac_query a; ac_nodeuser := ac_nodeuser a;
     ac_inMessage := ac_inMessage a; ac_outMessage := ac_outMessage a; ac_request := h;
     ac_secure := ac_secure a; ac_body := ac_body a; ac_response := ac_response a; ac_io := ac_io a;
     mContentReceived := mContentReceived a; mContent := mContent a;
     mSelectContentEncoding := mSelectContentEncoding a; ac_sent := ac_sent a |}.

Definition with_response (f : Hdr -> Hdr) a : Action := set_response (f (ac_response a)) a.

(** [setStatus] and [sendResult()] *)
Definition answer_status (code : Z) (text : string) a : Action :=
  (sendResult (with_response (fun h => hd_setStatus h code text) a)).1.

Definition sample_user env a : Z := default (sn_defaultUser env) (ac_nodeuser a).

(** The length of a sample for HTTP/1.0: the cached one, or that of the data. *)
Definition content_length env (path : string) (m : SampleMedia) (c : RangeCache) : Z * RangeCache :=
  match sa_contentLength m with
  | Some n => (n, c)
  | None =>
      let '(data, complete) := sn_data env path m in
      let n := Z.of_nat (String.length data) in
      (n, if complete then cache_contentLength n m c else c)
  end.

(** [Content-Length] in the place of a chunked encoding. *)
Definition plain_length (n : Z) (h : Hdr) : Hdr :=
  hd_set (hd_remove (hd_remove (hd_set h "Connection" "close") "Transfer-Encoding") "TE")
    "Content-Length" (print_u64 n).

Definition sample_headers (type name : string) (h : Hdr) : Hdr :=
  hd_set (hd_set h "Content-Type" type) "Content-Disposition" ("attachment; filename=" +:+ name).

(** Sending a stream whose data ends with an error fails. *)
Definition send_stream (data : string) (complete : bool) a : Action :=
  if complete then (sendResultStream data a).1 else a.

(** [sendFile] *)
Definition sendFile env (f : SampleFile) a st : Action * SampleState * bool :=
  if negb (String.eqb (sf_extension f) "mp3") || negb (sn_exists env (sf_path f)) then (a, st, false)
  else
    match getSampleRange tokens (sn_bitmunk env) (sf_mediaId f) (ss_cache st) with
    | (None, c) => (a, set_cache c st, false)
    | (Some m, c) =>
        let a := with_response (sample_headers "audio/mpeg" "bitmunk-sample.mp3") a in
        let '(a, c) :=
          if String.eqb (hd_version (ac_request a)) "HTTP/1.0" then
            let '(n, c) := content_length env (sf_path f) m c in
            (with_response (plain_length n) a, c)
          else (a, c) in
        let '(data, complete) := sn_data env (sf_path f) m in
        let a := set_request (hd_remove (ac_request a) "Accept-Encoding") a in
        let a := with_response (fun h => hd_setStatus h 200 "OK") a in
        (send_stream data complete a, set_cache c st, true)
    end.

(** The function of the handler sends no object. *)
Definition getSampleFileByIds env (mediaId : Z) (fileId : string) a st
  : Action * SampleState * outcome (option D) :=
  let '(permit, s) := acquire (ss_semaphore st) in
  let st := {| ss_semaphore := s; ss_cache := ss_cache st |} in
  if negb permit then (answer_status 503 "Service Unavailable" a, st, Ok None)
  else
    let '(a, st, sent) :=
      match sn_file env (sample_user env a) mediaId fileId with
      | Raise _ => (a, st, false)
      | Ok f => sendFile env f a st
      end in
    let st := {| ss_semaphore := release (ss_semaphore st); ss_cache := ss_cache st |} in
    (if sent then a else answer_status 404 "Not Found" a, st, Ok None).

Definition param (n : nat) a : string := default "" (ac_params a !! n).

Definition getSampleFile env a st : Action * SampleState * outcome (option D) :=
  getSampleFileByIds env (strtoull (param 0 a)) (param 1 a) a st.

(** The files of a bundle that have samples, with their media. *)
Fixpoint sample_files env (l : list SampleFile) (c : RangeCache) : list (SampleFile * SampleMedia) * RangeCache :=
  match l with
  | [] => ([], c)
  | f :: l =>
      let '(m, c) := if String.eqb (sf_extension f) "mp3"
                     then getSampleRange tokens (sn_bitmunk env) (sf_mediaId f) c else (None, c) in
      let '(fs, c) := sample_files env l c in
      (match m with Some m => (f, m) :: fs | None => fs end, c)
  end.

(** [contentType] is the query variable. *)
Definition getFileInfos env (contentType : string) a st
  : SampleState * outcome (list (SampleFile * SampleMedia)) :=
  match sn_bundle env (sample_user env a) (strtoull (param 0 a)) contentType with
  | Raise e => (st, Raise e)
  | Ok l => let '(fs, c) := sample_files env l (ss_cache st) in (set_cache c st, Ok fs)
  end.

(** The sample of a bundle that has exactly one. *)
Definition getSampleMedia env (contentType : string) a st : Action * SampleState * outcome (option D) :=
  match getFileInfos env contentType a st with
  | (st, Raise e) => (a, st, Raise e)
  | (st, Ok [(f, _)]) => getSampleFileByIds env (sf_mediaId f) (sf_id f) a st
  | (st, Ok _) => (a, st, Ok None)
  end.

(** ** Play lists *)

Definition newline : string := String (Ascii.ascii_of_nat 10) "".

Definition contributor (role : string) (m : SampleMedia) : option string :=
  option_map (hd "") (dm_get (sa_contributors m) role).

Definition artist (m : SampleMedia) : string :=
  match contributor "Performer" m, contributor "Artist" m with
  | Some name, _ => name
  | None, Some name => name
  | None, None => ""
  end.

(** The host a proxy has forwarded, or else the host of the request. *)
Definition request_host (h : Hdr) : string :=
  let host := hd_string h "X-Forwarded-Host" in
  if Nat.eqb (String.length host) 0 then hd_string h "Host" else host.

Definition m3u_entry (host : string) (e : SampleFile * SampleMedia) : string :=
  let '(f, m) := e in
  let n := sample_length (sa_range m).1 (sa_range m).2 in
  "#EXTINF:" +:+ print_u64 (if n <? 0 then 0 else n) +:+ "," +:+ artist m +:+ " - " +:+ sa_title m +:+ newline +:+
  "http://" +:+ host +:+ "/api/3.0/sales/samples/file/" +:+ print_u64 (sf_mediaId f) +:+ "/" +:+ sf_id f +:+ newline.

Definition m3u (host : string) (l : list (SampleFile * SampleMedia)) : string :=
  foldl (fun s e => s +:+ m3u_entry host e) ("#EXTM3U" +:+ newline) l.

Definition sendm3u (l : list (SampleFile * SampleMedia)) a : Action :=
  let content := m3u (request_host (ac_request a)) l in
  let a := with_response (sample_headers "audio/x-mpegurl" "bitmunk-sample.m3u") a in
  (sendResultStream content (with_response (fun h => hd_setStatus h 200 "OK") a)).1.

Definition getSamplePlayList env (contentType : string) a st : Action * SampleState * outcome (option D) :=
  match getFileInfos env contentType a st with
  | (st, Ok (e :: l)) => (sendm3u (e :: l) a, st, Ok None)
  | (st, _) => (answer_status 404 "Not Found" a, st, Ok None)
  end.
End Service.

(** * Requests at the same time *)

(** Between acquiring and releasing a permit other requests run: the semaphore and the number of
    requests that have a permit, and of those that were told that there is none. *)
Record Streams := { sr_semaphore : Semaphore; sr_running : Z; sr_refused : Z }.

Definition no_streams : Streams := {| sr_semaphore := new_semaphore; sr_running := 0; sr_refused := 0 |}.

Inductive stream_step : Streams -> Streams -> Prop :=
| stream_begin s sem :
    acquire (sr_semaphore s) = (true, sem) ->
    stream_step s {| sr_semaphore := sem; sr_running := sr_running s + 1; sr_refused := sr_refused s |}
| stream_refused s sem :
    acquire (sr_semaphore s) = (false, sem) ->
    stream_step s {| sr_semaphore := sem; sr_running := sr_running s; sr_refused := sr_refused s + 1 |}
| stream_end s :
    0 < sr_running s ->
    stream_step s {| sr_semaphore := release (sr_semaphore s); sr_running := sr_running s - 1;
                     sr_refused := sr_refused s |}.

(** The semaphore counts the requests that have a permit, of which there are at most thirty; a
    request is refused only when there are thirty. *)
Lemma streams_bounded s : rtc stream_step no_streams s ->
  sm_max (sr_semaphore s) = 30 /\ sm_current (sr_semaphore s) = sr_running s /\ 0 <= sr_running s <= 30 /\
  (fst (acquire (sr_semaphore s)) = false <-> sr_running s = 30).
Proof.
  intros Hr. assert (sm_max (sr_semaphore s) = 30 /\ sm_current (sr_semaphore s) = sr_running s /\
    0 <= sr_running s <= 30) as (Hm & Hc & Hb).
  { refine (rtc_ind_r (fun s => sm_max (sr_semaphore s) = 30 /\ sm_current (sr_semaphore s) = sr_running s /\
      0 <= sr_running s <= 30) no_streams _ _ s Hr); [done|].
    intros y z _ Hstep (Hm & Hc & Hb). destruct Hstep as [y sem E|y sem E|y Hy]; simpl.
    - unfold acquire in E. destruct (Z.ltb_spec (sm_current (sr_semaphore y)) (sm_max (sr_semaphore y))); [|done].
      injection E as <-. simpl. rewrite i32_small by lia. lia.
    - unfold acquire in E. destruct (_ <? _); [done|]. by injection E as <-.
    - rewrite i32_small by lia. lia. }
  split_and!; try done; try lia. unfold acquire. rewrite Hm, Hc. destruct (Z.ltb_spec (sr_running s) 30); simpl; split; intros; (lia || done).
Qed.

(** * The cache *)

Section CacheFacts.
Context (tokens : string -> list string).

Definition range_request : Type := (Z -> outcome MediaAnswer) * Z.

Definition run_ranges (l : list range_request) (c : RangeCache) : RangeCache :=
  foldl (fun c r => (getSampleRange tokens r.1 r.2 c).2) c l.

Lemma getSampleRange_cache r id c :
  (getSampleRange tokens r id c).2 = c \/
  exists m, (getSampleRange tokens r id c).2 = put_range m c /\ dm_get (rg_cache c) (print_u64 id) = None.
Proof.
  unfold getSampleRange. destruct (dm_get _ _); [by left|]. destruct (r id) as [a|]; [|by left].
  destruct (sample_of tokens a) as [m|]; [|by left]. right. by exists m.
Qed.

(** Without a capacity a cache has one entry at most. *)
Definition cleared_cache (c : RangeCache) : Prop :=
  rg_capacity c = None /\ (length (rg_cache c) <= 1)%nat.

Lemma put_cleared m c : rg_capacity c = None -> cleared_cache (put_range m c).
Proof.
  intros Hc. unfold put_range. rewrite Hc. change (default 0 None) with 0.
  destruct (Z.leb_spec 0 (Z.of_nat (length (rg_cache c)) + 1)) as [Hl|Hl]; [by split; [|cbn; lia]|].
  pose proof (Nat2Z.is_nonneg (length (rg_cache c))). lia.
Qed.

Lemma run_cleared l c : cleared_cache c -> cleared_cache (run_ranges l c).
Proof.
  revert c. induction l as [|[r id] l IH]; intros c Hc; [done|]. cbn. apply IH.
  destruct (getSampleRange_cache r id c) as [->|(m & -> & _)]; [done|]. apply put_cleared, Hc.
Qed.

Lemma dm_set_length {A} (m : dmap A) k v : (length (dm_set m k v) <= length m + 1)%nat.
Proof.
  induction m as [|[k' v'] m IH]; cbn; [lia|]. repeat case_match; cbn; lia.
Qed.

Lemma put_bounded m c : rg_capacity c = Some 100 -> (length (rg_cache c) <= 99)%nat ->
  cleared_cache (put_range m c) \/
  rg_capacity (put_range m c) = Some 100 /\ (length (rg_cache (put_range m c)) <= 99)%nat.
Proof.
  intros Hc Hl. unfold put_range. rewrite Hc. change (default 0 (Some 100)) with 100.
  destruct (Z.leb_spec 100 (Z.of_nat (length (rg_cache c)) + 1)) as [Hz|Hz].
  { left. split; [done|]. cbn. lia. }
  right. cbn. split; [done|]. pose proof (dm_set_length (rg_cache c) (sa_id m) m). lia.
Qed.

(** The cache of sample ranges never holds more than 99 media; from the first time that it is
    full on it has lost its capacity, and holds one media at most, whatever is asked for. *)
Theorem sample_cache_degenerates l1 l2 :
  let c := run_ranges l1 new_cache in
  (length (rg_cache c) <= 99)%nat /\
  (rg_capacity c = None -> (length (rg_cache (run_ranges l2 c)) <= 1)%nat).
Proof.
  assert (forall l c, rg_capacity c = Some 100 /\ (length (rg_cache c) <= 99)%nat \/ cleared_cache c ->
    let c := run_ranges l c in
    rg_capacity c = Some 100 /\ (length (rg_cache c) <= 99)%nat \/ cleared_cache c) as Hrun.
  { induction l as [|[r id] l IH]; intros c Hc; [done|]. cbn. apply IH.
    destruct (getSampleRange_cache r id c) as [->|(m & -> & _)]; [done|].
    destruct Hc as [[? ?]|[? ?]]; [|right; by apply put_cleared].
    destruct (put_bounded m c); [done..|by right|by left]. }
  destruct (Hrun l1 new_cache) as [[H1 H2]|[H1 H2]]; [left; split; [done|cbn; lia]| |].
  - split; [done|]. by rewrite H1.
  - split; [lia|]. intros _. by apply run_cleared.
Qed.
End CacheFacts.

(** * Requests *)

Section RequestFacts.
Context {PrivateKey PublicKey : Type} `{SignatureScheme PrivateKey PublicKey} `{HexCheck}.
Context {Hdr : Type} `{HttpHeader Hdr} `{!HttpHeaderLaws Hdr} `{Compression} {D : Type} `{ObjectCodec D} {Q : Type}.
Context (tokens : string -> list string).
Abbreviation Action := (@Serve.Action PrivateKey PublicKey Hdr D Q).
Implicit Types (a : Action) (env : SampleEnv) (st : SampleState).

(** A request gives its permit back, whether the sample is sent or not. *)
Lemma permit_given_back env mediaId fileId a st :
  0 <= sm_current (ss_semaphore st) < 2 ^ 31 - 1 ->
  ss_semaphore (getSampleFileByIds tokens env mediaId fileId a st).1.2 = ss_semaphore st.
Proof.
  intros Hc. unfold getSampleFileByIds, acquire. destruct (_ <? _); cbn [negb]; [|by destruct st as [[] ?]].
  assert (forall s c, s = {| sm_max := sm_max (ss_semaphore st); sm_current := i32 (sm_current (ss_semaphore st) + 1) |} ->
    release (ss_semaphore {| ss_semaphore := s; ss_cache := c |}) = ss_semaphore st) as Hr.
  { intros s c ->. unfold release. cbn.
    rewrite (i32_small (sm_current (ss_semaphore st) + 1)), i32_small by lia.
    destruct (ss_semaphore st) as [m n]. cbn. f_equal. lia. }
  destruct (sn_file env _ mediaId fileId) as [f|]; [|by apply Hr].
  unfold sendFile. destruct (_ || _); [by apply Hr|].
  destruct (getSampleRange _ _ _ _) as [[m|] c]; [|by apply Hr].
  destruct (if String.eqb _ _ then _ else _) as [a1 c1]. destruct (sn_data _ _ _) as [data complete]. by apply Hr.
Qed.

(** The catalog of the repository has no bundles: there is no play list of any media. *)
Lemma no_play_lists env contentType a st :
  (forall u m t, sn_bundle env u m t = match populateWareBundle with Ok _ => Ok [] | Raise e => Raise e end) ->
  getSamplePlayList tokens env contentType a st = (answer_status 404 "Not Found" a, st, Ok None).
Proof. intros Hb. unfold getSamplePlayList, getFileInfos. by rewrite Hb. Qed.

(** The length that is announced to an HTTP/1.0 client is that of the data, unless it was cached
    when the data was another. *)
Lemma announced_length env path m c :
  match sa_contentLength m with None => True | Some n => n = Z.of_nat (String.length (sn_data env path m).1) end ->
  (content_length env path m c).1 = Z.of_nat (String.length (sn_data env path m).1).
Proof.
  unfold content_length. destruct (sa_contentLength m); [done|]. intros _. by destruct (sn_data env path m).
Qed.

Lemma plain_length_get n (h : Hdr) :
  hd_get (plain_length n h) "Content-Length" = Some (print_u64 n) /\
  hd_get (plain_length n h) "Transfer-Encoding" = None.
Proof.
  unfold plain_length. rewrite get_set_eq. split; [done|].
  by rewrite get_set_ne, get_remove_ne, get_remove_eq by reflexivity.
Qed.
End RequestFacts.
