(* ===== verification/DataFormat.v ===== *)
(** Inspectors of data formats and algorithms on streams of bytes
    ([cpp/data/FormatDetectorInputStream.cpp], and the interfaces of the Monarch library that
    the files of [cpp/data] implement).

    Bytes are integers from 0 to 255.  Byte buffers and the base class of inspectors are part of
    Monarch; they are interfaces here. *)
From S2P Require Import Prelude.

Local Open Scope string_scope.
Local Open Scope list_scope.
Local Open Scope Z_scope.

Abbreviation bytes := (list Z).

(** Strings as bytes. *)
Definition char_byte (c : Ascii.ascii) : Z := Z.of_nat (Ascii.nat_of_ascii c).

Definition bytes_of (s : string) : bytes := map char_byte (String.list_ascii_of_string s).

Definition byte_char (n : Z) : Ascii.ascii := Ascii.ascii_of_nat (Z.to_nat n).

Definition string_of (b : bytes) : string := String.string_of_list_ascii (map byte_char b).

(** * Interfaces *)

(** [AbstractDataFormatInspector] *)
Class Inspector (I : Type) := {
  isFormatRecognized : I -> bool;
  isDataSatisfied : I -> bool;
  setFormatRecognized : bool -> I -> I;
  setSkipBytes : Z -> I -> I;
  getBytesInspected : I -> Z
}.

Class InspectorLaws (I : Type) `{Inspector I} := {
  recognized_set : forall b (i : I), isFormatRecognized (setFormatRecognized b i) = b;
  recognized_skip : forall n (i : I), isFormatRecognized (setSkipBytes n i) = isFormatRecognized i;
  satisfied_skip : forall n (i : I), isDataSatisfied (setSkipBytes n i) = isDataSatisfied i
}.

(** [ByteBuffer]: the bytes in it, where they start in the memory of the buffer, [clear(n)]
    and [put] with room being made. *)
Class ByteBuffer (B : Type) := {
  bb_bytes : B -> bytes;
  bb_offset : B -> Z;
  bb_clear : Z -> B -> B;
  bb_put : bytes -> B -> B
}.

Class ByteBufferLaws (B : Type) `{ByteBuffer B} := {
  bytes_clear : forall n (b : B), bb_bytes (bb_clear n b) = drop (Z.to_nat n) (bb_bytes b);
  bytes_put : forall l (b : B), bb_bytes (bb_put l b) = bb_bytes b ++ l;
  offset_nonneg : forall b : B, 0 <= bb_offset b
}.

(** The length of a list as an integer. *)
Definition len {A} (l : list A) : Z := Z.of_nat (length l).

(** [src->get(dst, n, true)]: the number of bytes, the rest of the source and the destination. *)
Definition bb_get {B} `{ByteBuffer B} (n : Z) (src dst : B) : Z * B * B :=
  let l := take (Z.to_nat n) (bb_bytes src) in (len l, bb_clear n src, bb_put l dst).

(** [src->clear(n)] *)
Definition bb_strip {B} `{ByteBuffer B} (n : Z) (src : B) : Z * B :=
  (len (take (Z.to_nat n) (bb_bytes src)), bb_clear n src).

(** [MutationAlgorithm::Result] *)
Inductive Mutation := NeedsData | Stepped | CompleteAppend | CompleteTruncate | MutationError (e : string).

(** * Instances *)

(** A buffer that does not move its bytes. *)
Record Buffer := { bf_offset : Z; bf_bytes : bytes }.

Definition buffer_clear (n : Z) (b : Buffer) : Buffer :=
  {| bf_offset := bf_offset b + len (take (Z.to_nat n) (bf_bytes b));
     bf_bytes := drop (Z.to_nat n) (bf_bytes b) |}.

#[export] Instance plain_buffer : ByteBuffer Buffer := {|
  bb_bytes := bf_bytes; bb_offset b := Z.max 0 (bf_offset b); bb_clear := buffer_clear;
  bb_put l b := {| bf_offset := bf_offset b; bf_bytes := bf_bytes b ++ l |} |}.

#[export] Instance plain_buffer_laws : ByteBufferLaws Buffer.
Proof. split; intros; cbn; try done. lia. Qed.

(** An inspector that is satisfied once it has decided. *)
Record Inspected := { is_decided : option bool; is_skip : Z; is_count : Z }.

Definition new_inspected : Inspected := {| is_decided := None; is_skip := 0; is_count := 0 |}.

#[export] Instance plain_inspector : Inspector Inspected := {|
  isFormatRecognized i := default false (is_decided i);
  isDataSatisfied i := if is_decided i then true else false;
  setFormatRecognized b i := {| is_decided := Some b; is_skip := is_skip i; is_count := is_count i |};
  setSkipBytes n i := {| is_decided := is_decided i; is_skip := n; is_count := is_count i |};
  getBytesInspected := is_count |}.

#[export] Instance plain_inspector_laws : InspectorLaws Inspected.
Proof. by split. Qed.

(** * The stream that detects formats *)

(** An inspector as the stream sees it: its name, whether it recognizes the format, and its
    details. *)
Section Detectors.
Context {D : Type}.

Record DataFormatInspector := { di_name : string; di_recognized : bool; di_details : D }.

Record FormatDetectorInputStream := {
  mInspectors : list DataFormatInspector;
  mDataFormatRecognized : bool
}.
Implicit Types s : FormatDetectorInputStream.

(** An inspector with a name that is taken is not added. *)
Definition addDataFormatInspector (i : DataFormatInspector) s : bool * FormatDetectorInputStream :=
  if existsb (fun j => String.eqb (di_name j) (di_name i)) (mInspectors s) then (false, s)
  else (true, {| mInspectors := mInspectors s ++ [i];
                 mDataFormatRecognized := mDataFormatRecognized s |}).

(** [createInspectors]: the inspectors of a new stream, in order. *)
Definition createInspectors (avi mpeg id3 : D) : FormatDetectorInputStream :=
  let add name d s := (addDataFormatInspector
    {| di_name := name; di_recognized := false; di_details := d |} s).2 in
  add "bitmunk.data.Id3v2TagReader" id3
    (add "bitmunk.data.MpegAudioDetector" mpeg
       (add "bitmunk.data.AviDetector" avi {| mInspectors := []; mDataFormatRecognized := false |})).

Definition getDataFormatInspector (name : string) s : option DataFormatInspector :=
  List.find (fun i => String.eqb (di_name i) name) (mInspectors s).

Definition getInspectors s : list DataFormatInspector :=
  List.filter di_recognized (mInspectors s).

(** Once the format has been recognized it stays so. *)
Definition streamFormatRecognized s : bool * FormatDetectorInputStream :=
  let r := mDataFormatRecognized s || existsb di_recognized (mInspectors s) in
  (r, {| mInspectors := mInspectors s; mDataFormatRecognized := r |}).

Definition streamFormatDetails s : list D :=
  map di_details (List.filter di_recognized (mInspectors s)).
End Detectors.

(** Recognized or not, there are details exactly if an inspector has recognized the format; they
    begin with those of a video, then audio, then tags. *)
Lemma first_details {D} (avi mpeg id3 : D) r1 r2 r3 :
  let s := {| mInspectors :=
                [{| di_name := "bitmunk.data.AviDetector"; di_recognized := r1; di_details := avi |};
                 {| di_name := "bitmunk.data.MpegAudioDetector"; di_recognized := r2; di_details := mpeg |};
                 {| di_name := "bitmunk.data.Id3v2TagReader"; di_recognized := r3; di_details := id3 |}];
              mDataFormatRecognized := false |} in
  map di_name (mInspectors s) = map di_name (mInspectors (createInspectors avi mpeg id3)) /\
  head (streamFormatDetails s) =
    (if r1 then Some avi else if r2 then Some mpeg else if r3 then Some id3 else None) /\
  (streamFormatRecognized s).1 = negb (Nat.eqb (length (streamFormatDetails s)) 0).
Proof. by destruct r1, r2, r3. Qed.
