(* ===== verification/Mpeg.v ===== *)
(** MPEG audio ([cpp/data/MpegAudioFrameParser.cpp], [MpegAudioDetector.cpp],
    [MpegAudioTimeParser.cpp], [MpegAudioFrameInputStream.cpp]).

    A parser looks for frames in data; a detector counts them, a time parser cuts the frames of a
    sample out of a stream, an input stream yields frames only.  Frame headers and their checksums
    are part of the Monarch library and an interface here. *)
From stdpp Require Import gmap.
From S2P Require Import Prelude TimeSets DataFormat.

Local Open Scope string_scope.
Local Open Scope list_scope.
Local Open Scope Z_scope.

(** * Frame headers *)

(** [AudioFrameHeader] and [AudioCrc16]: reading a header from bytes, and what it says.  Times
    are values of the C++ type [double] with its addition. *)
Class AudioFrames (H T : Type) := {
  convertFromBytes : bytes -> option H;
  getFrameLength : H -> Z;
  getBitrate : H -> Z;
  getAudioLength : H -> T;
  getVersion : H -> Z;
  getLayer : H -> Z;
  isCrcEnabled : H -> bool;
  getAudioDataAmount : H -> Z;
  calculateCrc : H -> bytes -> Z;
  add_time : T -> T -> T
}.

Section Mpeg.
Context {H T : Type} `{Scalar T} `{!AudioFrames H T}.

(** * The frame parser *)

Record FrameParser := { mLastHeader : option H; mLastOffset : Z }.

Definition newFrameParser : FrameParser := {| mLastHeader := None; mLastOffset := -1 |}.

Definition reset (p : FrameParser) : FrameParser :=
  match mLastHeader p with Some _ => newFrameParser | None => p end.

(** The number of bytes that are missing. *)
Definition parseFrame (b : bytes) (p : FrameParser) : Z * FrameParser :=
  match convertFromBytes b with
  | Some h =>
      (if len b <? getFrameLength h then getFrameLength h - len b else 0,
       {| mLastHeader := Some h; mLastOffset := mLastOffset p |})
  | None => (0, p)
  end.

Definition found_at (offset : Z) (p : FrameParser) : FrameParser :=
  match mLastHeader p with
  | Some h => {| mLastHeader := Some h; mLastOffset := offset |}
  | None => p
  end.

(** The search: two bytes are looked at; when the second one cannot be the second of a frame, it
    cannot be the first one either.  The first two bytes that look like a frame end it. *)
Fixpoint search (b : bytes) (offset : Z) (p : FrameParser) : Z * FrameParser :=
  match b with
  | b0 :: (b1 :: rest) as b' =>
      if 0xdf <? b1 then
        if b0 =? 0xff then let '(needed, p) := parseFrame b p in (needed, found_at offset p)
        else search b' (offset + 1) p
      else search rest (offset + 2) p
  | _ => (0, p)
  end.

Definition findFrame (b : bytes) (p : FrameParser) : Z * FrameParser :=
  let p := reset p in
  if len b <? 4 then (4 - len b, p) else search b 0 p.

(** * The detector *)

Record FormatStats := {
  mFramesDetected : Z;
  mFrameCrcErrors : Z;
  mTotalMpegAudioSize : Z;
  mVersionMap : gmap Z Z;
  mLayerMap : gmap Z Z;
  mHighBitrate : Z;
  mLowBitrate : Z;
  mSummedBitrates : Z;
  mAudioTime : T
}.

(** [resetFormatDetails]; a missing entry of a map reads as zero. *)
Definition no_stats : FormatStats :=
  {| mFramesDetected := 0; mFrameCrcErrors := 0; mTotalMpegAudioSize := 0; mVersionMap := ∅;
     mLayerMap := ∅; mHighBitrate := 0; mLowBitrate := 0; mSummedBitrates := 0;
     mAudioTime := sc_zero |}.

Definition count_one (k : Z) (m : gmap Z Z) : gmap Z Z := <[k := u32 (default 0 (m !! k) + 1)]> m.

(** [recordHeaderInfo], without the last step. *)
Definition record_stats (h : H) (s : FormatStats) : FormatStats :=
  let bitrate := getBitrate h in
  {| mFramesDetected := u32 (mFramesDetected s + 1);
     mFrameCrcErrors := mFrameCrcErrors s;
     mTotalMpegAudioSize := u64 (mTotalMpegAudioSize s + getFrameLength h);
     mVersionMap := count_one (getVersion h) (mVersionMap s);
     mLayerMap := count_one (getLayer h) (mLayerMap s);
     mHighBitrate := if mHighBitrate s <? bitrate then bitrate else mHighBitrate s;
     mLowBitrate := if (mLowBitrate s =? 0) || (bitrate <? mLowBitrate s) then bitrate
                    else mLowBitrate s;
     mSummedBitrates := u64 (mSummedBitrates s + bitrate);
     mAudioTime := add_time (mAudioTime s) (getAudioLength h) |}.

Definition crc_error (s : FormatStats) : FormatStats :=
  {| mFramesDetected := mFramesDetected s; mFrameCrcErrors := u32 (mFrameCrcErrors s + 1);
     mTotalMpegAudioSize := mTotalMpegAudioSize s; mVersionMap := mVersionMap s;
     mLayerMap := mLayerMap s; mHighBitrate := mHighBitrate s; mLowBitrate := mLowBitrate s;
     mSummedBitrates := mSummedBitrates s; mAudioTime := mAudioTime s |}.

(** The quotient is rounded to the nearest integer.  A [double] is exact enough for it: there
    are less than 2^32 frames, so that the sum is below 2^52 for bit rates below 2^20. *)
Definition getAverageBitrate (s : FormatStats) : Z :=
  let n := mFramesDetected s in
  let average := if 0 <? n then (2 * mSummedBitrates s + n) / (2 * n) else 0 in
  if average <=? 0 then mHighBitrate s else average.

Definition isVariableBitrate (s : FormatStats) : bool := negb (mLowBitrate s =? mHighBitrate s).

Context {I : Type} `{Inspector I}.

Record Detector := {
  dt_stats : FormatStats;
  dt_falsePositives : Z;
  dt_parser : FrameParser;
  dt_inspector : I
}.
Implicit Types d : Detector.

Definition newDetector (i : I) : Detector :=
  {| dt_stats := no_stats; dt_falsePositives := 0; dt_parser := newFrameParser; dt_inspector := i |}.

Definition with_stats (f : FormatStats -> FormatStats) d : Detector :=
  {| dt_stats := f (dt_stats d); dt_falsePositives := dt_falsePositives d;
     dt_parser := dt_parser d; dt_inspector := dt_inspector d |}.

Definition with_inspector (f : I -> I) d : Detector :=
  {| dt_stats := dt_stats d; dt_falsePositives := dt_falsePositives d;
     dt_parser := dt_parser d; dt_inspector := f (dt_inspector d) |}.

Definition with_parser (p : FrameParser) d : Detector :=
  {| dt_stats := dt_stats d; dt_falsePositives := dt_falsePositives d; dt_parser := p;
     dt_inspector := dt_inspector d |}.

Definition recordHeaderInfo (h : H) d : Detector :=
  let d := with_stats (record_stats h) d in
  if negb (isDataSatisfied (dt_inspector d)) && (10 <? mFramesDetected (dt_stats d))
  then with_inspector (setFormatRecognized true) d else d.

Definition maxFalsePositives : Z := 5.

(** [if(!isFormatRecognized()) setFormatRecognized(false);] *)
Definition not_recognized d : Detector :=
  if isFormatRecognized (dt_inspector d) then d else with_inspector (setFormatRecognized false) d.

(** Data before the next frame: a single frame was a mistake, two frames are something else. *)
Definition gap d : Detector :=
  let n := mFramesDetected (dt_stats d) in
  if n =? 1 then
    {| dt_stats := no_stats; dt_falsePositives := u32 (dt_falsePositives d + 1);
       dt_parser := dt_parser d; dt_inspector := dt_inspector d |}
  else if n =? 2 then not_recognized d
  else d.

(** The checksum that follows the header of a frame. *)
Definition existing_crc (b : bytes) : Z :=
  Z.lor (Z.shiftl (nth 4 b 0) 8) (nth 5 b 0).

(** The part of [detectFormat] for a frame at the start of the data. *)
Definition frame_found (h : H) (b : bytes) d : Z * Detector :=
  let frameLength := getFrameLength h in
  let '(n, d) := if len b <? frameLength
                 then (len b, with_inspector (setSkipBytes (frameLength - len b)) d)
                 else (frameLength, d) in
  if isCrcEnabled h then
    if 6 + getAudioDataAmount h <=? len b then
      let d := recordHeaderInfo h d in
      (n, if calculateCrc h (drop 6 b) =? existing_crc b then d else with_stats crc_error d)
    else (0, with_inspector (setSkipBytes 0) d)
  else (n, recordHeaderInfo h d).

(** The number of bytes that have been inspected. *)
Definition detectFormat (b : bytes) d : Z * Detector :=
  if len b <=? 3 then (0, d)
  else
    let p := (findFrame b (dt_parser d)).2 in
    let d := with_parser p d in
    match mLastHeader p with
    | None => (len b, d)
    | Some h =>
        if 0 <? mLastOffset p then
          let d := gap d in
          if dt_falsePositives d <? maxFalsePositives then (mLastOffset p, d)
          else (len b, not_recognized d)
        else frame_found h b d
    end.

(** ** Details *)

Record MpegDetails := {
  md_framesDetected : Z;
  md_frameCrcErrors : Z;
  md_totalMpegAudioSize : Z;
  md_exactMpegAudioTime : T;
  md_totalBytesInspected : Z;
  md_averageBitrate : Z;
  md_variableBitrate : bool;
  md_versionFrames : Z -> Z;
  md_layerFrames : Z -> Z
}.

(** The content type and the details of a format that is recognized; the two members that are
    formatted as text are left out. *)
Definition getFormatDetails d : string * option MpegDetails :=
  if isFormatRecognized (dt_inspector d) then
    let s := dt_stats d in
    ("audio/mpeg",
     Some {| md_framesDetected := mFramesDetected s; md_frameCrcErrors := mFrameCrcErrors s;
             md_totalMpegAudioSize := mTotalMpegAudioSize s; md_exactMpegAudioTime := mAudioTime s;
             md_totalBytesInspected := getBytesInspected (dt_inspector d);
             md_averageBitrate := getAverageBitrate s; md_variableBitrate := isVariableBitrate s;
             md_versionFrames v := default 0 (mVersionMap s !! v);
             md_layerFrames l := default 0 (mLayerMap s !! l) |})
  else ("application/octet-stream", None).

(** * The time parser *)

Context {B : Type} `{ByteBuffer B}.

Record TimeParser := {
  tp_times : StreamTimeParser T;
  mFrameParser : FrameParser;
  mAcceptBytes : Z;
  mStripBytes : Z
}.
Implicit Types t : TimeParser.

Definition newTimeParser (start end_ : T) : TimeParser :=
  {| tp_times := newParser start end_; mFrameParser := newFrameParser; mAcceptBytes := 0;
     mStripBytes := 0 |}.

Definition add_times (start end_ : T) t : TimeParser :=
  {| tp_times := (addTimeSet start end_ (tp_times t)).2; mFrameParser := mFrameParser t;
     mAcceptBytes := mAcceptBytes t; mStripBytes := mStripBytes t |}.

Definition set_counts (p : FrameParser) (times : StreamTimeParser T) (accept strip : Z) : TimeParser :=
  {| tp_times := times; mFrameParser := p; mAcceptBytes := u64 accept; mStripBytes := u64 strip |}.

(** The offset of the frame in the data of the buffer is compared with the offset of the data in
    the memory of the buffer. *)
Definition mutateData (finish : bool) (src dst : B) t : Mutation * B * B * TimeParser :=
  let accept := mAcceptBytes t in
  let strip := mStripBytes t in
  let length := len (bb_bytes src) in
  if (length =? 0) || ((accept =? 0) && (strip =? 0) && (length <? 4)) then
    (if finish then CompleteTruncate else NeedsData, src, dst, t)
  else if 0 <? accept then
    let '(n, src, dst) := bb_get accept src dst in
    (Stepped, src, dst, set_counts (mFrameParser t) (tp_times t) (accept - n) strip)
  else if 0 <? strip then
    let '(n, src) := bb_strip strip src in
    (Stepped, src, dst, set_counts (mFrameParser t) (tp_times t) accept (strip - n))
  else
    let p := (findFrame (bb_bytes src) (mFrameParser t)).2 in
    match mLastHeader p with
    | None => (MutationError "", src, dst, set_counts p (tp_times t) accept strip)
    | Some h =>
        if bb_offset src <? mLastOffset p then
          (Stepped, src, dst, set_counts p (tp_times t) (mLastOffset p - bb_offset src) strip)
        else
          let times := setCurrentTime (add_time (getCurrentTime (tp_times t)) (getAudioLength h))
                         (tp_times t) in
          (Stepped, src, dst,
           if isTimeValid (getCurrentTime times) times
           then set_counts p times (getFrameLength h) strip
           else set_counts p times accept (getFrameLength h))
    end.

(** * The stream of frames *)

(** [fill free rest] is the number of bytes that a buffer with so much room gets of the rest of
    the stream, from which the tags have been stripped; nothing if reading fails. *)
Context (fill : Z -> bytes -> option Z).

Record FrameStream := {
  fs_parser : FrameParser;
  mInputBuffer : bytes;
  mFrameBytesLeft : Z;
  mFrameCount : Z;
  fs_rest : bytes
}.
Implicit Types s : FrameStream.

Definition newFrameStream (data : bytes) : FrameStream :=
  {| fs_parser := newFrameParser; mInputBuffer := []; mFrameBytesLeft := 0; mFrameCount := 0;
     fs_rest := data |}.

Definition bufferSize : Z := 2048.

(** [mInputBuffer.fill(mInputStream)] *)
Definition fill_buffer s : Z * FrameStream :=
  match fill (bufferSize - len (mInputBuffer s)) (fs_rest s) with
  | None => (-1, s)
  | Some n =>
      (n, {| fs_parser := fs_parser s; mInputBuffer := mInputBuffer s ++ take (Z.to_nat n) (fs_rest s);
             mFrameBytesLeft := mFrameBytesLeft s; mFrameCount := mFrameCount s;
             fs_rest := drop (Z.to_nat n) (fs_rest s) |})
  end.

Definition stream_parsed (p : FrameParser) s : FrameStream :=
  {| fs_parser := p; mInputBuffer := mInputBuffer s; mFrameBytesLeft := mFrameBytesLeft s;
     mFrameCount := mFrameCount s; fs_rest := fs_rest s |}.

Definition begin_frame (h : H) s : FrameStream :=
  {| fs_parser := fs_parser s; mInputBuffer := mInputBuffer s; mFrameBytesLeft := getFrameLength h;
     mFrameCount := i32 (mFrameCount s + 1); fs_rest := fs_rest s |}.

(** The loop of [read]: the result so far and whether the stream has ended.  Nothing if there is
    no fuel left. *)
Fixpoint next_frame (fuel : nat) (rval : Z) s : option (Z * bool * FrameStream) :=
  if (rval =? -1) || negb (mFrameBytesLeft s =? 0) then Some (rval, false, s)
  else match fuel with
  | O => None
  | S fuel =>
      let '(rval, s) := fill_buffer s in
      if rval =? -1 then next_frame fuel rval s
      else
        let '(needed, p) := findFrame (mInputBuffer s) (fs_parser s) in
        let s := stream_parsed p s in
        match mLastHeader p, mLastOffset p =? 0 with
        | Some h, true => next_frame fuel rval (begin_frame h s)
        | _, _ =>
            if needed =? 0 then Some (0, true, s)
            else if (rval =? 0) && negb (len (mInputBuffer s) =? bufferSize) then Some (rval, true, s)
            else next_frame fuel rval s
        end
  end.

Definition take_bytes (n : Z) s : FrameStream :=
  {| fs_parser := fs_parser s; mInputBuffer := drop (Z.to_nat n) (mInputBuffer s);
     mFrameBytesLeft := mFrameBytesLeft s - n; mFrameCount := mFrameCount s; fs_rest := fs_rest s |}.

(** The result and the bytes that have been read. *)
Definition read (fuel : nat) (length : Z) s : option (Z * bytes * FrameStream) :=
  let '(rval, s) := if (0 <? mFrameBytesLeft s) && (mFrameBytesLeft s <? length)
                    then fill_buffer s else (0, s) in
  match next_frame fuel rval s with
  | None => None
  | Some (rval, eos, s) =>
      if negb eos && (0 <? length) then
        let l := take (Z.to_nat (Z.min length (mFrameBytesLeft s))) (mInputBuffer s) in
        Some (len l, l, take_bytes (len l) s)
      else Some (rval, [], s)
  end.
End Mpeg.
