(* ===== verification/MpegFacts.v ===== *)
(** Theorems on MPEG audio: the search for frames, the counts of the detector, the frames of a
    sample and the stream of frames. *)
From stdpp Require Import gmap.
From S2P Require Import Prelude TimeSets DataFormat Mpeg.

Local Open Scope string_scope.
Local Open Scope list_scope.
Local Open Scope Z_scope.

Lemma len_nonneg {A} (l : list A) : 0 <= len l.
Proof. unfold len. lia. Qed.

Lemma len_app {A} (l k : list A) : len (l ++ k) = len l + len k.
Proof. unfold len. rewrite length_app. lia. Qed.

Lemma len_cons {A} (x : A) l : len (x :: l) = len l + 1.
Proof. unfold len. cbn. lia. Qed.

Lemma drop_len {A} (l k : list A) : drop (Z.to_nat (len l)) (l ++ k) = k.
Proof. unfold len. rewrite Nat2Z.id. apply drop_app_length. Qed.

Lemma take_len {A} (l k : list A) : take (Z.to_nat (len l)) (l ++ k) = l.
Proof. unfold len. rewrite Nat2Z.id. apply take_app_length. Qed.

Section Facts.
Context {H T : Type} `{Scalar T} `{!AudioFrames H T}.
Implicit Types (b : bytes) (p : FrameParser (H:=H)).

(** * The search for a frame *)

(** The bytes at [i] look like the start of a frame. *)
Definition sync_at b (i : nat) : Prop :=
  exists next : Z, b !! i = Some 0xff /\ b !! S i = Some next /\ 0xdf < next.

(** [i] is the first such place. *)
Definition first_sync b (i : nat) : Prop := sync_at b i /\ forall j, (j < i)%nat -> ~ sync_at b j.

Lemma sync_cons x b i : sync_at (x :: b) (S i) <-> sync_at b i.
Proof. done. Qed.

Lemma first_sync_cons x b i : ~ sync_at (x :: b) 0 -> first_sync (x :: b) (S i) -> first_sync b i.
Proof.
  intros _ [Hs Hf]. split; [done|]. intros j Hj Hsj. apply (Hf (S j)); [lia|]. done.
Qed.

Definition missing b : Z :=
  match convertFromBytes (H:=H) b with
  | Some h => if len b <? getFrameLength h then getFrameLength h - len b else 0
  | None => 0
  end.

Lemma search_cons (b0 b1 : Z) (rest : bytes) o p :
  search (b0 :: b1 :: rest) o p =
    if 0xdf <? b1 then
      if b0 =? 0xff then let '(needed, p) := parseFrame (b0 :: b1 :: rest) p in (needed, found_at o p)
      else search (b1 :: rest) (o + 1) p
    else search rest (o + 2) p.
Proof. done. Qed.

Lemma search_spec b : forall o p, mLastHeader p = None ->
  ((forall i, ~ sync_at b i) -> search b o p = (0, p)) /\
  (forall i, first_sync b i ->
    search b o p =
      (missing (drop i b),
       match convertFromBytes (drop i b) with
       | Some h => {| mLastHeader := Some h; mLastOffset := o + Z.of_nat i |}
       | None => p
       end)).
Proof.
  induction b as [b IH] using (well_founded_induction (well_founded_ltof _ (@length Z))).
  intros o p Hp. destruct b as [|b0 [|b1 rest]].
  { split; [done|]. intros i [(? & ? & _) _]. done. }
  { split; [done|]. intros [|i] [(? & ? & ? & _) _]; done. }
  rewrite search_cons. destruct (Z.ltb_spec 0xdf b1) as [Hb1|Hb1].
  - destruct (Z.eqb_spec b0 0xff) as [->|Hb0].
    + assert (sync_at (0xff :: b1 :: rest) 0) as Hs by (by exists b1).
      split; [intros Hn; by destruct (Hn 0%nat)|]. intros [|i] [_ Hf]; [|by destruct (Hf 0%nat); [lia|]].
      unfold parseFrame, missing, found_at. cbn [drop]. destruct (convertFromBytes _); cbn; [|by rewrite Hp].
      by rewrite Z.add_0_r.
    + assert (~ sync_at (b0 :: b1 :: rest) 0) as Hn by (intros (? & [= ->] & _); done).
      destruct (IH (b1 :: rest) ltac:(unfold ltof; cbn; lia) (o + 1) p Hp) as [IH1 IH2]. split.
      * intros Ha. apply IH1. intros i Hi. by apply (Ha (S i)).
      * intros [|i] Hi; [by destruct Hn, Hi|]. rewrite (IH2 i) by (by eapply first_sync_cons).
        cbn [drop]. destruct (convertFromBytes _); [|done]. by replace (o + 1 + Z.of_nat i) with (o + Z.of_nat (S i)) by lia.
  - assert (~ sync_at (b0 :: b1 :: rest) 0) as Hn0 by (intros (? & _ & [= <-] & ?); lia).
    assert (~ sync_at (b1 :: rest) 0) as Hn1 by (intros (? & [= ->] & _); lia).
    destruct (IH rest ltac:(unfold ltof; cbn; lia) (o + 2) p Hp) as [IH1 IH2]. split.
    + intros Ha. apply IH1. intros i Hi. by apply (Ha (S (S i))).
    + intros [|[|i]] Hi; [by destruct Hn0, Hi|by destruct Hn1, Hi|].
      rewrite (IH2 i) by (apply (first_sync_cons b1); [done|]; by apply (first_sync_cons b0)).
      cbn [drop]. destruct (convertFromBytes _); [|done]. by replace (o + 2 + Z.of_nat i) with (o + Z.of_nat (S (S i))) by lia.
Qed.

(** A parser without a header has no offset. *)
Definition parser_ok p : Prop := mLastHeader p = None -> mLastOffset p = -1.

Lemma reset_parser p : parser_ok p -> reset p = newFrameParser.
Proof. destruct p as [[h|] o]; cbn; [done|]. intros Ho. cbv in Ho. by rewrite Ho. Qed.

Lemma search_ok b : forall o p, mLastHeader p = None -> parser_ok p -> parser_ok (search b o p).2.
Proof.
  induction b as [b IH] using (well_founded_induction (well_founded_ltof _ (@length Z))).
  intros o p Hn Hp. destruct b as [|b0 [|b1 rest]]; [done..|]. rewrite search_cons.
  repeat case_match; try (apply IH; [unfold ltof; cbn; lia|done..]).
  unfold parseFrame in *. destruct (convertFromBytes _); simplify_eq; cbn; [done|].
  unfold found_at. by rewrite Hn.
Qed.

Lemma findFrame_ok b p : parser_ok p -> parser_ok (findFrame b p).2.
Proof.
  intros Hp. unfold findFrame. rewrite (reset_parser p Hp). destruct (_ <? _); [done|].
  by apply search_ok.
Qed.

(** C28: Although it skips bytes, [findFrame] finds the first place in the data whose bytes look like
    the start of a frame.  The header and the number of missing bytes are those that are read there,
    and its offset is kept; when no header can be read there, or when there is no such place, there
    is no header and no offset, whatever follows. *)
Theorem findFrame_first b p : parser_ok p ->
  parser_ok (findFrame b p).2 /\
  (len b < 4 -> findFrame b p = (4 - len b, newFrameParser)) /\
  (4 <= len b ->
    ((forall i, ~ sync_at b i) -> findFrame b p = (0, newFrameParser)) /\
    (forall i, first_sync b i ->
      findFrame b p =
        (missing (drop i b),
         match convertFromBytes (drop i b) with
         | Some h => {| mLastHeader := Some h; mLastOffset := Z.of_nat i |}
         | None => newFrameParser
         end))).
Proof.
  intros Hp. split; [by apply findFrame_ok|]. unfold findFrame. rewrite (reset_parser p Hp).
  destruct (search_spec b 0 newFrameParser eq_refl) as [H1 H2].
  destruct (Z.ltb_spec (len b) 4); split_and!; intros; try done; try lia; try by apply H1; try by apply H2.
Qed.

(** * Frames *)

(** The bytes of a frame with this header, whatever follows. *)
Definition is_frame (f : H * bytes) : Prop :=
  sync_at f.2 0 /\ len f.2 = getFrameLength f.1 /\ 4 <= len f.2 < 2 ^ 31 /\
  forall rest, convertFromBytes (f.2 ++ rest) = Some f.1.

Definition data_of (fs : list (H * bytes)) : bytes := concat (map snd fs).

Lemma findFrame_at_start f rest p : is_frame f -> parser_ok p ->
  findFrame (f.2 ++ rest) p = (0, {| mLastHeader := Some f.1; mLastOffset := 0 |}).
Proof.
  intros (Hs & Hl & Hb & Hc) Hp. unfold findFrame. rewrite (reset_parser p Hp).
  pose proof (len_nonneg rest). destruct (Z.ltb_spec (len (f.2 ++ rest)) 4); [rewrite len_app in *; lia|].
  destruct (search_spec (f.2 ++ rest) 0 newFrameParser eq_refl) as [_ Hsearch].
  rewrite (Hsearch 0%nat).
  - unfold missing. rewrite drop_0, Hc. destruct (Z.ltb_spec (len (f.2 ++ rest)) (getFrameLength f.1)); [|done].
    rewrite len_app in *. lia.
  - split; [|lia]. destruct Hs as (x & Hx0 & Hx1 & ?). exists x.
    split_and!; [by apply lookup_app_l_Some..|done].
Qed.

Lemma findFrame_nothing b p : 4 <= len b -> (forall i, ~ sync_at b i) -> parser_ok p ->
  findFrame b p = (0, newFrameParser).
Proof.
  intros Hl Hn Hp. unfold findFrame. rewrite (reset_parser p Hp).
  destruct (Z.ltb_spec (len b) 4); [lia|]. by apply search_spec.
Qed.

(** * Samples *)

Section Samples.
Context {B : Type} `{!ByteBuffer B} `{!ByteBufferLaws B}.
Implicit Types (src dst : B) (t : TimeParser (H:=H) (T:=T)).

(** The algorithm, called with all data until it is done. *)
Fixpoint run_parser (fuel : nat) src dst t : option (Mutation * B * B * TimeParser) :=
  match mutateData true src dst t, fuel with
  | (Stepped, src, dst, t), S fuel => run_parser fuel src dst t
  | (Stepped, _, _, _), O => None
  | r, _ => Some r
  end.

(** The frames after which the time is in one of the time sets. *)
Fixpoint sample_bytes (times : StreamTimeParser T) (time : T) (fs : list (H * bytes)) : bytes :=
  match fs with
  | [] => []
  | f :: fs =>
      let time := add_time time (getAudioLength f.1) in
      (if isTimeValid time times then f.2 else []) ++ sample_bytes times time fs
  end.

Definition idle t : Prop := mAcceptBytes t = 0 /\ mStripBytes t = 0 /\ parser_ok (mFrameParser t).

Definition time_after (time : T) (fs : list (H * bytes)) : T :=
  foldl (fun time f => add_time time (getAudioLength f.1)) time fs.

Lemma mutate_frame finish src dst t f rest : idle t -> is_frame f -> bb_bytes src = f.2 ++ rest ->
  let p := {| mLastHeader := Some f.1; mLastOffset := 0 |} in
  let times := setCurrentTime (add_time (getCurrentTime (tp_times t)) (getAudioLength f.1)) (tp_times t) in
  mutateData finish src dst t = (Stepped, src, dst,
    if isTimeValid (getCurrentTime times) times then set_counts p times (len f.2) 0
    else set_counts p times 0 (len f.2)).
Proof.
  intros (Ha & Hst & Hp) Hf Hs. destruct (Hf) as (_ & Hl & Hb & _). unfold mutateData.
  rewrite Ha, Hst, Hs, len_app. pose proof (len_nonneg rest). pose proof (offset_nonneg src).
  destruct (Z.eqb_spec (len f.2 + len rest) 0); [lia|]. cbn [orb andb Z.eqb].
  destruct (Z.ltb_spec (len f.2 + len rest) 4); [lia|]. cbn [Z.ltb Z.compare].
  rewrite (findFrame_at_start f rest _ Hf Hp). cbn [mLastHeader mLastOffset snd].
  destruct (Z.ltb_spec (bb_offset src) 0); [lia|]. by rewrite <- Hl.
Qed.

Lemma mutate_accept finish src dst t l rest : mAcceptBytes t = len l -> 0 < len l -> mStripBytes t = 0 ->
  bb_bytes src = l ++ rest ->
  mutateData finish src dst t =
    (Stepped, bb_clear (len l) src, bb_put l dst, set_counts (mFrameParser t) (tp_times t) 0 0).
Proof.
  intros Ha Hl Hst Hs. unfold mutateData. rewrite Ha, Hst, Hs, len_app. pose proof (len_nonneg rest).
  destruct (Z.eqb_spec (len l + len rest) 0); [lia|]. destruct (Z.eqb_spec (len l) 0); [lia|]. cbn [orb andb].
  destruct (Z.ltb_spec 0 (len l)); [|lia]. unfold bb_get. rewrite Hs, take_len. by rewrite Z.sub_diag.
Qed.

Lemma mutate_strip finish src dst t l rest : mStripBytes t = len l -> 0 < len l -> mAcceptBytes t = 0 ->
  bb_bytes src = l ++ rest ->
  mutateData finish src dst t =
    (Stepped, bb_clear (len l) src, dst, set_counts (mFrameParser t) (tp_times t) 0 0).
Proof.
  intros Ha Hl Hst Hs. unfold mutateData. rewrite Ha, Hst, Hs, len_app. pose proof (len_nonneg rest).
  destruct (Z.eqb_spec (len l + len rest) 0); [lia|]. destruct (Z.eqb_spec (len l) 0); [lia|]. cbn [orb andb].
  rewrite andb_false_r. cbn [andb Z.ltb Z.compare].
  destruct (Z.ltb_spec 0 (len l)); [|lia]. unfold bb_strip. rewrite Hs, take_len. by rewrite Z.sub_diag.
Qed.

(** One frame takes two steps. *)
Lemma frame_steps fuel src dst t f rest : idle t -> is_frame f -> bb_bytes src = f.2 ++ rest ->
  exists src' dst' t',
    run_parser (S (S fuel)) src dst t = run_parser fuel src' dst' t' /\ idle t' /\
    bb_bytes src' = rest /\ mTimeSets (tp_times t') = mTimeSets (tp_times t) /\
    getCurrentTime (tp_times t') = add_time (getCurrentTime (tp_times t)) (getAudioLength f.1) /\
    bb_bytes dst' = bb_bytes dst ++
      (if isTimeValid (getCurrentTime (tp_times t')) (tp_times t) then f.2 else []).
Proof.
  intros Hi Hf Hs. destruct (Hf) as (_ & _ & Hb & _). cbn [run_parser].
  rewrite (mutate_frame _ _ _ _ _ _ Hi Hf Hs). cbv zeta.
  assert (u64 (len f.2) = len f.2) as Hu by (apply u64_small; lia).
  destruct (isTimeValid _ _) eqn:Hv.
  - rewrite (mutate_accept _ _ _ _ f.2 rest); [|done|lia|done|done].
    do 3 eexists. split; [done|]. cbn. rewrite bytes_clear, bytes_put, Hs, drop_len.
    split_and!; try done. unfold isTimeValid in *. cbn in *. by rewrite Hv.
  - rewrite (mutate_strip _ _ _ _ f.2 rest); [|done|lia|done|done].
    do 3 eexists. split; [done|]. cbn. rewrite bytes_clear, Hs, drop_len.
    split_and!; try done. unfold isTimeValid in *. cbn in *. by rewrite Hv, app_nil_r.
Qed.

Lemma sample_times times times' time fs : mTimeSets times = mTimeSets times' ->
  sample_bytes times time fs = sample_bytes times' time fs.
Proof.
  intros E. revert time. induction fs as [|f fs IH]; intros time; [done|]. cbn. rewrite IH.
  unfold isTimeValid. by rewrite E.
Qed.

Lemma run_end src dst t rest fuel : idle t -> bb_bytes src = rest -> (forall i, ~ sync_at rest i) ->
  exists t', run_parser fuel src dst t =
    Some (if len rest <? 4 then CompleteTruncate else MutationError "", src, dst, t') /\
    tp_times t' = tp_times t.
Proof.
  intros (Ha & Hst & Hp) Hs Hr.
  assert (exists t', mutateData true src dst t =
    (if len rest <? 4 then CompleteTruncate else MutationError "", src, dst, t') /\ tp_times t' = tp_times t) as (t' & E & Ht).
  { unfold mutateData. rewrite Ha, Hst, Hs. cbn [Z.eqb andb Z.ltb Z.compare].
    destruct (Z.ltb_spec (len rest) 4); [rewrite orb_true_r; by eexists|].
    destruct (Z.eqb_spec (len rest) 0); [lia|]. cbn [orb].
    rewrite (findFrame_nothing rest _) by done. cbn. by eexists. }
  exists t'. split; [|done]. destruct fuel; cbn [run_parser]; rewrite E; by destruct (_ <? _).
Qed.

(** C27: A stream of frames, given to the parser at once and as the end of the data, is cut exactly:
    the output has the frames after which the time is in one of the time sets, whole and in order,
    and all other frames are gone.  What follows the last frame has no two bytes that look like the
    start of a frame: if it is less than four bytes the parser is complete, if it is more, such as a
    tag at the end of a file, the parser ends with an error.  Two steps for each frame are enough. *)
Theorem sample_frames fs rest src dst t fuel : idle t -> Forall is_frame fs ->
  bb_bytes src = data_of fs ++ rest -> (forall i, ~ sync_at rest i) -> (2 * length fs <= fuel)%nat ->
  exists src' dst' t',
    run_parser fuel src dst t =
      Some (if len rest <? 4 then CompleteTruncate else MutationError "", src', dst', t') /\
    bb_bytes dst' = bb_bytes dst ++ sample_bytes (tp_times t) (getCurrentTime (tp_times t)) fs /\
    bb_bytes src' = rest /\
    getCurrentTime (tp_times t') = time_after (getCurrentTime (tp_times t)) fs.
Proof.
  intros Hi Hfs Hs Hr Hfuel. revert src dst t fuel Hi Hs Hfuel.
  induction Hfs as [|f fs Hf Hfs IH]; intros src dst t fuel Hi Hs Hfuel.
  - destruct (run_end src dst t rest fuel Hi Hs Hr) as (t' & E & Ht).
    exists src, dst, t'. rewrite E. cbn. rewrite app_nil_r. split_and!; try done. by rewrite Ht.
  - cbn in Hfuel. destruct fuel as [|[|fuel]]; [lia..|]. unfold data_of in Hs. cbn in Hs. rewrite <- app_assoc in Hs.
    destruct (frame_steps fuel src dst t f _ Hi Hf Hs) as (s1 & d1 & t1 & -> & Hi1 & Hs1 & Hts & Htm & Hd).
    destruct (IH s1 d1 t1 fuel Hi1 Hs1) as (s2 & d2 & t2 & E2 & Hd2 & Hs2 & Ht2); [lia|].
    exists s2, d2, t2. split_and!; try done.
    + rewrite Hd2, Hd. cbn. rewrite <- app_assoc, Htm. by rewrite (sample_times _ (tp_times t)).
    + rewrite Ht2, Htm. done.
Qed.

(** Data before a frame is taken for the frame when the buffer has been used before: the frame's
    length is taken off the data from its start. *)
Lemma gap_taken_for_frame finish src dst t h i : idle t -> 4 <= len (bb_bytes src) ->
  first_sync (bb_bytes src) i -> convertFromBytes (drop i (bb_bytes src)) = Some h ->
  Z.of_nat i <= bb_offset src -> 0 <= getFrameLength h < 2 ^ 31 ->
  exists t', mutateData finish src dst t = (Stepped, src, dst, t') /\
    mAcceptBytes t' + mStripBytes t' = getFrameLength h.
Proof.
  intros (Ha & Hst & Hp) Hl Hf Hc Ho Hh. unfold mutateData. rewrite Ha, Hst.
  destruct (Z.eqb_spec (len (bb_bytes src)) 0); [lia|]. destruct (Z.ltb_spec (len (bb_bytes src)) 4); [lia|].
  cbn [orb andb Z.eqb Z.ltb Z.compare]. unfold findFrame. rewrite (reset_parser _ Hp).
  destruct (Z.ltb_spec (len (bb_bytes src)) 4); [lia|].
  destruct (search_spec (bb_bytes src) 0 newFrameParser eq_refl) as [_ Hsearch].
  rewrite (Hsearch i Hf), Hc. cbn [mLastHeader mLastOffset snd].
  destruct (Z.ltb_spec (bb_offset src) (0 + Z.of_nat i)); [lia|]. eexists. split; [done|].
  destruct (isTimeValid _ _); cbn; rewrite (u64_small (getFrameLength h)) by lia; change (u64 0) with 0; lia.
Qed.
End Samples.

(** * The detector *)

Section Detector.
Context {I : Type} `{!Inspector I} `{!InspectorLaws I}.
Implicit Types (d : Detector (H:=H) (T:=T) (I:=I)) (h : H).

Lemma search_offset b : forall o p, mLastHeader p = None ->
  match mLastHeader (search b o p).2 with
  | Some h => o <= mLastOffset (search b o p).2 < o + len b /\
              (mLastOffset (search b o p).2 = o -> convertFromBytes b = Some h)
  | None => True
  end.
Proof.
  induction b as [b IH] using (well_founded_induction (well_founded_ltof _ (@length Z))).
  intros o p Hn. destruct b as [|b0 [|b1 rest]]; [by cbn; rewrite Hn..|]. rewrite search_cons.
  pose proof (len_nonneg rest). rewrite !len_cons. destruct (0xdf <? b1).
  - destruct (b0 =? 0xff).
    + unfold parseFrame. destruct (convertFromBytes _) eqn:E; cbn; [split; [lia|done]|].
      unfold found_at. by rewrite Hn, Hn.
    + pose proof (IH (b1 :: rest) ltac:(unfold ltof; cbn; lia) (o + 1) p Hn) as Hi.
      destruct (mLastHeader (search (b1 :: rest) (o + 1) p).2); [|done]. rewrite len_cons in Hi. split; lia.
  - pose proof (IH rest ltac:(unfold ltof; cbn; lia) (o + 2) p Hn) as Hi.
    destruct (mLastHeader (search rest (o + 2) p).2); [|done]. split; lia.
Qed.

Lemma findFrame_offset b p : parser_ok p -> 4 <= len b ->
  match mLastHeader (findFrame b p).2 with
  | Some h => 0 <= mLastOffset (findFrame b p).2 < len b /\
              (mLastOffset (findFrame b p).2 = 0 -> convertFromBytes b = Some h)
  | None => True
  end.
Proof.
  intros Hp Hl. unfold findFrame. rewrite (reset_parser p Hp).
  destruct (Z.ltb_spec (len b) 4); [lia|]. apply (search_offset b 0 newFrameParser eq_refl).
Qed.

(** What is true of a header that is recorded. *)
Definition sum_of (f : H -> Z) (hs : list H) : Z := foldr (fun h n => f h + n) 0 hs.

Definition count_of (f : H -> Z) (v : Z) (hs : list H) : Z := sum_of (fun h => if f h =? v then 1 else 0) hs.

(** The counts are those of the frames of a list. *)
Record stats_of (hs : list H) (s : FormatStats (T:=T)) : Prop := {
  so_frames : mFramesDetected s = u32 (len hs);
  so_size : mTotalMpegAudioSize s = u64 (sum_of getFrameLength hs);
  so_rates : mSummedBitrates s = u64 (sum_of getBitrate hs);
  so_versions : forall v, default 0 (mVersionMap s !! v) = u32 (count_of getVersion v hs);
  so_layers : forall v, default 0 (mLayerMap s !! v) = u32 (count_of getLayer v hs);
  so_high : forall h, h ∈ hs -> getBitrate h <= mHighBitrate s;
  so_none : hs = [] -> mLowBitrate s = 0;
  so_low : Forall (fun h => 0 < getBitrate h) hs -> forall h, h ∈ hs -> 0 < mLowBitrate s <= getBitrate h;
  so_time : mAudioTime s = foldl (fun time h => add_time time (getAudioLength h)) sc_zero hs
}.

Lemma sum_of_snoc f hs h : sum_of f (hs ++ [h]) = sum_of f hs + f h.
Proof. unfold sum_of. induction hs as [|k hs IH]; cbn; [lia|]. rewrite IH. lia. Qed.

Lemma u32_add_u32_l (x y : Z) : u32 (u32 x + y) = u32 (x + y).
Proof. unfold u32. apply Zplus_mod_idemp_l. Qed.

Lemma count_one_spec (f : H -> Z) h m hs v :
  (forall v, default 0 (m !! v) = u32 (count_of f v hs)) ->
  default 0 (count_one (f h) m !! v) = u32 (count_of f v (hs ++ [h])).
Proof.
  intros Hm. unfold count_one, count_of. rewrite sum_of_snoc. destruct (Z.eqb_spec (f h) v) as [->|Hv].
  - rewrite lookup_insert_eq. cbn. rewrite Hm. apply u32_add_u32_l.
  - rewrite lookup_insert_ne by done. rewrite Hm, Z.add_0_r. done.
Qed.

Lemma stats_nil : stats_of [] no_stats.
Proof. split; try done; intros; by set_solver. Qed.

Lemma stats_record hs s h : stats_of hs s -> stats_of (hs ++ [h]) (record_stats h s).
Proof.
  intros [Hf Hs Hr Hv Hl Hh Hn Hlo Ht]. split; cbn.
  - rewrite Hf, u32_add_u32_l. by rewrite len_app.
  - by rewrite Hs, u64_add_u64_l, sum_of_snoc.
  - by rewrite Hr, u64_add_u64_l, sum_of_snoc.
  - intros v. by apply count_one_spec.
  - intros v. by apply count_one_spec.
  - intros k [Hk|Hk%list_elem_of_singleton]%elem_of_app; [apply Hh in Hk|subst k];
      destruct (Z.ltb_spec (mHighBitrate s) (getBitrate h)); lia.
  - by destruct hs.
  - intros [Ha Hb]%Forall_app k Hk. apply Forall_inv in Hb. cbn in Hb. specialize (Hlo Ha).
    destruct (Z.eqb_spec (mLowBitrate s) 0) as [E|E]; cbn [orb].
    + apply elem_of_app in Hk as [Hk|Hk%list_elem_of_singleton]; [apply Hlo in Hk; lia|subst k; lia].
    + destruct hs as [|h1 hs]; [by rewrite Hn in E|]. pose proof (Hlo h1 (list_elem_of_here _ _)).
      apply elem_of_app in Hk as [Hk|Hk%list_elem_of_singleton]; [apply Hlo in Hk|subst k];
        destruct (Z.ltb_spec (getBitrate h) (mLowBitrate s)); lia.
  - by rewrite Ht, foldl_app.
Qed.

(** Counting a checksum error changes nothing else. *)
Lemma stats_crc hs s : stats_of hs s -> stats_of hs (crc_error s).
Proof. by intros []. Qed.

(** What is known of a detector: its counts are those of frames that were read at the start of
    one of the buffers. *)
Definition counted (bs : list bytes) d : Prop :=
  parser_ok (dt_parser d) /\
  exists hs, stats_of hs (dt_stats d) /\ Forall (fun h => exists b, b ∈ bs /\ convertFromBytes b = Some h) hs.

Lemma counted_more bs bs' d : bs ⊆ bs' -> counted bs d -> counted bs' d.
Proof.
  intros Hb (Hp & hs & Hs & Hf). split; [done|]. exists hs. split; [done|].
  eapply Forall_impl; [done|]. intros h (b & ? & ?). exists b. by split; [apply Hb|].
Qed.

Lemma counted_same bs d d' : dt_parser d' = dt_parser d -> dt_stats d' = dt_stats d -> counted bs d -> counted bs d'.
Proof. intros Hp Hs. unfold counted. by rewrite Hp, Hs. Qed.

Lemma counted_give_up bs d : counted bs d -> counted bs (not_recognized d).
Proof. unfold not_recognized. by destruct (isFormatRecognized _). Qed.

Lemma counted_gap bs d : counted bs d -> counted bs (gap d).
Proof.
  intros Hc. unfold gap. destruct (_ =? 1).
  - destruct Hc as [Hp _]. split; [done|]. exists []. split; [apply stats_nil|constructor].
  - destruct (_ =? 2); [by apply counted_give_up|done].
Qed.

Lemma counted_record bs d h b : b ∈ bs -> convertFromBytes b = Some h -> counted bs d ->
  counted bs (recordHeaderInfo h d).
Proof.
  intros Hb Hc (Hp & hs & Hs & Hf).
  assert (counted bs (with_stats (record_stats h) d)) as Hr.
  { split; [done|]. exists (hs ++ [h]). split; [by apply stats_record|].
    apply Forall_app. split; [done|]. repeat constructor. by exists b. }
  unfold recordHeaderInfo. by destruct (_ && _).
Qed.

Lemma counted_crc bs d : counted bs d -> counted bs (with_stats crc_error d).
Proof. intros (Hp & hs & Hs & Hf). split; [done|]. exists hs. split; [by apply stats_crc|done]. Qed.

Lemma counted_frame bs d h b : b ∈ bs -> convertFromBytes b = Some h -> counted bs d ->
  counted bs (frame_found h b d).2.
Proof.
  intros Hb Hh Hc. unfold frame_found.
  destruct (if len b <? getFrameLength h then _ else _) as [n d1] eqn:E.
  assert (counted bs d1) as Hc1 by (destruct (_ <? _); by injection E as _ <-).
  destruct (isCrcEnabled h); [|by eapply counted_record]. destruct (_ <=? _); cbn [snd]; [|exact Hc1].
  destruct (_ =? _); [by eapply counted_record|]. by eapply counted_crc, counted_record.
Qed.

Lemma counted_step bs d b : counted bs d -> counted (b :: bs) (detectFormat b d).2.
Proof.
  intros Hc%(counted_more _ (b :: bs)); [|set_solver]. unfold detectFormat.
  destruct (Z.leb_spec (len b) 3); [done|]. destruct (Hc) as [Hp _].
  pose proof (findFrame_offset b (dt_parser d) Hp) as Ho.
  pose proof (findFrame_ok b (dt_parser d) Hp) as Hok.
  set (p := (findFrame b (dt_parser d)).2) in *.
  assert (counted (b :: bs) (with_parser p d)) as Hw by (destruct Hc as [_ Hc]; by split).
  destruct (mLastHeader p) as [h|]; [|done]. destruct Ho as [Ho Hh]; [lia|].
  destruct (Z.ltb_spec 0 (mLastOffset p)).
  - apply counted_gap in Hw. destruct (_ <? _); [done|]. by apply counted_give_up.
  - apply counted_frame; [set_solver|apply Hh; lia|done].
Qed.

Definition run_detector (bs : list bytes) d : Detector := foldl (fun d b => (detectFormat b d).2) d bs.

(** Whatever buffers a detector inspects, in whatever state of the inspection, its details are
    those of one list of frames that were read at the start of some of the buffers: the number of
    frames, altogether and for each version and layer, their total size and time, and bounds of their
    bit rates. *)
Theorem detector_counts (i : I) bs :
  exists hs, stats_of hs (dt_stats (run_detector bs (newDetector i))) /\
    Forall (fun h => exists b, b ∈ bs /\ convertFromBytes b = Some h) hs.
Proof.
  assert (forall seen d, counted seen d -> counted (rev bs ++ seen) (run_detector bs d)) as Hrun.
  { induction bs as [|b bs IH]; intros seen d Hc; [done|]. cbn. rewrite <- app_assoc. by apply IH, counted_step. }
  destruct (Hrun [] (newDetector i)) as (_ & hs & Hs & Hf).
  { split; [done|]. exists []. split; [apply stats_nil|constructor]. }
  exists hs. split; [done|]. eapply Forall_impl; [done|]. intros h (b & Hb & ?). exists b. split; [|done].
  rewrite app_nil_r in Hb. by apply list_elem_of_In, in_rev, list_elem_of_In.
Qed.

(** The number of inspected bytes is that of some of the data. *)
Lemma detect_bounds b d : (forall h, 0 <= getFrameLength h) -> parser_ok (dt_parser d) ->
  0 <= (detectFormat b d).1 <= len b.
Proof.
  intros Hh Hp. pose proof (len_nonneg b). unfold detectFormat. destruct (Z.leb_spec (len b) 3); [cbn; lia|].
  pose proof (findFrame_offset b (dt_parser d) Hp) as Ho. set (p := (findFrame b (dt_parser d)).2) in *.
  destruct (mLastHeader p) as [h|]; [|cbn; lia]. destruct Ho as [Ho _]; [lia|]. specialize (Hh h).
  destruct (0 <? mLastOffset p); [destruct (_ <? _); cbn; lia|].
  unfold frame_found. destruct (Z.ltb_spec (len b) (getFrameLength h)); repeat case_match; cbn; lia.
Qed.

(** ** Recognition *)

(** The data that the checksum of a frame covers is in the frame. *)
Definition crc_covered (f : H * bytes) : Prop :=
  isCrcEnabled f.1 = true -> 6 + getAudioDataAmount f.1 <= len f.2.

Lemma record_inspector h d : dt_inspector (recordHeaderInfo h d) =
  if negb (isDataSatisfied (dt_inspector d)) && (10 <? u32 (mFramesDetected (dt_stats d) + 1))
  then setFormatRecognized true (dt_inspector d) else dt_inspector d.
Proof. unfold recordHeaderInfo. cbn. by destruct (_ && _). Qed.

Lemma record_frames h d : mFramesDetected (dt_stats (recordHeaderInfo h d)) = u32 (mFramesDetected (dt_stats d) + 1).
Proof. unfold recordHeaderInfo. by destruct (_ && _). Qed.

Lemma record_parser h d : dt_parser (recordHeaderInfo h d) = dt_parser d.
Proof. unfold recordHeaderInfo. by destruct (_ && _). Qed.

(** A frame at the start of the data is inspected as a whole and recorded. *)
Lemma detect_frame f rest d : is_frame f -> crc_covered f -> parser_ok (dt_parser d) ->
  exists d', detectFormat (f.2 ++ rest) d = (len f.2, d') /\ parser_ok (dt_parser d') /\
    mFramesDetected (dt_stats d') = u32 (mFramesDetected (dt_stats d) + 1) /\
    dt_inspector d' = dt_inspector (recordHeaderInfo f.1 d).
Proof.
  intros Hf Hcrc Hp. destruct (Hf) as (_ & Hl & Hb & _). pose proof (len_nonneg rest).
  unfold detectFormat. rewrite (findFrame_at_start f rest _ Hf Hp). cbn [snd mLastHeader mLastOffset].
  rewrite len_app. destruct (Z.leb_spec (len f.2 + len rest) 3); [lia|]. cbn [Z.ltb Z.compare].
  unfold frame_found. rewrite len_app. destruct (Z.ltb_spec (len f.2 + len rest) (getFrameLength f.1)); [lia|].
  rewrite <- Hl. set (d1 := with_parser _ d).
  assert (parser_ok (dt_parser (recordHeaderInfo f.1 d1))) as Hok by (rewrite record_parser; done).
  assert (dt_inspector (recordHeaderInfo f.1 d1) = dt_inspector (recordHeaderInfo f.1 d)) as Hi
    by (by rewrite !record_inspector).
  destruct (isCrcEnabled f.1) eqn:Ec.
  - destruct (Z.leb_spec (6 + getAudioDataAmount f.1) (len f.2 + len rest)); [|specialize (Hcrc Ec); lia].
    eexists. split; [done|]. destruct (_ =? _); cbn; rewrite record_frames; done.
  - eexists. split; [done|]. by rewrite record_frames.
Qed.

(** What an inspector of all the data does: the inspected bytes are gone. *)
Fixpoint feed (n : nat) b d : bytes * Detector :=
  match n with
  | O => (b, d)
  | S n => let '(k, d) := detectFormat b d in feed n (drop (Z.to_nat k) b) d
  end.

(** The format is recognized with the eleventh frame. *)
Definition recognizing (n : Z) (i : I) d : Prop :=
  parser_ok (dt_parser d) /\ mFramesDetected (dt_stats d) = n /\
  (if n <=? 10 then dt_inspector d = i else isFormatRecognized (dt_inspector d) = true).

(** Consecutive frames are recognized as MPEG audio exactly from the eleventh on: the detector
    inspects the frames one by one, counts each of them and nothing else, decides nothing as long as
    there are ten of them or less, and has recognized the format when there are more. *)
Theorem frames_recognized fs rest (i : I) :
  isDataSatisfied i = false -> isFormatRecognized i = false ->
  Forall is_frame fs -> Forall crc_covered fs -> len fs < 2 ^ 32 ->
  exists d, feed (length fs) (data_of fs ++ rest) (newDetector i) = (rest, d) /\
    mFramesDetected (dt_stats d) = len fs /\ isFormatRecognized (dt_inspector d) = (10 <? len fs).
Proof.
  intros Hsat Hrec Hfs Hcs Hl.
  assert (forall n d, recognizing n i d -> 0 <= n -> n + len fs < 2 ^ 32 ->
    exists d', feed (length fs) (data_of fs ++ rest) d = (rest, d') /\ recognizing (n + len fs) i d') as Hrun.
  { clear Hl. induction Hfs as [|f fs Hf Hfs IH]; intros n d Hd Hn Hl; [by exists d; rewrite Z.add_0_r|].
    apply Forall_cons in Hcs as [Hc Hcs]. unfold data_of. cbn [map concat length feed]. rewrite <- app_assoc.
    destruct Hd as (Hp & Hm & Hi). rewrite len_cons in Hl. pose proof (len_nonneg fs).
    destruct (detect_frame f (data_of fs ++ rest) d Hf Hc Hp) as (d1 & E & Hp1 & Hm1 & Hi1).
    unfold data_of in E. rewrite E, drop_len. rewrite len_cons, Z.add_assoc, (Z.add_shuffle0 n).
    apply (IH Hcs (n + 1)); [|lia..]. rewrite Hm, u32_small in Hm1 by lia. split_and!; [done..|].
    rewrite Hi1, record_inspector, Hm, u32_small by lia.
    destruct (Z.leb_spec n 10), (Z.leb_spec (n + 1) 10), (Z.ltb_spec 10 (n + 1)); try lia.
    - rewrite Hi, Hsat. done.
    - rewrite Hi, Hsat. cbn. apply recognized_set.
    - destruct (_ && _); [apply recognized_set|done]. }
  destruct (Hrun 0 (newDetector i)) as (d & E & _ & Hm & Hi); [done|done|lia|].
  exists d. rewrite Z.add_0_l in *. split_and!; [done..|].
  destruct (Z.leb_spec (len fs) 10) as [Hle|Hle]; rewrite Hi.
  - rewrite Hrec. symmetry. by apply Z.ltb_ge.
  - symmetry. by apply Z.ltb_lt.
Qed.
End Detector.

(** * The stream of frames *)

Section Stream.
Context (fill : Z -> bytes -> option Z).
Implicit Types s : FrameStream (H:=H).

(** A read with room for data never reports an error: a failure of the stream is an end of it. *)
Lemma read_hides_errors fuel n s rval l s' : 0 < n ->
  read fill fuel n s = Some (rval, l, s') -> rval <> -1.
Proof.
  intros Hn. unfold read. destruct (if (_ && _) then _ else _) as [r s1].
  destruct (next_frame _ _ _ _) as [[[r1 eos] s2]|] eqn:E; [|done].
  destruct (Z.ltb_spec 0 n); [|lia]. destruct eos; cbn; intros [= <- _ _]; [|pose proof (len_nonneg (take (Z.to_nat (Z.min n (mFrameBytesLeft s2))) (mInputBuffer s2))); lia].
  revert r s1 E. clear. induction fuel as [|fuel IH]; intros r s E; cbn [next_frame] in E.
  { destruct (_ || _); done. }
  destruct (_ || _); [done|]. destruct (fill_buffer fill s) as [k s1]. destruct (k =? -1); [by eapply IH|].
  destruct (findFrame _ _) as [needed p]. destruct (mLastHeader p), (mLastOffset p =? 0); try by eapply IH.
  all: destruct (needed =? 0); [by injection E as <- _|].
  all: destruct (Z.eqb_spec k 0) as [->|]; cbn [andb] in E; [destruct (negb _); [by injection E as <- _|]|]; by eapply IH.
Qed.

(** C29: The stream of frames does not end when its full buffer has the start of a frame behind other
    data and not the rest of it: there is no room for more data and none of the data is used, so that
    the search for a frame is repeated for ever. *)
Theorem read_spins fuel n s i h rest :
  mFrameBytesLeft s = 0 -> parser_ok (fs_parser s) -> len (mInputBuffer s) = bufferSize ->
  first_sync (mInputBuffer s) i -> (0 < i)%nat -> convertFromBytes (drop i (mInputBuffer s)) = Some h ->
  len (drop i (mInputBuffer s)) < getFrameLength h -> fs_rest s = rest -> fill 0 rest = Some 0 ->
  read fill fuel n s = None.
Proof.
  intros Hleft Hp Hb Hf Hi Hc Hl Hr Hfill.
  assert (forall p, parser_ok p -> findFrame (mInputBuffer s) p =
    (getFrameLength h - len (drop i (mInputBuffer s)), {| mLastHeader := Some h; mLastOffset := Z.of_nat i |})) as Hfind.
  { intros p Hok. unfold findFrame. rewrite (reset_parser p Hok), Hb. cbn [Z.ltb bufferSize Z.compare Pos.compare Pos.compare_cont].
    destruct (search_spec (mInputBuffer s) 0 newFrameParser eq_refl) as [_ Hs].
    rewrite (Hs i Hf). unfold missing. rewrite Hc. by destruct (Z.ltb_spec (len (drop i (mInputBuffer s))) (getFrameLength h)); [|lia]. }
  assert (forall k s', mFrameBytesLeft s' = 0 -> parser_ok (fs_parser s') -> mInputBuffer s' = mInputBuffer s ->
    fs_rest s' = rest -> k <> -1 -> next_frame fill fuel k s' = None) as Hloop.
  { induction fuel as [|fuel IH]; intros k s' H1 H2 H3 H4 H5; cbn [next_frame]; rewrite H1, (proj2 (Z.eqb_neq k (-1)) H5); cbn [orb negb Z.eqb]; [done|].
    unfold fill_buffer. rewrite H3, Hb, Z.sub_diag, H4, Hfill. cbn [Z.eqb]. cbn [mInputBuffer fs_parser Z.to_nat].
    rewrite take_0, app_nil_r, Hfind by done. cbn [mLastHeader mLastOffset].
    destruct (Z.eqb_spec (Z.of_nat i) 0); [lia|].
    destruct (Z.eqb_spec (getFrameLength h - len (drop i (mInputBuffer s))) 0); [lia|].
    cbn [stream_parsed mInputBuffer]. rewrite Hb, Z.eqb_refl. cbn [Z.eqb negb andb]. by apply IH. }
  unfold read. rewrite Hleft. cbn [Z.ltb Z.compare andb]. by rewrite Hloop.
Qed.

(** A fill that ends with a full buffer or with the stream. *)
Definition fills_up : Prop := forall free l, 0 <= free -> fill free l = Some (Z.min free (len l)).

Lemma fill_up s : fills_up -> len (mInputBuffer s) <= bufferSize ->
  exists k s', fill_buffer fill s = (k, s') /\ 0 <= k /\
    mInputBuffer s' = take (Z.to_nat bufferSize) (mInputBuffer s ++ fs_rest s) /\
    fs_rest s' = drop (Z.to_nat bufferSize) (mInputBuffer s ++ fs_rest s) /\
    fs_parser s' = fs_parser s /\ mFrameBytesLeft s' = mFrameBytesLeft s /\ mFrameCount s' = mFrameCount s.
Proof.
  intros Hfill Hb. unfold fill_buffer. rewrite Hfill by lia. eexists _, _. split; [done|]. cbn.
  pose proof (len_nonneg (fs_rest s)). split; [lia|].
  assert (forall r : bytes, take (Z.to_nat (Z.min (bufferSize - len (mInputBuffer s)) (len r))) r = take (Z.to_nat bufferSize - length (mInputBuffer s)) r /\
    drop (Z.to_nat (Z.min (bufferSize - len (mInputBuffer s)) (len r))) r = drop (Z.to_nat bufferSize - length (mInputBuffer s)) r) as Hmin.
  { intros r. unfold len in *. destruct (Z.le_gt_cases (bufferSize - Z.of_nat (length (mInputBuffer s))) (Z.of_nat (length r))).
    - rewrite Z.min_l by lia. replace (Z.to_nat (bufferSize - Z.of_nat (length (mInputBuffer s)))) with (Z.to_nat bufferSize - length (mInputBuffer s))%nat by lia. done.
    - rewrite Z.min_r by lia. rewrite !take_ge, !drop_ge by lia. done. }
  rewrite !(proj1 (Hmin _)), !(proj2 (Hmin _)). unfold len in Hb.
  rewrite take_app, drop_app, (take_ge (mInputBuffer s)), (drop_ge (mInputBuffer s)) by lia. done.
Qed.

(** A stream that consists of frames which fit into the buffer is read frame by frame: each read
    with enough room gets one whole frame, with one round of the search, and leaves the stream before
    the next one. *)
Theorem stream_frames fuel n s f rest : fills_up ->
  is_frame f -> len f.2 <= bufferSize -> len f.2 <= n ->
  mFrameBytesLeft s = 0 -> parser_ok (fs_parser s) -> len (mInputBuffer s) <= bufferSize ->
  mInputBuffer s ++ fs_rest s = f.2 ++ rest ->
  exists s', read fill (S fuel) n s = Some (len f.2, f.2, s') /\
    mFrameBytesLeft s' = 0 /\ parser_ok (fs_parser s') /\ len (mInputBuffer s') <= bufferSize /\
    mInputBuffer s' ++ fs_rest s' = rest /\ mFrameCount s' = i32 (mFrameCount s + 1).
Proof.
  intros Hfill Hf Hfb Hfn Hleft Hp Hb Hd. destruct (Hf) as (_ & Hl & Hr & _).
  destruct (fill_up s Hfill Hb) as (k & s1 & E & Hk & Hb1 & Hr1 & Hp1 & Hl1 & Hc1).
  rewrite Hd in Hb1, Hr1. unfold len in Hfb. rewrite take_app, take_ge in Hb1 by lia. rewrite drop_app, drop_ge in Hr1 by lia.
  set (m := (Z.to_nat bufferSize - length f.2)%nat) in *. cbn [app] in Hr1.
  unfold read. rewrite Hleft. cbn [Z.ltb Z.compare andb next_frame]. rewrite Hleft. cbn [Z.eqb orb negb]. rewrite E.
  destruct (Z.eqb_spec k (-1)); [lia|]. rewrite Hb1, Hp1, (findFrame_at_start f _ _ Hf Hp). cbn [mLastHeader mLastOffset Z.eqb].
  set (s2 := begin_frame _ _).
  assert (next_frame fill fuel k s2 = Some (k, false, s2)) as ->.
  { destruct fuel; cbn [next_frame]; rewrite (proj2 (Z.eqb_neq k (-1))) by lia; cbn [s2 begin_frame mFrameBytesLeft orb];
      by rewrite (proj2 (Z.eqb_neq (getFrameLength f.1) 0)) by lia. }
  cbn [negb andb]. destruct (Z.ltb_spec 0 n); [|lia]. cbn [s2 begin_frame mFrameBytesLeft stream_parsed mInputBuffer].
  rewrite Hb1, <- Hl, Z.min_r, take_len by lia. eexists. split; [done|]. cbn. rewrite Hb1, <- Hl, drop_len, Hr1, Hc1.
  split_and!; [lia|done| |by rewrite take_drop|done]. unfold len. rewrite length_take. unfold bufferSize in *. lia.
Qed.
End Stream.
End Facts.

(** * Examples *)

Module MpegSample.
(** Headers of four bytes: the sync, the length of the frame and one more byte. *)
Definition read_header (b : bytes) : option Z :=
  match b with
  | b0 :: b1 :: n :: _ :: _ => if (b0 =? 0xff) && (b1 =? 0xfb) && (4 <=? n) then Some n else None
  | _ => None
  end.

#[export] Instance plain_frames : AudioFrames Z Z := {|
  convertFromBytes := read_header; getFrameLength n := n; getBitrate _ := 128000; getAudioLength _ := 1;
  getVersion _ := 1; getLayer _ := 3; isCrcEnabled _ := false; getAudioDataAmount _ := 0;
  calculateCrc _ _ := 0; add_time := Z.add |}.

Definition frame (n : nat) : Z * bytes := (Z.of_nat n + 4, [0xff; 0xfb; Z.of_nat n + 4; 0] ++ repeat 7 n).

Lemma frame_ok n : (n < 1000)%nat -> is_frame (frame n).
Proof.
  intros Hn. split_and!.
  - by exists 0xfb.
  - unfold len. cbn. rewrite repeat_length. lia.
  - unfold len. cbn. rewrite repeat_length. lia.
  - unfold len. cbn. rewrite repeat_length. lia.
  - intros rest. cbn. by rewrite (proj2 (Z.leb_le 4 (Z.of_nat n + 4))) by lia.
Qed.

Lemma no_sync (b : bytes) : Forall (fun x => x <> 0xff) b -> forall i, ~ sync_at b i.
Proof. intros Hb i (x & Hx & _). by apply (Forall_lookup_1 _ _ _ _ Hb) in Hx. Qed.

Lemma findFrame_first_witness :
  findFrame (H:=Z) [0x20; 0xff; 0x20; 0xff; 0xfb; 4; 0] newFrameParser =
    (0, {| mLastHeader := Some 4; mLastOffset := 3 |}).
Proof.
  destruct (findFrame_first (H:=Z) [0x20; 0xff; 0x20; 0xff; 0xfb; 4; 0] newFrameParser) as (_ & _ & Hf); [intros _; reflexivity|].
  destruct Hf as [_ Hf]; [vm_compute; discriminate|]. apply (Hf 3%nat). split.
  - exists 0xfb. vm_compute. split; [reflexivity|]. split; reflexivity.
  - intros j Hj (x & H1 & H2 & H3). destruct j as [|[|[|j]]]; [discriminate| |discriminate|lia].
    injection H2 as <-. lia.
Defined.

(** The second of three frames and the third are in the time set; three bytes follow. *)
Definition tagged : Buffer := {| bf_offset := 0; bf_bytes := data_of [frame 1; frame 2; frame 3] ++ [1; 2; 3] |}.

Definition parser_2_9 : TimeParser (H:=Z) (T:=Z) := newTimeParser 2 9.

Lemma sample_frames_witness :
  exists src' dst' t', run_parser (H:=Z) 6 tagged {| bf_offset := 0; bf_bytes := [] |} parser_2_9 =
      Some (CompleteTruncate, src', dst', t') /\ bf_bytes dst' = (frame 2).2 ++ (frame 3).2.
Proof.
  destruct (sample_frames (H:=Z) (B:=Buffer) [frame 1; frame 2; frame 3] [1; 2; 3] tagged {| bf_offset := 0; bf_bytes := [] |}
    parser_2_9 6) as (src' & dst' & t' & E & Hd & _).
  - split; [reflexivity|]. split; [reflexivity|]. intros _. reflexivity.
  - repeat (constructor; [apply frame_ok; lia|]). constructor.
  - reflexivity.
  - apply no_sync. repeat (constructor; [discriminate|]). constructor.
  - cbn. lia.
  - exists src', dst', t'. split; [exact E|]. exact Hd.
Defined.

(** A full buffer that starts with other data and ends with the start of a frame. *)
Definition stuck : FrameStream (H:=Z) :=
  {| fs_parser := newFrameParser; mInputBuffer := repeat 7 2044 ++ [0xff; 0xfb; 104; 0];
     mFrameBytesLeft := 0; mFrameCount := 0; fs_rest := repeat 7 200 |}.

Definition plain_fill (free : Z) (l : bytes) : option Z := Some (Z.min free (len l)).

Lemma stuck_sync : first_sync (mInputBuffer stuck) 2044.
Proof.
  split; [by exists 0xfb|]. intros j Hj (x & Hx & _). cbn [stuck mInputBuffer] in Hx.
  rewrite lookup_app_l in Hx by (rewrite repeat_length; lia).
  apply list_elem_of_lookup_2, list_elem_of_In, repeat_spec in Hx. done.
Qed.

Lemma read_spins_witness : read (H:=Z) plain_fill 1000 100 stuck = None.
Proof.
  apply (read_spins (H:=Z) plain_fill 1000 100 stuck 2044 104 (repeat 7 200));
    [reflexivity|intros _; reflexivity|reflexivity|apply stuck_sync|lia|reflexivity|reflexivity|reflexivity|reflexivity].
Defined.
End MpegSample.
