(* ===== verification/Id3.v ===== *)
(** ID3v2 tags ([cpp/data/Id3v2Tag.cpp], [Id3v2TagFrameIO.cpp], [Id3v2TagReader.cpp],
    [Id3v2TagWriter.cpp]).

    A tag at the start of an audio file has the performer, the title and the length of a media, and
    for a file that has been bought the contract.  The headers of tags and frames, the character
    sets, JSON and compression are part of the Monarch library and interfaces here. *)
From S2P Require Import Prelude Http DataFormat.

Local Open Scope string_scope.
Local Open Scope list_scope.
Local Open Scope Z_scope.

(** * Data *)

(** The members of a [Media] that are used; the contents of a collection are groups of media. *)
Inductive TagMedia := mkTagMedia {
  tm_id : Z;
  tm_type : string;
  tm_title : string;
  tm_performer : string;
  tm_length : Z;
  tm_contents : list (list TagMedia)
}.

Record TagContract := { tc_media : TagMedia; tc_sections : list string }.

Record FrameHeader := { fh_id : string; fh_size : Z; fh_description : string }.

Record TagHeader := { th_size : Z; th_extended : bool }.

Record Tag := { tg_header : TagHeader; tg_frames : list FrameHeader }.

(** The size of the headers of tags and of frames. *)
Definition headerSize : Z := 10.

(** [MO_UINT32_TO_BE] *)
Definition be32 (n : Z) : bytes :=
  [Z.shiftr n 24 mod 256; Z.shiftr n 16 mod 256; Z.shiftr n 8 mod 256; n mod 256].

(** Reading and writing headers ([FrameHeader], [TagHeader], [Tag]); [addFrameHeader] with the
    size of the tag updated or not; [allocateSpace] on an empty [ByteBuffer] of some capacity, by the
    capacity after it. *)
Class Id3Format := {
  frame_bytes : FrameHeader -> bytes;
  frame_read : bytes -> FrameHeader;
  bytes_to_int : bytes -> Z;
  tag_bytes : TagHeader -> bytes;
  tag_read : bytes -> option TagHeader;
  maxTagSize : Z;
  addFrameHeader : FrameHeader -> bool -> Tag -> Tag;
  allocateSpace : Z -> Z -> Z
}.

(** The character set of texts, and contracts as compressed JSON: the compressed bytes, the number
    of bytes before, and what is read from compressed bytes, with whether all of it is a contract. *)
Class TagText := {
  to_latin1 : string -> option string;
  pack : TagContract -> bytes;
  unpacked_length : TagContract -> Z;
  unpack : bytes -> option TagContract * bool
}.

Section Id3.
Context `{Id3Format} `{TagText}.

(** * The frames of a tag *)

(** The image is the rest of a file and whether all of it can be read. *)
Record FrameIO := {
  io_contract : option TagContract;
  io_media : option TagMedia;
  io_track : Z;
  io_header : option FrameHeader;
  io_buffer : bytes;
  io_capacity : Z;
  io_image : option (bytes * bool);
  io_imageFile : option (bytes * bool);
  io_imageType : string;
  io_imageDescription : string
}.
Implicit Types (io : FrameIO) (h : FrameHeader).

Definition newFrameIO : FrameIO :=
  {| io_contract := None; io_media := None; io_track := 0; io_header := None; io_buffer := [];
     io_capacity := 0; io_image := None; io_imageFile := None; io_imageType := "";
     io_imageDescription := "" |}.

Definition setContract (c : option TagContract) io : FrameIO :=
  {| io_contract := c; io_media := io_media io; io_track := io_track io; io_header := io_header io;
     io_buffer := io_buffer io; io_capacity := io_capacity io; io_image := io_image io;
     io_imageFile := io_imageFile io; io_imageType := io_imageType io;
     io_imageDescription := io_imageDescription io |}.

Definition setMedia (m : option TagMedia) io : FrameIO :=
  {| io_contract := io_contract io; io_media := m; io_track := io_track io; io_header := io_header io;
     io_buffer := io_buffer io; io_capacity := io_capacity io; io_image := io_image io;
     io_imageFile := io_imageFile io; io_imageType := io_imageType io;
     io_imageDescription := io_imageDescription io |}.

Definition setTrackNumber (track : Z) io : FrameIO :=
  {| io_contract := io_contract io; io_media := io_media io; io_track := track;
     io_header := io_header io; io_buffer := io_buffer io; io_capacity := io_capacity io;
     io_image := io_image io; io_imageFile := io_imageFile io; io_imageType := io_imageType io;
     io_imageDescription := io_imageDescription io |}.

(** Whether the description could be converted. *)
Definition setImageFile (file : bytes * bool) (mimeType description : string) io : bool * FrameIO :=
  (if to_latin1 description then true else false,
   {| io_contract := io_contract io; io_media := io_media io; io_track := io_track io;
      io_header := io_header io; io_buffer := io_buffer io; io_capacity := io_capacity io;
      io_image := io_image io; io_imageFile := Some file; io_imageType := mimeType;
      io_imageDescription := default "" (to_latin1 description) |}).

(** The buffer with its content and capacity. *)
Definition set_buffer (b : bytes) (capacity : Z) io : FrameIO :=
  {| io_contract := io_contract io; io_media := io_media io; io_track := io_track io;
     io_header := io_header io; io_buffer := b; io_capacity := capacity; io_image := io_image io;
     io_imageFile := io_imageFile io; io_imageType := io_imageType io;
     io_imageDescription := io_imageDescription io |}.

Definition set_header (h : FrameHeader) io : FrameIO :=
  {| io_contract := io_contract io; io_media := io_media io; io_track := io_track io;
     io_header := Some h; io_buffer := io_buffer io; io_capacity := io_capacity io;
     io_image := io_image io; io_imageFile := io_imageFile io; io_imageType := io_imageType io;
     io_imageDescription := io_imageDescription io |}.

Definition set_image (i : option (bytes * bool)) io : FrameIO :=
  {| io_contract := io_contract io; io_media := io_media io; io_track := io_track io;
     io_header := io_header io; io_buffer := io_buffer io; io_capacity := io_capacity io;
     io_image := i; io_imageFile := io_imageFile io; io_imageType := io_imageType io;
     io_imageDescription := io_imageDescription io |}.

Definition in_latin1 (s : string) : string := default s (to_latin1 s).

(** A source of frames has a media. *)
Definition getTextData h io : string :=
  let media f := match io_media io with Some m => f m | None => "" end in
  if String.eqb (fh_id h) "TPE1" then media (fun m => in_latin1 (tm_performer m))
  else if String.eqb (fh_id h) "TIT2" then media (fun m => in_latin1 (tm_title m))
  else if String.eqb (fh_id h) "TRCK" then print_u64 (io_track io)
  else if String.eqb (fh_id h) "TLEN" then media (fun m => print_u64 (u64 (tm_length m * 1000)))
  else if String.eqb (fh_id h) "TXXX" then fh_description h
  else "".

(** [header->getId()[0] == 'T'] *)
Definition is_text h : bool :=
  match fh_id h with String c _ => char_byte c =? 0x54 | EmptyString => false end.

Definition slen (s : string) : Z := Z.of_nat (String.length s).

Definition set_size (n : Z) h : FrameHeader :=
  {| fh_id := fh_id h; fh_size := n; fh_description := fh_description h |}.

Definition updateFrameSize h io : FrameHeader :=
  set_size
    (if is_text h then
       if String.eqb (fh_id h) "TXXX" then i32 (1 + slen (getTextData h io) + 1 + 0)
       else i32 (1 + slen (getTextData h io))
     else if String.eqb (fh_id h) "XBMC" then
       i32 (4 + match io_contract io with Some c => u32 (len (pack c)) | None => 0 end)
     else if String.eqb (fh_id h) "APIC" then
       i32 (1 + slen (io_imageType io) + 1 + 1 + slen (io_imageDescription io) + 1 +
            match io_imageFile io with Some f => len f.1 | None => 0 end)
     else fh_size h) h.

(** [put] without making room. *)
Definition buffer_put (l : bytes) io : FrameIO :=
  set_buffer (io_buffer io ++ take (Z.to_nat (io_capacity io - len (io_buffer io))) l) (io_capacity io) io.

Definition bufferTextData h io : FrameIO :=
  let text := bytes_of (getTextData h io) in
  let io := buffer_put [0x00] io in
  if String.eqb (fh_id h) "TXXX" then buffer_put (text ++ [0]) io else buffer_put text io.

(** Four bytes are kept free and overwritten with the size of the contract. *)
Definition bufferContractData io : FrameIO :=
  match io_contract io with
  | None => io
  | Some c =>
      let start := length (io_buffer io) in
      let io := buffer_put (pack c) (buffer_put [0; 0; 0; 0] io) in
      set_buffer (take start (io_buffer io) ++ be32 (u32 (unpacked_length c)) ++ drop (start + 4) (io_buffer io))
        (io_capacity io) io
  end.

Definition bufferImageData io : outcome FrameIO :=
  match io_imageFile io with
  | None => Raise "bitmunk.data.NoId3v2ImageFile"
  | Some f =>
      let io := buffer_put [0x00] io in
      let io := buffer_put (bytes_of (io_imageType io) ++ [0]) io in
      let io := buffer_put [0x03] io in
      let io := buffer_put (bytes_of (io_imageDescription io) ++ [0]) io in
      Ok (set_image (Some f) io)
  end.

Inductive Mode := Source | Sink.

(** The buffer is emptied and given room for the frame. *)
Definition startFrame (mode : Mode) h io : FrameIO * outcome unit :=
  let io := set_header h io in
  match mode with
  | Sink => (set_buffer [] (allocateSpace (io_capacity io) (fh_size h)) io, Ok tt)
  | Source =>
      let io := set_buffer (frame_bytes h) (allocateSpace (io_capacity io) (fh_size h + headerSize)) io in
      if is_text h then (bufferTextData h io, Ok tt)
      else if String.eqb (fh_id h) "XBMC" then (bufferContractData io, Ok tt)
      else if String.eqb (fh_id h) "APIC" then
        match bufferImageData io with Ok io => (io, Ok tt) | Raise e => (io, Raise e) end
      else (io, Ok tt)
  end.

(** The bytes that are moved into a destination with so much room, and the result. *)
Definition getFrame (room : Z) io : Z * bytes * FrameIO :=
  if negb (len (io_buffer io) =? 0) then
    let l := take (Z.to_nat room) (io_buffer io) in
    (len l, l, set_buffer (drop (Z.to_nat room) (io_buffer io)) (io_capacity io) io)
  else match io_image io with
  | None => (0, [], io)
  | Some (rest, complete) =>
      let l := take (Z.to_nat room) rest in
      if 0 <? len l then (len l, l, set_image (Some (drop (Z.to_nat room) rest, complete)) io)
      else if complete || (0 <? len rest) then (0, [], set_image None io)
      else (-1, [], io)
  end.

(** The contract is read when the frame is complete. *)
Definition putFrameData (src : bytes) io : FrameIO * bool :=
  let io := if len (io_buffer io) =? io_capacity io then io else buffer_put src io in
  if (len (io_buffer io) =? io_capacity io) &&
     match io_header io with Some h => String.eqb (fh_id h) "XBMC" | None => false end then
    let '(c, complete) := unpack (drop 4 (io_buffer io)) in
    (setMedia (option_map tc_media c) (setContract c (set_buffer [] (io_capacity io) io)), complete)
  else (io, true).

(** * Tags *)

Definition emptyTag : Tag := {| tg_header := {| th_size := 0; th_extended := false |}; tg_frames := [] |}.

(** The media of a collection with this id, if there is one, and how many media have been looked at. *)
Fixpoint find_track (mediaId : Z) (l : list TagMedia) (track : Z) : option TagMedia * Z :=
  match l with
  | [] => (None, track)
  | m :: l => if tm_id m =? mediaId then (Some m, track + 1) else find_track mediaId l (track + 1)
  end.

Definition track_media (mediaId : Z) (m : TagMedia) : TagMedia * Z :=
  if String.eqb (tm_type m) "collection" then
    let '(found, track) := find_track mediaId (concat (tm_contents m)) 0 in (default m found, track)
  else (m, 0).

Definition frame (id : string) : FrameHeader := {| fh_id := id; fh_size := 0; fh_description := "" |}.

Definition add_frame (id : string) (t : Tag * FrameIO) : Tag * FrameIO :=
  (addFrameHeader (updateFrameSize (frame id) (snd t)) true (fst t), snd t).

Definition contract_frames (c : option TagContract) (media : TagMedia) (track : Z) : Tag * FrameIO :=
  let io := setMedia (Some media) (setContract c newFrameIO) in
  let t := add_frame "TIT2" (add_frame "TPE1" (emptyTag, io)) in
  let t := if 0 <? track then add_frame "TRCK" (fst t, setTrackNumber track (snd t)) else t in
  let t := add_frame "TLEN" t in
  match c with Some _ => add_frame "XBMC" t | None => t end.

(** The two constructors of tags that are written: the sections of the contract are left out. *)
Definition tag_of_contract (c : TagContract) (mediaId : Z) : Tag * FrameIO :=
  let c := {| tc_media := tc_media c; tc_sections := [] |} in
  let '(media, track) := track_media mediaId (tc_media c) in
  contract_frames (Some c) media track.

Definition tag_of_media (m : TagMedia) : Tag * FrameIO := contract_frames None m 0.

(** * The writer *)

(** Stripping a tag: the tag that has been found and how much of it is left. *)
Record Stripper := { sp_header : option TagHeader; sp_left : Z }.

Definition newStripper : Stripper := {| sp_header := None; sp_left := 0 |}.

Definition stripTag {B} `{ByteBuffer B} (finish : bool) (src : B) (s : Stripper) : Mutation * B * Stripper :=
  match sp_header s with
  | None =>
      if len (bb_bytes src) <? headerSize then
        (if finish then CompleteAppend else NeedsData, src, s)
      else match tag_read (bb_bytes src) with
           | Some th => (Stepped, src, {| sp_header := Some th; sp_left := i32 (th_size th + headerSize) |})
           | None => (CompleteAppend, src, s)
           end
  | Some th =>
      if len (bb_bytes src) =? 0 then (NeedsData, src, s)
      else
        let '(n, src) := bb_strip (sp_left s) src in
        if sp_left s - n =? 0 then (CompleteAppend, src, {| sp_header := None; sp_left := 0 |})
        else (Stepped, src, {| sp_header := Some th; sp_left := sp_left s - n |})
  end.

Record TagWriter := {
  wr_tag : Tag;
  wr_source : FrameIO;
  wr_frames : list FrameHeader;
  wr_frame : option FrameHeader;
  wr_written : bool
}.

Definition newTagWriter (t : Tag) (io : FrameIO) : TagWriter :=
  {| wr_tag := t; wr_source := io; wr_frames := tg_frames t; wr_frame := None; wr_written := false |}.

Definition set_writer (io : FrameIO) (l : list FrameHeader) (f : option FrameHeader) (w : TagWriter) : TagWriter :=
  {| wr_tag := wr_tag w; wr_source := io; wr_frames := l; wr_frame := f; wr_written := true |}.

(** The header of the tag is written to the start of the data of the destination, which then gets
    longer; [junk] is what was in the memory behind it. *)
Definition header_at_start (hdr junk dst : bytes) : bytes := hdr ++ drop (length hdr) (dst ++ junk).

(** [room] is the room in the destination. *)
Definition addTag (junk : bytes) (room : Z) (dst : bytes) (w : TagWriter) : Mutation * bytes * TagWriter :=
  if negb (wr_written w) then
    (Stepped, header_at_start (tag_bytes (tg_header (wr_tag w))) junk dst,
     set_writer (wr_source w) (wr_frames w) (wr_frame w) w)
  else match wr_frame w, wr_frames w with
  | None, [] => (CompleteAppend, dst, w)
  | None, h :: l => (Stepped, dst, set_writer (startFrame Source h (wr_source w)).1 l (Some h) w)
  | Some h, l =>
      let '(n, data, io) := getFrame room (wr_source w) in
      if n =? 0 then (Stepped, dst, set_writer io l None w)
      else if n =? -1 then (MutationError "", dst, set_writer io l (Some h) w)
      else (Stepped, dst ++ data, set_writer io l (Some h) w)
  end.

(** * The reader *)

Context {I : Type} `{Inspector I}.

Record TagReader := {
  rd_tag : Tag;
  rd_sink : FrameIO;
  mHeaderParsed : bool;
  mExtendedHeaderParsed : bool;
  mCaptureHeader : option FrameHeader;
  mBytesCaptured : Z;
  mTagBytesRead : Z;
  rd_inspector : I
}.
Implicit Types r : TagReader.

Definition newTagReader (i : I) : TagReader :=
  {| rd_tag := emptyTag; rd_sink := newFrameIO; mHeaderParsed := false; mExtendedHeaderParsed := false;
     mCaptureHeader := None; mBytesCaptured := 0; mTagBytesRead := 0; rd_inspector := i |}.

Definition tag_size r : Z := th_size (tg_header (rd_tag r)).

(** The tag is expected or has not been read completely. *)
Definition reading r : bool :=
  negb (mHeaderParsed r) ||
  ((mTagBytesRead r <? tag_size r) && (0 <? tag_size r) && (tag_size r <? maxTagSize)).

(** A part of the data of a frame. *)
Definition capture h (b : bytes) r : Z * TagReader :=
  let size := i32 (fh_size h - mBytesCaptured r) in
  let n := if len b <? size then len b else size in
  let captured := i32 (mBytesCaptured r + n) in
  let done := fh_size h =? captured in
  (n, {| rd_tag := rd_tag r; rd_sink := (putFrameData (take (Z.to_nat n) b) (rd_sink r)).1;
         mHeaderParsed := mHeaderParsed r; mExtendedHeaderParsed := mExtendedHeaderParsed r;
         mCaptureHeader := if done then None else Some h;
         mBytesCaptured := if done then 0 else captured;
         mTagBytesRead := i32 (mTagBytesRead r + n); rd_inspector := rd_inspector r |}).

Definition read_bytes (n : Z) r : TagReader :=
  {| rd_tag := rd_tag r; rd_sink := rd_sink r; mHeaderParsed := mHeaderParsed r;
     mExtendedHeaderParsed := mExtendedHeaderParsed r; mCaptureHeader := mCaptureHeader r;
     mBytesCaptured := mBytesCaptured r; mTagBytesRead := i32 (mTagBytesRead r + n);
     rd_inspector := rd_inspector r |}.

Definition reader_inspector (f : I -> I) r : TagReader :=
  {| rd_tag := rd_tag r; rd_sink := rd_sink r; mHeaderParsed := mHeaderParsed r;
     mExtendedHeaderParsed := mExtendedHeaderParsed r; mCaptureHeader := mCaptureHeader r;
     mBytesCaptured := mBytesCaptured r; mTagBytesRead := mTagBytesRead r;
     rd_inspector := f (rd_inspector r) |}.

(** The header of the tag, at the start of the data. *)
Definition parse_tag (b : bytes) r : Z * TagReader :=
  match tag_read b with
  | Some th =>
      (10, {| rd_tag := {| tg_header := th; tg_frames := tg_frames (rd_tag r) |}; rd_sink := rd_sink r;
              mHeaderParsed := true; mExtendedHeaderParsed := mExtendedHeaderParsed r;
              mCaptureHeader := mCaptureHeader r; mBytesCaptured := mBytesCaptured r;
              mTagBytesRead := mTagBytesRead r; rd_inspector := rd_inspector r |})
  | None => (len b, reader_inspector (setFormatRecognized false) r)
  end.

(** The header of a frame. *)
Definition start_capture (b : bytes) r : Z * TagReader :=
  let h := frame_read b in
  (10, {| rd_tag := addFrameHeader h false (rd_tag r); rd_sink := (startFrame Sink h (rd_sink r)).1;
          mHeaderParsed := mHeaderParsed r; mExtendedHeaderParsed := mExtendedHeaderParsed r;
          mCaptureHeader := Some h; mBytesCaptured := 0; mTagBytesRead := i32 (mTagBytesRead r + 10);
          rd_inspector := rd_inspector r |}).

(** An extended header is passed; that it has been parsed is not noted. *)
Definition pass_extended (b : bytes) r : Z * TagReader :=
  let size := bytes_to_int b in
  let n := if size <=? len b then size else 0 in (n, read_bytes n r).

Definition detectTag (b : bytes) r : Z * TagReader :=
  let '(n, r) :=
    if reading r then
      match mCaptureHeader r with
      | Some h => capture h b r
      | None =>
          if len b <? 10 then (0, r)
          else if negb (mHeaderParsed r) then parse_tag b r
          else if th_extended (tg_header (rd_tag r)) && negb (mExtendedHeaderParsed r)
          then pass_extended b r
          else start_capture b r
      end
    else (0, r) in
  if mHeaderParsed r && (mTagBytesRead r =? tag_size r)
  then (len b, reader_inspector (setFormatRecognized true) r) else (n, r).

(** The content type and the media of the contract in the tag. *)
Definition getTagDetails r : string * option TagMedia :=
  if isFormatRecognized (rd_inspector r) then ("application/x-id3-tag", io_media (rd_sink r))
  else ("application/octet-stream", None).
End Id3.
