(* ===== verification/Id3Facts.v ===== *)
(** Theorems on ID3v2 tags: what is written is read again, and stripped as a whole. *)
From stdpp Require Import countable.
From S2P Require Import Prelude Http DataFormat MpegFacts Id3.

Local Open Scope string_scope.
Local Open Scope list_scope.
Local Open Scope Z_scope.

(** * Laws *)

(** A header that is written is read again; the size of the frames counts for the tag; a buffer with
    too little room gets as much as is asked for, one with enough keeps what it has. *)
Class Id3FormatLaws `{Id3Format} := {
  frame_bytes_len : forall h, len (frame_bytes h) = headerSize;
  frame_read_bytes : forall h rest, String.length (fh_id h) = 4%nat -> 0 <= fh_size h < 2 ^ 28 ->
    fh_id (frame_read (frame_bytes h ++ rest)) = fh_id h /\
    fh_size (frame_read (frame_bytes h ++ rest)) = fh_size h;
  tag_bytes_len : forall th, len (tag_bytes th) = headerSize;
  tag_read_bytes : forall th rest, 0 <= th_size th < maxTagSize -> tag_read (tag_bytes th ++ rest) = Some th;
  max_size : maxTagSize <= 2 ^ 28;
  add_frames : forall h b t, tg_frames (addFrameHeader h b t) = tg_frames t ++ [h];
  add_header : forall h b t, tg_header (addFrameHeader h b t) =
    {| th_size := if b then th_size (tg_header t) + headerSize + fh_size h else th_size (tg_header t);
       th_extended := th_extended (tg_header t) |};
  allocate_grows : forall c n, c <= n -> allocateSpace c n = n;
  allocate_keeps : forall c n, n <= c -> allocateSpace c n = c
}.

Class TagTextLaws `{TagText} := {
  unpack_pack : forall c, unpack (pack c) = (Some c, true)
}.

Lemma bytes_of_len s : len (bytes_of s) = slen s.
Proof. unfold len, slen, bytes_of. rewrite length_map. f_equal. induction s; cbn; [done|by f_equal]. Qed.

Section Facts.
Context `{Id3FormatLaws} `{TagTextLaws}.
Implicit Types (io : FrameIO) (h : FrameHeader) (t : Tag).

(** * The content of frames *)

(** What follows the header of a frame; an image is read from its file. *)
Definition content h io : bytes :=
  if is_text h then
    0 :: bytes_of (getTextData h io) ++ (if String.eqb (fh_id h) "TXXX" then [0] else [])
  else if String.eqb (fh_id h) "XBMC" then
    match io_contract io with
    | Some c => be32 (u32 (unpacked_length c)) ++ pack c
    | None => []
    end
  else [].

(** A frame that is complete without an image, and its size. *)
Definition sized h io : Prop :=
  fh_size h = len (content h io) /\ String.eqb (fh_id h) "APIC" = false /\
  (String.eqb (fh_id h) "XBMC" = true -> io_contract io <> None).

Lemma put_all l io : len (io_buffer io) + len l <= io_capacity io ->
  buffer_put l io = set_buffer (io_buffer io ++ l) (io_capacity io) io.
Proof. intros Hl. unfold buffer_put. rewrite take_ge; [done|]. unfold len in *. lia. Qed.

(** The part of the state that the content of frames depends on. *)
Definition same_source io io' : Prop :=
  io_contract io' = io_contract io /\ io_media io' = io_media io /\ io_track io' = io_track io /\
  io_image io' = io_image io.

Lemma content_same h io io' : same_source io io' -> content h io' = content h io.
Proof. intros (Hc & Hm & Ht & _). unfold content, getTextData. by rewrite Hc, Hm, Ht. Qed.

Lemma be32_len n : len (be32 n) = 4.
Proof. done. Qed.

Lemma allocate_room c n : n <= allocateSpace c n.
Proof.
  destruct (Z.le_ge_cases c n); [rewrite allocate_grows by done; lia|rewrite allocate_keeps by lia; lia].
Qed.

(** A frame that is started has its header and all of its content in the buffer. *)
Lemma start_frame h io : sized h io ->
  io_buffer (startFrame Source h io).1 = frame_bytes h ++ content h io /\
  same_source io (startFrame Source h io).1.
Proof.
  intros (Hs & Ha & Hx). pose proof (frame_bytes_len h) as Hf. unfold headerSize in Hf.
  unfold startFrame, headerSize. cbn zeta. unfold content in *.
  pose proof (allocate_room (io_capacity (set_header h io)) (fh_size h + 10)) as Hroom.
  set (cap := allocateSpace _ _) in *. clearbody cap.
  destruct (is_text h).
  - rewrite len_cons, len_app in Hs. unfold bufferTextData.
    pose proof (len_nonneg (bytes_of (getTextData h io))).
    rewrite (put_all [0x00]) by (cbn; rewrite Hf; destruct (String.eqb _ _); unfold len in *; cbn in *; lia).
    change (getTextData h (set_buffer (frame_bytes h) cap (set_header h io))) with (getTextData h io).
    destruct (String.eqb (fh_id h) "TXXX");
      (rewrite put_all; [cbn; split; [by rewrite <- app_assoc, ?app_nil_r|done]|cbn; rewrite !len_app, Hf; unfold len in *; cbn in *; lia]).
  - destruct (String.eqb (fh_id h) "XBMC"); [|rewrite Ha; cbn; by rewrite app_nil_r].
    unfold bufferContractData. cbn [set_buffer io_contract set_header].
    destruct (io_contract io) as [c|]; [|by destruct (Hx eq_refl)].
    rewrite len_app, be32_len in Hs.
    rewrite (put_all [0; 0; 0; 0]) by (cbn; pose proof (len_nonneg (pack c)); unfold len in *; cbn; lia).
    rewrite put_all by (cbn; rewrite len_app; unfold len in *; cbn in *; lia).
    cbn [set_buffer io_buffer fst]. split; [|done].
    rewrite <- app_assoc, take_app_length. f_equal. f_equal.
    rewrite drop_app_ge, drop_app_ge by (cbn; lia). cbn [length].
    by replace (length (frame_bytes h) + 4 - length (frame_bytes h) - 4)%nat with 0%nat by lia.
Qed.

Lemma sized_update id io : String.eqb id "APIC" = false -> (is_text (frame id) || String.eqb id "XBMC") = true ->
  (String.eqb id "XBMC" = true -> io_contract io <> None) ->
  len (content (frame id) io) < 2 ^ 28 -> sized (updateFrameSize (frame id) io) io.
Proof.
  intros Ha Hid Hx Hl. split_and!; [|done|done].
  change (content (updateFrameSize (frame id) io) io) with (content (frame id) io).
  cbn [updateFrameSize set_size fh_size]. unfold content in *. cbn [fh_id frame] in *.
  destruct (is_text (frame id)).
  - rewrite len_cons, len_app, bytes_of_len in *.
    assert (0 <= slen (getTextData (frame id) io)) by (unfold slen; lia).
    destruct (String.eqb id "TXXX"); unfold len in *; cbn in *; rewrite i32_small; lia.
  - cbn in Hid. rewrite Hid in *. destruct (io_contract io) as [c|]; [|by destruct (Hx eq_refl)].
    rewrite len_app, be32_len in *. pose proof (len_nonneg (pack c)).
    rewrite u32_small, i32_small by lia. done.
Qed.

(** * Tags *)

Definition frames_size (fs : list FrameHeader) : Z := foldr (fun h n => headerSize + fh_size h + n) 0 fs.

(** A tag whose frames come from this source: their sizes and that of the tag are right. *)
Record tag_ok t io : Prop := {
  to_frames : Forall (fun h => sized h io /\ String.length (fh_id h) = 4%nat /\ 0 < fh_size h < 2 ^ 28) (tg_frames t);
  to_size : th_size (tg_header t) = frames_size (tg_frames t);
  to_bound : frames_size (tg_frames t) < maxTagSize;
  to_extended : th_extended (tg_header t) = false;
  to_image : io_image io = None
}.

(** The frames of a tag for a media or for a contract. *)
Definition tag_ids (c : option TagContract) (track : Z) : list string :=
  ["TPE1"; "TIT2"] ++ (if 0 <? track then ["TRCK"] else []) ++ ["TLEN"] ++
  (if c then ["XBMC"] else []).

Definition add_ids (ids : list string) io t : Tag :=
  foldl (fun t id => addFrameHeader (updateFrameSize (frame id) io) true t) t ids.

Lemma contract_frames_ids c media track :
  let io := setTrackNumber (if 0 <? track then track else 0) (setMedia (Some media) (setContract c newFrameIO)) in
  contract_frames c media track = (add_ids (tag_ids c track) io emptyTag, io).
Proof. unfold contract_frames, tag_ids. by destruct (0 <? track), c. Qed.

Lemma add_ids_frames ids io t : tg_frames (add_ids ids io t) = tg_frames t ++ map (fun id => updateFrameSize (frame id) io) ids.
Proof.
  revert t. induction ids as [|id ids IH]; intros t; cbn; [by rewrite app_nil_r|].
  unfold add_ids in IH. rewrite IH, add_frames, <- app_assoc. done.
Qed.

Lemma add_ids_header ids io t :
  th_size (tg_header (add_ids ids io t)) = th_size (tg_header t) + frames_size (map (fun id => updateFrameSize (frame id) io) ids) /\
  th_extended (tg_header (add_ids ids io t)) = th_extended (tg_header t).
Proof.
  revert t. induction ids as [|id ids IH]; intros t; [cbn; lia|]. unfold add_ids in *. cbn [foldl map frames_size foldr].
  destruct (IH (addFrameHeader (updateFrameSize (frame id) io) true t)) as [-> ->]. rewrite add_header. cbn.
  unfold frames_size. split; [lia|done].
Qed.

(** The number of bytes of all frames. *)
Definition tag_length io (ids : list string) : Z :=
  foldr (fun id n => headerSize + len (content (frame id) io) + n) 0 ids.

Lemma tag_length_in io ids id : id ∈ ids -> len (content (frame id) io) <= tag_length io ids - headerSize.
Proof.
  assert (forall l, 0 <= tag_length io l) as Hn.
  { induction l as [|x l IH]; cbn; [lia|]. unfold tag_length in IH. pose proof (len_nonneg (content (frame x) io)). unfold headerSize in *. lia. }
  induction ids as [|x ids IH]; [by intros ?%elem_of_nil|]. pose proof (Hn ids).
  pose proof (len_nonneg (content (frame x) io)). cbn [tag_length foldr].
  intros [->|Hi]%elem_of_cons; [|specialize (IH Hi)]; unfold tag_length, headerSize in *; lia.
Qed.

Lemma tag_ids_known c track id : id ∈ tag_ids c track ->
  String.eqb id "APIC" = false /\ is_text (frame id) || String.eqb id "XBMC" = true /\
  String.length id = 4%nat /\ (String.eqb id "XBMC" = true -> c <> None).
Proof.
  unfold tag_ids. destruct (0 <? track), c; cbn; intros Hi;
    repeat (apply elem_of_cons in Hi as [->|Hi]; [by cbn|]); by apply elem_of_nil in Hi.
Qed.

Lemma content_nonempty id io : (is_text (frame id) || String.eqb id "XBMC") = true ->
  (String.eqb id "XBMC" = true -> io_contract io <> None) -> 0 < len (content (frame id) io).
Proof.
  intros Hid Hx. unfold content. cbn [fh_id frame]. destruct (is_text (frame id)).
  - rewrite len_cons. pose proof (len_nonneg (bytes_of (getTextData (frame id) io) ++ (if String.eqb id "TXXX" then [0] else []))). lia.
  - cbn in Hid. rewrite Hid in *. destruct (io_contract io) as [c|]; [|by destruct (Hx eq_refl)].
    rewrite len_app, be32_len. pose proof (len_nonneg (pack c)). lia.
Qed.

Lemma contract_tag_ok c media track :
  let '(t, io) := contract_frames c media track in
  tag_length io (tag_ids c track) < maxTagSize -> tag_ok t io.
Proof.
  rewrite contract_frames_ids. set (io := setTrackNumber _ _). intros Hl. pose proof max_size as Hmax.
  assert (forall id, id ∈ tag_ids c track -> sized (updateFrameSize (frame id) io) io /\
    0 < len (content (frame id) io) < 2 ^ 28) as Hs.
  { intros id Hi. pose proof (tag_length_in io _ _ Hi) as Hc. unfold headerSize in Hc.
    destruct (tag_ids_known c track id Hi) as (Ha & Hid & _ & Hx).
    split; [by apply sized_update; [..|lia]|]. split; [by apply content_nonempty|lia]. }
  destruct (add_ids_header (tag_ids c track) io emptyTag) as [Hh He].
  assert (frames_size (map (fun id => updateFrameSize (frame id) io) (tag_ids c track)) = tag_length io (tag_ids c track)) as Hsum.
  { clear -Hs. induction (tag_ids c track) as [|id l IH]; [done|]. cbn [map frames_size foldr tag_length].
    destruct (Hs id) as [(E & _) _]; [set_solver|]. unfold frames_size, tag_length in IH.
    rewrite IH by (intros; apply Hs; set_solver). rewrite E. done. }
  split; rewrite ?add_ids_frames; cbn [emptyTag tg_frames app]; try done.
  - apply Forall_map, Forall_forall. intros id Hi. destruct (Hs id Hi) as [Hsz Hb].
    destruct (tag_ids_known c track id Hi) as (_ & _ & H4 & _). destruct (Hsz) as [E _]. split_and!; try done.
    all: rewrite E; change (content (updateFrameSize (frame id) io) io) with (content (frame id) io); lia.
  - by rewrite Hsum.
Qed.

Definition frame_data io h : bytes := frame_bytes h ++ content h io.

(** The bytes of a tag. *)
Definition written t io : bytes := tag_bytes (tg_header t) ++ concat (map (frame_data io) (tg_frames t)).

Lemma frame_data_len io h : sized h io -> len (frame_data io h) = headerSize + fh_size h.
Proof. intros [E _]. unfold frame_data. by rewrite len_app, frame_bytes_len, E. Qed.

Lemma frames_len io fs : Forall (fun h => sized h io) fs -> len (concat (map (frame_data io) fs)) = frames_size fs.
Proof.
  induction 1 as [|h fs Hh Hfs IH]; [done|]. cbn [map concat frames_size foldr]. rewrite len_app, IH, frame_data_len by done.
  done.
Qed.

Lemma tag_ok_sized t io : tag_ok t io -> Forall (fun h => sized h io) (tg_frames t).
Proof. intros [Hf _ _ _ _]. eapply Forall_impl; [done|]. by intros ? [? _]. Qed.

Lemma tag_size_nonneg t io : tag_ok t io -> 0 <= th_size (tg_header t) < maxTagSize.
Proof.
  intros Ht. destruct (Ht) as [_ Hs Hb _ _]. rewrite Hs. split; [|done].
  rewrite <- (frames_len io) by (by apply tag_ok_sized). apply len_nonneg.
Qed.

(** ** Writing *)

Section Writer.
Context (junk : bytes) (Hjunk : len junk = headerSize) (rooms : nat -> Z) (Hrooms : forall n, 0 < rooms n).

(** The algorithm is called until it is done; there is room in the destination for a byte at least. *)
Fixpoint run_writer (fuel : nat) (dst : bytes) (w : TagWriter) : option (Mutation * bytes * TagWriter) :=
  match addTag junk (rooms fuel) dst w, fuel with
  | (Stepped, dst, w), S fuel => run_writer fuel dst w
  | (Stepped, _, _), O => None
  | r, _ => Some r
  end.

(** Everything that is in the buffer is written, in as many parts as the room requires. *)
Lemma write_buffer io h l w dst fuel : wr_written w = true -> wr_frame w = Some h -> wr_source w = io ->
  wr_frames w = l -> io_image io = None -> (length (io_buffer io) < fuel)%nat ->
  exists fuel' io', run_writer fuel dst w = run_writer fuel' (dst ++ io_buffer io) (set_writer io' l None w) /\
    (fuel <= fuel' + length (io_buffer io) + 1)%nat /\ same_source io io'.
Proof.
  revert io w dst. induction fuel as [|fuel IH]; intros io w dst Hw Hf Hs Hl Hi Hb; [lia|].
  cbn [run_writer]. unfold addTag. rewrite Hw, Hf, Hs, Hl. cbn [negb]. unfold getFrame.
  destruct (io_buffer io) as [|x b] eqn:E.
  - cbn [len length Z.of_nat Z.eqb negb]. rewrite Hi. cbn [Z.eqb]. exists fuel, io. rewrite app_nil_r. split_and!; [done|cbn; lia|done].
  - destruct (Z.eqb_spec (len (x :: b)) 0) as [H0'|_]; [rewrite len_cons in H0'; pose proof (len_nonneg b); lia|]. cbn [negb].
    pose proof (Hrooms (S fuel)) as Hr. set (room := rooms (S fuel)) in *.
    assert (1 <= len (take (Z.to_nat room) (x :: b))) as Hlen.
    { unfold len. rewrite length_take. cbn [length]. lia. }
    destruct (Z.eqb_spec (len (take (Z.to_nat room) (x :: b))) 0); [lia|].
    destruct (Z.eqb_spec (len (take (Z.to_nat room) (x :: b))) (-1)); [lia|].
    set (io1 := set_buffer _ _ io).
    destruct (IH io1 (set_writer io1 l (Some h) w) (dst ++ take (Z.to_nat room) (x :: b))) as (fuel' & io' & E' & Hfu & Hsame); try done.
    { cbn. unfold len in Hlen. rewrite length_drop in *. cbn [length] in *. lia. }
    exists fuel', io'. rewrite E'. cbn [io1 set_buffer io_buffer]. rewrite <- app_assoc, take_drop. split_and!; [done| |done].
    cbn [io1 set_buffer io_buffer] in Hfu. rewrite length_drop in Hfu. cbn [length] in *. lia.
Qed.

Definition steps_of io (fs : list FrameHeader) : nat := sum_list_with (fun h => length (frame_data io h) + 2)%nat fs.

Lemma write_frames io0 fs : forall w dst fuel, Forall (fun h => sized h io0) fs -> wr_written w = true ->
  wr_frame w = None -> wr_frames w = fs -> same_source io0 (wr_source w) -> io_image io0 = None ->
  (steps_of io0 fs <= fuel)%nat ->
  exists w', run_writer fuel dst w = Some (CompleteAppend, dst ++ concat (map (frame_data io0) fs), w').
Proof.
  induction fs as [|h fs IH]; intros w dst fuel Hfs Hw Hf Hl Hs Hi Hfu.
  - exists w. rewrite app_nil_r. destruct fuel; cbn [run_writer]; unfold addTag; rewrite Hw, Hf, Hl; done.
  - apply Forall_cons in Hfs as [Hh Hfs]. unfold steps_of in *. cbn [sum_list_with] in Hfu.
    change (length (frame_data io0 h)) with (length (frame_bytes h ++ content h io0)) in Hfu. destruct fuel as [|fuel]; [lia|].
    cbn [run_writer]. unfold addTag at 1. rewrite Hw, Hf, Hl. cbn [negb].
    assert (sized h (wr_source w)) as Hsz.
    { destruct Hh as (E & Ha & Hx). split_and!; [by rewrite (content_same _ _ _ Hs)|done|]. destruct Hs as (-> & _). done. }
    destruct (start_frame h (wr_source w) Hsz) as [Hb Hs1]. rewrite (content_same _ _ _ Hs) in Hb.
    set (io1 := (startFrame Source h (wr_source w)).1) in *.
    assert (same_source io0 io1) as Hs01 by (unfold same_source in *; intuition congruence).
    destruct (write_buffer io1 h fs (set_writer io1 fs (Some h) w) dst fuel) as (fuel' & io2 & -> & Hfu2 & Hs2); try done.
    { by destruct Hs01 as (_ & _ & _ & ->). }
    { rewrite Hb. lia. }
    assert (same_source io0 io2) as Hs02 by (unfold same_source in *; intuition congruence).
    rewrite Hb in *. destruct (IH (set_writer io2 fs None (set_writer io1 fs (Some h) w)) (dst ++ frame_data io0 h) fuel') as (w' & E); try done.
    { lia. }
    exists w'. unfold frame_data in E at 1. rewrite E. cbn [map concat]. by rewrite <- app_assoc.
Qed.

Lemma write_tag t io fuel : tag_ok t io -> (S (steps_of io (tg_frames t)) <= fuel)%nat ->
  exists w', run_writer fuel [] (newTagWriter t io) = Some (CompleteAppend, written t io, w').
Proof.
  intros Ht Hfu. destruct fuel as [|fuel]; [lia|]. cbn [run_writer]. unfold addTag at 1. cbn [newTagWriter wr_written negb wr_tag].
  destruct (write_frames io (tg_frames t) (set_writer io (tg_frames t) None (newTagWriter t io))
    (header_at_start (tag_bytes (tg_header t)) junk []) fuel) as (w' & E); try done.
  { by apply tag_ok_sized. } { by destruct Ht. } { lia. }
  exists w'. cbn [newTagWriter wr_source wr_frames wr_frame]. rewrite E. unfold header_at_start, written.
  rewrite drop_ge; [by rewrite app_nil_r|]. pose proof (tag_bytes_len (tg_header t)) as Hl. unfold len in *. cbn. lia.
Qed.
End Writer.

(** ** Stripping *)

Section Strip.
Context {B : Type} `{!ByteBuffer B} `{!ByteBufferLaws B}.

(** A tag that is in the data as a whole is found and gone after two steps. *)
Lemma strip_written t io (src : B) audio finish : tag_ok t io -> bb_bytes src = written t io ++ audio ->
  exists s src', stripTag finish src newStripper = (Stepped, src, s) /\
    stripTag finish src s = (CompleteAppend, src', newStripper) /\ bb_bytes src' = audio.
Proof.
  intros Ht Hs. pose proof (tag_size_nonneg t io Ht) as Hb. pose proof max_size.
  assert (len (written t io) = th_size (tg_header t) + headerSize) as Hl.
  { unfold written. destruct (Ht) as [_ Hsz _ _ _]. rewrite len_app, tag_bytes_len, frames_len, Hsz by (by apply tag_ok_sized). lia. }
  pose proof (len_nonneg audio).
  assert (len (bb_bytes src) = th_size (tg_header t) + headerSize + len audio) as Hlen by (rewrite Hs, len_app; lia).
  eexists _, _. unfold stripTag at 1. cbn [newStripper sp_header].
  destruct (Z.ltb_spec (len (bb_bytes src)) headerSize); [lia|].
  rewrite Hs at 1. unfold written at 1. rewrite <- app_assoc, tag_read_bytes by done. split; [done|].
  unfold stripTag. cbn [sp_header sp_left]. destruct (Z.eqb_spec (len (bb_bytes src)) 0); [unfold headerSize in *; lia|].
  unfold bb_strip. rewrite i32_small by (unfold headerSize in *; lia). rewrite <- Hl.
  rewrite Hs, take_len, Z.sub_diag. cbn [Z.eqb]. split; [done|]. by rewrite bytes_clear, Hs, drop_len.
Qed.
End Strip.

(** ** Reading *)

Section Reader.
Context {I : Type} `{!Inspector I} `{!InspectorLaws I}.
Implicit Types (r : TagReader (I:=I)) (c : TagContract).

(** The reader is called with all the data that it has not inspected. *)
Fixpoint feed_reader (n : nat) (b : bytes) r : bytes * TagReader :=
  match n with
  | O => (b, r)
  | S n => let '(k, r) := detectTag b r in feed_reader n (drop (Z.to_nat k) b) r
  end.

Lemma feed_add n m b r : feed_reader (n + m) b r = let '(b, r) := feed_reader n b r in feed_reader m b r.
Proof.
  revert b r. induction n as [|n IH]; intros b r; [done|]. cbn. destruct (detectTag b r) as [k r']. apply IH.
Qed.

(** Between two frames: so many bytes of the tag have been read. *)
Record between (n size : Z) r : Prop := {
  bw_parsed : mHeaderParsed r = true;
  bw_capture : mCaptureHeader r = None;
  bw_read : mTagBytesRead r = n;
  bw_size : tag_size r = size;
  bw_extended : th_extended (tg_header (rd_tag r)) = false
}.

(** What is known after a frame. *)
Definition sink_after h (c : option TagContract) (sink : FrameIO) : option TagContract * option TagMedia :=
  if String.eqb (fh_id h) "XBMC" then (c, option_map tc_media c) else (io_contract sink, io_media sink).

(** The buffer has no more room than the frame of the contract fills. *)
Lemma capture_frame h ct c sink : fh_size h = len ct -> 0 < len ct ->
  (String.eqb (fh_id h) "XBMC" = true -> io_capacity sink <= len ct /\ exists size, ct = be32 size ++ pack c) ->
  let sink' := (putFrameData ct (startFrame Sink h sink).1).1 in
  (io_contract sink', io_media sink') = sink_after h (Some c) sink /\
  io_capacity sink' = allocateSpace (io_capacity sink) (fh_size h).
Proof.
  intros Hl Hp Hx. pose proof (allocate_room (io_capacity sink) (fh_size h)) as Hroom.
  unfold putFrameData. cbn [startFrame fst set_buffer io_buffer io_capacity set_header].
  destruct (Z.eqb_spec (len (A:=Z) []) (allocateSpace (io_capacity sink) (fh_size h))) as [E|_]; [unfold len in *; cbn in E; lia|].
  rewrite put_all by (cbn; unfold len in *; cbn; lia). cbn [set_buffer io_buffer io_capacity io_header set_header app].
  unfold sink_after. destruct (String.eqb (fh_id h) "XBMC"); [|by rewrite andb_false_r].
  destruct (Hx eq_refl) as (Hc & size & E). rewrite allocate_grows by lia. rewrite Hl, Z.eqb_refl. cbn [andb].
  rewrite E. change (drop 4 (be32 size ++ pack c)) with (pack c). by rewrite unpack_pack.
Qed.

(** With more room than the frame fills, as after a longer frame, its content is not looked at. *)
Lemma contract_overlooked h ct sink : fh_size h = len ct -> len ct < io_capacity sink ->
  let sink' := (putFrameData ct (startFrame Sink h sink).1).1 in
  io_contract sink' = io_contract sink /\ io_media sink' = io_media sink.
Proof.
  intros Hl Hc. unfold putFrameData. cbn [startFrame fst set_buffer io_buffer io_capacity set_header].
  rewrite allocate_keeps by lia.
  destruct (Z.eqb_spec (len (A:=Z) []) (io_capacity sink)) as [E|_]; [unfold len in *; cbn in E; lia|].
  rewrite put_all by (cbn; unfold len in *; cbn; lia). cbn [set_buffer io_buffer io_capacity app].
  by rewrite (proj2 (Z.eqb_neq (len ct) (io_capacity sink))) by lia.
Qed.

(** A frame takes two calls; the last frame of the tag ends the inspection. *)
Lemma read_frame n size r h ct c rest : between n size r -> 0 <= n -> size < maxTagSize ->
  String.length (fh_id h) = 4%nat -> fh_size h = len ct -> 0 < len ct < 2 ^ 28 ->
  n + headerSize + fh_size h <= size ->
  (String.eqb (fh_id h) "XBMC" = true -> io_capacity (rd_sink r) <= len ct /\ exists k, ct = be32 k ++ pack c) ->
  let last := n + headerSize + fh_size h =? size in
  exists r', feed_reader 2 (frame_bytes h ++ ct ++ rest) r = (if last then [] else rest, r') /\
    between (n + headerSize + fh_size h) size r' /\
    (io_contract (rd_sink r'), io_media (rd_sink r')) = sink_after h (Some c) (rd_sink r) /\
    io_capacity (rd_sink r') = allocateSpace (io_capacity (rd_sink r)) (fh_size h) /\
    (last = true -> isFormatRecognized (rd_inspector r') = true).
Proof.
  intros [Hp Hc Hn Hsz He] H0n Hmax Hid Hl Hct Hend Hx. pose proof max_size as Hm. unfold headerSize in *.
  destruct (frame_read_bytes h (ct ++ rest) Hid) as [Eid Esz]; [lia|].
  pose proof (frame_bytes_len h) as Hfl. unfold headerSize in Hfl. pose proof (len_nonneg rest).
  set (h' := frame_read (frame_bytes h ++ ct ++ rest)) in *.
  cbn [feed_reader]. unfold detectTag at 1, reading. rewrite Hp, Hc, Hn, Hsz. cbn [negb orb].
  destruct (Z.ltb_spec n size); [|lia]. destruct (Z.ltb_spec 0 size); [|lia]. destruct (Z.ltb_spec size maxTagSize); [|lia].
  cbn [andb]. rewrite !len_app, Hfl. destruct (Z.ltb_spec (10 + (len ct + len rest)) 10); [lia|].
  rewrite He. cbn [andb]. unfold start_capture. fold h'. set (r1 := Build_TagReader _ _ _ _ _ _ _ _).
  assert (tag_size r1 = size) as Hsz1 by (unfold tag_size, r1; cbn; rewrite add_header; exact Hsz).
  assert (mTagBytesRead r1 = n + 10) as Hn1 by (unfold r1; cbn; rewrite Hn; apply i32_small; lia).
  rewrite Hn1, Hsz1. replace (mHeaderParsed r1) with true by (symmetry; exact Hp).
  destruct (Z.eqb_spec (n + 10) size); [lia|]. cbn [andb].
  replace (drop (Z.to_nat 10) (frame_bytes h ++ ct ++ rest)) with (ct ++ rest) by (rewrite <- Hfl; by rewrite drop_len).
  unfold detectTag, reading. rewrite Hn1, Hsz1. replace (mHeaderParsed r1) with true by (symmetry; exact Hp). cbn [negb orb].
  destruct (Z.ltb_spec (n + 10) size); [|lia]. destruct (Z.ltb_spec 0 size); [|lia]. destruct (Z.ltb_spec size maxTagSize); [|lia].
  cbn [andb]. change (mCaptureHeader r1) with (Some h').
  unfold capture. change (mBytesCaptured r1) with 0. rewrite Z.sub_0_r, Z.add_0_l, Esz, Hl, len_app.
  rewrite (i32_small (len ct)) by lia. destruct (Z.ltb_spec (len ct + len rest) (len ct)); [lia|].
  rewrite (i32_small (len ct)) by lia. rewrite Z.eqb_refl, Hn1, (i32_small (n + 10 + len ct)) by lia. rewrite take_len.
  set (r2 := Build_TagReader _ _ _ _ _ _ _ _).
  assert (between (n + 10 + len ct) size r2) as Hb2.
  { split; try done. unfold tag_size, r1; cbn; by rewrite add_header. }
  assert ((io_contract (rd_sink r2), io_media (rd_sink r2)) = sink_after h (Some c) (rd_sink r) /\
    io_capacity (rd_sink r2) = allocateSpace (io_capacity (rd_sink r)) (len ct)) as [Hs2 Hc2].
  { unfold r2, r1. cbn [rd_sink]. destruct (capture_frame h' ct c (rd_sink r)) as [-> ->];
      [by rewrite Esz|lia|by rewrite Eid|]. unfold sink_after. rewrite Eid, Esz, Hl. done. }
  destruct (Hb2) as [Hp2 _ Hn2 Hsz2 _]. rewrite Hp2, Hn2, Hsz2. cbn [andb].
  destruct (Z.eqb_spec (n + 10 + len ct) size).
  - eexists. split; [rewrite drop_ge by (unfold len; rewrite length_app; lia); reflexivity|].
    split_and!; [|exact Hs2|exact Hc2|intros _; apply recognized_set]. by destruct Hb2.
  - eexists. split; [by rewrite drop_len|]. split_and!; [exact Hb2|exact Hs2|exact Hc2|done].
Qed.

Definition good_frame io h : Prop := sized h io /\ String.length (fh_id h) = 4%nat /\ 0 < fh_size h < 2 ^ 28.

Lemma frames_size_pos io fs : Forall (good_frame io) fs -> fs <> [] -> 0 < frames_size fs.
Proof.
  intros Hfs Hne. induction Hfs as [|h fs (_ & _ & Hh) Hfs IH]; [done|]. cbn [frames_size foldr].
  destruct fs; [unfold headerSize; cbn; lia|]. specialize (IH ltac:(done)). unfold frames_size, headerSize in *. lia.
Qed.

Lemma good_content io h c : good_frame io h -> io_contract io = Some c ->
  String.eqb (fh_id h) "XBMC" = true -> exists k, content h io = be32 k ++ pack c.
Proof.
  intros _ Hc Hx. unfold content, is_text. apply String.eqb_eq in Hx. rewrite Hx, Hc. cbn. by eexists.
Qed.

(** No frame is longer than the one with the contract. *)
Definition contract_longest (k : Z) h : Prop :=
  fh_size h <= k /\ (String.eqb (fh_id h) "XBMC" = true -> fh_size h = k).

Lemma read_frames io c k fs : io_contract io = Some c -> Forall (good_frame io) fs ->
  Forall (contract_longest k) fs -> fs <> [] ->
  forall n size r rest, between n size r -> io_capacity (rd_sink r) <= k ->
  0 <= n -> size < maxTagSize -> n + frames_size fs = size ->
  exists r', feed_reader (2 * length fs) (concat (map (frame_data io) fs) ++ rest) r = ([], r') /\
    isFormatRecognized (rd_inspector r') = true /\
    (io_contract (rd_sink r'), io_media (rd_sink r')) =
      if existsb (fun h => String.eqb (fh_id h) "XBMC") fs then (Some c, Some (tc_media c))
      else (io_contract (rd_sink r), io_media (rd_sink r)).
Proof.
  intros Hc Hfs. induction Hfs as [|h fs Hh Hfs IH]; [done|]. intros [[Hle Hk] Hks]%Forall_cons _ n size r rest Hb Hcap Hn Hmax Hsum.
  cbn [frames_size foldr] in Hsum. change (foldr _ 0 fs) with (frames_size fs) in Hsum.
  destruct (Hh) as ((Hl & _) & Hid & Hsz).
  assert (0 <= frames_size fs) by (destruct fs; [done|]; apply Z.lt_le_incl; by eapply frames_size_pos).
  replace (2 * length (h :: fs))%nat with (2 + 2 * length fs)%nat by (cbn; lia). rewrite feed_add.
  cbn [map concat]. unfold frame_data at 1. rewrite <- !app_assoc.
  destruct (read_frame n size r h (content h io) c (concat (map (frame_data io) fs) ++ rest)) as (r1 & -> & Hb1 & Hs1 & Hc1 & Hr1);
    [done..|lia|lia|intros Hx; split; [rewrite <- Hl, Hk by done; done|by apply good_content]|].
  destruct fs as [|h2 fs].
  - cbn [length Nat.mul feed_reader map concat app existsb]. cbn in Hsum. rewrite (proj2 (Z.eqb_eq _ _)) in * by lia.
    exists r1. split_and!; [done|by apply Hr1|]. rewrite Hs1. unfold sink_after. by destruct (String.eqb _ _).
  - pose proof (frames_size_pos io (h2 :: fs) Hfs ltac:(done)). rewrite (proj2 (Z.eqb_neq _ _)) by lia.
    destruct (IH Hks ltac:(done) _ _ r1 rest Hb1) as (r2 & E2 & Hr2 & Hs2); [|unfold headerSize; lia|done|lia|].
    { rewrite Hc1. destruct (Z.le_ge_cases (io_capacity (rd_sink r)) (fh_size h));
        [rewrite allocate_grows by done; lia|rewrite allocate_keeps by lia; lia]. }
    exists r2. split_and!; [done|done|]. rewrite Hs2. cbn [existsb]. unfold sink_after in Hs1.
    destruct (String.eqb (fh_id h) "XBMC") eqn:E; cbn [orb]; [|by rewrite Hs1]. rewrite Hs1. by destruct (_ || _).
Qed.

(** The header of the tag takes one call. *)
Lemma read_tag_header th rest (i : I) : 0 < th_size th < maxTagSize -> th_extended th = false ->
  exists r, feed_reader 1 (tag_bytes th ++ rest) (newTagReader i) = (rest, r) /\
    between 0 (th_size th) r /\ rd_sink r = newFrameIO.
Proof.
  intros Hb He. cbn [feed_reader]. unfold detectTag, reading. cbn [newTagReader mHeaderParsed negb orb mCaptureHeader].
  pose proof (tag_bytes_len th) as Hl. pose proof (len_nonneg rest). rewrite len_app, Hl. unfold headerSize in *.
  destruct (Z.ltb_spec (10 + len rest) 10); [lia|]. unfold parse_tag. rewrite tag_read_bytes by lia.
  set (r := Build_TagReader _ _ _ _ _ _ _ _). assert (between 0 (th_size th) r) as Hbw by (by split).
  change (mHeaderParsed r) with true. change (mTagBytesRead r) with 0. change (tag_size r) with (th_size th).
  destruct (Z.eqb_spec 0 (th_size th)); [lia|]. cbn [andb]. exists r. rewrite <- Hl, drop_len. by split_and!.
Qed.

(** C26: The contract of a purchase can be read back from the file it is put into, if its frame is at
    least as long as each of the frames before it.  Given such a contract, and a tag that is not
    longer than a tag can be, the writer ends with the tag as its output, in whatever
    parts the data is taken; the reader recognizes the tag in front of any audio data, and what it
    finds is the contract without its sections and the media of it.  One call and two for each frame
    are enough. *)
Theorem tag_round_trip c mediaId junk rooms fuel (i : I) audio :
  len junk = headerSize -> (forall n, 0 < rooms n) ->
  let '(media, track) := track_media mediaId (tc_media c) in
  let '(t, io) := tag_of_contract c mediaId in
  tag_length io (tag_ids (Some c) track) < maxTagSize ->
  Forall (fun id => len (content (frame id) io) <= len (content (frame "XBMC") io)) (tag_ids (Some c) track) ->
  (S (steps_of io (tg_frames t)) <= fuel)%nat ->
  exists out w r, run_writer junk rooms fuel [] (newTagWriter t io) = Some (CompleteAppend, out, w) /\
    feed_reader (1 + 2 * length (tg_frames t)) (out ++ audio) (newTagReader i) = ([], r) /\
    getTagDetails r = ("application/x-id3-tag", Some (tc_media c)) /\
    io_contract (rd_sink r) = Some {| tc_media := tc_media c; tc_sections := [] |}.
Proof.
  intros Hj Hr. destruct (track_media mediaId (tc_media c)) as [media track] eqn:Etrack.
  unfold tag_of_contract. cbn [tc_media]. rewrite Etrack. set (c' := {| tc_media := tc_media c; tc_sections := [] |}).
  pose proof (contract_tag_ok (Some c') media track) as Hok. pose proof (contract_frames_ids (Some c') media track) as Hids.
  destruct (contract_frames (Some c') media track) as [t io]. cbn zeta in Hids. apply pair_equal_spec in Hids as [Et Eio].
  intros Hl Hlong Hfu. specialize (Hok Hl). destruct (write_tag junk Hj rooms Hr t io fuel Hok Hfu) as (w & E).
  exists (written t io), w.
  assert (tg_frames t = map (fun id => updateFrameSize (frame id) io) (tag_ids (Some c') track)) as Hfr
    by (rewrite Et, add_ids_frames, <- Eio; reflexivity).
  destruct (Hok) as [Hf Hsz Hb He _].
  assert (tg_frames t <> []) as Hne by (rewrite Hfr; done).
  destruct (read_tag_header (tg_header t) (concat (map (frame_data io) (tg_frames t)) ++ audio) i) as (r1 & E1 & Hb1 & Hs1);
    [split; [rewrite Hsz; by eapply frames_size_pos|by rewrite Hsz]|done|].
  assert (Forall (contract_longest (len (content (frame "XBMC") io))) (tg_frames t)) as Hk.
  { rewrite Hfr in *. apply Forall_map, Forall_forall. intros id Hi. rewrite Forall_forall in Hlong.
    rewrite Forall_map, Forall_forall in Hf. destruct (Hf id Hi) as ((E0 & _) & _).
    change (content (updateFrameSize (frame id) io) io) with (content (frame id) io) in E0.
    unfold contract_longest. rewrite E0. split; [by apply Hlong|]. intros Hx%String.eqb_eq. cbn in Hx. by subst id. }
  destruct (read_frames io c' (len (content (frame "XBMC") io)) (tg_frames t)) with (n := 0) (size := th_size (tg_header t)) (r := r1) (rest := audio)
    as (r2 & E2 & Hrec & Hsink); [by rewrite Eio|exact Hf|exact Hk|exact Hne|exact Hb1|rewrite Hs1; apply len_nonneg|lia|by rewrite Hsz|by rewrite Hsz|].
  exists r2. split; [done|]. unfold written. rewrite <- app_assoc, feed_add, E1. split; [done|].
  assert (existsb (fun h => String.eqb (fh_id h) "XBMC") (tg_frames t) = true) as Hx.
  { rewrite Hfr. unfold tag_ids. by destruct (0 <? track). }
  rewrite Hx in Hsink. injection Hsink as Hcon Hmed. unfold getTagDetails. by rewrite Hrec, Hmed.
Qed.

(** ** What a reader does not read *)

(** With more of the tag read than it has, nothing is inspected any more. *)
Lemma overrun_stuck b r : mHeaderParsed r = true -> tag_size r < mTagBytesRead r -> detectTag b r = (0, r).
Proof.
  intros Hp Ht. unfold detectTag, reading. rewrite Hp. cbn [negb orb].
  destruct (Z.ltb_spec (mTagBytesRead r) (tag_size r)); [lia|]. cbn [andb].
  rewrite Hp. destruct (Z.eqb_spec (mTagBytesRead r) (tag_size r)); [lia|done].
Qed.

(** A tag with an extended header: each frame is taken for the extended header. *)
Lemma extended_no_frames b r : mHeaderParsed r = true -> th_extended (tg_header (rd_tag r)) = true ->
  mExtendedHeaderParsed r = false -> mCaptureHeader r = None ->
  let r' := (detectTag b r).2 in
  tg_frames (rd_tag r') = tg_frames (rd_tag r) /\ rd_sink r' = rd_sink r /\ mHeaderParsed r' = true /\
  th_extended (tg_header (rd_tag r')) = true /\ mExtendedHeaderParsed r' = false /\ mCaptureHeader r' = None.
Proof.
  intros Hp He Hx Hc. unfold detectTag. rewrite Hc, Hp, He, Hx. cbn [negb andb].
  destruct (reading r); [destruct (len b <? 10)|]; cbn; rewrite ?Hp; cbn [andb];
    destruct (_ =? _); by cbn.
Qed.
End Reader.
End Facts.

(** A media that is not in the collection has the number of all tracks as its track number. *)
Lemma track_not_found mediaId m : tm_type m = "collection" ->
  Forall (fun x => tm_id x <> mediaId) (concat (tm_contents m)) ->
  track_media mediaId m = (m, len (concat (tm_contents m))).
Proof.
  intros Ht Hf. unfold track_media. rewrite Ht. cbn [String.eqb].
  assert (forall l n, Forall (fun x => tm_id x <> mediaId) l -> find_track mediaId l n = (None, n + len l)) as Hl.
  { intros l. induction l as [|x l IH]; intros n Hx; [by cbn; rewrite Z.add_0_r|].
    apply Forall_cons in Hx as [Hx Hl]. cbn [find_track]. rewrite (proj2 (Z.eqb_neq _ _) Hx), IH, len_cons by done.
    f_equal. lia. }
  change (String.eqb "collection" "collection") with true. cbn iota. rewrite Hl by done. done.
Qed.

(** * Examples *)

Module TagSample.
(** Media and contracts as trees, which have numbers. *)
Fixpoint media_tree (m : TagMedia) : gen_tree (Z + string) :=
  match m with
  | mkTagMedia id type title performer length contents =>
      GenNode 0 (GenLeaf (inl id) :: GenLeaf (inr type) :: GenLeaf (inr title) :: GenLeaf (inr performer) ::
                 GenLeaf (inl length) :: map (fun l => GenNode 0 (map media_tree l)) contents)
  end.

Definition no_media : TagMedia := mkTagMedia 0 "" "" "" 0 [].

Fixpoint tree_media (g : gen_tree (Z + string)) : TagMedia :=
  match g with
  | GenNode _ (GenLeaf (inl id) :: GenLeaf (inr type) :: GenLeaf (inr title) :: GenLeaf (inr performer) ::
               GenLeaf (inl length) :: contents) =>
      mkTagMedia id type title performer length
        (map (fun g => match g with GenNode _ l => map tree_media l | GenLeaf _ => [] end) contents)
  | _ => no_media
  end.

Lemma tree_media_tree : forall m, tree_media (media_tree m) = m.
Proof.
  fix IH 1. intros [id type title performer length contents]. cbn. f_equal.
  induction contents as [|l contents IHc]; [reflexivity|]. cbn. f_equal; [|exact IHc].
  induction l as [|m l IHl]; [reflexivity|]. cbn. f_equal; [apply IH|exact IHl].
Qed.

Fixpoint bits (n : positive) : bytes :=
  match n with xH => [] | xO n => 0 :: bits n | xI n => 1 :: bits n end.

Fixpoint unbits (b : bytes) : positive :=
  match b with [] => xH | x :: b => if x =? 0 then xO (unbits b) else xI (unbits b) end.

Lemma bits_read_back n : unbits (bits n) = n.
Proof. induction n as [n IH|n IH|]; cbn; congruence. Qed.

#[export] Instance plain_text : TagText := {|
  to_latin1 s := Some s;
  pack c := bits (encode (media_tree (tc_media c), tc_sections c));
  unpacked_length c := 0;
  unpack b := match decode (unbits b) with
              | Some (g, l) => (Some {| tc_media := tree_media g; tc_sections := l |}, true)
              | None => (None, false)
              end |}.

#[export] Instance plain_text_laws : TagTextLaws.
Proof. split. intros [m l]. cbn. by rewrite bits_read_back, decode_encode, tree_media_tree. Qed.

(** Headers: identifiers are filled up to four bytes, sizes are big-endian. *)
Definition of_be (l : bytes) : Z := foldl (fun n x => n * 256 + x) 0 l.

Lemma of_be32 n : 0 <= n < 2 ^ 32 -> of_be (be32 n) = n.
Proof.
  intros Hn. unfold of_be, be32. cbn [foldl]. rewrite !Z.shiftr_div_pow2 by lia.
  change (2 ^ 24) with (256 * 256 * 256). change (2 ^ 16) with (256 * 256). change (2 ^ 8) with 256.
  rewrite <- !Z.div_div by lia. assert (n / 256 / 256 / 256 < 256) by (repeat apply Z.div_lt_upper_bound; lia).
  pose proof (Z.div_mod n 256). pose proof (Z.div_mod (n / 256) 256). pose proof (Z.div_mod (n / 256 / 256) 256).
  rewrite (Z.mod_small (n / 256 / 256 / 256)) by (split; [repeat apply Z.div_pos; lia|done]). lia.
Qed.

Lemma string_of_bytes s : string_of (bytes_of s) = s.
Proof.
  unfold string_of, bytes_of. rewrite map_map. induction s as [|c s IH]; [done|]. cbn. rewrite IH.
  unfold byte_char, char_byte. by rewrite Nat2Z.id, Ascii.ascii_nat_embedding.
Qed.

Definition id_bytes (s : string) : bytes := take 4 (bytes_of s ++ [0; 0; 0; 0]).

#[export] Instance plain_id3 : Id3Format := {|
  frame_bytes h := id_bytes (fh_id h) ++ be32 (fh_size h) ++ [0; 0];
  frame_read b := {| fh_id := string_of (take 4 b); fh_size := of_be (take 4 (drop 4 b)); fh_description := "" |};
  bytes_to_int b := of_be (take 4 b);
  tag_bytes th := [0x49; 0x44; 0x33; 3; 0; if th_extended th then 64 else 0] ++ be32 (th_size th);
  tag_read b := match b with
                | 0x49 :: 0x44 :: 0x33 :: _ :: _ :: flags :: b =>
                    Some {| th_size := of_be (take 4 b); th_extended := flags =? 64 |}
                | _ => None
                end;
  maxTagSize := 2 ^ 28;
  addFrameHeader h b t :=
    {| tg_header := {| th_size := if b then th_size (tg_header t) + headerSize + fh_size h else th_size (tg_header t);
                       th_extended := th_extended (tg_header t) |};
       tg_frames := tg_frames t ++ [h] |};
  allocateSpace := Z.max |}.

Lemma id_bytes_length s : length (id_bytes s) = 4%nat.
Proof. unfold id_bytes. rewrite length_take, length_app. change (length [0; 0; 0; 0]) with 4%nat. lia. Qed.

#[export] Instance plain_id3_laws : Id3FormatLaws.
Proof.
  split; intros.
  - unfold len. cbn [frame_bytes plain_id3]. rewrite !length_app, id_bytes_length. done.
  - cbn [frame_read frame_bytes plain_id3 fh_id fh_size]. rewrite <- !app_assoc.
    rewrite (take_app_length' _ _ 4), (drop_app_length' _ _ 4) by (by rewrite id_bytes_length).
    rewrite (take_app_length' (be32 _) _ 4) by done. rewrite of_be32 by lia. split; [|done].
    unfold id_bytes. rewrite (take_app_length' _ _ 4); [apply string_of_bytes|].
    pose proof (bytes_of_len (fh_id h)) as Hl. unfold len, slen in Hl. lia.
  - done.
  - destruct th as [n e]. cbn [tag_read tag_bytes plain_id3 th_size th_extended app maxTagSize] in *.
    rewrite (take_app_length' (be32 _) _ 4), of_be32 by (done || lia). by destruct e.
  - done.
  - done.
  - done.
  - cbn. lia.
  - cbn. lia.
Qed.

(** A collection with two tracks. *)
Definition track (id : Z) (title : string) : TagMedia := mkTagMedia id "audio" title "Someone" 60 [].

Definition bought : TagContract :=
  {| tc_media := mkTagMedia 1 "collection" "Songs" "Someone" 120 [[track 2 "One"; track 3 "Two"]];
     tc_sections := ["seller"] |}.

Definition sample_writer : TagWriter := let '(t, io) := tag_of_contract bought 3 in newTagWriter t io.

Lemma tag_round_trip_witness :
  exists out w r, run_writer (repeat 0 10) (fun _ => 100) 5000 [] sample_writer = Some (CompleteAppend, out, w) /\
    feed_reader 11 (out ++ [0xff; 0xfb; 4; 0]) (newTagReader new_inspected) = ([], r) /\
    getTagDetails r = ("application/x-id3-tag", Some (tc_media bought)).
Proof.
  destruct (tag_round_trip bought 3 (repeat 0 10) (fun _ => 100) 5000 new_inspected [0xff; 0xfb; 4; 0])
    as (out & w & r & Hw & Hr & Hd & _); [reflexivity|lia|vm_compute; reflexivity|repeat constructor; by vm_compute|vm_compute; lia|].
  exists out, w, r. split; [exact Hw|]. split; [exact Hr|exact Hd].
Defined.

(** A frame of one byte and padding: with ten bytes of padding the tag is recognized, with five it
    is not, whatever follows. *)
Definition padded (n : nat) : bytes :=
  tag_bytes {| th_size := 11 + Z.of_nat n; th_extended := false |} ++
  frame_bytes {| fh_id := "TPE1"; fh_size := 1; fh_description := "" |} ++ [0] ++ repeat 0 n.

Lemma padding_of_ten : isFormatRecognized (rd_inspector (feed_reader 5 (padded 10 ++ repeat 7 20) (newTagReader new_inspected)).2) = true.
Proof. by vm_compute. Qed.

Lemma padded_tag_lost n b :
  let r := (feed_reader 5 (padded 5 ++ repeat 7 20) (newTagReader new_inspected)).2 in
  isFormatRecognized (rd_inspector (feed_reader n b r).2) = false.
Proof.
  intros r. assert (mHeaderParsed r = true /\ tag_size r < mTagBytesRead r /\ isFormatRecognized (rd_inspector r) = false)
    as (Hp & Ht & Hr) by (split_and!; by vm_compute).
  clearbody r. revert b. induction n as [|n IH]; intros b; [done|]. cbn [feed_reader]. rewrite (overrun_stuck b r Hp Ht). apply IH.
Qed.
End TagSample.
