(* ===== verification/Avi.v ===== *)
(** The detector of AVI files ([cpp/data/RiffDetector.cpp], [cpp/data/AviDetector.cpp]).

    An AVI file consists of chunks, some of which are lists of chunks.  The detector is called with
    data from where it has got to, and says how much of it has been inspected; it recognizes the
    format with the list of the movie.  The headers of chunks and of AVI are part of the Monarch
    library and an interface here. *)
From S2P Require Import Prelude DataFormat.

Local Open Scope string_scope.
Local Open Scope list_scope.
Local Open Scope Z_scope.

(** * Interfaces *)

(** A chunk: its identifier, its size and its size with padding. *)
Record Chunk := { ck_id : string; ck_size : Z; ck_padded : Z }.

(** A list or a form: its identifier and the size that is skipped with it. *)
Record ChunkList := { cl_id : string; cl_size : Z }.

(** [RiffChunkHeader], [RiffListHeader], [RiffFormHeader] and the headers of AVI: the sizes of
    headers, and reading them.  A chunk that cannot be read is left in some state. *)
Class RiffFormat (Main Stream Format Odml Media : Type) := {
  chunkHeader : Z;
  listHeader : Z;
  formHeader : Z;
  aviHeader : Z;
  newChunk : Chunk;
  chunk_read : bytes -> Chunk -> bool * Chunk;
  list_read : bytes -> ChunkList;
  form_read : bytes -> ChunkList;
  main_read : bytes -> Main;
  stream_read : bytes -> Stream;
  format_read : bytes -> Format;
  odml_read : bytes -> Odml;
  fourcc : bytes -> string;
  (* the media of the contract in compressed data, if there is one and its id is valid *)
  media_read : bytes -> option Media
}.

(** What can go wrong in memory. *)
Inductive Fault := NullPointer | OutOfBounds.

Inductive run (A : Type) := Fine (a : A) | Faults (f : Fault).
Arguments Fine {A} _.
Arguments Faults {A} _.

Section Avi.
Context {Main Stream Format Odml Media : Type} `{RiffFormat Main Stream Format Odml Media}.
Context {I : Type} `{Inspector I}.

(** * Finding a chunk *)

(** The loop of [findRiffChunkHeader]; [fuel] is the number of places that are left. *)
Fixpoint find_chunk (fuel : nat) (offset : Z) (b : bytes) (rch : Chunk) : Z * Chunk :=
  match fuel with
  | O => (-1, rch)
  | S fuel =>
      match chunk_read b rch with
      | (true, rch) => (offset, rch)
      | (false, rch) => find_chunk fuel (offset + 1) (drop 1 b) rch
      end
  end.

(** The offset of the header, or -1. *)
Definition findRiffChunkHeader (rch : Chunk) (b : bytes) : Z * Chunk :=
  find_chunk (Z.to_nat (len b - chunkHeader + 1)) 0 b rch.

(** * The detector *)

Record StreamList := { sl_header : option Stream; sl_format : option Format }.

Record AviDetector := {
  mFormHeader : bool;
  mHeaderList : option (Main * list StreamList);
  mStreamHeaderList : option StreamList;
  mOdmlList : bool;
  mOdmlHeader : option Odml;
  mInfoList : bool;
  mMovieList : bool;
  mIndexChunk : bool;
  mMedia : option Media;
  av_inspector : I
}.
Implicit Types d : AviDetector.

Definition newAviDetector (i : I) : AviDetector :=
  {| mFormHeader := false; mHeaderList := None; mStreamHeaderList := None; mOdmlList := false;
     mOdmlHeader := None; mInfoList := false; mMovieList := false; mIndexChunk := false; mMedia := None;
     av_inspector := i |}.

(** The pointers, the flags and the inspector. *)
Definition set_lists (hl : option (Main * list StreamList)) (sl : option StreamList) d : AviDetector :=
  {| mFormHeader := mFormHeader d; mHeaderList := hl; mStreamHeaderList := sl; mOdmlList := mOdmlList d;
     mOdmlHeader := mOdmlHeader d; mInfoList := mInfoList d; mMovieList := mMovieList d;
     mIndexChunk := mIndexChunk d; mMedia := mMedia d; av_inspector := av_inspector d |}.

Definition set_found (form odmlList info movie index : bool) (odml : option Odml) (m : option Media) d : AviDetector :=
  {| mFormHeader := form; mHeaderList := mHeaderList d; mStreamHeaderList := mStreamHeaderList d;
     mOdmlList := odmlList; mOdmlHeader := odml; mInfoList := info; mMovieList := movie;
     mIndexChunk := index; mMedia := m; av_inspector := av_inspector d |}.

Definition inspect (f : I -> I) d : AviDetector :=
  {| mFormHeader := mFormHeader d; mHeaderList := mHeaderList d; mStreamHeaderList := mStreamHeaderList d;
     mOdmlList := mOdmlList d; mOdmlHeader := mOdmlHeader d; mInfoList := mInfoList d;
     mMovieList := mMovieList d; mIndexChunk := mIndexChunk d; mMedia := mMedia d;
     av_inspector := f (av_inspector d) |}.

Definition skip (n : Z) : AviDetector -> AviDetector := inspect (setSkipBytes n).

(** [mHeaderList->getStreamHeaderLists().push_back(mStreamHeaderList)], then the pointer is set. *)
Definition push_streams (s : StreamList) (next : option StreamList) d : run AviDetector :=
  match mHeaderList d with
  | None => Faults NullPointer
  | Some (m, l) => Fine (set_lists (Some (m, l ++ [s])) next d)
  end.

(** If there is a stream header list it is added to the others. *)
Definition flush_streams (next : option StreamList) d : run AviDetector :=
  match mStreamHeaderList d with
  | Some s => push_streams s next d
  | None => Fine (set_lists (mHeaderList d) next d)
  end.

(** The bytes that are inflated start behind the tag, and are as many as the chunk has with its tag. *)
Definition parseJunkChunk (rch : Chunk) (b : bytes) : run (Z * option Media) :=
  if ck_padded rch <=? len b then
    let start := chunkHeader + 4 in
    let size := ck_size rch in
    let size := if (0 <? size) && (nth (Z.to_nat (size - 1)) b 0 =? 0) then size - 1 else size in
    if len b <? start + size then Faults OutOfBounds
    else Fine (chunkHeader + ck_padded rch, media_read (take (Z.to_nat size) (drop (Z.to_nat start) b)))
  else Fine (0, None).

(** A chunk of other software, or one with a contract. *)
Definition junk_chunk (rch : Chunk) (b : bytes) d : run (Z * AviDetector) :=
  if chunkHeader + 4 <=? len b then
    if String.eqb (fourcc (drop (Z.to_nat chunkHeader) b)) "bmcr" then
      match parseJunkChunk rch b with
      | Faults f => Faults f
      | Fine (n, Some m) =>
          Fine (n, set_found (mFormHeader d) (mOdmlList d) (mInfoList d) (mMovieList d) (mIndexChunk d)
                     (mOdmlHeader d) (Some m) d)
      | Fine (_, None) => Fine (chunkHeader, skip (ck_padded rch) d)
      end
    else Fine (chunkHeader, skip (ck_padded rch) d)
  else Fine (chunkHeader, d).

(** The header of OpenDML, or a chunk that is skipped. *)
Definition odml_chunk (rch : Chunk) (b : bytes) d : run (Z * AviDetector) :=
  match mOdmlHeader d with
  | None =>
      if mOdmlList d && String.eqb (ck_id rch) "dmlh" then
        if chunkHeader + 4 <=? len b then
          Fine (chunkHeader, skip (ck_padded rch)
            (set_found (mFormHeader d) (mOdmlList d) (mInfoList d) (mMovieList d) (mIndexChunk d)
               (Some (odml_read b)) (mMedia d) d))
        else Fine (0, d)
      else Fine (chunkHeader, skip (ck_padded rch) d)
  | Some _ => Fine (chunkHeader, skip (ck_padded rch) d)
  end.

Definition foundRiffChunkHeader (rch : Chunk) (b : bytes) d : run (Z * AviDetector) :=
  let id := ck_id rch in
  let complete := i32 (chunkHeader + ck_padded rch) <=? len b in
  let skipped d := (chunkHeader, skip (ck_padded rch) d) in
  if String.eqb id "idx1" then
    Fine (skipped (set_found (mFormHeader d) (mOdmlList d) (mInfoList d) (mMovieList d) true
                     (mOdmlHeader d) (mMedia d) d))
  else match mMedia d, mStreamHeaderList d, String.eqb id "JUNK" with
  | None, _, true => junk_chunk rch b d
  | _, Some s, _ =>
      if String.eqb id "strh" then
        if complete then
          Fine (skipped (set_lists (mHeaderList d)
                           (Some {| sl_header := Some (stream_read b); sl_format := sl_format s |}) d))
        else Fine (0, d)
      else if String.eqb id "strf" then
        if complete then
          match push_streams {| sl_header := sl_header s; sl_format := Some (format_read b) |} None d with
          | Faults f => Faults f
          | Fine d => Fine (skipped d)
          end
        else Fine (0, d)
      else odml_chunk rch b d
  | _, None, _ => odml_chunk rch b d
  end.

(** Lists: of headers, of the headers of a stream, of OpenDML, of information and of the movie. *)
Definition foundRiffListHeader (rlh : ChunkList) (b : bytes) d : run (Z * AviDetector) :=
  let id := cl_id rlh in
  let other :=
    if String.eqb id "strl" then
      match flush_streams (Some {| sl_header := None; sl_format := None |}) d with
      | Faults f => Faults f
      | Fine d => Fine (listHeader, d)
      end
    else if String.eqb id "odml" then
      Fine (listHeader, set_found (mFormHeader d) true (mInfoList d) (mMovieList d) (mIndexChunk d)
                          (mOdmlHeader d) (mMedia d) d)
    else if String.eqb id "INFO" then
      Fine (listHeader, skip (cl_size rlh)
              (set_found (mFormHeader d) (mOdmlList d) true (mMovieList d) (mIndexChunk d)
                 (mOdmlHeader d) (mMedia d) d))
    else if negb (mMovieList d) && String.eqb id "movi" then
      let d := inspect (setFormatRecognized true) d in
      let d := set_found (mFormHeader d) (mOdmlList d) (mInfoList d) true (mIndexChunk d)
                 (mOdmlHeader d) (mMedia d) d in
      match flush_streams None d with
      | Faults f => Faults f
      | Fine d => Fine (listHeader, skip (cl_size rlh) d)
      end
    else Fine (listHeader, skip (cl_size rlh) d) in
  match mHeaderList d with
  | None =>
      if String.eqb id "hdrl" then
        let avihSize := listHeader + chunkHeader + aviHeader in
        if avihSize <=? len b then
          Fine (listHeader, skip (avihSize - listHeader)
                  (set_lists (Some (main_read (take (Z.to_nat avihSize) b), [])) (mStreamHeaderList d) d))
        else Fine (0, d)
      else other
  | Some _ => other
  end.

Definition foundRiffFormHeader (rfh : ChunkList) d : Z * AviDetector :=
  (formHeader,
   if negb (mFormHeader d) && String.eqb (cl_id rfh) "AVI " then
     set_found true (mOdmlList d) (mInfoList d) (mMovieList d) (mIndexChunk d) (mOdmlHeader d) (mMedia d) d
   else skip (cl_size rfh) d).

(** [detectFormat] up to the check of the form; the identifiers of forms and lists are those of
    RIFF. *)
Definition inspect_chunk (b : bytes) d : run (Z * AviDetector) :=
  let '(offset, rch) := findRiffChunkHeader newChunk b in
  if 0 <? offset then Fine (offset, d)
  else if String.eqb (ck_id rch) "RIFF" then
    if formHeader <=? len b then Fine (foundRiffFormHeader (form_read b) d) else Fine (0, d)
  else if String.eqb (ck_id rch) "LIST" then
    if listHeader <=? len b then foundRiffListHeader (list_read b) b d else Fine (0, d)
  else foundRiffChunkHeader rch b d.

Definition detectAvi (b : bytes) d : run (Z * AviDetector) :=
  match inspect_chunk b d with
  | Faults f => Faults f
  | Fine (n, d) =>
      if negb (mFormHeader d) && (formHeader <=? len b) then
        Fine (len b, skip 0 (inspect (setFormatRecognized false) d))
      else Fine (n, d)
  end.

Definition getAviHeader d : option Main := option_map fst (mHeaderList d).

(** * Properties *)

(** The detector is called with one buffer after the other. *)
Fixpoint run_avi (bs : list bytes) d : run AviDetector :=
  match bs with
  | [] => Fine d
  | b :: bs => match detectAvi b d with Fine (_, d) => run_avi bs d | Faults f => Faults f end
  end.

Context `{!InspectorLaws I}.

(** What is recognized has the form of AVI and a list of the movie. *)
Definition avi_ok d : Prop :=
  isFormatRecognized (av_inspector d) = true -> mFormHeader d = true /\ mMovieList d = true.

(** How far an operation may change the detector: a form is not forgotten, and the format is
    recognized only with a movie, which takes data of this length. *)
Definition extends (n : Z) d d' : Prop :=
  (mFormHeader d = true -> mFormHeader d' = true) /\ (mMovieList d = true -> mMovieList d' = true) /\
  (isFormatRecognized (av_inspector d') = true ->
     isFormatRecognized (av_inspector d) = true \/ mMovieList d' = true /\ listHeader <= n).

Lemma skip_recognized n d : isFormatRecognized (av_inspector (skip n d)) = isFormatRecognized (av_inspector d).
Proof. apply recognized_skip. Qed.

Ltac extends_solve :=
  unfold extends; cbn -[isFormatRecognized setSkipBytes setFormatRecognized];
  rewrite ?recognized_skip; intuition (congruence || auto).

Lemma flush_extends next d d' : flush_streams next d = Fine d' ->
  mFormHeader d' = mFormHeader d /\ mMovieList d' = mMovieList d /\ av_inspector d' = av_inspector d.
Proof. unfold flush_streams, push_streams. repeat case_match; intros [= <-]; done. Qed.

Lemma push_extends s next d d' : push_streams s next d = Fine d' ->
  mFormHeader d' = mFormHeader d /\ mMovieList d' = mMovieList d /\ av_inspector d' = av_inspector d.
Proof. unfold push_streams. repeat case_match; intros [= <-]; done. Qed.

Lemma chunk_extends rch b d n d' : foundRiffChunkHeader rch b d = Fine (n, d') -> extends (len b) d d'.
Proof.
  unfold foundRiffChunkHeader, junk_chunk, odml_chunk. intros E.
  repeat (case_match; simplify_eq; try by extends_solve).
  all: match goal with H : push_streams _ _ _ = Fine _ |- _ => apply push_extends in H as (Hf & Hm & Hi) end.
  all: extends_solve.
Qed.

Lemma list_extends rlh b d n d' : listHeader <= len b -> foundRiffListHeader rlh b d = Fine (n, d') -> extends (len b) d d'.
Proof.
  intros Hl. unfold foundRiffListHeader. intros E.
  repeat (case_match; simplify_eq; try by extends_solve).
  all: match goal with H : flush_streams _ _ = Fine _ |- _ => apply flush_extends in H as (Hf & Hm & Hi) end.
  all: cbn -[isFormatRecognized setSkipBytes setFormatRecognized] in Hf, Hm, Hi; extends_solve.
Qed.

Lemma inspect_extends b d n d' : inspect_chunk b d = Fine (n, d') -> extends (len b) d d'.
Proof.
  unfold inspect_chunk. destruct (findRiffChunkHeader newChunk b) as [offset rch].
  destruct (0 <? offset); [intros [= _ <-]; by extends_solve|].
  destruct (String.eqb (ck_id rch) "RIFF").
  { destruct (_ <=? _); intros [= _ <-]; [|by extends_solve]. destruct (negb _ && _); by extends_solve. }
  destruct (String.eqb (ck_id rch) "LIST"); [|apply chunk_extends].
  destruct (Z.leb_spec listHeader (len b)); [by apply list_extends|intros [= _ <-]; by extends_solve].
Qed.

(** Whatever data is inspected, a file is recognized as AVI only if a form header of AVI and a list
    of the movie have been found, as long as the form header is as long as that of a list. *)
Theorem avi_recognized_sound (i : I) bs d : formHeader <= listHeader -> isFormatRecognized i = false ->
  run_avi bs (newAviDetector i) = Fine d -> avi_ok d.
Proof.
  intros Hfl Hi. assert (avi_ok (newAviDetector i)) as Hok by (intros Hr; cbn in Hr; congruence).
  revert Hok. generalize (newAviDetector i). induction bs as [|b bs IH]; intros d0 Hok; cbn [run_avi]; [by intros [= <-]|].
  destruct (detectAvi b d0) as [[n d1]|] eqn:E; [|done]. apply IH. clear IH. unfold detectAvi in E.
  destruct (inspect_chunk b d0) as [[m d2]|] eqn:Ei; [|done]. apply inspect_extends in Ei as (Hf & Hm & Hr).
  destruct (mFormHeader d2) eqn:Ef; cbn [negb andb] in E.
  - injection E as <- <-. intros Hrec. split; [done|]. destruct (Hr Hrec) as [Ho|[Hmv _]]; [|done]. by apply Hm, Hok.
  - destruct (Z.leb_spec formHeader (len b)) as [Hle|Hle]; injection E as <- <-; intros Hrec.
    + rewrite skip_recognized in Hrec. cbn in Hrec. rewrite recognized_set in Hrec. done.
    + destruct (Hr Hrec) as [Ho|[_ Hmv]]; [|lia]. destruct (Hok Ho) as [Ho' _]. specialize (Hf Ho'). congruence.
Qed.

(** A list at the start of the data. *)
Lemma detect_list b d rch rlh : mFormHeader d = true -> 0 < chunkHeader <= listHeader -> listHeader <= len b ->
  chunk_read b newChunk = (true, rch) -> ck_id rch = "LIST" -> list_read b = rlh ->
  detectAvi b d =
    match foundRiffListHeader rlh b d with
    | Fine (n, d') => if negb (mFormHeader d') && (formHeader <=? len b)
                      then Fine (len b, skip 0 (inspect (setFormatRecognized false) d')) else Fine (n, d')
    | Faults f => Faults f
    end.
Proof.
  intros Hf Hh Hl Hc Hid Hrl. unfold detectAvi, inspect_chunk, findRiffChunkHeader.
  destruct (Z.to_nat (len b - chunkHeader + 1)) as [|fuel] eqn:E; [lia|]. cbn [find_chunk]. rewrite Hc. cbn [Z.ltb Z.compare].
  rewrite Hid. cbn [String.eqb]. change (String.eqb "LIST" "RIFF") with false. change (String.eqb "LIST" "LIST") with true.
  cbn iota. destruct (Z.leb_spec listHeader (len b)); [|lia]. rewrite Hrl. done.
Qed.

(** The list of a movie is recognized, if the headers of streams have their header list. *)
Lemma movie_recognized b d rch rlh : mFormHeader d = true -> mMovieList d = false ->
  0 < chunkHeader <= listHeader -> listHeader <= len b ->
  chunk_read b newChunk = (true, rch) -> ck_id rch = "LIST" -> list_read b = rlh -> cl_id rlh = "movi" ->
  (mHeaderList d = None -> mStreamHeaderList d = None) ->
  exists d', detectAvi b d = Fine (listHeader, d') /\ isFormatRecognized (av_inspector d') = true.
Proof.
  intros Hf Hm Hh Hl Hc Hid Hrl Hmv Hs. rewrite (detect_list b d rch rlh) by done.
  unfold foundRiffListHeader. rewrite Hmv, Hm.
  change (String.eqb "movi" "hdrl") with false. change (String.eqb "movi" "strl") with false.
  change (String.eqb "movi" "odml") with false. change (String.eqb "movi" "INFO") with false.
  change (String.eqb "movi" "movi") with true. cbn [negb andb].
  unfold flush_streams, push_streams. cbn -[setFormatRecognized setSkipBytes isFormatRecognized].
  destruct (mHeaderList d) as [[m l]|], (mStreamHeaderList d) as [s|]; try (specialize (Hs eq_refl); discriminate);
    cbn -[setFormatRecognized setSkipBytes isFormatRecognized]; rewrite Hf; eexists; (split; [done|]);
    rewrite skip_recognized; apply recognized_set.
Qed.

(** A second list of stream headers crashes the detector when there has been no list of headers:
    the first one is added to a list that does not exist. *)
Theorem streams_without_headers_crash b d rch rlh s : mFormHeader d = true ->
  mHeaderList d = None -> mStreamHeaderList d = Some s ->
  0 < chunkHeader <= listHeader -> listHeader <= len b ->
  chunk_read b newChunk = (true, rch) -> ck_id rch = "LIST" -> list_read b = rlh -> cl_id rlh = "strl" ->
  detectAvi b d = Faults NullPointer.
Proof.
  intros Hf Hh Hs Hc Hl Hr Hid Hrl Hst. rewrite (detect_list b d rch rlh) by done.
  unfold foundRiffListHeader. rewrite Hh, Hst. change (String.eqb "strl" "hdrl") with false.
  change (String.eqb "strl" "strl") with true. cbn iota. unfold flush_streams, push_streams. by rewrite Hs, Hh.
Qed.

(** A chunk with a contract that is in the data as a whole is read beyond its end: the bytes that are
    inflated begin behind its tag and are as many as the chunk has with its tag.  If less than four
    bytes follow the chunk, bytes outside of the data are read. *)
Theorem junk_reads_outside rch b d : ck_id rch = "JUNK" -> mMedia d = None ->
  fourcc (drop (Z.to_nat chunkHeader) b) = "bmcr" -> 4 <= ck_size rch <= ck_padded rch -> 0 < chunkHeader ->
  chunkHeader + ck_padded rch <= len b -> len b < chunkHeader + ck_size rch + 3 ->
  foundRiffChunkHeader rch b d = Faults OutOfBounds.
Proof.
  intros Hid Hm Hcc Hsz Hch Hin Hout. unfold foundRiffChunkHeader. rewrite Hid, Hm.
  change (String.eqb "JUNK" "idx1") with false. change (String.eqb "JUNK" "JUNK") with true. cbn iota.
  assert (junk_chunk rch b d = Faults OutOfBounds) as E; [|by destruct (mStreamHeaderList d)].
  unfold junk_chunk. destruct (Z.leb_spec (chunkHeader + 4) (len b)); [|lia]. rewrite Hcc.
  change (String.eqb "bmcr" "bmcr") with true. cbn iota. unfold parseJunkChunk.
  destruct (Z.leb_spec (ck_padded rch) (len b)); [|lia]. cbn zeta.
  destruct (_ && _); by rewrite (proj2 (Z.ltb_lt _ _)) by lia.
Qed.
End Avi.

(** * Examples *)

Module AviSample.
(** Sizes of one byte; a chunk needs eight bytes. *)
Definition read_chunk (b : bytes) (c : Chunk) : bool * Chunk :=
  if 8 <=? len b then
    let n := nth 4 b 0 in
    (true, {| ck_id := string_of (take 4 b); ck_size := n; ck_padded := n + n mod 2 |})
  else (false, c).

Definition read_list (b : bytes) : ChunkList :=
  {| cl_id := string_of (take 4 (drop 8 b)); cl_size := nth 4 b 0 |}.

#[export] Instance plain_riff : RiffFormat bytes bytes bytes bytes bytes := {|
  chunkHeader := 8; listHeader := 12; formHeader := 12; aviHeader := 56;
  newChunk := {| ck_id := ""; ck_size := 0; ck_padded := 0 |};
  chunk_read := read_chunk; list_read := read_list; form_read := read_list;
  main_read b := b; stream_read b := b; format_read b := b; odml_read b := b;
  fourcc b := string_of (take 4 b); media_read b := Some b |}.

Definition list_of (id : string) : bytes := bytes_of "LIST" ++ [40; 0; 0; 0] ++ bytes_of id ++ repeat 1 100.

Definition form : bytes := bytes_of "RIFF" ++ [40; 0; 0; 0] ++ bytes_of "AVI " ++ repeat 1 100.

Abbreviation run_file bs := (run_avi bs (newAviDetector new_inspected)).

(** A file with a list of headers and a movie is recognized, one with two lists of stream headers
    and no list of headers crashes the detector. *)
Lemma movie_file : exists d, run_file [form; list_of "hdrl"; list_of "strl"; list_of "movi"] = Fine d /\
  isFormatRecognized (av_inspector d) = true /\ mMovieList d = true.
Proof. eexists. split; [by vm_compute|done]. Qed.

Lemma crafted_file_crashes : run_file [form; list_of "strl"; list_of "strl"] = Faults NullPointer.
Proof. by vm_compute. Qed.

(** A contract of six bytes at the end of the data. *)
Definition junk : bytes := bytes_of "JUNK" ++ [6; 0; 0; 0] ++ bytes_of "bmcr" ++ [1; 2].

Lemma junk_file_reads_outside : run_file [form; junk] = Faults OutOfBounds.
Proof. by vm_compute. Qed.
End AviSample.
